(** * asosuite-cli: the input normalizers, the HTTP gateway, the device
    login loop and the command handlers of [src/index.mjs], embedded in
    Rocq.

    Conventions of the embedding.

    - A JavaScript string is a [string]; every character is read as one
      ASCII code unit.  Case mapping acts on the ASCII letters and the
      white space of [trim] and of [\s] is the ASCII white space; on text
      with code units from 128 on JavaScript can differ (it trims U+00A0
      and maps some letters to two), so a statement that says exactly
      which texts are accepted is made for ASCII text.
    - A JavaScript number is a rational ([Q]) or [NaN]; arithmetic is
      exact.  [Number.parseInt] is read in two steps: the integer its
      digits denote ([parseInt10]) and the double nearest to it
      ([Js.toDouble]); the second step is written out where the number is
      used for more than a comparison with small integers.
    - A JavaScript value is JSON data or [undefined] ([JSValue]).
      [String(v)] and [Number(v)] throw on an object with a property
      [toString] of its own: [Js.StringOf] and [Js.NumberOf] are these
      conversions, [Js.ToString] and [Js.ToNumber] their results when they
      return.  The normalizers are written on the text [String(value ||
      '')] gives, which is all the command line hands them; [AnyValue]
      holds them on arbitrary values.
    - A JavaScript computation that may throw returns a [Completion].
    - Built-ins of the runtime whose full definition lives in the engine
      ([new URL], [Date] parsing, [JSON.parse], number formatting,
      string-to-number conversion and the rounding of large integers) are
      the fields of the class [JSHost]; [modelHost] is an executable
      instance used to run the code on concrete inputs.
    - Stateful handlers run in the monad [Cmd] over a [World] holding the
      argument array, the clock, the credential file and the trace of
      effects.  The environment decides the replies of the server, the
      time that passes, whether a write of the credential file succeeds
      and the local date. *)

From Stdlib Require Import ZArith QArith Qround String Ascii List Bool Lia Lqa.
From Stdlib Require Import DecimalString.
Import ListNotations.

#[local] Set Warnings "-register-all".

#[local] Open Scope string_scope.
#[local] Open Scope Z_scope.

(* ================================================================== *)
(** * JavaScript strings *)
(* ================================================================== *)

Module JsString.

(** Code unit of a character. *)
Definition code (c : ascii) : N := N_of_ascii c.

Definition inRange (lo hi : N) (c : ascii) : bool :=
  (N.leb lo (code c) && N.leb (code c) hi)%bool.

(** [\s] and the white space of [String.prototype.trim]:
    TAB, LF, VT, FF, CR and SPACE. *)
Definition isWhiteSpace (c : ascii) : bool :=
  (inRange 9 13 c || N.eqb (code c) 32)%bool.

(** [\d] *)
Definition isDigit (c : ascii) : bool := inRange 48 57 c.

(** A code unit below 128. *)
Definition isAscii (c : ascii) : bool := N.ltb (code c) 128.

Definition isUpper (c : ascii) : bool := inRange 65 90 c.
Definition isLower (c : ascii) : bool := inRange 97 122 c.

(** [\w], the word characters that decide [\b]. *)
Definition isWord (c : ascii) : bool :=
  (isUpper c || isLower c || isDigit c || N.eqb (code c) 95)%bool.

(** The character class of the keyword quote-stripping pattern: the double
    quote (34) and the single quote (39). *)
Definition isQuote (c : ascii) : bool :=
  (N.eqb (code c) 34 || N.eqb (code c) 39)%bool.

Definition upperChar (c : ascii) : ascii :=
  if isLower c then ascii_of_N (code c - 32) else c.

Definition lowerChar (c : ascii) : ascii :=
  if isUpper c then ascii_of_N (code c + 32) else c.

Fixpoint map (f : ascii -> ascii) (s : string) : string :=
  match s with
  | EmptyString => EmptyString
  | String c r => String (f c) (map f r)
  end.

(** [s.toUpperCase()] and [s.toLowerCase()] of a text of ASCII characters;
    a character beyond ASCII is left as it is, where the engine follows
    the Unicode case mappings. *)
Definition toUpperCase : string -> string := map upperChar.
Definition toLowerCase : string -> string := map lowerChar.

Fixpoint forallb (p : ascii -> bool) (s : string) : bool :=
  match s with
  | EmptyString => true
  | String c r => (p c && forallb p r)%bool
  end.

Fixpoint dropWhile (p : ascii -> bool) (s : string) : string :=
  match s with
  | EmptyString => EmptyString
  | String c r => if p c then dropWhile p r else s
  end.

Fixpoint takeWhile (p : ascii -> bool) (s : string) : string :=
  match s with
  | EmptyString => EmptyString
  | String c r => if p c then String c (takeWhile p r) else EmptyString
  end.

Definition isEmpty (s : string) : bool :=
  match s with EmptyString => true | _ => false end.

(** Removes the longest suffix whose characters all satisfy [p]. *)
Fixpoint dropWhileEnd (p : ascii -> bool) (s : string) : string :=
  match s with
  | EmptyString => EmptyString
  | String c r =>
      let r' := dropWhileEnd p r in
      if (p c && isEmpty r')%bool then EmptyString else String c r'
  end.

(** [s.trim()] *)
Definition trim (s : string) : string :=
  dropWhileEnd isWhiteSpace (dropWhile isWhiteSpace s).

(** [s.replace(/\s+/g, ' ')]: every maximal run of white space becomes one
    space.  [inRun] tells that the previous character was white space. *)
Fixpoint collapseFrom (inRun : bool) (s : string) : string :=
  match s with
  | EmptyString => EmptyString
  | String c r =>
      if isWhiteSpace c
      then (if inRun then collapseFrom true r
            else String " " (collapseFrom true r))
      else String c (collapseFrom false r)
  end.

Definition collapseWhiteSpace (s : string) : string := collapseFrom false s.

(** [s.replace(/\s+/g, '')] *)
Fixpoint removeWhiteSpace (s : string) : string :=
  match s with
  | EmptyString => EmptyString
  | String c r =>
      if isWhiteSpace c then removeWhiteSpace r
      else String c (removeWhiteSpace r)
  end.

(** [s.replace(/^Q+|Q+$/g, '')] where [Q] is the quote class above: the
    first alternative can match at index 0 only and takes the whole leading
    run of quotes; the second one matches a run of quotes that reaches the
    end of the string, and the leftmost such run after the first match is
    the whole trailing run. *)
Definition stripQuotes (s : string) : string :=
  dropWhileEnd isQuote (dropWhile isQuote s).

(** [s.slice(n)] *)
Fixpoint dropN (n : nat) (s : string) : string :=
  match n, s with
  | S n', String _ r => dropN n' r
  | _, _ => s
  end.

(** [s.startsWith(p)] *)
Fixpoint startsWith (p s : string) : bool :=
  match p, s with
  | EmptyString, _ => true
  | String a p', String b s' => (Ascii.eqb a b && startsWith p' s')%bool
  | String _ _, EmptyString => false
  end.

(** [s.includes(p)] *)
Fixpoint includes (p s : string) : bool :=
  (startsWith p s ||
   match s with
   | EmptyString => false
   | String _ r => includes p r
   end)%bool.

(** [xs.join(sep)] on strings. *)
Fixpoint join (sep : string) (xs : list string) : string :=
  match xs with
  | [] => ""
  | [x] => x
  | x :: r => x ++ sep ++ join sep r
  end.

(** Decimal rendering of an integer, as a template literal gives it. *)
Definition ofZ (z : Z) : string := NilEmpty.string_of_int (Z.to_int z).

Definition digitValue (c : ascii) : Z := Z.of_N (code c) - 48.

(** Value of a run of decimal digits read from the left, from [acc]. *)
Fixpoint digitsValue (acc : Z) (s : string) : Z :=
  match s with
  | EmptyString => acc
  | String c r => digitsValue (10 * acc + digitValue c) r
  end.

End JsString.

(* ================================================================== *)
(** * The regular expressions of the source *)
(* ================================================================== *)

Module Regex.
Import JsString.

Definition APP_ID_MIN_LENGTH : nat := 6.

(** [\d{6,}] at the head of [s], greedy: the whole run of digits, when it
    has at least [APP_ID_MIN_LENGTH] of them, and what follows it.  A
    shorter prefix of the run is followed by a digit, so neither [$], [/]
    nor [\b] can hold after it: backtracking never yields another match. *)
Definition digitRun (s : string) : option (string * string) :=
  let ds := takeWhile isDigit s in
  if (APP_ID_MIN_LENGTH <=? String.length ds)%nat
  then Some (ds, dropWhile isDigit s)
  else None.

(** [id] under the [i] flag. *)
Definition isI (c : ascii) : bool := Ascii.eqb (lowerChar c) "i"%char.
Definition isD (c : ascii) : bool := Ascii.eqb (lowerChar c) "d"%char.

(** [/^id(\d{6,})$/i]: capture group 1. *)
Definition matchPrefixed (s : string) : option string :=
  match s with
  | String c1 (String c2 r) =>
      if (isI c1 && isD c2)%bool then
        match digitRun r with
        | Some (ds, EmptyString) => Some ds
        | _ => None
        end
      else None
  | _ => None
  end.

(** [/^(\d{6,})$/]: capture group 1. *)
Definition matchRaw (s : string) : option string :=
  match digitRun s with
  | Some (ds, EmptyString) => Some ds
  | _ => None
  end.

(** [/id(\d{6,})(?:/|$)] anchored at the head of [s]. *)
Definition matchPathIdHere (s : string) : option string :=
  match s with
  | String c0 (String c1 (String c2 r)) =>
      if (Ascii.eqb c0 "/"%char && isI c1 && isD c2)%bool then
        match digitRun r with
        | Some (ds, EmptyString) => Some ds
        | Some (ds, String c _) =>
            if Ascii.eqb c "/"%char then Some ds else None
        | None => None
        end
      else None
  | _ => None
  end.

(** [pathname.match(/\/id(\d{6,})(?:\/|$)/i)]: group 1 of the leftmost
    match. *)
Fixpoint matchPathId (s : string) : option string :=
  match matchPathIdHere s with
  | Some ds => Some ds
  | None =>
      match s with
      | EmptyString => None
      | String _ r => matchPathId r
      end
  end.

(** [\bid(\d{6,})\b] anchored at the head of [s]; [prevWord] tells whether
    the character before [s] is a word character.  [i] and the last digit
    are word characters, so the first [\b] asks for [prevWord = false] and
    the second one for a following non-word character or the end. *)
Definition matchEmbeddedHere (prevWord : bool) (s : string) : option string :=
  match s with
  | String c1 (String c2 r) =>
      if (negb prevWord && isI c1 && isD c2)%bool then
        match digitRun r with
        | Some (ds, EmptyString) => Some ds
        | Some (ds, String c _) => if isWord c then None else Some ds
        | None => None
        end
      else None
  | _ => None
  end.

Fixpoint matchEmbeddedFrom (prevWord : bool) (s : string) : option string :=
  match matchEmbeddedHere prevWord s with
  | Some ds => Some ds
  | None =>
      match s with
      | EmptyString => None
      | String c r => matchEmbeddedFrom (isWord c) r
      end
  end.

(** [trimmed.match(/\bid(\d{6,})\b/i)]: group 1 of the leftmost match. *)
Definition matchEmbedded (s : string) : option string :=
  matchEmbeddedFrom false s.

(** [/^[A-Z]{2}$/.test(s)] *)
Definition isRegionShape (s : string) : bool :=
  match s with
  | String a (String b EmptyString) => (isUpper a && isUpper b)%bool
  | _ => false
  end.

(** [/^\d{4}-\d{2}-\d{2}$/.test(s)] *)
Definition isDateShape (s : string) : bool :=
  match s with
  | String y1 (String y2 (String y3 (String y4 (String h1
      (String m1 (String m2 (String h2 (String d1 (String d2
        EmptyString))))))))) =>
      (isDigit y1 && isDigit y2 && isDigit y3 && isDigit y4
       && Ascii.eqb h1 "-"%char && isDigit m1 && isDigit m2
       && Ascii.eqb h2 "-"%char && isDigit d1 && isDigit d2)%bool
  | _ => false
  end.

End Regex.

(* ================================================================== *)
(** * JavaScript values, errors and the built-ins of the runtime *)
(* ================================================================== *)

Inductive JSNumber : Type :=
| NaN
| Num (q : Q).

(** JSON data and [undefined]: what [process.argv], the credential file and
    the server can hand to the program. *)
Inductive JSValue : Type :=
| JUndefined
| JNull
| JBool (b : bool)
| JNum (n : JSNumber)
| JStr (s : string)
| JArr (xs : list JSValue)
| JObj (fields : list (string * JSValue)).

Inductive ErrorKind : Type := PlainError | TypeError | SyntaxError.

(** An [Error] object with the two properties [apiRequest] adds to it;
    [errStatus = None] is a missing [status] property. *)
Record JSError : Type := mkError {
  errKind : ErrorKind;
  errMessage : string;
  errStatus : option Z;
  errPayload : JSValue
}.

(** [new Error(message)] *)
Definition newError (message : string) : JSError :=
  mkError PlainError message None JUndefined.

(** Result of running a piece of code: a value, a thrown error, or
    [Unfinished] when a fuel-bounded loop ran out of fuel. *)
Inductive Completion (A : Type) : Type :=
| Normal (a : A)
| Throw (e : JSError)
| Unfinished.

Arguments Normal {A} a.
Arguments Throw {A} e.
Arguments Unfinished {A}.

(** Sequencing of computations that may throw. *)
Definition andThen {A B : Type} (c : Completion A) (k : A -> Completion B)
  : Completion B :=
  match c with
  | Normal a => k a
  | Throw e => Throw e
  | Unfinished => Unfinished
  end.

Notation "x <~ c ;; k" := (andThen c (fun x => k))
  (at level 61, c at next level, right associativity).

(** What the program reads from a parsed URL. *)
Record URL : Type := mkURL {
  pathname : string;
  origin : string
}.

Class JSHost : Type := {
  (** [String(n)] for a finite number [n] *)
  Number_toString : Q -> string;
  (** [Number(s)] for a string [s] *)
  StringToNumber : string -> JSNumber;
  (** [new URL(s)]; [None] when the constructor throws *)
  URL_new : string -> option URL;
  (** [!Number.isNaN(new Date(s).getTime())] *)
  Date_isValid : string -> bool;
  (** [JSON.parse(s)]; [None] when it throws *)
  JSON_parse : string -> option JSValue;
  (** [encodeURIComponent(s)] *)
  encodeURIComponent : string -> string;
  (** The double that [Number.parseInt] returns for digits that denote the
      integer [n], for [n] beyond 2^53 in absolute value; [None] when it is
      infinite *)
  Number_ofInteger : Z -> option Q
}.

Module Js.
Import JsString.

(** Truthiness, as [||], [!] and [if] test it. *)
Definition truthy (v : JSValue) : bool :=
  match v with
  | JUndefined | JNull => false
  | JBool b => b
  | JNum NaN => false
  | JNum (Num q) => negb (Qeq_bool q 0)
  | JStr s => negb (isEmpty s)
  | JArr _ | JObj _ => true
  end.

(** [a || b] *)
Definition or (a b : JSValue) : JSValue := if truthy a then a else b.

(** [a < b] on numbers; false when either side is [NaN]. *)
Definition ltb (a b : JSNumber) : bool :=
  match a, b with
  | Num x, Num y => negb (Qle_bool y x)
  | _, _ => false
  end.

(** [a * b] and [a + b] on numbers. *)
Definition mul (a b : JSNumber) : JSNumber :=
  match a, b with
  | Num x, Num y => Num (x * y)
  | _, _ => NaN
  end.

Definition add (a b : JSNumber) : JSNumber :=
  match a, b with
  | Num x, Num y => Num (x + y)
  | _, _ => NaN
  end.

(** Own data property [name] of [v]; [undefined] when there is none.  The
    names the program reads are not defined on any prototype. *)
Fixpoint lookup (name : string) (fields : list (string * JSValue)) : JSValue :=
  match fields with
  | [] => JUndefined
  | (k, v) :: r => if String.eqb k name then v else lookup name r
  end.

(** [v.name]: a [TypeError] on [undefined] and [null]. *)
Definition getProp (v : JSValue) (name : string) : Completion JSValue :=
  match v with
  | JUndefined | JNull =>
      Throw (mkError TypeError
               ("Cannot read properties of " ++
                (match v with JNull => "null" | _ => "undefined" end) ++
                " (reading '" ++ name ++ "')") None JUndefined)
  | JObj fields => Normal (lookup name fields)
  | _ => Normal JUndefined
  end.

(** [error?.status || 0] then [Number(...)], for the errors of this program
    whose [status] is a number or missing. *)
Definition statusOf (e : JSError) : Z :=
  match errStatus e with
  | Some z => z
  | None => 0
  end.

Section WithHost.
Context {host : JSHost}.

(** [String(v)], when it returns. *)
Fixpoint ToString (v : JSValue) : string :=
  match v with
  | JUndefined => "undefined"
  | JNull => "null"
  | JBool true => "true"
  | JBool false => "false"
  | JNum NaN => "NaN"
  | JNum (Num q) => Number_toString q
  | JStr s => s
  | JArr xs =>
      join "," (List.map (fun x => match x with
                                   | JUndefined | JNull => ""
                                   | _ => ToString x
                                   end) xs)
  | JObj _ => "[object Object]"
  end.

(** [Number(v)], when it returns. *)
Definition ToNumber (v : JSValue) : JSNumber :=
  match v with
  | JUndefined => NaN
  | JNull => Num 0
  | JBool true => Num 1
  | JBool false => Num 0
  | JNum n => n
  | JStr s => StringToNumber s
  | JArr _ | JObj _ => StringToNumber (ToString v)
  end.

(** [String(value || '')], the head of every normalizer, when it
    returns. *)
Definition stringOrEmpty (value : JSValue) : string :=
  ToString (or value (JStr "")).

(** Whether the conversion of [v] to a primitive returns.  An object made
    by [JSON.parse] has no function among its properties: it converts
    through the inherited [toString], and the conversion throws a
    [TypeError] when the object has a property [toString] of its own (the
    inherited [valueOf] returns the object, which is no primitive).  An
    array converts through [join], which converts every element that is
    neither [null] nor [undefined]. *)
Fixpoint convertible (v : JSValue) : bool :=
  match v with
  | JArr xs => List.forallb convertible xs
  | JObj fields =>
      negb (existsb (fun field => String.eqb (fst field) "toString") fields)
  | _ => true
  end.

Definition cannotConvert : JSError :=
  mkError TypeError "Cannot convert object to primitive value" None
    JUndefined.

(** [String(v)] *)
Definition StringOf (v : JSValue) : Completion string :=
  if convertible v then Normal (ToString v) else Throw cannotConvert.

(** [Number(v)] *)
Definition NumberOf (v : JSValue) : Completion JSNumber :=
  if convertible v then Normal (ToNumber v) else Throw cannotConvert.

(** The double nearest to the integer [z]: [z] itself up to 2^53. *)
Definition toDouble (z : Z) : option Q :=
  if Z.abs z <=? 2 ^ 53 then Some (inject_Z z) else Number_ofInteger z.

End WithHost.
End Js.

(* ================================================================== *)
(** * Input normalizers *)
(* ================================================================== *)

Definition MAX_KEYWORDS : nat := 50.
Definition MAX_TRACKED_KEYWORDS_ADD : nat := 200.
Definition DEFAULT_POLL_INTERVAL_SECONDS : Q := 3.
Definition DEFAULT_REGION : string := "US".
Definition DEFAULT_PLATFORM : string := "iphone".
Definition MAX_PLANNED_TRACKED_APP_ID_LENGTH : nat := 64.
Definition WEB_BASE_URL : string := "https://www.asosuite.com".
Definition API_BASE_URL : string := "https://server.asosuite.com".

Definition SUPPORTED_PLATFORMS : list string :=
  ["iphone"; "ipad"; "mac"; "appletv"; "watch"; "vision"].

(** [set.has(s)] and [array.includes(s)] on strings. *)
Definition has (xs : list string) (s : string) : bool :=
  existsb (String.eqb s) xs.

(** The object [{ appId }] that [parseAppInput] returns. *)
Record AppInput : Type := mkAppInput { appId : string }.

(** The integer that [Number.parseInt(s, 10)] reads: leading white space, a
    sign, then the longest run of decimal digits; [None] is [NaN].  The
    number [Number.parseInt] returns is the double nearest to this integer
    ([Js.toDouble]); the normalizers below only compare it with integers
    up to 1000, which the rounding cannot change. *)
Definition parseInt10 (s : string) : option Z :=
  let s1 := JsString.dropWhile JsString.isWhiteSpace s in
  let '(sign, s2) :=
    match s1 with
    | String "-"%char r => (-1, r)
    | String "+"%char r => (1, r)
    | _ => (1, s1)
    end in
  let ds := JsString.takeWhile JsString.isDigit s2 in
  if JsString.isEmpty ds then None
  else Some (sign * JsString.digitsValue 0 ds).

Section Normalizers.
Context {host : JSHost}.
Import JsString.

Definition normalizePlatform (value : JSValue) : option string :=
  let normalized := toLowerCase (trim (Js.stringOrEmpty value)) in
  if negb (has SUPPORTED_PLATFORMS normalized) then None
  else Some normalized.

Definition normalizeRegionCode (value : JSValue) : option string :=
  let normalized := toUpperCase (trim (Js.stringOrEmpty value)) in
  if negb (Regex.isRegionShape normalized) then None
  else Some normalized.

Definition parsePeriodValue (value : JSValue) : option Z :=
  match parseInt10 (trim (Js.stringOrEmpty value)) with
  | Some parsed =>
      if negb (existsb (Z.eqb parsed) [7; 30; 90]) then None
      else Some parsed
  | None => None
  end.

Definition normalizePlannedTrackedAppId (value : JSValue) : option string :=
  let normalized := removeWhiteSpace (trim (Js.stringOrEmpty value)) in
  if isEmpty normalized then None
  else if (MAX_PLANNED_TRACKED_APP_ID_LENGTH <? String.length normalized)%nat
  then None
  else Some normalized.

(** The [try] block of [parseAppInput]: [Normal (Some r)] when the block
    returns [r], [Normal None] when control leaves it at its end, [Throw]
    when [new URL] throws. *)
Definition parseAppInput_urlStep (trimmed : string)
  : Completion (option AppInput) :=
  match URL_new trimmed with
  | None => Throw (mkError TypeError "Invalid URL" None JUndefined)
  | Some parsed =>
      match Regex.matchPathId (pathname parsed) with
      | Some fromPath => Normal (Some (mkAppInput fromPath))
      | None => Normal None
      end
  end.

(** [try { body } catch (_error) { }] *)
Definition tryIgnore {A : Type} (body : Completion (option A))
  : Completion (option A) :=
  match body with
  | Throw _ => Normal None
  | c => c
  end.

Definition parseAppInput (value : JSValue) : Completion (option AppInput) :=
  let trimmed := trim (Js.stringOrEmpty value) in
  if isEmpty trimmed then Normal None
  else
    match Regex.matchPrefixed trimmed with
    | Some prefixed => Normal (Some (mkAppInput prefixed))
    | None =>
        match Regex.matchRaw trimmed with
        | Some raw => Normal (Some (mkAppInput raw))
        | None =>
            match tryIgnore (parseAppInput_urlStep trimmed) with
            | Normal (Some fromPath) => Normal (Some fromPath)
            | Normal None =>
                match Regex.matchEmbedded trimmed with
                | Some embedded => Normal (Some (mkAppInput embedded))
                | None => Normal None
                end
            | Throw e => Throw e
            | Unfinished => Unfinished
            end
        end
    end.

Definition normalizeKeywordArgs (rest : list JSValue) : list string :=
  filter (fun value => (0 <? String.length value)%nat)
    (List.map (fun value => trim (collapseWhiteSpace value))
       (List.map (fun value => stripQuotes value)
          (List.map (fun value => trim (Js.stringOrEmpty value)) rest))).

Definition normalizeDateOnly (value : JSValue) : option string :=
  let normalized := trim (Js.stringOrEmpty value) in
  if negb (Regex.isDateShape normalized) then None
  else if negb (Date_isValid (normalized ++ "T00:00:00.000Z")) then None
  else Some normalized.

End Normalizers.

(* ================================================================== *)
(** * The world of a command invocation and the command monad *)
(* ================================================================== *)

(** The [init] of a [fetch] call together with its URL.  [reqBody] holds the
    value handed to [JSON.stringify]. *)
Record Request : Type := mkRequest {
  reqUrl : string;
  reqMethod : string;
  reqHeaders : list (string * string);
  reqBody : option JSValue
}.

(** What the program reads from a [fetch] response.  [contentType = None] is
    a missing header; [body = None] is a body whose reading fails. *)
Record Response : Type := mkResponse {
  status : Z;
  statusText : string;
  url : string;
  contentType : option string;
  body : option string
}.

(** [response.ok] *)
Definition ok (response : Response) : bool :=
  ((200 <=? status response) && (status response <=? 299))%bool.

Inductive FetchOutcome : Type :=
| Responded (response : Response)
| NetworkFailure (e : JSError).

(** What a write of the credential file comes to: it succeeds, or it fails
    with the message of the file system error and leaves the file holding
    [remains] ([None] when the file is missing or no longer parses). *)
Inductive WriteOutcome : Type :=
| Written
| WriteFailed (message : string) (remains : option JSValue).

(** What [getFullYear()], [getMonth()] and [getDate()] return for a
    [Date]. *)
Record LocalDate : Type := mkLocalDate {
  getFullYear : Z;
  getMonth : Z;
  getDate : Z
}.

Inductive Event : Type :=
| EvFetch (time : Z) (request : Request)
| EvSleep (ms : JSNumber)
| EvSaveConfig (config : JSValue)
| EvOpenBrowser (target : string).

(** The environment of an invocation: the reply to the [k]-th [fetch], the
    time the [k]-th [fetch] takes and the time a timer of [ms] milliseconds
    takes, in milliseconds of the clock; what a write of [config] to the
    credential file comes to when the file holds [current]; and the local
    calendar date at a time of the clock. *)
Record Env : Type := mkEnv {
  respond : nat -> Request -> FetchOutcome;
  fetchTime : nat -> Z;
  timerTime : JSNumber -> Z;
  writeResult : option JSValue -> JSValue -> WriteOutcome;
  localDate : Z -> LocalDate
}.

(** The mutable state of an invocation: the argument array [rest], the clock
    read by [Date.now()], the JSON value held by the credential file ([None]
    when the file is missing or does not parse), the number of [fetch] calls
    made and the effects so far, oldest first.  Lines printed to the
    terminal are not part of the state. *)
Record World : Type := mkWorld {
  rest : list string;
  clock : Z;
  configFile : option JSValue;
  served : nat;
  trace : list Event
}.

Definition setRest (r : list string) (w : World) : World :=
  mkWorld r (clock w) (configFile w) (served w) (trace w).

Definition emit (ev : Event) (w : World) : World :=
  mkWorld (rest w) (clock w) (configFile w) (served w) (trace w ++ [ev])%list.

Definition advance (dt : Z) (w : World) : World :=
  mkWorld (rest w) (clock w + dt) (configFile w) (served w) (trace w).

Definition Cmd (A : Type) : Type := Env -> World -> Completion A * World.

Module CmdMonad.

Definition ret {A : Type} (a : A) : Cmd A := fun _ w => (Normal a, w).

Definition throw {A : Type} (e : JSError) : Cmd A := fun _ w => (Throw e, w).

Definition unfinished {A : Type} : Cmd A := fun _ w => (Unfinished, w).

Definition bind {A B : Type} (c : Cmd A) (k : A -> Cmd B) : Cmd B :=
  fun env w =>
    match c env w with
    | (Normal a, w') => k a env w'
    | (Throw e, w') => (Throw e, w')
    | (Unfinished, w') => (Unfinished, w')
    end.

(** A pure computation that may throw. *)
Definition lift {A : Type} (c : Completion A) : Cmd A := fun _ w => (c, w).

(** Runs the body of a [try] and hands what it threw to the [catch]. *)
Definition attempt {A : Type} (c : Cmd A) : Cmd (A + JSError) :=
  fun env w =>
    match c env w with
    | (Normal a, w') => (Normal (inl a), w')
    | (Throw e, w') => (Normal (inr e), w')
    | (Unfinished, w') => (Unfinished, w')
    end.

Definition getRest : Cmd (list string) := fun _ w => (Normal (rest w), w).

Definition putRest (r : list string) : Cmd unit :=
  fun _ w => (Normal tt, setRest r w).

(** [Date.now()] *)
Definition dateNow : Cmd Z := fun _ w => (Normal (clock w), w).

End CmdMonad.
Import CmdMonad.

Notation "x <- c ;; k" := (bind c (fun x => k))
  (at level 61, c at next level, right associativity).
Notation "c ;;; k" := (bind c (fun _ => k))
  (at level 61, right associativity).

(* ================================================================== *)
(** * Argument array helpers *)
(* ================================================================== *)

(** [rest.indexOf(name)]; [None] is [-1]. *)
Fixpoint indexOf (name : string) (xs : list string) : option nat :=
  match xs with
  | [] => None
  | x :: r =>
      if String.eqb x name then Some O
      else match indexOf name r with
           | Some i => Some (S i)
           | None => None
           end
  end.

(** [rest.splice(index, count)], the array that is left. *)
Definition splice (index count : nat) (xs : list string) : list string :=
  firstn index xs ++ skipn (index + count) xs.

(** [null] or a string. *)
Definition truthyString (v : option string) : bool :=
  match v with
  | Some s => negb (JsString.isEmpty s)
  | None => false
  end.

Definition takeOption (name : string) : Cmd (option string) :=
  rest <- getRest ;;
  match indexOf name rest with
  | None => ret None
  | Some index =>
      if (index =? List.length rest - 1)%nat
      then throw (newError ("Missing value for " ++ name))
      else
        let value := nth (index + 1) rest "" in
        putRest (splice index 2 rest) ;;;
        ret (Some value)
  end.

Definition takeFlag (name : string) : Cmd bool :=
  rest <- getRest ;;
  match indexOf name rest with
  | None => ret false
  | Some index =>
      putRest (splice index 1 rest) ;;;
      ret true
  end.

(* ================================================================== *)
(** * HTTP request gateway *)
(* ================================================================== *)

Record ParsedError : Type := mkParsedError {
  message : string;
  payload : JSValue
}.

Record ApiArgs : Type := mkApiArgs {
  pathName : string;
  method : string;
  apiBody : JSValue;
  accessToken : option string
}.

Section Gateway.
Context {host : JSHost}.
Import JsString.

Definition looksLikeHtml (text : string) : bool :=
  let normalized := toLowerCase (trim text) in
  (startsWith "<!doctype html" normalized
   || startsWith "<html" normalized
   || includes "<body" normalized)%bool.

Definition getResponseOrigin (response : Response) : string :=
  match URL_new (url response) with
  | Some parsed => origin parsed
  | None => API_BASE_URL
  end.

(** [typeof v === 'object'] *)
Definition isObjectType (v : JSValue) : bool :=
  match v with
  | JNull | JArr _ | JObj _ => true
  | _ => false
  end.

(** [v.error] when [typeof v.error === 'string'], for a truthy [v]. *)
Definition stringErrorField (v : JSValue) : option string :=
  match v with
  | JObj fields =>
      match Js.lookup "error" fields with
      | JStr s => Some s
      | _ => None
      end
  | _ => None
  end.

Definition parseErrorResponse (response : Response) : ParsedError :=
  let text := match body response with Some t => t | None => "" end in
  if isEmpty text then
    mkParsedError (ofZ (status response) ++ " " ++ statusText response) JNull
  else
    match JSON_parse text with
    | Some parsed =>
        match
          (if (Js.truthy parsed && isObjectType parsed)%bool
           then stringErrorField parsed else None)
        with
        | Some error => mkParsedError error parsed
        | None => mkParsedError text parsed
        end
    | None =>
        if looksLikeHtml text then
          mkParsedError
            ("Request failed (" ++ ofZ (status response) ++ " "
             ++ statusText response ++ "). Received HTML response from "
             ++ getResponseOrigin response ++ ".")
            JNull
        else mkParsedError text JNull
    end.

(** The world after the [k]-th [fetch]: the request is recorded with the
    time it is issued at and the clock moves on by the time the call takes. *)
Definition fetched (env : Env) (request : Request) (w : World) : World :=
  mkWorld (rest w) (clock w + fetchTime env (served w)) (configFile w)
    (S (served w)) (trace w ++ [EvFetch (clock w) request])%list.

(** [fetch(url, init)] *)
Definition fetch (request : Request) : Cmd Response :=
  fun env w =>
    match respond env (served w) request with
    | Responded response => (Normal response, fetched env request w)
    | NetworkFailure e => (Throw e, fetched env request w)
    end.

(** [response.json()] *)
Definition responseJson (response : Response) : Completion JSValue :=
  match body response with
  | None => Throw (mkError TypeError "terminated" None JUndefined)
  | Some text =>
      match JSON_parse text with
      | Some parsed => Normal parsed
      | None =>
          Throw (mkError SyntaxError "Unexpected token in JSON" None
                   JUndefined)
      end
  end.

(** [response.text()] *)
Definition responseText (response : Response) : Completion JSValue :=
  match body response with
  | None => Throw (mkError TypeError "terminated" None JUndefined)
  | Some text => Normal (JStr text)
  end.

(** [body != null] *)
Definition notNullish (v : JSValue) : bool :=
  match v with
  | JUndefined | JNull => false
  | _ => true
  end.

(** [url], [headers] and [init] of [apiRequest]. *)
Definition requestOf (args : ApiArgs) : Request :=
  let url := API_BASE_URL ++ pathName args in
  let headers :=
    ([("Accept", "application/json")]
     ++ (if truthyString (accessToken args)
         then [("Authorization",
                ("Bearer " ++ match accessToken args with
                              | Some t => t
                              | None => ""
                              end)%string)]
         else [])
     ++ (if notNullish (apiBody args)
         then [("Content-Type", "application/json")]
         else []))%list in
  mkRequest url (method args) headers
    (if notNullish (apiBody args) then Some (apiBody args) else None).

Definition apiRequest (args : ApiArgs) : Cmd JSValue :=
  response <- fetch (requestOf args) ;;
  if negb (ok response) then
    let parsedError := parseErrorResponse response in
    throw (mkError PlainError (message parsedError)
             (Some (status response)) (payload parsedError))
  else if status response =? 204 then ret JNull
  else
    let contentType :=
      match contentType response with
      | Some c => if isEmpty c then "" else c
      | None => ""
      end in
    if includes "application/json" contentType
    then lift (responseJson response)
    else lift (responseText response).

End Gateway.

(* ================================================================== *)
(** * Credential store *)
(* ================================================================== *)

Section Handlers.
Context {host : JSHost}.
Import JsString.

(** [loadConfig()]: the parsed file when it holds an object, [{}] in every
    other case. *)
Definition loadConfig : Cmd JSValue :=
  fun _ w =>
    match configFile w with
    | Some parsed =>
        if (negb (Js.truthy parsed) || negb (isObjectType parsed))%bool
        then (Normal (JObj []), w)
        else (Normal parsed, w)
    | None => (Normal (JObj []), w)
    end.

(** The world after [saveConfig(config)]: the file is replaced as a
    whole. *)
Definition saved (config : JSValue) (w : World) : World :=
  mkWorld (rest w) (clock w) (Some config) (served w)
    (trace w ++ [EvSaveConfig config])%list.

(** The world after a failed write: the file holds what the failure
    left. *)
Definition damaged (remains : option JSValue) (w : World) : World :=
  mkWorld (rest w) (clock w) remains (served w) (trace w).

(** [saveConfig(config)]: [fs.mkdir] and [fs.writeFile] are awaited and
    their errors, which carry no [status], are thrown; the error of
    [fs.chmod] is dropped. *)
Definition saveConfig (config : JSValue) : Cmd unit :=
  fun env w =>
    match writeResult env (configFile w) config with
    | Written => (Normal tt, saved config w)
    | WriteFailed message remains =>
        (Throw (newError message), damaged remains w)
    end.

Definition getAccessToken (config : JSValue) : option string :=
  if (negb (Js.truthy config) || negb (isObjectType config))%bool then None
  else
    let token :=
      match config with
      | JObj fields =>
          match Js.lookup "accessToken" fields with
          | JStr s => trim s
          | _ => ""
          end
      | _ => ""
      end in
    if isEmpty token then None else Some token.

Definition requireAuthenticatedAccessToken (config : JSValue)
  : Completion string :=
  match getAccessToken config with
  | Some accessToken =>
      if isEmpty accessToken
      then Throw (newError "Not authenticated. Run `asosuite login` first.")
      else Normal accessToken
  | None => Throw (newError "Not authenticated. Run `asosuite login` first.")
  end.

(* ================================================================== *)
(** * Option resolution and the app target *)
(* ================================================================== *)

(** A string or [null] as a value. *)
Definition ofOption (v : option string) : JSValue :=
  match v with
  | Some s => JStr s
  | None => JNull
  end.

Definition invalidPlatformMessage : string :=
  "Invalid --platform value. Supported values: "
  ++ join ", " SUPPORTED_PLATFORMS.

Definition resolvePlatformArg (value : option string) : Completion string :=
  let platform :=
    match value with
    | None => Some DEFAULT_PLATFORM
    | Some v => normalizePlatform (JStr v)
    end in
  if truthyString platform
  then Normal (match platform with Some p => p | None => "" end)
  else Throw (newError invalidPlatformMessage).

Definition resolveRegionArg (value : option string) : Completion string :=
  let region :=
    match value with
    | None => Some DEFAULT_REGION
    | Some v => normalizeRegionCode (JStr v)
    end in
  if truthyString region
  then Normal (match region with Some r => r | None => "" end)
  else Throw (newError "Invalid --region value. Use a 2-letter region code.").

Definition consumeAppId (required : bool) : Cmd (option string) :=
  appOptionValue <- takeOption "--app" ;;
  appId <-
    (if truthyString appOptionValue then
       parsed <- lift (parseAppInput (ofOption appOptionValue)) ;;
       match parsed with
       | None =>
           throw (newError
             "Invalid --app value. Use an App Store URL, id-prefixed value, or numeric id.")
       | Some p => ret (Some (appId p))
       end
     else
       rest <- getRest ;;
       match rest with
       | first :: others =>
           parsed <- lift (parseAppInput (JStr first)) ;;
           match parsed with
           | Some p => putRest others ;;; ret (Some (appId p))
           | None => ret None
           end
       | [] => ret None
       end) ;;
  if (negb (truthyString appId) && required)%bool
  then throw (newError "Provide an app via --app <APP_ID_OR_URL>")
  else ret appId.

(** What [consumeTrackedKeywordsAppTarget] returns. *)
Record TrackedTarget : Type := mkTrackedTarget {
  appIdentifier : string;
  targetAppId : option string;
  plannedTrackedAppId : option string
}.

Definition consumeTrackedKeywordsAppTarget : Cmd TrackedTarget :=
  appOptionValue <- takeOption "--app" ;;
  identifier <-
    (if truthyString appOptionValue then
       ret (Some (trim (Js.ToString (ofOption appOptionValue))))
     else
       rest <- getRest ;;
       match rest with
       | first0 :: others =>
           let first := trim (Js.stringOrEmpty (JStr first0)) in
           if (negb (isEmpty first) && negb (startsWith "--" first))%bool
           then putRest others ;;; ret (Some first)
           else ret None
       | [] => ret None
       end) ;;
  if negb (truthyString identifier)
  then throw (newError
                "Provide an app via --app <APP_ID_OR_URL_OR_PLANNED_ID>")
  else
    parsedApp <- lift (parseAppInput (ofOption identifier)) ;;
    match parsedApp with
    | Some p =>
        ret (mkTrackedTarget (appId p) (Some (appId p)) None)
    | None =>
        match normalizePlannedTrackedAppId (ofOption identifier) with
        | Some plannedId =>
            ret (mkTrackedTarget plannedId None (Some plannedId))
        | None =>
            throw (newError
              "Invalid --app value. Use an App Store URL/id or a planned app id.")
        end
    end.

(* ================================================================== *)
(** * Keyword commands *)
(* ================================================================== *)

Definition atMostMessage (limit : nat) : string :=
  "At most " ++ ofZ (Z.of_nat limit) ++ " keywords are allowed per request".

(** [runKeywordMetrics(rest)] up to the reply of the server; rendering the
    reply is left out. *)
Definition runKeywordMetrics : Cmd JSValue :=
  config <- loadConfig ;;
  outputJson <- takeFlag "--json" ;;
  regionValue <- takeOption "--region" ;;
  platformValue <- takeOption "--platform" ;;
  appId <- consumeAppId false ;;
  rest <- getRest ;;
  let keywords := normalizeKeywordArgs (List.map JStr rest) in
  if (List.length keywords =? 0)%nat
  then throw (newError "Provide at least one keyword")
  else if (MAX_KEYWORDS <? List.length keywords)%nat
  then throw (newError (atMostMessage MAX_KEYWORDS))
  else
    accessToken <- lift (requireAuthenticatedAccessToken config) ;;
    let region :=
      toUpperCase (trim (match regionValue with
                         | Some r => r
                         | None => DEFAULT_REGION
                         end)) in
    let platform :=
      match platformValue with
      | None => Some DEFAULT_PLATFORM
      | Some v => normalizePlatform (JStr v)
      end in
    if negb (truthyString platform)
    then throw (newError invalidPlatformMessage)
    else
      apiRequest
        (mkApiArgs "/api/cli/keywords/metrics" "POST"
           (JObj [("region", JStr region);
                  ("keywords", JArr (List.map JStr keywords));
                  ("appId", ofOption appId);
                  ("platform", ofOption platform)])
           (Some accessToken)).

(** The request of [runTrackedKeywordsAdd] and [runTrackedKeywordsRemove]
    for a target, as both handlers build it. *)
Definition trackedKeywordsPath (target : TrackedTarget) : string :=
  if negb (truthyString (targetAppId target))
  then "/api/cli/apps/planned/keywords"
  else "/api/cli/apps/keywords".

Definition trackedKeywordsBody (target : TrackedTarget)
    (platform region : string) (keywords : list string) : JSValue :=
  if negb (truthyString (targetAppId target))
  then JObj [("plannedTrackedAppId", ofOption (plannedTrackedAppId target));
             ("platform", JStr platform);
             ("region", JStr region);
             ("keywords", JArr (List.map JStr keywords))]
  else JObj [("appId", ofOption (targetAppId target));
             ("platform", JStr platform);
             ("region", JStr region);
             ("keywords", JArr (List.map JStr keywords))].

(** [runTrackedKeywordsAdd(rest)] up to the reply of the server. *)
Definition runTrackedKeywordsAdd : Cmd JSValue :=
  config <- loadConfig ;;
  outputJson <- takeFlag "--json" ;;
  platformValue <- takeOption "--platform" ;;
  regionValue <- takeOption "--region" ;;
  target <- consumeTrackedKeywordsAppTarget ;;
  rest <- getRest ;;
  let keywords := normalizeKeywordArgs (List.map JStr rest) in
  if (List.length keywords =? 0)%nat
  then throw (newError "Provide at least one keyword")
  else if (MAX_TRACKED_KEYWORDS_ADD <? List.length keywords)%nat
  then throw (newError (atMostMessage MAX_TRACKED_KEYWORDS_ADD))
  else
    accessToken <- lift (requireAuthenticatedAccessToken config) ;;
    platform <- lift (resolvePlatformArg platformValue) ;;
    region <- lift (resolveRegionArg regionValue) ;;
    apiRequest
      (mkApiArgs (trackedKeywordsPath target) "POST"
         (trackedKeywordsBody target platform region keywords)
         (Some accessToken)).

(** [runTrackedKeywordsRemove(rest)] up to the reply of the server. *)
Definition runTrackedKeywordsRemove : Cmd JSValue :=
  config <- loadConfig ;;
  outputJson <- takeFlag "--json" ;;
  platformValue <- takeOption "--platform" ;;
  regionValue <- takeOption "--region" ;;
  target <- consumeTrackedKeywordsAppTarget ;;
  rest <- getRest ;;
  let keywords := normalizeKeywordArgs (List.map JStr rest) in
  if (List.length keywords =? 0)%nat
  then throw (newError "Provide at least one keyword")
  else if (MAX_TRACKED_KEYWORDS_ADD <? List.length keywords)%nat
  then throw (newError (atMostMessage MAX_TRACKED_KEYWORDS_ADD))
  else
    accessToken <- lift (requireAuthenticatedAccessToken config) ;;
    platform <- lift (resolvePlatformArg platformValue) ;;
    region <- lift (resolveRegionArg regionValue) ;;
    apiRequest
      (mkApiArgs (trackedKeywordsPath target) "DELETE"
         (trackedKeywordsBody target platform region keywords)
         (Some accessToken)).

(* ================================================================== *)
(** * Device login *)
(* ================================================================== *)

(** The world after [sleep(ms)]: the timer is recorded and the clock moves
    by the time the environment gives to that timer. *)
Definition slept (env : Env) (ms : JSNumber) (w : World) : World :=
  mkWorld (rest w) (clock w + timerTime env ms) (configFile w) (served w)
    (trace w ++ [EvSleep ms])%list.

Definition sleep (ms : JSNumber) : Cmd unit :=
  fun env w => (Normal tt, slept env ms w).

(** [openInBrowser(url)]; whether the browser opened only changes a printed
    line. *)
Definition openInBrowser (target : string) : Cmd unit :=
  fun _ w => (Normal tt, emit (EvOpenBrowser target) w).

(** [Number(v) > 0 ? Number(v) : fallback] *)
Definition positiveOr (v : JSValue) (fallback : JSNumber)
  : Completion JSNumber :=
  n <~ Js.NumberOf v ;;
  Normal (if Js.ltb (Num 0) n then n else fallback).

(** The values [runAuthLogin] takes from the start response. *)
Record DeviceAuthSession : Type := mkSession {
  userCode : string;
  verificationUrl : string;
  deviceCode : string;
  pollIntervalSeconds : JSNumber;
  expiresInSeconds : JSNumber
}.

Definition readSession (start : JSValue) : Completion DeviceAuthSession :=
  rawUserCode <~ Js.getProp start "userCode" ;;
  userText <~ Js.StringOf (Js.or rawUserCode (JStr "")) ;;
  let userCode := trim userText in
  let verificationUrl :=
    WEB_BASE_URL ++ "/cli/auth?code=" ++ encodeURIComponent userCode in
  rawDeviceCode <~ Js.getProp start "deviceCode" ;;
  deviceText <~ Js.StringOf (Js.or rawDeviceCode (JStr "")) ;;
  let deviceCode := trim deviceText in
  rawPoll <~ Js.getProp start "pollIntervalSeconds" ;;
  pollIntervalSeconds <~
    positiveOr rawPoll (Num DEFAULT_POLL_INTERVAL_SECONDS) ;;
  rawExpires <~ Js.getProp start "expiresInSeconds" ;;
  expiresInSeconds <~ positiveOr rawExpires (Num 600) ;;
  if (isEmpty deviceCode || isEmpty verificationUrl || isEmpty userCode)%bool
  then Throw (newError "Server returned an invalid authentication payload")
  else Normal (mkSession userCode verificationUrl deviceCode
                 pollIntervalSeconds expiresInSeconds).

Definition startRequest : ApiArgs :=
  mkApiArgs "/api/cli/auth/start" "POST" JUndefined None.

Definition tokenRequest (deviceCode : string) : ApiArgs :=
  mkApiArgs "/api/cli/auth/token" "POST"
    (JObj [("deviceCode", JStr deviceCode)]) None.

(** The body of the [try] block of the polling loop. *)
Definition pollOnce (deviceCode : string) : Cmd unit :=
  tokenResponse <- apiRequest (tokenRequest deviceCode) ;;
  rawAccessToken <- lift (Js.getProp tokenResponse "accessToken") ;;
  accessText <- lift (Js.StringOf (Js.or rawAccessToken (JStr ""))) ;;
  let accessToken := trim accessText in
  rawExpiresAt <- lift (Js.getProp tokenResponse "expiresAt") ;;
  expiresText <- lift (Js.StringOf (Js.or rawExpiresAt (JStr ""))) ;;
  let expiresAt := trim expiresText in
  if (isEmpty accessToken || isEmpty expiresAt)%bool
  then throw (newError "Server returned an invalid token response")
  else saveConfig (JObj [("accessToken", JStr accessToken);
                         ("expiresAt", JStr expiresAt)]).

Definition expiredError : JSError :=
  newError "Authorization request expired. Run `asosuite login` again.".

Definition noLongerValidError : JSError :=
  newError
    "Authorization request is no longer valid. Run `asosuite login` again.".

Definition timedOutError : JSError :=
  newError "Authentication timed out. Run `asosuite login` again.".

(** The [catch] block of the polling loop; [again] is the [continue]. *)
Definition onPollError (pollIntervalSeconds : JSNumber) (again : Cmd unit)
    (error : JSError) : Cmd unit :=
  let status := Js.statusOf error in
  if status =? 428 then
    sleep (Js.mul pollIntervalSeconds (Num 1000)) ;;; again
  else if status =? 410 then throw expiredError
  else if ((status =? 409) || (status =? 400))%bool
  then throw noLongerValidError
  else throw error.

(** [while (Date.now() < deadline) { try ... catch ... }] followed by the
    final [throw]; every turn of the loop uses one unit of [fuel]. *)
Fixpoint pollLoop (fuel : nat) (deviceCode : string)
    (pollIntervalSeconds deadline : JSNumber) : Cmd unit :=
  match fuel with
  | O => unfinished
  | S fuel' =>
      now <- dateNow ;;
      if Js.ltb (Num (inject_Z now)) deadline then
        outcome <- attempt (pollOnce deviceCode) ;;
        match outcome with
        | inl _ => ret tt
        | inr error =>
            onPollError pollIntervalSeconds
              (pollLoop fuel' deviceCode pollIntervalSeconds deadline) error
        end
      else throw timedOutError
  end.

Definition runAuthLogin (fuel : nat) : Cmd unit :=
  noOpen <- takeFlag "--no-open" ;;
  rest <- getRest ;;
  if (0 <? List.length rest)%nat
  then throw (newError ("Unknown arguments: " ++ join " " rest))
  else
    start <- apiRequest startRequest ;;
    session <- lift (readSession start) ;;
    (if negb noOpen then openInBrowser (verificationUrl session)
     else ret tt) ;;;
    now <- dateNow ;;
    let deadline :=
      Js.add (Num (inject_Z now))
        (Js.mul (expiresInSeconds session) (Num 1000)) in
    pollLoop fuel (deviceCode session) (pollIntervalSeconds session) deadline.

End Handlers.

(* ================================================================== *)
(** * An executable instance of the runtime *)
(* ================================================================== *)

(** [ModelHost] implements the built-ins on the fragment the examples use:
    - numbers print as JavaScript prints integers below 10^21 and short
      terminating decimals, and [Number(s)] reads decimal literals;
    - [new URL] follows the WHATWG parser for absolute URLs whose host and
      path need no normalisation (no percent-encoding, no dot segments);
    - [Date] parsing accepts the ISO date-time strings V8 accepts (month
      1-12, day 1-31);
    - [JSON.parse] follows the JSON grammar, with escapes of code units
      below 256;
    - a large integer is rounded to the nearest double, ties to even. *)
Module ModelHost.
Import JsString.

Definition charOfDigit (d : Z) : ascii := ascii_of_N (Z.to_N (48 + d)).

(** The first [n] decimals of [num / den], for [0 <= num < den]. *)
Fixpoint fractionDigits (n : nat) (num den : Z) : string :=
  match n with
  | O => ""
  | S n' =>
      if num =? 0 then ""
      else String (charOfDigit (10 * num / den))
             (fractionDigits n' ((10 * num) mod den) den)
  end.

Definition numberToString (q : Q) : string :=
  let n := Qnum q in
  let d := Zpos (Qden q) in
  let a := Z.abs n in
  let whole := a / d in
  let frac := fractionDigits 20 (a mod d) d in
  let sign := if n <? 0 then "-" else "" in
  let tail := if isEmpty frac then "" else "." ++ frac in
  sign ++ ofZ whole ++ tail.

(** [m * 10^e] *)
Definition scale10 (m e : Z) : Q :=
  if 0 <=? e then Qred (inject_Z (m * 10 ^ e))
  else Qred (Qmake m (Z.to_pos (10 ^ (- e)))).

(** An optional sign: its factor and what follows it. *)
Definition readSign (s : string) : Z * string :=
  match s with
  | String "-"%char r => (-1, r)
  | String "+"%char r => (1, r)
  | _ => (1, s)
  end.

(** An optional exponent part: its value and what follows it. *)
Definition readExponent (s : string) : option (Z * string) :=
  match s with
  | String c r =>
      if (Ascii.eqb c "e"%char || Ascii.eqb c "E"%char)%bool then
        let '(sign, r1) := readSign r in
        let ds := takeWhile isDigit r1 in
        if isEmpty ds then None
        else Some (sign * digitsValue 0 ds, dropWhile isDigit r1)
      else Some (0, s)
  | EmptyString => Some (0, s)
  end.

(** Digits, an optional fraction and an optional exponent: the value and
    what follows.  [needInt] asks for at least one digit before the point
    and [needFrac] for at least one digit after a point. *)
Definition readDecimal (needInt needFrac : bool) (s : string)
  : option (Q * string) :=
  let ints := takeWhile isDigit s in
  let r1 := dropWhile isDigit s in
  let '(fracs, r2, hasPoint) :=
    match r1 with
    | String "."%char r => (takeWhile isDigit r, dropWhile isDigit r, true)
    | _ => ("", r1, false)
    end in
  if (isEmpty ints && (needInt || isEmpty fracs))%bool then None
  else if (hasPoint && needFrac && isEmpty fracs)%bool then None
  else
    match readExponent r2 with
    | Some (e, r3) =>
        Some (scale10 (digitsValue 0 (ints ++ fracs))
                (e - Z.of_nat (String.length fracs)), r3)
    | None => None
    end.

Definition stringToNumber (s : string) : JSNumber :=
  let t := trim s in
  if isEmpty t then Num 0
  else
    let '(sign, r) := readSign t in
    match readDecimal false false r with
    | Some (q, EmptyString) => Num (Qred (inject_Z sign * q))
    | _ => NaN
    end.

(* ------------------------------------------------------------------ *)
(** ** URLs *)

Definition isAlpha (c : ascii) : bool := (isUpper c || isLower c)%bool.

Definition isSchemeChar (c : ascii) : bool :=
  (isAlpha c || isDigit c || Ascii.eqb c "+"%char || Ascii.eqb c "-"%char
   || Ascii.eqb c "."%char)%bool.

Definition isSlash (c : ascii) : bool :=
  (Ascii.eqb c "/"%char || Ascii.eqb c "\"%char)%bool.

Definition endsAuthority (c : ascii) : bool :=
  (isSlash c || Ascii.eqb c "?"%char || Ascii.eqb c "#"%char)%bool.

Definition endsPath (c : ascii) : bool :=
  (Ascii.eqb c "?"%char || Ascii.eqb c "#"%char)%bool.

Definition specialSchemes : list string :=
  ["http"; "https"; "ftp"; "ws"; "wss"].

Definition urlNew (s : string) : option URL :=
  match s with
  | String c _ =>
      if isAlpha c then
        let scheme := toLowerCase (takeWhile isSchemeChar s) in
        match dropWhile isSchemeChar s with
        | String ":"%char afterScheme =>
            if has specialSchemes scheme then
              let r := dropWhile isSlash afterScheme in
              let hostName :=
                toLowerCase (takeWhile (fun c => negb (endsAuthority c)) r) in
              let r1 := dropWhile (fun c => negb (endsAuthority c)) r in
              let path := takeWhile (fun c => negb (endsPath c)) r1 in
              if isEmpty hostName then None
              else Some (mkURL (if isEmpty path then "/" else path)
                           (scheme ++ "://" ++ hostName))
            else
              Some (mkURL (takeWhile (fun c => negb (endsPath c)) afterScheme)
                      "null")
        | _ => None
        end
      else None
  | EmptyString => None
  end.

(* ------------------------------------------------------------------ *)
(** ** Dates *)

Definition twoDigits (a b : ascii) : Z := 10 * digitValue a + digitValue b.

(** Validity of [YYYY-MM-DDT00:00:00.000Z]. *)
Definition dateIsValid (s : string) : bool :=
  match s with
  | String y1 (String y2 (String y3 (String y4 (String h1
      (String m1 (String m2 (String h2 (String d1 (String d2 r))))))))) =>
      (Regex.isDateShape (substring 0 10 s)
       && String.eqb r "T00:00:00.000Z"
       && (1 <=? twoDigits m1 m2) && (twoDigits m1 m2 <=? 12)
       && (1 <=? twoDigits d1 d2) && (twoDigits d1 d2 <=? 31))%bool
  | _ => false
  end.

(* ------------------------------------------------------------------ *)
(** ** [encodeURIComponent] *)

Definition isUnreserved (c : ascii) : bool :=
  (isAlpha c || isDigit c
   || existsb (Ascii.eqb c)
        ["-"; "_"; "."; "!"; "~"; "*"; "'"; "("; ")"]%char)%bool.

Definition hexDigit (n : N) : ascii :=
  if (n <? 10)%N then ascii_of_N (48 + n) else ascii_of_N (55 + n).

Definition percentByte (n : N) : string :=
  String "%" (String (hexDigit (n / 16)) (String (hexDigit (n mod 16)) "")).

Fixpoint encodeComponent (s : string) : string :=
  match s with
  | EmptyString => ""
  | String c r =>
      (if isUnreserved c then String c ""
       else if (code c <? 128)%N then percentByte (code c)
       else percentByte (192 + code c / 64)
            ++ percentByte (128 + code c mod 64))
      ++ encodeComponent r
  end.

(* ------------------------------------------------------------------ *)
(** ** JSON *)

Definition isJsonSpace (c : ascii) : bool :=
  existsb (N.eqb (code c)) [9; 10; 13; 32]%N.

Definition skipSpace (s : string) : string := dropWhile isJsonSpace s.

Definition hexValue (c : ascii) : option N :=
  if isDigit c then Some (code c - 48)%N
  else if inRange 97 102 c then Some (code c - 87)%N
  else if inRange 65 70 c then Some (code c - 55)%N
  else None.

Definition hex4 (a b c d : ascii) : option N :=
  match hexValue a, hexValue b, hexValue c, hexValue d with
  | Some x, Some y, Some z, Some t => Some (((x * 16 + y) * 16 + z) * 16 + t)%N
  | _, _, _, _ => None
  end.

Definition simpleEscape (c : ascii) : option ascii :=
  match code c with
  | 34%N => Some c
  | 92%N => Some c
  | 47%N => Some c
  | 98%N => Some (ascii_of_N 8)
  | 102%N => Some (ascii_of_N 12)
  | 110%N => Some (ascii_of_N 10)
  | 114%N => Some (ascii_of_N 13)
  | 116%N => Some (ascii_of_N 9)
  | _ => None
  end.

(** The characters of a string literal after its opening quote, and what
    follows the closing quote. *)
Fixpoint readStringBody (s : string) : option (string * string) :=
  match s with
  | EmptyString => None
  | String c r =>
      if N.eqb (code c) 34 then Some ("", r)
      else if N.eqb (code c) 92 then
        match r with
        | String e r1 =>
            if Ascii.eqb e "u"%char then
              match r1 with
              | String h1 (String h2 (String h3 (String h4 r2))) =>
                  match hex4 h1 h2 h3 h4 with
                  | Some n =>
                      if (n <? 256)%N then
                        match readStringBody r2 with
                        | Some (t, r3) => Some (String (ascii_of_N n) t, r3)
                        | None => None
                        end
                      else None
                  | None => None
                  end
              | _ => None
              end
            else
              match simpleEscape e with
              | Some x =>
                  match readStringBody r1 with
                  | Some (t, r3) => Some (String x t, r3)
                  | None => None
                  end
              | None => None
              end
        | EmptyString => None
        end
      else if (code c <? 32)%N then None
      else
        match readStringBody r with
        | Some (t, r3) => Some (String c t, r3)
        | None => None
        end
  end.

(** A JSON number: no leading zeros, digits on both sides of a point. *)
Definition readNumber (s : string) : option (Q * string) :=
  let '(sign, r) :=
    match s with
    | String "-"%char r => (-1, r)
    | _ => (1, s)
    end in
  match r with
  | String "0"%char (String c _) =>
      if isDigit c then None
      else match readDecimal true true r with
           | Some (q, r') => Some (Qred (inject_Z sign * q), r')
           | None => None
           end
  | _ =>
      match readDecimal true true r with
      | Some (q, r') => Some (Qred (inject_Z sign * q), r')
      | None => None
      end
  end.

(** Sets property [k], keeping the place of an earlier occurrence. *)
Fixpoint setField (k : string) (v : JSValue)
    (fields : list (string * JSValue)) : list (string * JSValue) :=
  match fields with
  | [] => [(k, v)]
  | (k', v') :: r =>
      if String.eqb k' k then (k, v) :: r else (k', v') :: setField k v r
  end.

Fixpoint readValue (fuel : nat) (s : string) : option (JSValue * string) :=
  match fuel with
  | O => None
  | S fuel' =>
      match skipSpace s with
      | EmptyString => None
      | String c r as s' =>
          if startsWith "null" s' then Some (JNull, dropN 4 s')
          else if startsWith "true" s' then Some (JBool true, dropN 4 s')
          else if startsWith "false" s' then Some (JBool false, dropN 5 s')
          else if N.eqb (code c) 34 then
            match readStringBody r with
            | Some (t, r') => Some (JStr t, r')
            | None => None
            end
          else if Ascii.eqb c "["%char then
            match skipSpace r with
            | String "]"%char r' => Some (JArr [], r')
            | _ =>
                match readElements fuel' r with
                | Some (xs, r') => Some (JArr xs, r')
                | None => None
                end
            end
          else if Ascii.eqb c "{"%char then
            match skipSpace r with
            | String "}"%char r' => Some (JObj [], r')
            | _ =>
                match readMembers fuel' [] r with
                | Some (fields, r') => Some (JObj fields, r')
                | None => None
                end
            end
          else
            match readNumber s' with
            | Some (q, r') => Some (JNum (Num q), r')
            | None => None
            end
      end
  end

with readElements (fuel : nat) (s : string)
  : option (list JSValue * string) :=
  match fuel with
  | O => None
  | S fuel' =>
      match readValue fuel' s with
      | Some (v, r) =>
          match skipSpace r with
          | String "]"%char r' => Some ([v], r')
          | String ","%char r' =>
              match readElements fuel' r' with
              | Some (vs, r'') => Some (v :: vs, r'')
              | None => None
              end
          | _ => None
          end
      | None => None
      end
  end

with readMembers (fuel : nat) (acc : list (string * JSValue)) (s : string)
  : option (list (string * JSValue) * string) :=
  match fuel with
  | O => None
  | S fuel' =>
      match skipSpace s with
      | String q r =>
          if N.eqb (code q) 34 then
            match readStringBody r with
            | Some (k, r1) =>
                match skipSpace r1 with
                | String ":"%char r2 =>
                    match readValue fuel' r2 with
                    | Some (v, r3) =>
                        let acc' := setField k v acc in
                        match skipSpace r3 with
                        | String "}"%char r4 => Some (acc', r4)
                        | String ","%char r4 => readMembers fuel' acc' r4
                        | _ => None
                        end
                    | None => None
                    end
                | _ => None
                end
            | None => None
            end
          else None
      | EmptyString => None
      end
  end.

Definition jsonParse (s : string) : option JSValue :=
  match readValue (2 * String.length s + 2) s with
  | Some (v, r) => if isEmpty (skipSpace r) then Some v else None
  | None => None
  end.

(* ------------------------------------------------------------------ *)
(** ** Rounding of an integer to a double *)

(** The 53 leading bits of [z], rounded to nearest with ties to even; no
    double when the result reaches 2^1024. *)
Definition roundInteger (z : Z) : option Q :=
  let n := Z.abs z in
  let bits := Z.log2 n + 1 in
  if bits <=? 53 then Some (inject_Z z)
  else
    let shift := bits - 53 in
    let q := Z.shiftr n shift in
    let remainder := n - Z.shiftl q shift in
    let half := Z.shiftl 1 (shift - 1) in
    let q' :=
      if ((half <? remainder) || ((remainder =? half) && Z.odd q))%bool
      then q + 1 else q in
    let r := Z.shiftl q' shift in
    if 2 ^ 1024 <=? r then None else Some (inject_Z (Z.sgn z * r)).

End ModelHost.

#[export] Instance modelHost : JSHost := {|
  Number_toString := ModelHost.numberToString;
  StringToNumber := ModelHost.stringToNumber;
  URL_new := ModelHost.urlNew;
  Date_isValid := ModelHost.dateIsValid;
  JSON_parse := ModelHost.jsonParse;
  encodeURIComponent := ModelHost.encodeComponent;
  Number_ofInteger := ModelHost.roundInteger
|}.

(* ================================================================== *)
(** * Definitions used to state the properties *)
(* ================================================================== *)

Module Spec.
Import JsString.

Section WithHost.
Context {host : JSHost}.

(** Keyword normalization as the specification words it, item by item:
    trim, strip the quotes around, collapse white space, trim again. *)
Definition normalizeKeyword (item : JSValue) : string :=
  trim (collapseWhiteSpace (stripQuotes (trim (Js.stringOrEmpty item)))).

(** ... then drop the empty results. *)
Definition normalizeKeywordList (rawList : list JSValue) : list string :=
  filter (fun keyword => negb (isEmpty keyword))
    (List.map normalizeKeyword rawList).

(** The statements of [runKeywordMetrics] that come before the keywords
    are read: they load the credential and take the options and the app
    target out of the argument array. *)
Definition metricsPrelude
  : Cmd (JSValue * option string * option string * option string) :=
  config <- loadConfig ;;
  outputJson <- takeFlag "--json" ;;
  regionValue <- takeOption "--region" ;;
  platformValue <- takeOption "--platform" ;;
  appId <- consumeAppId false ;;
  ret (config, regionValue, platformValue, appId).

(** The statements of [runKeywordMetrics] that follow the two checks of the
    number of keywords. *)
Definition metricsSubmit
    (x : JSValue * option string * option string * option string)
    (keywords : list string) : Cmd JSValue :=
  let '(config, regionValue, platformValue, appId) := x in
  accessToken <- lift (requireAuthenticatedAccessToken config) ;;
  let region :=
    toUpperCase (trim (match regionValue with
                       | Some r => r
                       | None => DEFAULT_REGION
                       end)) in
  let platform :=
    match platformValue with
    | None => Some DEFAULT_PLATFORM
    | Some v => normalizePlatform (JStr v)
    end in
  if negb (truthyString platform)
  then throw (newError invalidPlatformMessage)
  else
    apiRequest
      (mkApiArgs "/api/cli/keywords/metrics" "POST"
         (JObj [("region", JStr region);
                ("keywords", JArr (List.map JStr keywords));
                ("appId", ofOption appId);
                ("platform", ofOption platform)])
         (Some accessToken)).

(** The statements of [runKeywordMetrics] that follow the prelude. *)
Definition metricsKeywords
    (x : JSValue * option string * option string * option string)
  : Cmd JSValue :=
  rest <- getRest ;;
  let keywords := normalizeKeywordArgs (List.map JStr rest) in
  if (List.length keywords =? 0)%nat
  then throw (newError "Provide at least one keyword")
  else if (MAX_KEYWORDS <? List.length keywords)%nat
  then throw (newError (atMostMessage MAX_KEYWORDS))
  else metricsSubmit x keywords.

(** The same two parts of [runTrackedKeywordsAdd] and
    [runTrackedKeywordsRemove]; [verb] is the HTTP method. *)
Definition trackedPrelude
  : Cmd (JSValue * option string * option string * TrackedTarget) :=
  config <- loadConfig ;;
  outputJson <- takeFlag "--json" ;;
  platformValue <- takeOption "--platform" ;;
  regionValue <- takeOption "--region" ;;
  target <- consumeTrackedKeywordsAppTarget ;;
  ret (config, platformValue, regionValue, target).

Definition trackedSubmit (verb : string)
    (x : JSValue * option string * option string * TrackedTarget)
    (keywords : list string) : Cmd JSValue :=
  let '(config, platformValue, regionValue, target) := x in
  accessToken <- lift (requireAuthenticatedAccessToken config) ;;
  platform <- lift (resolvePlatformArg platformValue) ;;
  region <- lift (resolveRegionArg regionValue) ;;
  apiRequest
    (mkApiArgs (trackedKeywordsPath target) verb
       (trackedKeywordsBody target platform region keywords)
       (Some accessToken)).

(** The statements of the two handlers that follow the prelude. *)
Definition trackedKeywords (verb : string)
    (x : JSValue * option string * option string * TrackedTarget)
  : Cmd JSValue :=
  rest <- getRest ;;
  let keywords := normalizeKeywordArgs (List.map JStr rest) in
  if (List.length keywords =? 0)%nat
  then throw (newError "Provide at least one keyword")
  else if (MAX_TRACKED_KEYWORDS_ADD <? List.length keywords)%nat
  then throw (newError (atMostMessage MAX_TRACKED_KEYWORDS_ADD))
  else trackedSubmit verb x keywords.

End WithHost.

(** [Date.now() < deadline] at the clock time [t]. *)
Definition beforeDeadline (deadline : JSNumber) (t : Z) : bool :=
  Js.ltb (Num (inject_Z t)) deadline.

(** The requests of the events [evs] were all issued before [deadline]. *)
Definition allBefore (deadline : JSNumber) (evs : list Event) : Prop :=
  forall t request, In (EvFetch t request) evs ->
    beforeDeadline deadline t = true.

(** The error of a start response without a user code or a device code. *)
Definition invalidPayloadError : JSError :=
  newError "Server returned an invalid authentication payload".

(** The error of a command that requires an app and got none. *)
Definition provideAppError : JSError :=
  newError "Provide an app via --app <APP_ID_OR_URL>".

(** [w'] differs from [w] in the argument array at most: no request was
    made, no time passed and the credential file was not written. *)
Definition onlyArgsChanged (w w' : World) : Prop :=
  exists r, w' = setRest r w.

(** [s] neither begins nor ends with a character of the class [p]. *)
Definition firstNot (p : ascii -> bool) (s : string) : bool :=
  match s with
  | EmptyString => true
  | String c _ => negb (p c)
  end.

Fixpoint lastNot (p : ascii -> bool) (s : string) : bool :=
  match s with
  | EmptyString => true
  | String c EmptyString => negb (p c)
  | String _ r => lastNot p r
  end.

(** [ds] is a numeric app id: decimal digits, at least six of them. *)
Definition isAppId (ds : string) : Prop :=
  forallb isDigit ds = true /\ (6 <= String.length ds)%nat.

(** [s] is one path segment: it holds no slash. *)
Definition noSlash (s : string) : bool :=
  forallb (fun c => negb (Ascii.eqb c "/"%char)) s.

(** The App Store address of an app:
    [https://apps.apple.com/<region>/app/<slug>/id<digits>], and its path. *)
Definition appStorePath (region slug digits : string) : string :=
  "/" ++ region ++ "/app/" ++ slug ++ "/id" ++ digits.

Definition appStoreUrl (region slug digits : string) : string :=
  "https://apps.apple.com" ++ appStorePath region slug digits.

End Spec.

(* ================================================================== *)
(** * Worlds, environments and texts of the examples *)
(* ================================================================== *)

Module Examples.

(** The double quote. *)
Definition dquote : ascii := ascii_of_N 34.

(** [s] between double quotes. *)
Definition quoted (s : string) : string :=
  String dquote (s ++ String dquote "").

(** An environment whose [k]-th reply is the [k]-th response of the list
    (a network failure past its end), with 40 ms per request and timers
    that take one second; writes of the credential file succeed and the
    local date is 17 May 2024. *)
Definition replyWith (responses : list Response) : Env :=
  mkEnv (fun k _ =>
           match nth_error responses k with
           | Some response => Responded response
           | None =>
               NetworkFailure
                 (mkError TypeError "fetch failed" None JUndefined)
           end)
        (fun _ => 40) (fun _ => 1000) (fun _ _ => Written)
        (fun _ => mkLocalDate 2024 4 17).

(** The same replies on a machine where the directory of the credential
    file cannot be made: every write fails and leaves the file as it was. *)
Definition readOnly (responses : list Response) : Env :=
  mkEnv (respond (replyWith responses)) (fetchTime (replyWith responses))
    (timerTime (replyWith responses))
    (fun current _ =>
       WriteFailed "EACCES: permission denied, mkdir '/home/user/.asosuite'"
         current)
    (localDate (replyWith responses)).

Definition worldOf (args : list string) (config : option JSValue) : World :=
  mkWorld args 1700000000000 config 0 [].

Definition jsonReply (code : Z) (reason text : string) : Response :=
  mkResponse code reason "https://server.asosuite.com/api/cli"
    (Some "application/json; charset=utf-8") (Some text).

Definition htmlReply (code : Z) (reason text : string) : Response :=
  mkResponse code reason "https://server.asosuite.com/api/cli"
    (Some "text/html") (Some text).

Definition metricsArgs : ApiArgs :=
  mkApiArgs "/api/cli/keywords/metrics" "POST" (JObj []) (Some "token").

(** The text [{"error":"boom"}]. *)
Definition boomText : string :=
  "{" ++ quoted "error" ++ ":" ++ quoted "boom" ++ "}".

Definition downPage : string :=
  "<!DOCTYPE html><html><body>down</body></html>".

(** A credential file after a login, and an empty JSON reply. *)
Definition credential : JSValue :=
  JObj [("accessToken", JStr "token");
        ("expiresAt", JStr "2030-01-01T00:00:00.000Z")].

Definition okReply : Response := jsonReply 200 "OK" "{}".

(** The body of a keywords request. *)
Definition metricsBody (region : string) (keywords : list string)
    (appId : JSValue) : JSValue :=
  JObj [("region", JStr region);
        ("keywords", JArr (List.map JStr keywords));
        ("appId", appId);
        ("platform", JStr "iphone")].

(** One member of a JSON object whose value is a string, and one whose
    value is written as it is. *)
Definition member (name value : string) : string :=
  quoted name ++ ":" ++ quoted value.

Definition rawMember (name value : string) : string :=
  quoted name ++ ":" ++ value.

(** A start response with a poll interval of one second and no usable
    lifetime, and one whose user code is blank. *)
Definition startText : string :=
  "{" ++ member "userCode" "ABCD-1234" ++ "," ++ member "deviceCode" "dev-1"
  ++ "," ++ rawMember "pollIntervalSeconds" "1"
  ++ "," ++ rawMember "expiresInSeconds" "0" ++ "}".

(** A start response whose numbers are no numbers: the poll interval is
    the text 5 and the lifetime is [true]. *)
Definition looseStartText : string :=
  "{" ++ member "userCode" "ABCD-1234" ++ "," ++ member "deviceCode" "dev-1"
  ++ "," ++ member "pollIntervalSeconds" "5"
  ++ "," ++ rawMember "expiresInSeconds" "true" ++ "}".

Definition blankUserText : string :=
  "{" ++ member "userCode" "   " ++ "," ++ member "deviceCode" "dev-1" ++ "}".

(** The replies of the token endpoint: not yet approved, and approved. *)
Definition pendingReply : Response :=
  jsonReply 428 "Precondition Required"
    ("{" ++ member "error" "authorization_pending" ++ "}").

Definition tokenReply : Response :=
  jsonReply 200 "OK"
    ("{" ++ member "accessToken" " tok-1 " ++ ","
     ++ member "expiresAt" "2030-01-01T00:00:00.000Z" ++ "}").

End Examples.

(* ================================================================== *)
(** * Further helpers and handlers of the command line *)
(* ================================================================== *)

Definition DEFAULT_PERIOD : Z := 30.
Definition TRACKED_KEYWORDS_MAX_PAGE : Z := 1000.
Definition TRACKED_KEYWORDS_SORT_FIELDS : list string :=
  ["keyword"; "relevance"; "popularity"; "difficulty"; "position";
   "lastUpdate"].
Definition TRACKED_KEYWORDS_SORT_DEFAULT : string := "keyword".
Definition TRACKED_KEYWORDS_ORDER_VALUES : list string := ["asc"; "desc"].
Definition TRACKED_KEYWORDS_ORDER_DEFAULT : string := "asc".

Module Arrays.

(** [s.split(sep)] for a one-character separator. *)
Fixpoint split (sep : ascii) (s : string) : list string :=
  match s with
  | EmptyString => [""]
  | String c r =>
      if Ascii.eqb c sep then "" :: split sep r
      else
        match split sep r with
        | x :: xs => String c x :: xs
        | [] => [String c ""]
        end
  end.

(** [Array.from(new Set(xs))]: the first occurrence of every element, in
    the order of the array; [seen] holds the elements already in the set. *)
Fixpoint uniqueFrom (seen xs : list string) : list string :=
  match xs with
  | [] => []
  | x :: r =>
      if has seen x then uniqueFrom seen r
      else x :: uniqueFrom (x :: seen) r
  end.

Definition unique (xs : list string) : list string := uniqueFrom [] xs.

(** The elements of an array of nullable strings that are not null. *)
Fixpoint notNull (xs : list (option string)) : list string :=
  match xs with
  | [] => []
  | Some x :: r => x :: notNull r
  | None :: r => notNull r
  end.

End Arrays.

(** The argument array read without state: what [takeFlag] and
    [takeOption] return for an array and the array they leave. *)
Module Args.

(** What [takeFlag(rest, name)] returns. *)
Definition flag (name : string) (args : list string) : bool :=
  match indexOf name args with
  | Some _ => true
  | None => false
  end.

(** The array [takeFlag(rest, name)] leaves. *)
Definition withoutFlag (name : string) (args : list string) : list string :=
  match indexOf name args with
  | Some index => splice index 1 args
  | None => args
  end.

(** Whether [takeOption(rest, name)] throws: the name is the last
    argument. *)
Definition missingValue (name : string) (args : list string) : bool :=
  match indexOf name args with
  | Some index => (index =? List.length args - 1)%nat
  | None => false
  end.

(** What [takeOption(rest, name)] returns when it does not throw. *)
Definition optionOf (name : string) (args : list string) : option string :=
  match indexOf name args with
  | Some index => Some (nth (index + 1) args "")
  | None => None
  end.

(** The array [takeOption(rest, name)] leaves when it does not throw. *)
Definition withoutOption (name : string) (args : list string)
  : list string :=
  match indexOf name args with
  | Some index => splice index 2 args
  | None => args
  end.

End Args.

(** The normalizers on arbitrary values.  Each begins with [String(value ||
    '')] ([normalizeKeywordArgs] with [rest.map] and then [String(item ||
    '')] for every item), the only step that can throw; the rest of the
    normalizer works on the text this gives. *)
Module AnyValue.
Section WithHost.
Context {host : JSHost}.

(** [String(value || '')] *)
Definition text (value : JSValue) : Completion string :=
  Js.StringOf (Js.or value (JStr "")).

Definition normalizePlatform (value : JSValue) : Completion (option string) :=
  s <~ text value ;; Normal (normalizePlatform (JStr s)).

Definition normalizeRegionCode (value : JSValue)
  : Completion (option string) :=
  s <~ text value ;; Normal (normalizeRegionCode (JStr s)).

Definition normalizePlannedTrackedAppId (value : JSValue)
  : Completion (option string) :=
  s <~ text value ;; Normal (normalizePlannedTrackedAppId (JStr s)).

Definition normalizeDateOnly (value : JSValue) : Completion (option string) :=
  s <~ text value ;; Normal (normalizeDateOnly (JStr s)).

Definition parsePeriodValue (value : JSValue) : Completion (option Z) :=
  s <~ text value ;; Normal (parsePeriodValue (JStr s)).

Definition parseAppInput (value : JSValue)
  : Completion (option AppInput) :=
  s <~ text value ;; parseAppInput (JStr s).

(** [items.map((value) => String(value || ''))], from the left. *)
Fixpoint texts (items : list JSValue) : Completion (list string) :=
  match items with
  | [] => Normal []
  | item :: others =>
      s <~ text item ;;
      r <~ texts others ;;
      Normal (s :: r)
  end.

(** [rest.map] is a function on arrays only. *)
Definition normalizeKeywordArgs (rest : JSValue)
  : Completion (list string) :=
  match rest with
  | JArr items =>
      r <~ texts items ;; Normal (normalizeKeywordArgs (List.map JStr r))
  | JUndefined | JNull =>
      Throw (mkError TypeError
               ("Cannot read properties of "
                ++ (match rest with JNull => "null" | _ => "undefined" end)
                ++ " (reading 'map')") None JUndefined)
  | _ => Throw (mkError TypeError "rest.map is not a function" None
                  JUndefined)
  end.

End WithHost.
End AnyValue.

(** [new URLSearchParams()] with [set] calls on distinct names, and its
    [toString()]: letters, digits and [*-._] stay, a space becomes [+],
    every other character is percent-encoded. *)
Module SearchParams.
Import JsString.

Definition isFormSafe (c : ascii) : bool :=
  (isUpper c || isLower c || isDigit c
   || existsb (Ascii.eqb c) ["*"; "-"; "."; "_"]%char)%bool.

Fixpoint encode (s : string) : string :=
  match s with
  | EmptyString => ""
  | String c r =>
      (if isFormSafe c then String c ""
       else if Ascii.eqb c " "%char then "+"
       else if (code c <? 128)%N then ModelHost.percentByte (code c)
       else ModelHost.percentByte (192 + code c / 64)
            ++ ModelHost.percentByte (128 + code c mod 64))
      ++ encode r
  end.

Definition toString (params : list (string * string)) : string :=
  join "&" (List.map (fun '(k, v) => encode k ++ "=" ++ encode v) params).

End SearchParams.

Section MoreHandlers.
Context {host : JSHost}.
Import JsString.

Definition runAuthLogout : Cmd unit := saveConfig (JObj []).

Definition invalidRegionError : JSError :=
  newError "Invalid --region value. Use a 2-letter region code.".

Definition resolveOptionalRegionArg (value : option string)
  : Completion (option string) :=
  match value with
  | None => Normal None
  | Some v =>
      let region := normalizeRegionCode (JStr v) in
      if negb (truthyString region) then Throw invalidRegionError
      else Normal region
  end.

Definition invalidPageError : JSError :=
  newError
    ("Invalid --page value. Use an integer between 1 and "
     ++ ofZ TRACKED_KEYWORDS_MAX_PAGE ++ ".").

Definition resolveTrackedKeywordsPageArg (value : option string)
  : Completion Z :=
  match value with
  | None => Normal 1
  | Some v =>
      match parseInt10 (Js.ToString (JStr v)) with
      | Some parsed =>
          if ((parsed <? 1) || (TRACKED_KEYWORDS_MAX_PAGE <? parsed))%bool
          then Throw invalidPageError
          else Normal parsed
      | None => Throw invalidPageError
      end
  end.

Definition resolveTrackedKeywordsSortArg (value : option string)
  : Completion string :=
  match value with
  | None => Normal TRACKED_KEYWORDS_SORT_DEFAULT
  | Some v =>
      let normalized := toLowerCase (trim (Js.ToString (JStr v))) in
      let canonical :=
        if String.eqb normalized "lastupdate" then "lastUpdate"
        else normalized in
      if negb (has TRACKED_KEYWORDS_SORT_FIELDS canonical)
      then Throw (newError
                    ("Invalid --sort value. Supported values: "
                     ++ join ", " TRACKED_KEYWORDS_SORT_FIELDS))
      else Normal canonical
  end.

Definition resolveTrackedKeywordsOrderArg (value : option string)
  : Completion string :=
  match value with
  | None => Normal TRACKED_KEYWORDS_ORDER_DEFAULT
  | Some v =>
      let normalized := toLowerCase (trim (Js.ToString (JStr v))) in
      if negb (has TRACKED_KEYWORDS_ORDER_VALUES normalized)
      then Throw (newError
                    "Invalid --order value. Supported values: asc, desc")
      else Normal normalized
  end.

Definition parseRegionsOption (value : JSValue) : list string :=
  let raw := trim (Js.stringOrEmpty value) in
  if isEmpty raw then []
  else
    let regions :=
      Arrays.notNull
        (List.map (fun entry => normalizeRegionCode (JStr entry))
           (Arrays.split ","%char raw)) in
    Arrays.unique regions.

Definition parseRequiredAppId (value : JSValue) (optionName : string)
  : Completion string :=
  match parseAppInput value with
  | Normal (Some parsed) => Normal (appId parsed)
  | Normal None =>
      Throw (newError
               ("Invalid " ++ optionName
                ++ " value. Use an App Store URL, id-prefixed value, or numeric id."))
  | Throw e => Throw e
  | Unfinished => Unfinished
  end.

(** [if (rest.length > 0) throw new Error(`Unknown arguments: ...`)] *)
Definition rejectUnknownArguments : Cmd unit :=
  rest <- getRest ;;
  if (0 <? List.length rest)%nat
  then throw (newError ("Unknown arguments: " ++ join " " rest))
  else ret tt.

(** [runTrackApp(rest)] up to the reply of the server. *)
Definition runTrackApp : Cmd JSValue :=
  config <- loadConfig ;;
  outputJson <- takeFlag "--json" ;;
  platformValue <- takeOption "--platform" ;;
  regionValue <- takeOption "--region" ;;
  appId <- consumeAppId true ;;
  rejectUnknownArguments ;;;
  accessToken <- lift (requireAuthenticatedAccessToken config) ;;
  platform <- lift (resolvePlatformArg platformValue) ;;
  region <- lift (resolveRegionArg regionValue) ;;
  apiRequest
    (mkApiArgs "/api/cli/apps/track" "POST"
       (JObj [("appId", ofOption appId);
              ("platform", JStr platform);
              ("region", JStr region)])
       (Some accessToken)).

(** [runUntrackApp(rest)] up to the reply of the server. *)
Definition runUntrackApp : Cmd JSValue :=
  config <- loadConfig ;;
  outputJson <- takeFlag "--json" ;;
  platformValue <- takeOption "--platform" ;;
  regionValue <- takeOption "--region" ;;
  appId <- consumeAppId true ;;
  rejectUnknownArguments ;;;
  accessToken <- lift (requireAuthenticatedAccessToken config) ;;
  platform <- lift (resolvePlatformArg platformValue) ;;
  region <- lift (resolveRegionArg regionValue) ;;
  apiRequest
    (mkApiArgs "/api/cli/apps/track" "DELETE"
       (JObj [("appId", ofOption appId);
              ("platform", JStr platform);
              ("region", JStr region)])
       (Some accessToken)).

(** [runSearchApps(rest)] up to the reply of the server. *)
Definition runSearchApps : Cmd JSValue :=
  config <- loadConfig ;;
  outputJson <- takeFlag "--json" ;;
  platformValue <- takeOption "--platform" ;;
  regionValue <- takeOption "--region" ;;
  rest <- getRest ;;
  let unknownFlags :=
    filter (fun value => startsWith "--" (Js.stringOrEmpty (JStr value)))
      rest in
  if (0 <? List.length unknownFlags)%nat
  then throw (newError ("Unknown arguments: " ++ join " " unknownFlags))
  else
    let query :=
      trim (collapseWhiteSpace
              (join " "
                 (filter (fun value => (0 <? String.length value)%nat)
                    (List.map
                       (fun value => trim (Js.stringOrEmpty (JStr value)))
                       rest)))) in
    if isEmpty query then throw (newError "Provide a search query")
    else
      accessToken <- lift (requireAuthenticatedAccessToken config) ;;
      platform <- lift (resolvePlatformArg platformValue) ;;
      region <- lift (resolveRegionArg regionValue) ;;
      apiRequest
        (mkApiArgs "/api/cli/apps/search" "POST"
           (JObj [("query", JStr query);
                  ("platform", JStr platform);
                  ("region", JStr region)])
           (Some accessToken)).

(** The path of the tracked-keywords list request. *)
Definition trackedKeywordsListPath (target : TrackedTarget)
    (platform : string) (region : option string) (page : Z)
    (sort order : string) : string :=
  let searchParams :=
    ((if truthyString region
      then [("region", match region with Some r => r | None => "" end)]
      else [])
     ++ [("page", ofZ page); ("sort", sort); ("order", order)])%list in
  let query := SearchParams.toString searchParams in
  "/api/cli/apps/" ++ encodeURIComponent (appIdentifier target) ++ "/"
  ++ platform ++ "/tracked-keywords"
  ++ (if isEmpty query then "" else "?" ++ query).

(** [runTrackedKeywordsList(rest)] up to the reply of the server. *)
Definition runTrackedKeywordsList : Cmd JSValue :=
  config <- loadConfig ;;
  outputJson <- takeFlag "--json" ;;
  platformValue <- takeOption "--platform" ;;
  regionValue <- takeOption "--region" ;;
  pageValue <- takeOption "--page" ;;
  sortValue <- takeOption "--sort" ;;
  orderValue <- takeOption "--order" ;;
  target <- consumeTrackedKeywordsAppTarget ;;
  rejectUnknownArguments ;;;
  accessToken <- lift (requireAuthenticatedAccessToken config) ;;
  platform <- lift (resolvePlatformArg platformValue) ;;
  region <- lift (resolveOptionalRegionArg regionValue) ;;
  page <- lift (resolveTrackedKeywordsPageArg pageValue) ;;
  sort <- lift (resolveTrackedKeywordsSortArg sortValue) ;;
  order <- lift (resolveTrackedKeywordsOrderArg orderValue) ;;
  apiRequest
    (mkApiArgs (trackedKeywordsListPath target platform region page sort order)
       "GET" JUndefined (Some accessToken)).

(** [String(rest.shift() || '').trim().toLowerCase()] *)
Definition shiftSubcommand : Cmd string :=
  rest <- getRest ;;
  match rest with
  | first :: others =>
      putRest others ;;;
      ret (toLowerCase (trim (Js.stringOrEmpty (JStr first))))
  | [] => ret (toLowerCase (trim (Js.stringOrEmpty JUndefined)))
  end.

(** [rest.unshift(value)] *)
Definition unshift (value : string) : Cmd unit :=
  rest <- getRest ;;
  putRest (value :: rest).

(** [runTrackedKeywords(rest)], the dispatcher of the tracked-keywords
    command. *)
Definition runTrackedKeywords : Cmd JSValue :=
  subcommand <- shiftSubcommand ;;
  if (isEmpty subcommand || startsWith "--" subcommand)%bool then
    (if negb (isEmpty subcommand) then unshift subcommand else ret tt) ;;;
    runTrackedKeywordsList
  else if String.eqb subcommand "list" then runTrackedKeywordsList
  else if String.eqb subcommand "add" then runTrackedKeywordsAdd
  else if String.eqb subcommand "remove" then runTrackedKeywordsRemove
  else
    parsed <- lift (parseAppInput (JStr subcommand)) ;;
    if (match parsed with Some _ => true | None => false end
        || truthyString (normalizePlannedTrackedAppId (JStr subcommand)))%bool
    then unshift subcommand ;;; runTrackedKeywordsList
    else
      throw (newError
               ("Unknown tracked-keywords subcommand: " ++ subcommand
                ++ ". Use list, add, or remove.")).

(** The handler of [run().catch(...)]: the lines it writes to the standard
    error; the process then exits with code 1. *)
Definition reportFailure (error : JSError) : list string :=
  let status := Js.statusOf error in
  if status =? 401 then
    ["Authentication failed. Run `asosuite login` again."]
  else if status =? 402 then
    let subscribeUrl :=
      if (Js.truthy (errPayload error) && isObjectType (errPayload error))%bool
      then match errPayload error with
           | JObj fields => Js.lookup "subscribeUrl" fields
           | _ => JUndefined
           end
      else JNull in
    (errMessage error
     :: match subscribeUrl with
        | JStr s =>
            if negb (isEmpty (trim s)) then [("Subscribe: " ++ s)%string]
            else []
        | _ => []
        end)%list
  else if status =? 429 then
    let retryAfterSeconds :=
      if (Js.truthy (errPayload error) && isObjectType (errPayload error))%bool
      then Js.ToNumber
             (match errPayload error with
              | JObj fields => Js.lookup "retryAfterSeconds" fields
              | _ => JUndefined
              end)
      else NaN in
    (errMessage error
     :: match retryAfterSeconds with
        | Num q =>
            if Js.ltb (Num 0) (Num q)
            then [("Retry after: "
                   ++ Number_toString (inject_Z (Qceiling q)) ++ "s")%string]
            else []
        | NaN => []
        end)%list
  else if status =? 404 then
    ["CLI endpoint not found on server.";
     "Expected server URL: " ++ API_BASE_URL]
  else [errMessage error].

End MoreHandlers.

(** Shapes of normalized texts. *)
Module Shape.
Import JsString.

(** The only white space of [s] is the space character. *)
Definition onlySpaces (s : string) : bool :=
  forallb (fun c => (negb (isWhiteSpace c) || Ascii.eqb c " "%char)%bool) s.

(** No two spaces of [s] are next to each other. *)
Fixpoint noDoubleSpace (s : string) : bool :=
  match s with
  | String a (String b _ as t) =>
      (negb (Ascii.eqb a " "%char && Ascii.eqb b " "%char)
       && noDoubleSpace t)%bool
  | _ => true
  end.

(** A tidy text: not empty, no white space at either end, words separated
    by single spaces. *)
Definition tidy (s : string) : Prop :=
  s <> ""
  /\ Spec.firstNot isWhiteSpace s = true
  /\ Spec.lastNot isWhiteSpace s = true
  /\ onlySpaces s = true
  /\ noDoubleSpace s = true.

Definition isLetter (c : ascii) : bool := (isUpper c || isLower c)%bool.

End Shape.

(** The access token of the credential file, as [getAccessToken] reads it
    from what [loadConfig] returns. *)
Definition storedToken (w : World) : option string :=
  match configFile w with
  | Some config => getAccessToken config
  | None => None
  end.

(** The error [e] is the one of a write of a token and its expiry, both
    not empty, that failed on the credential file [current] and left it
    holding [remains]. *)
Definition failedWrite (env : Env) (current : option JSValue) (e : JSError)
    (remains : option JSValue) : Prop :=
  exists token expiresAt reason,
    token <> "" /\ expiresAt <> ""
    /\ writeResult env current
         (JObj [("accessToken", JStr token); ("expiresAt", JStr expiresAt)])
       = WriteFailed reason remains
    /\ e = newError reason.

(** Runs of commands and what they end in. *)
Module Runs.

(** The run of [c] from [w] ends in a completion and a world that [Q]
    holds of. *)
Definition runs {A : Type} (c : Cmd A) (env : Env) (w : World)
    (Q : Completion A -> World -> Prop) : Prop :=
  Q (fst (c env w)) (snd (c env w)).

(** The command threw before it did anything but take arguments out of the
    array: no request, no timer, no write of the credential file. *)
Definition refused {A : Type} (w : World) (r : Completion A) (w' : World)
  : Prop :=
  (exists e, r = Throw e) /\ Spec.onlyArgsChanged w w'.

(** The command changed the argument array at most, and returned a value
    that [S] holds of or threw. *)
Definition quietly {A : Type} (w : World) (S : A -> World -> Prop)
    (r : Completion A) (w' : World) : Prop :=
  Spec.onlyArgsChanged w w'
  /\ match r with
     | Normal a => S a w'
     | Throw _ => True
     | Unfinished => False
     end.

(** The command made the one request [requestOf args], after it changed
    the argument array at most, and came to an end. *)
Definition requested {A : Type} (env : Env) (w : World)
    (args : ApiArgs) (r : Completion A) (w' : World) : Prop :=
  r <> Unfinished
  /\ exists w1, Spec.onlyArgsChanged w w1
                /\ w' = fetched env (requestOf args) w1.

End Runs.

(** A planned app id: 1 to 64 characters, none of them white space. *)
Definition isPlannedId (p : string) : Prop :=
  (1 <= String.length p <= MAX_PLANNED_TRACKED_APP_ID_LENGTH)%nat
  /\ JsString.forallb (fun c => negb (JsString.isWhiteSpace c)) p = true.

(** A target names a numeric app id or a planned app id, never both. *)
Definition isTarget (target : TrackedTarget) : Prop :=
  (exists id, Spec.isAppId id
              /\ target = mkTrackedTarget id (Some id) None)
  \/ (exists p, isPlannedId p
                /\ target = mkTrackedTarget p None (Some p)).

(** What a run of a command handler ends in: the handler refuses, or it
    makes one request whose parts have been validated.  [w] is the world
    the handler starts from, [r] and [w'] are its completion and the world
    it leaves. *)
Module Outcome.
Import JsString Regex Runs Shape.

(** track-app ([verb] POST) and untrack-app ([verb] DELETE). *)
Definition trackApp (verb : string) (env : Env) (w : World)
    (r : Completion JSValue) (w' : World) : Prop :=
  refused w r w'
  \/ exists id platform region token,
       Spec.isAppId id /\ In platform SUPPORTED_PLATFORMS
       /\ isRegionShape region = true
       /\ storedToken w = Some token
       /\ r <> Unfinished
       /\ w' = fetched env
                 (requestOf
                    (mkApiArgs "/api/cli/apps/track" verb
                       (JObj [("appId", JStr id);
                              ("platform", JStr platform);
                              ("region", JStr region)])
                       (Some token)))
                 (setRest [] w).

(** tracked-keywords add ([verb] POST) and remove ([verb] DELETE). *)
Definition trackedKeywords (verb : string) (env : Env) (w : World)
    (r : Completion JSValue) (w' : World) : Prop :=
  refused w r w'
  \/ exists platform region keywords token args,
       In platform SUPPORTED_PLATFORMS
       /\ isRegionShape region = true
       /\ (1 <= List.length keywords <= MAX_TRACKED_KEYWORDS_ADD)%nat
       /\ (forall k, In k keywords -> tidy k)
       /\ storedToken w = Some token
       /\ ((exists id,
              Spec.isAppId id
              /\ args = mkApiArgs "/api/cli/apps/keywords" verb
                          (JObj [("appId", JStr id);
                                 ("platform", JStr platform);
                                 ("region", JStr region);
                                 ("keywords", JArr (List.map JStr keywords))])
                          (Some token))
           \/ (exists planned,
                 isPlannedId planned
                 /\ args = mkApiArgs "/api/cli/apps/planned/keywords" verb
                             (JObj [("plannedTrackedAppId", JStr planned);
                                    ("platform", JStr platform);
                                    ("region", JStr region);
                                    ("keywords",
                                     JArr (List.map JStr keywords))])
                             (Some token)))
       /\ requested env w args r w'.

(** keywords. *)
Definition keywordMetrics (env : Env) (w : World)
    (r : Completion JSValue) (w' : World) : Prop :=
  refused w r w'
  \/ exists region keywords appId platform token,
       (1 <= List.length keywords <= MAX_KEYWORDS)%nat
       /\ (forall k, In k keywords -> tidy k)
       /\ (forall id, appId = Some id -> Spec.isAppId id)
       /\ In platform SUPPORTED_PLATFORMS
       /\ storedToken w = Some token
       /\ requested env w
            (mkApiArgs "/api/cli/keywords/metrics" "POST"
               (JObj [("region", JStr region);
                      ("keywords", JArr (List.map JStr keywords));
                      ("appId", ofOption appId);
                      ("platform", JStr platform)])
               (Some token))
            r w'.

(** search-apps. *)
Definition searchApps (env : Env) (w : World)
    (r : Completion JSValue) (w' : World) : Prop :=
  refused w r w'
  \/ exists query platform region token,
       tidy query /\ In platform SUPPORTED_PLATFORMS
       /\ isRegionShape region = true
       /\ storedToken w = Some token
       /\ requested env w
            (mkApiArgs "/api/cli/apps/search" "POST"
               (JObj [("query", JStr query);
                      ("platform", JStr platform);
                      ("region", JStr region)])
               (Some token))
            r w'.

Section WithHost.
Context {host : JSHost}.

(** The path and query of the tracked-keywords list request, written
    out. *)
Definition listPath (identifier platform : string) (region : option string)
    (page : Z) (sort order : string) : string :=
  "/api/cli/apps/" ++ encodeURIComponent identifier ++ "/" ++ platform
  ++ "/tracked-keywords?"
  ++ match region with
     | Some code => "region=" ++ code ++ "&"
     | None => ""
     end
  ++ "page=" ++ ofZ page ++ "&sort=" ++ sort ++ "&order=" ++ order.

(** The region of the tracked-keywords list request, for the argument
    array [args] of the command: none without the --region option,
    otherwise the code [normalizeRegionCode] returns for its value. *)
Definition listRegion (args : list string) (region : option string)
  : Prop :=
  match Args.optionOf "--region"
          (Args.withoutOption "--platform" (Args.withoutFlag "--json" args))
  with
  | Some given =>
      exists code, normalizeRegionCode (JStr given) = Some code
                   /\ region = Some code
  | None => region = None
  end.

(** tracked-keywords list. *)
Definition trackedKeywordsList (env : Env) (w : World)
    (r : Completion JSValue) (w' : World) : Prop :=
  refused w r w'
  \/ exists target platform region page sort order token,
       isTarget target /\ In platform SUPPORTED_PLATFORMS
       /\ listRegion (rest w) region
       /\ (forall code, region = Some code -> isRegionShape code = true)
       /\ 1 <= page <= TRACKED_KEYWORDS_MAX_PAGE
       /\ In sort TRACKED_KEYWORDS_SORT_FIELDS
       /\ In order TRACKED_KEYWORDS_ORDER_VALUES
       /\ storedToken w = Some token
       /\ r <> Unfinished
       /\ w' = fetched env
                 (mkRequest
                    (API_BASE_URL
                     ++ listPath (appIdentifier target) platform region page
                          sort order)
                    "GET"
                    [("Accept", "application/json");
                     ("Authorization", "Bearer " ++ token)]
                    None)
                 (setRest [] w).

End WithHost.

End Outcome.

(** Worlds and environments of further examples. *)
Module MoreExamples.
Import Examples.

(** A server that accepts the first request with an empty JSON object. *)
Definition accepting : Env := replyWith [okReply].

(** An invocation with the arguments [args] after a login. *)
Definition signedIn (args : list string) : World :=
  worldOf args (Some credential).

(** An invocation with the arguments [args] without a credential file. *)
Definition signedOut (args : list string) : World := worldOf args None.

End MoreExamples.

(** Replies of further examples. *)
Module ReplyExamples.
Import Examples.

(** The text [{"error":"slow down","retryAfterSeconds":2.5}] and the reply
    429 that holds it. *)
Definition slowDownText : string :=
  "{" ++ member "error" "slow down" ++ ","
  ++ rawMember "retryAfterSeconds" "2.5" ++ "}".

Definition slowDownReply : Response :=
  jsonReply 429 "Too Many Requests" slowDownText.

(** A success whose body is JSON text under a plain-text content type. *)
Definition plainReply : Response :=
  mkResponse 200 "OK" "https://server.asosuite.com/api/cli"
    (Some "text/plain") (Some "{}").

End ReplyExamples.

(** [printTable(headers, rows)]: the lines it prints.  The cells are the
    strings [String(cell)]; a width is a number or [NaN] ([None]), which is
    what [Math.max] gives a column that the headers do not have. *)
Module Table.

(** [c.repeat(n)] *)
Fixpoint repeat (c : ascii) (n : nat) : string :=
  match n with
  | O => ""
  | S k => String c (repeat c k)
  end.

(** [s.padEnd(width)] and [s.padStart(width)] *)
Definition padEnd (s : string) (width : option nat) : string :=
  match width with
  | Some n => s ++ repeat " " (n - String.length s)
  | None => s
  end.

Definition padStart (s : string) (width : option nat) : string :=
  match width with
  | Some n => repeat " " (n - String.length s) ++ s
  | None => s
  end.

(** One turn of the outer loop: [widths[index] = Math.max(widths[index],
    cell.length)] for every cell of the row. *)
Fixpoint widen (widths : list (option nat)) (row : list string)
  : list (option nat) :=
  match row with
  | [] => widths
  | cell :: cells =>
      match widths with
      | width :: others =>
          match width with
          | Some n => Some (Nat.max n (String.length cell))
          | None => None
          end :: widen others cells
      | [] => None :: widen [] cells
      end
  end.

Definition columnWidths (headers : list string) (rows : list (list string))
  : list (option nat) :=
  fold_left widen rows (List.map (fun header => Some (String.length header))
                          headers).

(** The cells of [row.map((cell, index) => ...)] from [index] on. *)
Fixpoint formatCells (widths : list (option nat)) (index : nat)
    (row : list string) : list string :=
  match row with
  | [] => []
  | cell :: cells =>
      (if (index =? 0)%nat
       then padEnd cell (nth index widths None)
       else padStart cell (nth index widths None))
      :: formatCells widths (S index) cells
  end.

Definition formatRow (widths : list (option nat)) (row : list string)
  : string :=
  JsString.join "  " (formatCells widths 0 row).

Definition separator (widths : list (option nat)) : string :=
  JsString.join "  "
    (List.map (fun width => match width with
                            | Some n => repeat "-" n
                            | None => ""
                            end)
       widths).

Definition printTable (headers : list string) (rows : list (list string))
  : list string :=
  let widths := columnWidths headers rows in
  formatRow widths headers :: separator widths
  :: List.map (formatRow widths) rows.

(** Every width is the length of a header or of a cell of its column. *)
Definition attained (widths : list nat) (headers : list string)
    (rows : list (list string)) : Prop :=
  forall index width,
    nth_error widths index = Some width ->
    exists row cell,
      In row (headers :: rows) /\ nth_error row index = Some cell
      /\ String.length cell = width.

(** The cells of a row fit the widths, column by column. *)
Definition fits (widths : list nat) (row : list string) : Prop :=
  Forall2 (fun width cell => (String.length cell <= width)%nat) widths row.

(** The sum of the widths. *)
Definition total (widths : list nat) : nat := fold_right Nat.add O widths.

End Table.

(* ================================================================== *)
(** * Charts, ratings, planned apps and events *)
(* ================================================================== *)

Section FurtherHandlers.
Context {host : JSHost}.
Import JsString.

Definition isSome {A : Type} (v : option A) : bool :=
  match v with
  | Some _ => true
  | None => false
  end.

(** [periodValue == null ? DEFAULT_PERIOD : parsePeriodValue(periodValue)]
    and the check [!period] that follows it. *)
Definition resolvePeriod (periodValue : option string) : Completion Z :=
  let period :=
    match periodValue with
    | None => Some DEFAULT_PERIOD
    | Some v => parsePeriodValue (JStr v)
    end in
  match period with
  | Some p =>
      if p =? 0
      then Throw (newError "Invalid --period value. Allowed values: 7, 30, 90")
      else Normal p
  | None => Throw (newError "Invalid --period value. Allowed values: 7, 30, 90")
  end.

(** The regions of a charts request, from --regions or --region. *)
Definition resolveRegions (regionsValue regionValue : option string)
  : Completion (list string) :=
  match regionsValue with
  | Some v =>
      let regions := parseRegionsOption (JStr v) in
      if (List.length regions =? 0)%nat
      then Throw (newError
                    "Invalid --regions value. Use comma-separated region codes.")
      else Normal regions
  | None =>
      match regionValue with
      | Some v =>
          let region := normalizeRegionCode (JStr v) in
          if negb (truthyString region) then Throw invalidRegionError
          else Normal [match region with Some r => r | None => "" end]
      | None => Normal []
      end
  end.

(** The body [{ period, ...(regions.length > 0 ? { regions } : {}) }]. *)
Definition chartsBody (period : Z) (regions : list string) : JSValue :=
  JObj ([("period", JNum (Num (inject_Z period)))]
        ++ (if (0 <? List.length regions)%nat
            then [("regions", JArr (List.map JStr regions))]
            else []))%list.

(** [runRankings(rest)] up to the reply of the server. *)
Definition runRankings : Cmd JSValue :=
  config <- loadConfig ;;
  outputJson <- takeFlag "--json" ;;
  platformValue <- takeOption "--platform" ;;
  periodValue <- takeOption "--period" ;;
  regionsValue <- takeOption "--regions" ;;
  regionValue <- takeOption "--region" ;;
  appId <- consumeAppId true ;;
  rejectUnknownArguments ;;;
  if (isSome regionsValue && isSome regionValue)%bool
  then throw (newError "Use either --region or --regions, not both")
  else
    accessToken <- lift (requireAuthenticatedAccessToken config) ;;
    platform <- lift (resolvePlatformArg platformValue) ;;
    period <- lift (resolvePeriod periodValue) ;;
    regions <- lift (resolveRegions regionsValue regionValue) ;;
    apiRequest
      (mkApiArgs
         ("/api/cli/apps/" ++ encodeURIComponent (Js.ToString (ofOption appId))
          ++ "/" ++ platform ++ "/charts")
         "POST" (chartsBody period regions) (Some accessToken)).

(** [runRatings(rest)] up to the reply of the server. *)
Definition runRatings : Cmd JSValue :=
  config <- loadConfig ;;
  outputJson <- takeFlag "--json" ;;
  platformValue <- takeOption "--platform" ;;
  periodValue <- takeOption "--period" ;;
  appId <- consumeAppId true ;;
  rejectUnknownArguments ;;;
  accessToken <- lift (requireAuthenticatedAccessToken config) ;;
  platform <- lift (resolvePlatformArg platformValue) ;;
  period <- lift (resolvePeriod periodValue) ;;
  apiRequest
    (mkApiArgs
       ("/api/cli/apps/" ++ encodeURIComponent (Js.ToString (ofOption appId))
        ++ "/" ++ platform ++ "/ratings")
       "POST" (JObj [("period", JNum (Num (inject_Z period)))])
       (Some accessToken)).

(** [runPlanApp(rest)] up to the reply of the server. *)
Definition runPlanApp : Cmd JSValue :=
  config <- loadConfig ;;
  outputJson <- takeFlag "--json" ;;
  nameValue <- takeOption "--name" ;;
  plannedTrackedAppIdValue <- takeOption "--id" ;;
  platformValue <- takeOption "--platform" ;;
  regionValue <- takeOption "--region" ;;
  rejectUnknownArguments ;;;
  let name := trim (Js.stringOrEmpty (ofOption nameValue)) in
  if isEmpty name then throw (newError "Provide a name via --name <APP_NAME>")
  else
    let plannedTrackedAppId :=
      normalizePlannedTrackedAppId (ofOption plannedTrackedAppIdValue) in
    if (isSome plannedTrackedAppIdValue
        && negb (truthyString plannedTrackedAppId))%bool
    then throw (newError
                  ("Invalid --id value. Planned app ids must be 1-"
                   ++ ofZ (Z.of_nat MAX_PLANNED_TRACKED_APP_ID_LENGTH)
                   ++ " chars."))
    else
      accessToken <- lift (requireAuthenticatedAccessToken config) ;;
      platform <- lift (resolvePlatformArg platformValue) ;;
      region <- lift (resolveRegionArg regionValue) ;;
      apiRequest
        (mkApiArgs "/api/cli/apps/planned" "POST"
           (JObj ([("name", JStr name);
                   ("platform", JStr platform);
                   ("region", JStr region)]
                  ++ (if truthyString plannedTrackedAppId
                      then [("plannedTrackedAppId",
                             ofOption plannedTrackedAppId)]
                      else []))%list)
           (Some accessToken)).

(** [runUnplanApp(rest)] up to the reply of the server. *)
Definition runUnplanApp : Cmd JSValue :=
  config <- loadConfig ;;
  outputJson <- takeFlag "--json" ;;
  plannedTrackedAppIdValue <- takeOption "--id" ;;
  platformValue <- takeOption "--platform" ;;
  regionValue <- takeOption "--region" ;;
  rejectUnknownArguments ;;;
  let plannedTrackedAppId :=
    normalizePlannedTrackedAppId (ofOption plannedTrackedAppIdValue) in
  if negb (truthyString plannedTrackedAppId)
  then throw (newError "Provide a planned app id via --id <PLANNED_APP_ID>")
  else
    accessToken <- lift (requireAuthenticatedAccessToken config) ;;
    platform <- lift (resolvePlatformArg platformValue) ;;
    region <- lift (resolveRegionArg regionValue) ;;
    apiRequest
      (mkApiArgs "/api/cli/apps/planned" "DELETE"
         (JObj [("plannedTrackedAppId", ofOption plannedTrackedAppId);
                ("platform", JStr platform);
                ("region", JStr region)])
         (Some accessToken)).

(** [runEventsDelete(rest)] up to the reply of the server.  The id is the
    number [Number.parseInt] returns: the double nearest the integer read,
    not finite when there is none. *)
Definition runEventsDelete : Cmd JSValue :=
  config <- loadConfig ;;
  outputJson <- takeFlag "--json" ;;
  rest <- getRest ;;
  if negb (List.length rest =? 1)%nat
  then throw (newError "Provide an event id: events delete <EVENT_ID>")
  else
    match parseInt10 (trim (Js.ToString (JStr (nth 0 rest "")))) with
    | Some parsed =>
        match Js.toDouble parsed with
        | Some id =>
            if Qle_bool id 0
            then throw (newError "Invalid event id. Use a positive integer.")
            else
              accessToken <- lift (requireAuthenticatedAccessToken config) ;;
              apiRequest
                (mkApiArgs ("/api/cli/events/" ++ Number_toString id)
                   "DELETE" JUndefined (Some accessToken))
        | None =>
            throw (newError "Invalid event id. Use a positive integer.")
        end
    | None => throw (newError "Invalid event id. Use a positive integer.")
    end.

(** [`${n}`.padStart(2, '0')] *)
Definition padTwo (n : Z) : string :=
  let digits := ofZ n in
  Table.repeat "0" (2 - String.length digits) ++ digits.

(** [toLocalDateOnly()], of [new Date()]. *)
Definition toLocalDateOnly : Cmd string :=
  fun env w =>
    let date := localDate env (clock w) in
    (Normal (ofZ (getFullYear date) ++ "-" ++ padTwo (getMonth date + 1)
             ++ "-" ++ padTwo (getDate date)), w).

(** [appOptionValue ? parseRequiredAppId(appOptionValue, '--app') : null] *)
Definition optionalAppId (appOptionValue : option string)
  : Completion (option string) :=
  if truthyString appOptionValue
  then
    match parseRequiredAppId (ofOption appOptionValue) "--app" with
    | Normal id => Normal (Some id)
    | Throw e => Throw e
    | Unfinished => Unfinished
    end
  else Normal None.

(** [runEventsList(rest)] up to the reply of the server. *)
Definition runEventsList : Cmd JSValue :=
  config <- loadConfig ;;
  outputJson <- takeFlag "--json" ;;
  appOptionValue <- takeOption "--app" ;;
  rejectUnknownArguments ;;;
  accessToken <- lift (requireAuthenticatedAccessToken config) ;;
  appId <- lift (optionalAppId appOptionValue) ;;
  let query :=
    SearchParams.toString
      (match appId with
       | Some id => if isEmpty id then [] else [("appId", id)]
       | None => []
       end) in
  apiRequest
    (mkApiArgs
       ("/api/cli/events" ++ (if isEmpty query then "" else "?" ++ query))
       "GET" JUndefined (Some accessToken)).

(** [runEventsAdd(rest)] up to the reply of the server. *)
Definition runEventsAdd : Cmd JSValue :=
  config <- loadConfig ;;
  outputJson <- takeFlag "--json" ;;
  textValue <- takeOption "--text" ;;
  dateValue <- takeOption "--date" ;;
  appOptionValue <- takeOption "--app" ;;
  rejectUnknownArguments ;;;
  let text := trim (Js.stringOrEmpty (ofOption textValue)) in
  if isEmpty text then throw (newError "Provide event text via --text <TEXT>")
  else
    date <- match dateValue with
            | None => today <- toLocalDateOnly ;; ret (Some today)
            | Some given => ret (normalizeDateOnly (JStr given))
            end ;;
    if negb (truthyString date)
    then throw (newError "Invalid --date value. Use YYYY-MM-DD.")
    else
      appId <- lift (optionalAppId appOptionValue) ;;
      accessToken <- lift (requireAuthenticatedAccessToken config) ;;
      apiRequest
        (mkApiArgs "/api/cli/events" "POST"
           (JObj ([("date", ofOption date);
                   ("text", JStr text)]
                  ++ (if truthyString appId
                      then [("appId", ofOption appId)]
                      else []))%list)
           (Some accessToken)).

End FurtherHandlers.

(** The outcomes of these handlers. *)
Module FurtherOutcome.
Import JsString Regex Runs.

Section WithHost.
Context {host : JSHost}.

(** charts ([kind] charts) and ratings ([kind] ratings, without
    regions). *)
Definition periodRequest (kind : string) (env : Env) (w : World)
    (r : Completion JSValue) (w' : World) : Prop :=
  refused w r w'
  \/ exists id platform period regions token,
       Spec.isAppId id /\ In platform SUPPORTED_PLATFORMS
       /\ In period [7; 30; 90]
       /\ NoDup regions
       /\ (forall code, In code regions -> isRegionShape code = true)
       /\ (kind = "ratings" -> regions = [])
       /\ storedToken w = Some token
       /\ r <> Unfinished
       /\ w' = fetched env
                 (requestOf
                    (mkApiArgs
                       ("/api/cli/apps/" ++ encodeURIComponent id ++ "/"
                        ++ platform ++ "/" ++ kind)
                       "POST"
                       (JObj (("period", JNum (Num (inject_Z period)))
                              :: match regions with
                                 | [] => []
                                 | _ => [("regions",
                                          JArr (List.map JStr regions))]
                                 end))
                       (Some token)))
                 (setRest [] w).

(** events delete: the id of the request is the number read from the
    only argument that is left without --json, the integer [parsed] as
    the double [id]: a positive number, and up to 2^53 the integer itself,
    at least 1. *)
Definition eventsDelete (env : Env) (w : World)
    (r : Completion JSValue) (w' : World) : Prop :=
  refused w r w'
  \/ exists only parsed id token,
       Args.withoutFlag "--json" (rest w) = [only]
       /\ parseInt10 (trim only) = Some parsed
       /\ Js.toDouble parsed = Some id
       /\ (0 < id)%Q
       /\ (Z.abs parsed <= 2 ^ 53 -> id = inject_Z parsed /\ 1 <= parsed)
       /\ storedToken w = Some token
       /\ r <> Unfinished
       /\ w' = fetched env
                 (requestOf
                    (mkApiArgs ("/api/cli/events/" ++ Number_toString id)
                       "DELETE" JUndefined (Some token)))
                 (setRest [only] w).

(** The name of the plan-app request, for the argument array [args] of
    the command: the trimmed value of --name. *)
Definition planName (args : list string) (name : string) : Prop :=
  exists given,
    Args.optionOf "--name" (Args.withoutFlag "--json" args) = Some given
    /\ name = trim given.

(** The planned app id of the plan-app request: none without the --id
    option, otherwise the id [normalizePlannedTrackedAppId] returns for its
    value. *)
Definition planId (args : list string) (planned : option string) : Prop :=
  match Args.optionOf "--id"
          (Args.withoutOption "--name" (Args.withoutFlag "--json" args))
  with
  | Some given =>
      exists p, normalizePlannedTrackedAppId (JStr given) = Some p
                /\ planned = Some p
  | None => planned = None
  end.

(** The planned app id of the unplan-app request: the id
    [normalizePlannedTrackedAppId] returns for the value of --id. *)
Definition unplanId (args : list string) (planned : string) : Prop :=
  exists given,
    Args.optionOf "--id" (Args.withoutFlag "--json" args) = Some given
    /\ normalizePlannedTrackedAppId (JStr given) = Some planned.

(** plan-app. *)
Definition planApp (env : Env) (w : World)
    (r : Completion JSValue) (w' : World) : Prop :=
  refused w r w'
  \/ exists name platform region planned token,
       name <> "" /\ trim name = name
       /\ planName (rest w) name
       /\ planId (rest w) planned
       /\ In platform SUPPORTED_PLATFORMS
       /\ isRegionShape region = true
       /\ (forall p, planned = Some p -> isPlannedId p)
       /\ storedToken w = Some token
       /\ r <> Unfinished
       /\ w' = fetched env
                 (requestOf
                    (mkApiArgs "/api/cli/apps/planned" "POST"
                       (JObj ([("name", JStr name);
                               ("platform", JStr platform);
                               ("region", JStr region)]
                              ++ match planned with
                                 | Some p =>
                                     [("plannedTrackedAppId", JStr p)]
                                 | None => []
                                 end)%list)
                       (Some token)))
                 (setRest [] w).

(** unplan-app. *)
Definition unplanApp (env : Env) (w : World)
    (r : Completion JSValue) (w' : World) : Prop :=
  refused w r w'
  \/ exists planned platform region token,
       isPlannedId planned
       /\ unplanId (rest w) planned
       /\ In platform SUPPORTED_PLATFORMS
       /\ isRegionShape region = true
       /\ storedToken w = Some token
       /\ r <> Unfinished
       /\ w' = fetched env
                 (requestOf
                    (mkApiArgs "/api/cli/apps/planned" "DELETE"
                       (JObj [("plannedTrackedAppId", JStr planned);
                              ("platform", JStr platform);
                              ("region", JStr region)])
                       (Some token)))
                 (setRest [] w).

End WithHost.

End FurtherOutcome.

(** The handlers that need a stored access token. *)
Definition authenticatedHandlers {host : JSHost} : list (Cmd JSValue) :=
  [runKeywordMetrics; runSearchApps; runTrackApp; runUntrackApp;
   runTrackedKeywords; runTrackedKeywordsList; runTrackedKeywordsAdd;
   runTrackedKeywordsRemove; runRankings; runRatings; runPlanApp;
   runUnplanApp; runEventsDelete].


(* ================================================================== *)
(** * Properties of the string operations *)
(* ================================================================== *)

Module StringFacts.
Import JsString.

Lemma isEmpty_true (s : string) : isEmpty s = true <-> s = "".
Proof. destruct s; simpl; split; congruence. Qed.

Lemma isEmpty_false (s : string) : isEmpty s = false <-> s <> "".
Proof. destruct s; simpl; split; congruence. Qed.

Lemma length_zero_isEmpty (s : string) :
  (0 <? String.length s)%nat = negb (isEmpty s).
Proof. destruct s; reflexivity. Qed.

Lemma append_empty_r (s : string) : s ++ "" = s.
Proof. induction s as [|c s IH]; simpl; [reflexivity | now rewrite IH]. Qed.

Lemma append_assoc (a b c : string) : (a ++ b) ++ c = a ++ (b ++ c).
Proof. induction a as [|x a IH]; simpl; [reflexivity | now rewrite IH]. Qed.

Lemma length_append (a b : string) :
  String.length (a ++ b) = (String.length a + String.length b)%nat.
Proof. induction a as [|x a IH]; simpl; [reflexivity | now rewrite IH]. Qed.

Lemma dropWhile_all (p : ascii -> bool) (pre s : string) :
  forallb p pre = true -> dropWhile p (pre ++ s) = dropWhile p s.
Proof.
  induction pre as [|c pre IH]; simpl; intros H; [reflexivity|].
  apply andb_true_iff in H as [Hc Hpre]. rewrite Hc. now apply IH.
Qed.

Lemma dropWhile_firstNot (p : ascii -> bool) (s : string) :
  Spec.firstNot p s = true -> dropWhile p s = s.
Proof.
  destruct s as [|c s]; simpl; intros H; [reflexivity|].
  apply negb_true_iff in H. now rewrite H.
Qed.

Lemma takeWhile_all (p : ascii -> bool) (s t : string) :
  forallb p s = true -> Spec.firstNot p t = true ->
  takeWhile p (s ++ t) = s /\ dropWhile p (s ++ t) = t.
Proof.
  intros Hs Ht. induction s as [|c s IH]; simpl in *.
  - destruct t as [|d t]; simpl in *; [easy|].
    apply negb_true_iff in Ht. now rewrite Ht.
  - apply andb_true_iff in Hs as [Hc Hs]. rewrite Hc.
    destruct (IH Hs) as [E1 E2]. now rewrite E1, E2.
Qed.

Lemma dropWhileEnd_all (p : ascii -> bool) (s : string) :
  forallb p s = true -> dropWhileEnd p s = "".
Proof.
  induction s as [|c s IH]; simpl; intros H; [reflexivity|].
  apply andb_true_iff in H as [Hc Hs]. now rewrite (IH Hs), Hc.
Qed.

Lemma dropWhileEnd_lastNot (p : ascii -> bool) (core suf : string) :
  core <> "" -> Spec.lastNot p core = true -> forallb p suf = true ->
  dropWhileEnd p (core ++ suf) = core.
Proof.
  induction core as [|c core IH]; intros Hne Hlast Hsuf; [congruence|].
  destruct core as [|d core].
  - simpl in *. rewrite (dropWhileEnd_all _ _ Hsuf).
    apply negb_true_iff in Hlast. now rewrite Hlast.
  - change (String c (String d core) ++ suf)
      with (String c (String d core ++ suf)).
    cbn [dropWhileEnd]. rewrite IH; [|discriminate|exact Hlast|exact Hsuf].
    simpl. now rewrite andb_false_r.
Qed.

(** Stripping a class of characters from both ends of
    [pre ++ core ++ suf] leaves [core]. *)
Lemma strip_both_ends (p : ascii -> bool) (pre core suf : string) :
  forallb p pre = true -> forallb p suf = true ->
  Spec.firstNot p core = true -> Spec.lastNot p core = true ->
  dropWhileEnd p (dropWhile p (pre ++ core ++ suf)) = core.
Proof.
  intros Hpre Hsuf Hfirst Hlast.
  rewrite (dropWhile_all _ _ _ Hpre).
  destruct core as [|c core].
  - simpl. assert (E : dropWhile p suf = "").
    { clear -Hsuf. induction suf as [|c s IH]; simpl in *; [reflexivity|].
      apply andb_true_iff in Hsuf as [Hc Hs]. rewrite Hc. auto. }
    now rewrite E.
  - rewrite dropWhile_firstNot.
    + apply dropWhileEnd_lastNot; [discriminate|exact Hlast|exact Hsuf].
    + exact Hfirst.
Qed.

End StringFacts.

(* ================================================================== *)
(** * Keyword normalization (C7) *)
(* ================================================================== *)

Section KeywordFacts.
Context {host : JSHost}.
Import JsString.

Lemma stringOrEmpty_JStr (s : string) : Js.stringOrEmpty (JStr s) = s.
Proof. destruct s; reflexivity. Qed.

Lemma normalizeKeywordArgs_refines (rest : list JSValue) :
  normalizeKeywordArgs rest = Spec.normalizeKeywordList rest.
Proof.
  unfold normalizeKeywordArgs, Spec.normalizeKeywordList.
  rewrite !map_map.
  induction rest as [|v rest IH]; simpl; [reflexivity|].
  rewrite StringFacts.length_zero_isEmpty. fold (Spec.normalizeKeyword v).
  destruct (negb (isEmpty (Spec.normalizeKeyword v))); now rewrite IH.
Qed.

Lemma normalizeKeywordArgs_app (xs ys : list JSValue) :
  normalizeKeywordArgs (xs ++ ys)
  = (normalizeKeywordArgs xs ++ normalizeKeywordArgs ys)%list.
Proof.
  unfold normalizeKeywordArgs. now rewrite !map_app, filter_app.
Qed.

Lemma normalizeKeywordArgs_nonempty (rest : list JSValue) (k : string) :
  In k (normalizeKeywordArgs rest) -> k <> "".
Proof.
  unfold normalizeKeywordArgs. intros H. apply filter_In in H as [_ H].
  destruct k; [discriminate | discriminate].
Qed.

(** C7. Keyword-list normalization is, item by item, trim, strip the
    leading and the trailing run of quote characters, collapse white space
    and trim again, followed by dropping the empty results; it distributes
    over concatenation, so the order of the input is kept and equal items
    are not merged; stripping removes the whole run of quotes at each end;
    and the list of the specification's example yields
    ['run tracker', 'a b']. *)
Theorem C7_normalizeKeywordArgs :
  (forall rest : list JSValue,
      normalizeKeywordArgs rest
      = filter (fun keyword => negb (isEmpty keyword))
          (List.map
             (fun item =>
                trim (collapseWhiteSpace
                        (stripQuotes (trim (Js.stringOrEmpty item)))))
             rest))
  /\ (forall xs ys : list JSValue,
         normalizeKeywordArgs (xs ++ ys)
         = (normalizeKeywordArgs xs ++ normalizeKeywordArgs ys)%list)
  /\ (forall item : JSValue,
         normalizeKeywordArgs [item; item]
         = (normalizeKeywordArgs [item] ++ normalizeKeywordArgs [item])%list)
  /\ (forall quotes1 core quotes2 : string,
         forallb isQuote quotes1 = true ->
         forallb isQuote quotes2 = true ->
         Spec.firstNot isQuote core = true ->
         Spec.lastNot isQuote core = true ->
         stripQuotes (quotes1 ++ core ++ quotes2) = core)
  /\ normalizeKeywordArgs
       [JStr ("  " ++ Examples.quoted "run tracker" ++ "  "); JStr "";
        JStr (Examples.quoted "a   b")]
     = ["run tracker"; "a b"].
Proof.
  split; [|split; [|split; [|split]]].
  - intros rest. now rewrite normalizeKeywordArgs_refines.
  - apply normalizeKeywordArgs_app.
  - intros item. apply (normalizeKeywordArgs_app [item] [item]).
  - intros q1 core q2 H1 H2 H3 H4. unfold stripQuotes.
    now apply StringFacts.strip_both_ends.
  - unfold normalizeKeywordArgs. simpl List.map.
    rewrite !stringOrEmpty_JStr. reflexivity.
Qed.

End KeywordFacts.

(** C7 on a concrete run of quotes. *)
Lemma C7_normalizeKeywordArgs_witness :
  JsString.stripQuotes
    (("'" ++ Examples.quoted "") ++ "run fast's tracker" ++ Examples.quoted "")
  = "run fast's tracker".
Proof.
  apply (proj1 (proj2 (proj2 (proj2
           (C7_normalizeKeywordArgs (host := modelHost))))));
    reflexivity.
Defined.

(* ================================================================== *)
(** * The gateway's errors (C2, C10) *)
(* ================================================================== *)

Section GatewayFacts.
Context {host : JSHost}.
Import JsString.

(** A reply with a non-success status makes [apiRequest] throw an error
    that carries the status and what [parseErrorResponse] made of the
    body. *)
Lemma apiRequest_failure (args : ApiArgs) (env : Env) (w : World)
    (response : Response) :
  respond env (served w) (requestOf args) = Responded response ->
  ok response = false ->
  apiRequest args env w
  = (Throw (mkError PlainError (message (parseErrorResponse response))
              (Some (status response))
              (payload (parseErrorResponse response))),
     fetched env (requestOf args) w).
Proof.
  intros Hr Hok. unfold apiRequest, bind, fetch. rewrite Hr, Hok.
  reflexivity.
Qed.

Lemma parseErrorResponse_empty (response : Response) :
  body response = None \/ body response = Some "" ->
  parseErrorResponse response
  = mkParsedError (ofZ (status response) ++ " " ++ statusText response)
      JNull.
Proof.
  unfold parseErrorResponse. intros [H | H]; rewrite H; reflexivity.
Qed.

Lemma parseErrorResponse_json_error (response : Response) (text error : string)
    (fields : list (string * JSValue)) :
  body response = Some text -> text <> "" ->
  JSON_parse text = Some (JObj fields) ->
  Js.lookup "error" fields = JStr error ->
  parseErrorResponse response = mkParsedError error (JObj fields).
Proof.
  intros Hb Hne Hp He. unfold parseErrorResponse. rewrite Hb.
  apply StringFacts.isEmpty_false in Hne. rewrite Hne, Hp. simpl.
  now rewrite He.
Qed.

Lemma parseErrorResponse_json_other (response : Response) (text : string)
    (parsed : JSValue) :
  body response = Some text -> text <> "" ->
  JSON_parse text = Some parsed ->
  stringErrorField parsed = None ->
  parseErrorResponse response = mkParsedError text parsed.
Proof.
  intros Hb Hne Hp He. unfold parseErrorResponse. rewrite Hb.
  apply StringFacts.isEmpty_false in Hne. rewrite Hne, Hp, He.
  now destruct (Js.truthy parsed && isObjectType parsed)%bool.
Qed.

Lemma parseErrorResponse_html (response : Response) (text : string) :
  body response = Some text -> text <> "" ->
  JSON_parse text = None -> looksLikeHtml text = true ->
  parseErrorResponse response
  = mkParsedError
      ("Request failed (" ++ ofZ (status response) ++ " "
       ++ statusText response ++ "). Received HTML response from "
       ++ getResponseOrigin response ++ ".") JNull.
Proof.
  intros Hb Hne Hp Hh. unfold parseErrorResponse. rewrite Hb.
  apply StringFacts.isEmpty_false in Hne. now rewrite Hne, Hp, Hh.
Qed.

Lemma parseErrorResponse_raw (response : Response) (text : string) :
  body response = Some text -> text <> "" ->
  JSON_parse text = None -> looksLikeHtml text = false ->
  parseErrorResponse response = mkParsedError text JNull.
Proof.
  intros Hb Hne Hp Hh. unfold parseErrorResponse. rewrite Hb.
  apply StringFacts.isEmpty_false in Hne. now rewrite Hne, Hp, Hh.
Qed.

(** C2, amended. For every reply with a non-success status whose body text
    is not empty, [apiRequest] throws an error that carries the numeric
    status, and: when the body parses as JSON to an object with a string
    [error] field, the message is that field and the payload the parsed
    object; when parsing fails and the body looks like HTML, the message is
    the line made of the status, the status text and the origin of the
    reply, with a null payload; when parsing fails and the body does not
    look like HTML, the message is the body text with a null payload; and
    when the body parses to anything else, the message is the body text
    and the payload the parsed value. *)
Theorem C2_error_from_body (args : ApiArgs) (env : Env) (w : World)
    (response : Response) (text : string) :
  respond env (served w) (requestOf args) = Responded response ->
  ok response = false ->
  body response = Some text ->
  text <> "" ->
  exists (msg : string) (pay : JSValue),
    fst (apiRequest args env w)
    = Throw (mkError PlainError msg (Some (status response)) pay)
    /\ (forall fields error,
           JSON_parse text = Some (JObj fields) ->
           Js.lookup "error" fields = JStr error ->
           msg = error /\ pay = JObj fields)
    /\ (JSON_parse text = None -> looksLikeHtml text = true ->
        msg = "Request failed (" ++ ofZ (status response) ++ " "
              ++ statusText response ++ "). Received HTML response from "
              ++ getResponseOrigin response ++ "."
        /\ pay = JNull)
    /\ (JSON_parse text = None -> looksLikeHtml text = false ->
        msg = text /\ pay = JNull)
    /\ (forall parsed,
           JSON_parse text = Some parsed ->
           stringErrorField parsed = None ->
           msg = text /\ pay = parsed).
Proof.
  intros Hr Hok Hb Hne.
  exists (message (parseErrorResponse response)),
         (payload (parseErrorResponse response)).
  rewrite (apiRequest_failure _ _ _ _ Hr Hok). split; [reflexivity|].
  repeat split.
  - rewrite (parseErrorResponse_json_error _ _ _ _ Hb Hne H H0). reflexivity.
  - rewrite (parseErrorResponse_json_error _ _ _ _ Hb Hne H H0). reflexivity.
  - rewrite (parseErrorResponse_html _ _ Hb Hne H H0). reflexivity.
  - rewrite (parseErrorResponse_html _ _ Hb Hne H H0). reflexivity.
  - rewrite (parseErrorResponse_raw _ _ Hb Hne H H0). reflexivity.
  - rewrite (parseErrorResponse_raw _ _ Hb Hne H H0). reflexivity.
  - rewrite (parseErrorResponse_json_other _ _ _ Hb Hne H H0). reflexivity.
  - rewrite (parseErrorResponse_json_other _ _ _ Hb Hne H H0). reflexivity.
Qed.

(** C10. For every reply with a non-success status whose body is empty or
    cannot be read, the error [apiRequest] throws has the message
    [<status> <statusText>], the status of the reply and a null payload. *)
Theorem C10_empty_body_message (args : ApiArgs) (env : Env) (w : World)
    (response : Response) :
  respond env (served w) (requestOf args) = Responded response ->
  ok response = false ->
  body response = None \/ body response = Some "" ->
  fst (apiRequest args env w)
  = Throw (mkError PlainError
             (ofZ (status response) ++ " " ++ statusText response)
             (Some (status response)) JNull).
Proof.
  intros Hr Hok Hb. rewrite (apiRequest_failure _ _ _ _ Hr Hok).
  now rewrite (parseErrorResponse_empty _ Hb).
Qed.

End GatewayFacts.

Import Examples.

(** C2 as stated fails on an empty body: the body does not parse as JSON
    and does not look like HTML, yet the message is not the body text. *)
Lemma C2_counterexample :
  let response := htmlReply 500 "Internal Server Error" "" in
  ok response = false
  /\ JSON_parse "" = None
  /\ looksLikeHtml "" = false
  /\ fst (apiRequest metricsArgs (replyWith [response]) (worldOf [] None))
     = Throw (mkError PlainError "500 Internal Server Error" (Some 500)
                JNull)
  /\ "500 Internal Server Error" <> "".
Proof.
  cbv zeta. repeat split; try reflexivity. discriminate.
Qed.

(** C2 on the replies of the specification: a JSON error and an HTML
    page. *)
Lemma C2_error_from_body_witness :
  fst (apiRequest metricsArgs
         (replyWith [jsonReply 500 "Internal Server Error"
                       boomText])
         (worldOf [] None))
  = Throw (mkError PlainError "boom" (Some 500)
             (JObj [("error", JStr "boom")]))
  /\ fst (apiRequest metricsArgs
            (replyWith [htmlReply 502 "Bad Gateway"
                          downPage])
            (worldOf [] None))
     = Throw (mkError PlainError
                "Request failed (502 Bad Gateway). Received HTML response from https://server.asosuite.com."
                (Some 502) JNull).
Proof.
  split.
  - destruct (C2_error_from_body (host := modelHost) metricsArgs
                (replyWith [jsonReply 500 "Internal Server Error"
                              boomText])
                (worldOf [] None)
                (jsonReply 500 "Internal Server Error" boomText)
                boomText
                eq_refl eq_refl eq_refl ltac:(discriminate))
      as (msg & pay & Hthrow & Hjson & _).
    destruct (Hjson [("error", JStr "boom")] "boom" eq_refl eq_refl)
      as [-> ->].
    exact Hthrow.
  - destruct (C2_error_from_body (host := modelHost) metricsArgs
                (replyWith [htmlReply 502 "Bad Gateway"
                   downPage])
                (worldOf [] None)
                (htmlReply 502 "Bad Gateway"
                   downPage)
                downPage
                eq_refl eq_refl eq_refl ltac:(discriminate))
      as (msg & pay & Hthrow & _ & Hhtml & _).
    destruct (Hhtml eq_refl eq_refl) as [-> ->].
    exact Hthrow.
Defined.

(** C10 on a 500 reply without a body. *)
Lemma C10_empty_body_message_witness :
  fst (apiRequest metricsArgs
         (replyWith [htmlReply 500 "Internal Server Error" ""])
         (worldOf [] None))
  = Throw (mkError PlainError "500 Internal Server Error" (Some 500) JNull).
Proof.
  apply (C10_empty_body_message (host := modelHost) metricsArgs
           (replyWith [htmlReply 500 "Internal Server Error" ""])
           (worldOf [] None)
           (htmlReply 500 "Internal Server Error" "")
           eq_refl eq_refl (or_intror eq_refl)).
Defined.

(* ================================================================== *)
(** * The app locator (C4, C9) *)
(* ================================================================== *)

Module RegexFacts.
Import JsString Regex.

Lemma digit_not_I (c : ascii) : isDigit c = true -> isI c = false.
Proof.
  destruct c as [[] [] [] [] [] [] [] []]; intros H;
    try discriminate H; reflexivity.
Qed.

Lemma digit_not_space (c : ascii) :
  isDigit c = true -> isWhiteSpace c = false.
Proof.
  destruct c as [[] [] [] [] [] [] [] []]; intros H;
    try discriminate H; reflexivity.
Qed.

Lemma digit_is_word (c : ascii) : isDigit c = true -> isWord c = true.
Proof.
  intros H. unfold isWord. rewrite H. now rewrite orb_true_r.
Qed.

Lemma takeWhile_forall (p : ascii -> bool) (s : string) :
  forallb p s = true -> takeWhile p s = s /\ dropWhile p s = "".
Proof.
  induction s as [|c s IH]; simpl; intros H; [easy|].
  apply andb_true_iff in H as [Hc Hs]. rewrite Hc.
  destruct (IH Hs) as [E1 E2]. now rewrite E1, E2.
Qed.

Lemma takeWhile_sound (p : ascii -> bool) (s : string) :
  forallb p (takeWhile p s) = true
  /\ s = takeWhile p s ++ dropWhile p s
  /\ Spec.firstNot p (dropWhile p s) = true.
Proof.
  induction s as [|c s (IH1 & IH2 & IH3)]; simpl; [easy|].
  destruct (p c) eqn:Hc; simpl.
  - rewrite Hc, IH1. repeat split; [now f_equal | exact IH3].
  - now rewrite Hc.
Qed.

(** When the run of [p] stops inside [s], appending [t] changes nothing. *)
Lemma takeWhile_app_stop (p : ascii -> bool) (s t : string) :
  dropWhile p s <> "" ->
  takeWhile p (s ++ t) = takeWhile p s
  /\ dropWhile p (s ++ t) = dropWhile p s ++ t.
Proof.
  induction s as [|c s IH]; simpl; intros H; [congruence|].
  destruct (p c) eqn:Hc; [|easy].
  destruct (IH H) as [E1 E2]. now rewrite E1, E2.
Qed.

Lemma dropWhile_empty_forall (p : ascii -> bool) (s : string) :
  dropWhile p s = "" -> forallb p s = true.
Proof.
  induction s as [|c s IH]; simpl; [easy|].
  destruct (p c); [exact IH | discriminate].
Qed.

Lemma dropWhile_head (p : ascii -> bool) (s : string) (c : ascii) (r : string) :
  dropWhile p s = String c r ->
  p c = false /\ exists pre, s = pre ++ String c r.
Proof.
  induction s as [|d s IH]; simpl; [discriminate|].
  destruct (p d) eqn:Hd.
  - intros H. destruct (IH H) as [Hc [pre ->]]. split; [exact Hc|].
    now exists (String d pre).
  - intros H. injection H as -> ->. split; [exact Hd|]. now exists "".
Qed.

Lemma digitRun_all (ds : string) :
  forallb isDigit ds = true -> (6 <= String.length ds)%nat ->
  digitRun ds = Some (ds, "").
Proof.
  intros Hd Hl. unfold digitRun.
  destruct (takeWhile_forall _ _ Hd) as [-> ->].
  apply Nat.leb_le in Hl. unfold APP_ID_MIN_LENGTH. now rewrite Hl.
Qed.

Lemma digitRun_sound (s ds r : string) :
  digitRun s = Some (ds, r) ->
  forallb isDigit ds = true /\ (6 <= String.length ds)%nat.
Proof.
  unfold digitRun, APP_ID_MIN_LENGTH.
  destruct (6 <=? String.length (takeWhile isDigit s))%nat eqn:Hl;
    [|discriminate].
  intros H. injection H as <- <-. split.
  - apply takeWhile_sound.
  - now apply Nat.leb_le.
Qed.

Lemma matchPrefixed_id (c1 c2 : ascii) (ds : string) :
  c1 = "i"%char \/ c1 = "I"%char -> c2 = "d"%char \/ c2 = "D"%char ->
  forallb isDigit ds = true -> (6 <= String.length ds)%nat ->
  matchPrefixed (String c1 (String c2 ds)) = Some ds.
Proof.
  intros H1 H2 Hd Hl. unfold matchPrefixed.
  rewrite (digitRun_all _ Hd Hl).
  destruct H1 as [-> | ->], H2 as [-> | ->]; reflexivity.
Qed.

Lemma matchPrefixed_digits (ds : string) :
  forallb isDigit ds = true -> matchPrefixed ds = None.
Proof.
  destruct ds as [|c [|c2 r]]; simpl; try reflexivity.
  intros H. apply andb_true_iff in H as [Hc _].
  now rewrite (digit_not_I _ Hc).
Qed.

Lemma matchRaw_digits (ds : string) :
  forallb isDigit ds = true -> (6 <= String.length ds)%nat ->
  matchRaw ds = Some ds.
Proof.
  intros Hd Hl. unfold matchRaw. now rewrite (digitRun_all _ Hd Hl).
Qed.

Lemma matchPrefixed_sound (s ds : string) :
  matchPrefixed s = Some ds -> Spec.isAppId ds.
Proof.
  destruct s as [|c1 [|c2 r]]; simpl; try discriminate.
  destruct (isI c1 && isD c2)%bool; [|discriminate].
  destruct (digitRun r) as [[ds' [|c r']]|] eqn:E; try discriminate.
  intros H. injection H as <-. exact (digitRun_sound _ _ _ E).
Qed.

Lemma matchRaw_sound (s ds : string) : matchRaw s = Some ds -> Spec.isAppId ds.
Proof.
  unfold matchRaw.
  destruct (digitRun s) as [[ds' [|c r']]|] eqn:E; try discriminate.
  intros H. injection H as <-. exact (digitRun_sound _ _ _ E).
Qed.

Lemma matchPathIdHere_sound (s ds : string) :
  matchPathIdHere s = Some ds -> Spec.isAppId ds.
Proof.
  destruct s as [|c0 [|c1 [|c2 r]]]; simpl; try discriminate.
  destruct (Ascii.eqb c0 "/" && isI c1 && isD c2)%bool; [|discriminate].
  destruct (digitRun r) as [[ds' [|c r']]|] eqn:E; try discriminate.
  - intros H. injection H as <-. exact (digitRun_sound _ _ _ E).
  - destruct (Ascii.eqb c "/"); [|discriminate].
    intros H. injection H as <-. exact (digitRun_sound _ _ _ E).
Qed.

Lemma matchPathId_sound (s ds : string) :
  matchPathId s = Some ds -> Spec.isAppId ds.
Proof.
  induction s as [|c s IH].
  - simpl. discriminate.
  - cbn [matchPathId].
    destruct (matchPathIdHere (String c s)) as [ds'|] eqn:E.
    + intros H. injection H as <-. exact (matchPathIdHere_sound _ _ E).
    + exact IH.
Qed.

Lemma matchEmbeddedHere_sound (b : bool) (s ds : string) :
  matchEmbeddedHere b s = Some ds -> Spec.isAppId ds.
Proof.
  destruct s as [|c1 [|c2 r]]; simpl; try discriminate.
  destruct (negb b && isI c1 && isD c2)%bool; [|discriminate].
  destruct (digitRun r) as [[ds' [|c r']]|] eqn:E; try discriminate.
  - intros H. injection H as <-. exact (digitRun_sound _ _ _ E).
  - destruct (isWord c); [discriminate|].
    intros H. injection H as <-. exact (digitRun_sound _ _ _ E).
Qed.

Lemma matchEmbedded_sound (s ds : string) :
  matchEmbedded s = Some ds -> Spec.isAppId ds.
Proof.
  unfold matchEmbedded. generalize false.
  induction s as [|c s IH]; intros b.
  - simpl. discriminate.
  - cbn [matchEmbeddedFrom].
    destruct (matchEmbeddedHere b (String c s)) as [ds'|] eqn:E.
    + intros H. injection H as <-. exact (matchEmbeddedHere_sound _ _ _ E).
    + apply IH.
Qed.

(** ** The path pattern on a path made of segments *)

Lemma matchPathIdHere_not_slash (c : ascii) (s : string) :
  Ascii.eqb c "/" = false -> matchPathIdHere (String c s) = None.
Proof.
  intros H. destruct s as [|c1 [|c2 r]]; simpl; try reflexivity.
  now rewrite H.
Qed.

Lemma matchPathId_skip (s t : string) :
  Spec.noSlash s = true -> matchPathId (s ++ t) = matchPathId t.
Proof.
  induction s as [|c s IH]; intros H; [reflexivity|].
  simpl in H. apply andb_true_iff in H as [Hc Hs].
  apply negb_true_iff in Hc.
  change (String c s ++ t) with (String c (s ++ t)).
  cbn [matchPathId]. rewrite (matchPathIdHere_not_slash _ _ Hc).
  now apply IH.
Qed.

(** A segment that is no id token does not match, whatever follows its
    closing slash. *)
Lemma matchPathIdHere_segment (seg t : string) :
  Spec.noSlash seg = true -> matchPrefixed seg = None ->
  matchPathIdHere (String "/" (seg ++ String "/" t)) = None.
Proof.
  intros Hns Hnot.
  destruct seg as [|c1 [|c2 r]].
  - destruct t as [|c t]; reflexivity.
  - simpl. now rewrite andb_false_r.
  - change (String "/" (String c1 (String c2 r) ++ String "/" t))
      with (String "/" (String c1 (String c2 (r ++ String "/" t)))).
    cbn [matchPathIdHere]. simpl Ascii.eqb. rewrite andb_true_l.
    simpl in Hnot. destruct (isI c1 && isD c2)%bool; [|reflexivity].
    assert (Hr : Spec.noSlash r = true).
    { simpl in Hns. apply andb_true_iff in Hns as [_ Hns].
      apply andb_true_iff in Hns as [_ Hns]. exact Hns. }
    unfold digitRun in *.
    destruct (dropWhile isDigit r) as [|d r'] eqn:Hdrop.
    + pose proof (dropWhile_empty_forall _ _ Hdrop) as Hall.
      destruct (takeWhile_forall _ _ Hall) as [Et _].
      destruct (StringFacts.takeWhile_all isDigit r (String "/" t) Hall
                  eq_refl) as [E1 E2].
      rewrite E1, E2. rewrite Et in Hnot.
      destruct (APP_ID_MIN_LENGTH <=? String.length r)%nat;
        [discriminate | reflexivity].
    + destruct (takeWhile_app_stop isDigit r (String "/" t)) as [E1 E2].
      { rewrite Hdrop. discriminate. }
      rewrite E1, E2, Hdrop.
      destruct (APP_ID_MIN_LENGTH <=? _)%nat; [|reflexivity].
      simpl.
      destruct (dropWhile_head _ _ _ _ Hdrop) as [_ [pre ->]].
      assert (Hd : Ascii.eqb d "/" = false).
      { clear -Hr. induction pre as [|x pre IH]; simpl in Hr.
        - apply andb_true_iff in Hr as [Hr _]. now apply negb_true_iff.
        - apply andb_true_iff in Hr as [_ Hr]. now apply IH. }
      now rewrite Hd.
Qed.

Lemma matchPathId_appStorePath (region slug ds : string) :
  Spec.noSlash region = true -> Spec.noSlash slug = true ->
  matchPrefixed region = None -> matchPrefixed slug = None ->
  forallb isDigit ds = true -> (6 <= String.length ds)%nat ->
  matchPathId (Spec.appStorePath region slug ds) = Some ds.
Proof.
  intros Hr Hs Hnr Hns Hd Hl. unfold Spec.appStorePath.
  change ("/" ++ region ++ "/app/" ++ slug ++ "/id" ++ ds)
    with (String "/" (region ++ String "/" ("app/" ++ slug ++ "/id" ++ ds))).
  cbn [matchPathId]. rewrite (matchPathIdHere_segment _ _ Hr Hnr).
  rewrite (matchPathId_skip _ _ Hr).
  change (String "/" ("app/" ++ slug ++ "/id" ++ ds))
    with (String "/" ("app" ++ String "/" (slug ++ "/id" ++ ds))).
  cbn [matchPathId].
  rewrite (matchPathIdHere_segment "app" _ eq_refl eq_refl).
  rewrite (matchPathId_skip "app" _ eq_refl).
  change (String "/" (slug ++ "/id" ++ ds))
    with (String "/" (slug ++ String "/" ("id" ++ ds))).
  cbn [matchPathId]. rewrite (matchPathIdHere_segment _ _ Hs Hns).
  rewrite (matchPathId_skip _ _ Hs).
  change (String "/" ("id" ++ ds)) with (String "/" (String "i" (String "d" ds))).
  cbn [matchPathId matchPathIdHere]. simpl Ascii.eqb. simpl isI. simpl isD.
  cbn [andb]. now rewrite (digitRun_all _ Hd Hl).
Qed.

End RegexFacts.

Section AppInputFacts.
Context {host : JSHost}.
Import JsString Regex.

Lemma trim_id (s : string) :
  Spec.firstNot isWhiteSpace s = true -> Spec.lastNot isWhiteSpace s = true ->
  trim s = s.
Proof.
  intros H1 H2. unfold trim.
  pose proof (StringFacts.strip_both_ends isWhiteSpace "" s "" eq_refl eq_refl
                H1 H2) as E.
  simpl in E. now rewrite StringFacts.append_empty_r in E.
Qed.

Lemma lastNot_app (p : ascii -> bool) (s t : string) :
  t <> "" -> Spec.lastNot p (s ++ t) = Spec.lastNot p t.
Proof.
  intros Ht. induction s as [|c s IH]; [reflexivity|].
  change (String c s ++ t) with (String c (s ++ t)).
  cbn [Spec.lastNot]. destruct (s ++ t) eqn:E; [|exact IH].
  destruct s; simpl in E; [congruence | discriminate].
Qed.

Lemma lastNot_digits (ds : string) :
  forallb isDigit ds = true -> Spec.lastNot isWhiteSpace ds = true.
Proof.
  induction ds as [|c ds IH]; simpl; [reflexivity|].
  intros H. apply andb_true_iff in H as [Hc Hd].
  destruct ds; [|now apply IH].
  now rewrite (RegexFacts.digit_not_space _ Hc).
Qed.

Lemma firstNot_digits (ds : string) :
  forallb isDigit ds = true -> Spec.firstNot isWhiteSpace ds = true.
Proof.
  destruct ds as [|c ds]; simpl; [reflexivity|].
  intros H. apply andb_true_iff in H as [Hc _].
  now rewrite (RegexFacts.digit_not_space _ Hc).
Qed.

Lemma parseAppInput_prefixed (s : string) (c1 c2 : ascii) (ds : string) :
  trim s = String c1 (String c2 ds) ->
  c1 = "i"%char \/ c1 = "I"%char -> c2 = "d"%char \/ c2 = "D"%char ->
  forallb isDigit ds = true -> (6 <= String.length ds)%nat ->
  parseAppInput (JStr s) = Normal (Some (mkAppInput ds)).
Proof.
  intros Ht H1 H2 Hd Hl. unfold parseAppInput.
  rewrite stringOrEmpty_JStr, Ht. cbn [isEmpty].
  now rewrite (RegexFacts.matchPrefixed_id _ _ _ H1 H2 Hd Hl).
Qed.

Lemma parseAppInput_raw (s ds : string) :
  trim s = ds -> forallb isDigit ds = true -> (6 <= String.length ds)%nat ->
  parseAppInput (JStr s) = Normal (Some (mkAppInput ds)).
Proof.
  intros Ht Hd Hl. unfold parseAppInput.
  rewrite stringOrEmpty_JStr, Ht.
  destruct ds as [|c ds]; [simpl in Hl; lia|]. cbn [isEmpty].
  rewrite (RegexFacts.matchPrefixed_digits _ Hd).
  now rewrite (RegexFacts.matchRaw_digits _ Hd Hl).
Qed.

Lemma appStoreUrl_trim (region slug ds : string) :
  forallb isDigit ds = true -> (6 <= String.length ds)%nat ->
  trim (Spec.appStoreUrl region slug ds) = Spec.appStoreUrl region slug ds.
Proof.
  intros Hd Hl. apply trim_id; [reflexivity|].
  assert (Hne : ds <> "") by (destruct ds; [simpl in Hl; lia | discriminate]).
  unfold Spec.appStoreUrl, Spec.appStorePath.
  rewrite lastNot_app by (simpl; discriminate).
  rewrite lastNot_app by (destruct region; simpl; discriminate).
  rewrite lastNot_app by (simpl; discriminate).
  rewrite lastNot_app by (destruct slug; simpl; discriminate).
  rewrite lastNot_app by (simpl; discriminate).
  rewrite lastNot_app by exact Hne.
  now apply lastNot_digits.
Qed.

Lemma parseAppInput_appStoreUrl (region slug ds : string) (u : URL) :
  URL_new (Spec.appStoreUrl region slug ds) = Some u ->
  pathname u = Spec.appStorePath region slug ds ->
  Spec.noSlash region = true -> Spec.noSlash slug = true ->
  matchPrefixed region = None -> matchPrefixed slug = None ->
  forallb isDigit ds = true -> (6 <= String.length ds)%nat ->
  parseAppInput (JStr (Spec.appStoreUrl region slug ds))
  = Normal (Some (mkAppInput ds)).
Proof.
  intros Hu Hp Hr Hs Hnr Hns Hd Hl. unfold parseAppInput.
  rewrite stringOrEmpty_JStr, (appStoreUrl_trim _ _ _ Hd Hl).
  unfold parseAppInput_urlStep. rewrite Hu, Hp.
  rewrite (RegexFacts.matchPathId_appStorePath _ _ _ Hr Hs Hnr Hns Hd Hl).
  reflexivity.
Qed.

Lemma parseAppInput_total (v : JSValue) :
  exists r, parseAppInput v = Normal r.
Proof.
  unfold parseAppInput.
  destruct (isEmpty _); [now eexists|].
  destruct (matchPrefixed _); [now eexists|].
  destruct (matchRaw _); [now eexists|].
  unfold parseAppInput_urlStep.
  destruct (URL_new _) as [u|]; simpl.
  - destruct (matchPathId _); [now eexists|].
    destruct (matchEmbedded _); now eexists.
  - destruct (matchEmbedded _); now eexists.
Qed.

Lemma parseAppInput_bad_url (v : JSValue) :
  let trimmed := trim (Js.stringOrEmpty v) in
  matchPrefixed trimmed = None -> matchRaw trimmed = None ->
  URL_new trimmed = None ->
  parseAppInput_urlStep trimmed
  = Throw (mkError TypeError "Invalid URL" None JUndefined)
  /\ parseAppInput v = Normal (option_map mkAppInput (matchEmbedded trimmed)).
Proof.
  intros trimmed H1 H2 H3. unfold parseAppInput, parseAppInput_urlStep.
  fold trimmed. rewrite H1, H2, H3. split; [reflexivity|]. simpl.
  destruct (isEmpty trimmed) eqn:E.
  - apply StringFacts.isEmpty_true in E. now rewrite E.
  - now destruct (matchEmbedded trimmed).
Qed.

Lemma parseAppInput_sound (v : JSValue) (a : AppInput) :
  parseAppInput v = Normal (Some a) -> Spec.isAppId (appId a).
Proof.
  unfold parseAppInput.
  destruct (isEmpty _); [discriminate|].
  destruct (matchPrefixed _) as [ds|] eqn:E1.
  { intros H. injection H as <-. exact (RegexFacts.matchPrefixed_sound _ _ E1). }
  destruct (matchRaw _) as [ds|] eqn:E2.
  { intros H. injection H as <-. exact (RegexFacts.matchRaw_sound _ _ E2). }
  unfold parseAppInput_urlStep.
  destruct (URL_new _) as [u|]; simpl.
  - destruct (matchPathId _) as [ds|] eqn:E3.
    { intros H. injection H as <-.
      exact (RegexFacts.matchPathId_sound _ _ E3). }
    destruct (matchEmbedded _) as [ds|] eqn:E4; [|discriminate].
    intros H. injection H as <-. exact (RegexFacts.matchEmbedded_sound _ _ E4).
  - destruct (matchEmbedded _) as [ds|] eqn:E4; [|discriminate].
    intros H. injection H as <-. exact (RegexFacts.matchEmbedded_sound _ _ E4).
Qed.

(** C4, amended. For every input whose trimmed text is [id] (in any casing)
    followed by six or more digits, or is six or more digits,
    [parseAppInput] returns that digit run as [appId]; and for every App
    Store address https://apps.apple.com/<region>/app/<slug>/id<digits>
    that the runtime parses to the path /<region>/app/<slug>/id<digits>,
    where <digits> is a run of six or more digits and <region> and <slug>
    are single path segments that are no id tokens themselves, it returns
    <digits>. *)
Theorem C4_parseAppInput :
  (forall (s : string) (c1 c2 : ascii) (ds : string),
      trim s = String c1 (String c2 ds) ->
      c1 = "i"%char \/ c1 = "I"%char -> c2 = "d"%char \/ c2 = "D"%char ->
      forallb isDigit ds = true -> (6 <= String.length ds)%nat ->
      parseAppInput (JStr s) = Normal (Some (mkAppInput ds)))
  /\ (forall s ds : string,
         trim s = ds ->
         forallb isDigit ds = true -> (6 <= String.length ds)%nat ->
         parseAppInput (JStr s) = Normal (Some (mkAppInput ds)))
  /\ (forall (region slug ds : string) (u : URL),
         URL_new (Spec.appStoreUrl region slug ds) = Some u ->
         pathname u = Spec.appStorePath region slug ds ->
         Spec.noSlash region = true -> Spec.noSlash slug = true ->
         matchPrefixed region = None -> matchPrefixed slug = None ->
         forallb isDigit ds = true -> (6 <= String.length ds)%nat ->
         parseAppInput (JStr (Spec.appStoreUrl region slug ds))
         = Normal (Some (mkAppInput ds))).
Proof.
  split; [|split].
  - exact parseAppInput_prefixed.
  - exact parseAppInput_raw.
  - exact parseAppInput_appStoreUrl.
Qed.

End AppInputFacts.

(** C4 on [ ID6448311069 ], [123456] and the address of an app. *)
Lemma C4_parseAppInput_witness :
  parseAppInput (JStr " ID6448311069 ")
  = Normal (Some (mkAppInput "6448311069"))
  /\ parseAppInput (JStr "123456") = Normal (Some (mkAppInput "123456"))
  /\ parseAppInput
       (JStr "https://apps.apple.com/us/app/chatgpt/id6448311069")
     = Normal (Some (mkAppInput "6448311069")).
Proof.
  destruct (C4_parseAppInput (host := modelHost)) as (Hid & Hraw & Hurl).
  split; [|split].
  - apply (Hid " ID6448311069 " "I"%char "D"%char "6448311069");
      [reflexivity | now right | now right | reflexivity | simpl; lia].
  - apply (Hraw "123456" "123456"); [reflexivity | reflexivity | simpl; lia].
  - apply (Hurl "us" "chatgpt" "6448311069"
             (mkURL "/us/app/chatgpt/id6448311069" "https://apps.apple.com"));
      try reflexivity.
    simpl; lia.
Defined.

(** C4 as stated fails on an address whose id has fewer than six digits
    (nothing is extracted) and on one whose slug is an id token itself (the
    slug's digits are extracted). *)
Lemma C4_counterexample :
  URL_new "https://apps.apple.com/us/app/chatgpt/id12345"
  = Some (mkURL "/us/app/chatgpt/id12345" "https://apps.apple.com")
  /\ parseAppInput (JStr "https://apps.apple.com/us/app/chatgpt/id12345")
     = Normal None
  /\ parseAppInput
       (JStr "https://apps.apple.com/us/app/id999999/id6448311069")
     = Normal (Some (mkAppInput "999999")).
Proof. repeat split. Qed.

Section NormalizerFacts.
Context {host : JSHost}.
Import JsString Regex.

Lemma has_In (xs : list string) (s : string) :
  has xs s = true -> In s xs.
Proof.
  unfold has. intros H. apply existsb_exists in H as (x & Hin & Heq).
  apply String.eqb_eq in Heq. now subst.
Qed.

Lemma removeWhiteSpace_clean (s : string) :
  forallb (fun c => negb (isWhiteSpace c)) (removeWhiteSpace s) = true.
Proof.
  induction s as [|c s IH]; simpl; [reflexivity|].
  destruct (isWhiteSpace c) eqn:E; [exact IH|]. simpl. now rewrite E.
Qed.

Lemma normalizePlatform_sound (v : JSValue) (p : string) :
  normalizePlatform v = Some p -> In p SUPPORTED_PLATFORMS.
Proof.
  unfold normalizePlatform.
  destruct (has SUPPORTED_PLATFORMS _) eqn:E; [|discriminate].
  intros H. injection H as <-. now apply has_In.
Qed.

Lemma normalizeRegionCode_upper (v : JSValue) (r : string) :
  normalizeRegionCode v = Some r ->
  exists a b,
    r = String a (String b "") /\ isUpper a = true /\ isUpper b = true.
Proof.
  unfold normalizeRegionCode.
  destruct (isRegionShape _) eqn:E; [|discriminate].
  intros H. injection H as <-.
  destruct (toUpperCase _) as [|a [|b [|c t]]]; try discriminate E.
  simpl in E. apply andb_true_iff in E as [Ha Hb]. now exists a, b.
Qed.

Lemma normalizePlannedTrackedAppId_bounds (v : JSValue) (p : string) :
  normalizePlannedTrackedAppId v = Some p ->
  (1 <= String.length p <= 64)%nat
  /\ forallb (fun c => negb (isWhiteSpace c)) p = true.
Proof.
  unfold normalizePlannedTrackedAppId.
  destruct (isEmpty _) eqn:E; [discriminate|].
  destruct (_ <? _)%nat eqn:L; [discriminate|].
  intros H. injection H as <-. apply Nat.ltb_ge in L.
  unfold MAX_PLANNED_TRACKED_APP_ID_LENGTH in L. split.
  - split; [|exact L].
    destruct (removeWhiteSpace _); [discriminate | simpl; lia].
  - apply removeWhiteSpace_clean.
Qed.

Lemma normalizeDateOnly_sound (v : JSValue) (d : string) :
  normalizeDateOnly v = Some d ->
  isDateShape d = true /\ Date_isValid (d ++ "T00:00:00.000Z") = true.
Proof.
  unfold normalizeDateOnly.
  destruct (isDateShape _) eqn:E; [|discriminate].
  destruct (Date_isValid _) eqn:V; [|discriminate].
  intros H. injection H as <-. now split.
Qed.

Lemma parsePeriodValue_allowed (v : JSValue) (n : Z) :
  parsePeriodValue v = Some n -> n = 7 \/ n = 30 \/ n = 90.
Proof.
  unfold parsePeriodValue.
  destruct (parseInt10 _) as [parsed|]; [|discriminate].
  destruct (existsb _ _) eqn:E; [|discriminate].
  intros H. injection H as <-. simpl in E.
  repeat (apply orb_true_iff in E as [E | E]);
    try discriminate; apply Z.eqb_eq in E; auto.
Qed.

(** [value || ''] converts exactly when [value] does. *)
Lemma convertible_or (v : JSValue) :
  Js.convertible (Js.or v (JStr "")) = Js.convertible v.
Proof.
  unfold Js.or. destruct (Js.truthy v) eqn:E; [reflexivity|].
  destruct v as [| |b|n|s|xs|fields]; try reflexivity; discriminate E.
Qed.

Lemma text_returns (v : JSValue) :
  Js.convertible v = true -> AnyValue.text v = Normal (Js.stringOrEmpty v).
Proof.
  intros H. unfold AnyValue.text, Js.StringOf.
  now rewrite convertible_or, H.
Qed.

Lemma text_throws (v : JSValue) :
  Js.convertible v = false -> AnyValue.text v = Throw Js.cannotConvert.
Proof.
  intros H. unfold AnyValue.text, Js.StringOf.
  now rewrite convertible_or, H.
Qed.

Lemma text_cases (v : JSValue) :
  AnyValue.text v = Normal (Js.stringOrEmpty v)
  \/ AnyValue.text v = Throw Js.cannotConvert.
Proof.
  destruct (Js.convertible v) eqn:E;
    [left; now apply text_returns | right; now apply text_throws].
Qed.

Lemma texts_returns (items : list JSValue) :
  List.forallb Js.convertible items = true ->
  AnyValue.texts items = Normal (List.map Js.stringOrEmpty items).
Proof.
  induction items as [|item items IH]; [reflexivity|].
  cbn [List.forallb]. intros H. apply andb_true_iff in H as [Hi Hs].
  cbn [AnyValue.texts List.map]. rewrite (text_returns _ Hi).
  cbn [andThen]. now rewrite (IH Hs).
Qed.

Lemma texts_throws (items : list JSValue) :
  List.forallb Js.convertible items = false ->
  AnyValue.texts items = Throw Js.cannotConvert.
Proof.
  induction items as [|item items IH]; [discriminate|].
  cbn [List.forallb AnyValue.texts]. intros H.
  destruct (Js.convertible item) eqn:E.
  - rewrite (text_returns _ E). cbn [andThen]. now rewrite (IH H).
  - now rewrite (text_throws _ E).
Qed.

Lemma texts_cases (items : list JSValue) :
  AnyValue.texts items = Normal (List.map Js.stringOrEmpty items)
  \/ AnyValue.texts items = Throw Js.cannotConvert.
Proof.
  destruct (List.forallb Js.convertible items) eqn:E;
    [left; now apply texts_returns | right; now apply texts_throws].
Qed.

Lemma map_stringOrEmpty_JStr (xs : list string) :
  List.map Js.stringOrEmpty (List.map JStr xs) = xs.
Proof.
  induction xs as [|x xs IH]; [reflexivity|].
  cbn [List.map]. now rewrite stringOrEmpty_JStr, IH.
Qed.

Lemma normalizeKeywordArgs_texts (items : list JSValue) :
  normalizeKeywordArgs (List.map JStr (List.map Js.stringOrEmpty items))
  = normalizeKeywordArgs items.
Proof.
  unfold normalizeKeywordArgs. do 3 f_equal.
  rewrite !map_map. apply map_ext. intros a.
  now rewrite stringOrEmpty_JStr.
Qed.

(** A step of a normalizer on an arbitrary value: it throws with the
    conversion, or it is the normalizer on the text. *)
Ltac any_step v :=
  destruct (text_cases v) as [E | E]; rewrite E; cbn [andThen];
  [|discriminate].

(** C9. Every normalizer returns on a value that converts to a string (any
    value but an object with a property [toString] of its own, or an array
    that holds one), and throws the [TypeError] of the conversion on the
    others; [normalizeKeywordArgs] returns on the arrays all of whose
    items convert and throws on every other value.  When [new URL] throws
    on the trimmed text, [parseAppInput] catches the error and returns
    what the embedded-id pattern finds.  A normalizer that returns reports
    a failure as null (or drops the entry): a result that is not null is a
    platform of the supported set, two upper-case letters, a digit run of
    at least six, a white-space-free id of 1 to 64 characters, non-empty
    keywords, a date of the YYYY-MM-DD shape that the runtime holds valid,
    or one of 7, 30 and 90. *)
Theorem C9_normalizers_total :
  (forall v,
      Js.convertible v = true ->
      (exists r, AnyValue.normalizePlatform v = Normal r)
      /\ (exists r, AnyValue.normalizeRegionCode v = Normal r)
      /\ (exists r, AnyValue.parseAppInput v = Normal r)
      /\ (exists r, AnyValue.normalizePlannedTrackedAppId v = Normal r)
      /\ (exists r, AnyValue.normalizeDateOnly v = Normal r)
      /\ (exists r, AnyValue.parsePeriodValue v = Normal r))
  /\ (forall v,
         Js.convertible v = false ->
         AnyValue.normalizePlatform v = Throw Js.cannotConvert
         /\ AnyValue.normalizeRegionCode v = Throw Js.cannotConvert
         /\ AnyValue.parseAppInput v = Throw Js.cannotConvert
         /\ AnyValue.normalizePlannedTrackedAppId v = Throw Js.cannotConvert
         /\ AnyValue.normalizeDateOnly v = Throw Js.cannotConvert
         /\ AnyValue.parsePeriodValue v = Throw Js.cannotConvert)
  /\ (forall items,
         (List.forallb Js.convertible items = true ->
          AnyValue.normalizeKeywordArgs (JArr items)
          = Normal (normalizeKeywordArgs items))
         /\ (List.forallb Js.convertible items = false ->
             AnyValue.normalizeKeywordArgs (JArr items)
             = Throw Js.cannotConvert))
  /\ (forall rest,
         (forall items, rest <> JArr items) ->
         exists e, AnyValue.normalizeKeywordArgs rest = Throw e
                   /\ errKind e = TypeError)
  /\ (forall v s,
         AnyValue.text v = Normal s ->
         let trimmed := trim s in
         matchPrefixed trimmed = None -> matchRaw trimmed = None ->
         URL_new trimmed = None ->
         parseAppInput_urlStep trimmed
         = Throw (mkError TypeError "Invalid URL" None JUndefined)
         /\ AnyValue.parseAppInput v
            = Normal (option_map mkAppInput (matchEmbedded trimmed)))
  /\ (forall v a,
         AnyValue.parseAppInput v = Normal (Some a) -> Spec.isAppId (appId a))
  /\ (forall v p,
         AnyValue.normalizePlatform v = Normal (Some p) ->
         In p SUPPORTED_PLATFORMS)
  /\ (forall v r,
         AnyValue.normalizeRegionCode v = Normal (Some r) ->
         exists a b,
           r = String a (String b "") /\ isUpper a = true /\ isUpper b = true)
  /\ (forall v p,
         AnyValue.normalizePlannedTrackedAppId v = Normal (Some p) ->
         (1 <= String.length p <= 64)%nat
         /\ forallb (fun c => negb (isWhiteSpace c)) p = true)
  /\ (forall rest keywords k,
         AnyValue.normalizeKeywordArgs rest = Normal keywords ->
         In k keywords -> k <> "")
  /\ (forall v d,
         AnyValue.normalizeDateOnly v = Normal (Some d) ->
         isDateShape d = true
         /\ Date_isValid (d ++ "T00:00:00.000Z") = true)
  /\ (forall v n,
         AnyValue.parsePeriodValue v = Normal (Some n) ->
         n = 7 \/ n = 30 \/ n = 90).
Proof.
  repeat apply conj.
  - intros v H.
    unfold AnyValue.normalizePlatform, AnyValue.normalizeRegionCode,
      AnyValue.parseAppInput, AnyValue.normalizePlannedTrackedAppId,
      AnyValue.normalizeDateOnly, AnyValue.parsePeriodValue.
    rewrite (text_returns _ H). cbn [andThen].
    repeat split; try (now eexists). apply parseAppInput_total.
  - intros v H.
    unfold AnyValue.normalizePlatform, AnyValue.normalizeRegionCode,
      AnyValue.parseAppInput, AnyValue.normalizePlannedTrackedAppId,
      AnyValue.normalizeDateOnly, AnyValue.parsePeriodValue.
    rewrite (text_throws _ H). cbn [andThen]. repeat split.
  - intros items. split; intros H; cbn [AnyValue.normalizeKeywordArgs].
    + rewrite (texts_returns _ H). cbn [andThen].
      now rewrite normalizeKeywordArgs_texts.
    + now rewrite (texts_throws _ H).
  - intros rest H.
    destruct rest as [| |b|n|s|xs|fields]; cbn [AnyValue.normalizeKeywordArgs];
      try (eexists; split; reflexivity).
    now destruct (H xs).
  - intros v s E trimmed H1 H2 H3. unfold AnyValue.parseAppInput.
    rewrite E. cbn [andThen].
    pose proof (parseAppInput_bad_url (JStr s)) as H.
    cbv zeta in H. rewrite stringOrEmpty_JStr in H. now apply H.
  - intros v a. unfold AnyValue.parseAppInput. any_step v.
    apply parseAppInput_sound.
  - intros v p. unfold AnyValue.normalizePlatform. any_step v.
    intros [= H]. exact (normalizePlatform_sound _ _ H).
  - intros v r. unfold AnyValue.normalizeRegionCode. any_step v.
    intros [= H]. exact (normalizeRegionCode_upper _ _ H).
  - intros v p. unfold AnyValue.normalizePlannedTrackedAppId. any_step v.
    intros [= H]. exact (normalizePlannedTrackedAppId_bounds _ _ H).
  - intros rest keywords k.
    destruct rest as [| |b|n|s|xs|fields]; cbn [AnyValue.normalizeKeywordArgs];
      try discriminate.
    destruct (texts_cases xs) as [E | E]; rewrite E; cbn [andThen];
      [|discriminate].
    intros [= <-]. apply normalizeKeywordArgs_nonempty.
  - intros v d. unfold AnyValue.normalizeDateOnly. any_step v.
    intros [= H]. exact (normalizeDateOnly_sound _ _ H).
  - intros v n. unfold AnyValue.parsePeriodValue. any_step v.
    intros [= H]. exact (parsePeriodValue_allowed _ _ H).
Qed.

End NormalizerFacts.

(** C9 as stated fails on an object with a property [toString] of its own,
    which [JSON.parse] makes of [{"toString":1}]: the conversion [String]
    throws a [TypeError] and no normalizer catches it; and
    [normalizeKeywordArgs] throws on a value without [map]. *)
Lemma C9_counterexample :
  let value := JObj [("toString", JNum (Num 1))] in
  JSON_parse ("{" ++ Examples.rawMember "toString" "1" ++ "}")
  = Some value
  /\ AnyValue.normalizePlatform value = Throw Js.cannotConvert
  /\ AnyValue.normalizeRegionCode value = Throw Js.cannotConvert
  /\ AnyValue.parseAppInput value = Throw Js.cannotConvert
  /\ AnyValue.normalizePlannedTrackedAppId value = Throw Js.cannotConvert
  /\ AnyValue.normalizeDateOnly value = Throw Js.cannotConvert
  /\ AnyValue.parsePeriodValue value = Throw Js.cannotConvert
  /\ AnyValue.normalizeKeywordArgs (JArr [JStr "run"; value])
     = Throw Js.cannotConvert
  /\ errKind Js.cannotConvert = TypeError
  /\ AnyValue.normalizeKeywordArgs JNull
     = Throw (mkError TypeError
                "Cannot read properties of null (reading 'map')" None
                JUndefined).
Proof. cbv zeta. repeat split. Qed.

(** C9 on a text that is no URL and holds an id, on rejected inputs and on
    values that are no texts. *)
Lemma C9_normalizers_total_witness :
  URL_new "open id123456 today" = None
  /\ AnyValue.parseAppInput (JStr "open id123456 today")
     = Normal (Some (mkAppInput "123456"))
  /\ (exists r, AnyValue.parsePeriodValue (JNum (Num 30)) = Normal r)
  /\ AnyValue.parsePeriodValue (JNum (Num 30)) = Normal (Some 30)
  /\ AnyValue.normalizePlatform (JStr "android") = Normal None
  /\ AnyValue.normalizeRegionCode (JArr [JStr "se"]) = Normal (Some "SE")
  /\ AnyValue.normalizePlannedTrackedAppId JNull = Normal None
  /\ AnyValue.normalizeDateOnly (JStr "2024-13-01") = Normal None
  /\ AnyValue.normalizeKeywordArgs (JArr [JStr " a  b "; JNull; JBool true])
     = Normal ["a b"; "true"].
Proof.
  pose proof (C9_normalizers_total (host := modelHost)) as
    (Hret & _ & Hkeys & _ & Hurl & _).
  split; [reflexivity|]. split.
  { exact (proj2 (Hurl (JStr "open id123456 today") _ eq_refl
                    eq_refl eq_refl eq_refl)). }
  split.
  { exact (proj2 (proj2 (proj2 (proj2 (proj2
             (Hret (JNum (Num 30)) eq_refl)))))). }
  split; [reflexivity|]. split; [reflexivity|]. split; [reflexivity|].
  split; [reflexivity|]. split; [reflexivity|].
  exact (proj1 (Hkeys [JStr " a  b "; JNull; JBool true]) eq_refl).
Defined.

(* ================================================================== *)
(** * The argument array and the app target (C5) *)
(* ================================================================== *)

Module CmdFacts.

Lemma setRest_same (w : World) : setRest (rest w) w = w.
Proof. now destruct w. Qed.

Lemma setRest_setRest (r r' : list string) (w : World) :
  setRest r (setRest r' w) = setRest r w.
Proof. reflexivity. Qed.

Lemma onlyArgsChanged_refl (w : World) : Spec.onlyArgsChanged w w.
Proof. exists (rest w). now rewrite setRest_same. Qed.

Lemma onlyArgsChanged_trans (w1 w2 w3 : World) :
  Spec.onlyArgsChanged w1 w2 -> Spec.onlyArgsChanged w2 w3 ->
  Spec.onlyArgsChanged w1 w3.
Proof. intros [r ->] [r' ->]. now exists r'. Qed.

Lemma onlyArgsChanged_trace (w w' : World) :
  Spec.onlyArgsChanged w w' ->
  trace w' = trace w /\ clock w' = clock w /\ served w' = served w
  /\ configFile w' = configFile w.
Proof. now intros [r ->]. Qed.

Create HintDb cmd.
#[export] Hint Resolve onlyArgsChanged_refl : cmd.

(** Destructs the command whose result a [match] of the hypotheses or of
    the goal inspects. *)
Ltac run_step :=
  match goal with
  | H : context [match ?c ?env ?w with _ => _ end] |- _ =>
      let r := fresh "r" in
      let w1 := fresh "w" in
      let E := fresh "E" in
      destruct (c env w) as [r w1] eqn:E; destruct r
  | |- context [match ?c ?env ?w with _ => _ end] =>
      let r := fresh "r" in
      let w1 := fresh "w" in
      let E := fresh "E" in
      destruct (c env w) as [r w1] eqn:E; destruct r
  end.

Lemma takeFlag_args (name : string) (env : Env) (w : World) :
  Spec.onlyArgsChanged w (snd (takeFlag name env w)).
Proof.
  unfold takeFlag, bind, getRest, putRest, ret.
  destruct (indexOf name (rest w)); simpl; auto with cmd.
  now eexists.
Qed.

Lemma takeOption_args (name : string) (env : Env) (w : World) :
  Spec.onlyArgsChanged w (snd (takeOption name env w)).
Proof.
  unfold takeOption, bind, getRest, putRest, ret, throw.
  destruct (indexOf name (rest w)); simpl; auto with cmd.
  destruct (_ =? _)%nat; simpl; auto with cmd. now eexists.
Qed.

Lemma takeOption_absent (name : string) (env : Env) (w : World) :
  indexOf name (rest w) = None -> takeOption name env w = (Normal None, w).
Proof.
  intros H. unfold takeOption, bind, getRest, ret. now rewrite H.
Qed.

Lemma takeFlag_absent (name : string) (env : Env) (w : World) :
  indexOf name (rest w) = None -> takeFlag name env w = (Normal false, w).
Proof.
  intros H. unfold takeFlag, bind, getRest, ret. now rewrite H.
Qed.

Lemma takeFlag_exact (name : string) (env : Env) (w : World) :
  takeFlag name env w
  = (Normal (Args.flag name (rest w)),
     setRest (Args.withoutFlag name (rest w)) w).
Proof.
  unfold takeFlag, Args.flag, Args.withoutFlag, bind, getRest, putRest, ret.
  destruct (indexOf name (rest w)); [reflexivity|].
  now rewrite setRest_same.
Qed.

Lemma takeOption_exact (name : string) (env : Env) (w : World) :
  Args.missingValue name (rest w) = false ->
  takeOption name env w
  = (Normal (Args.optionOf name (rest w)),
     setRest (Args.withoutOption name (rest w)) w).
Proof.
  unfold takeOption, Args.missingValue, Args.optionOf, Args.withoutOption,
    bind, getRest, putRest, ret.
  destruct (indexOf name (rest w)).
  - now intros ->.
  - now rewrite setRest_same.
Qed.

Lemma takeOption_missing (name : string) (env : Env) (w : World) :
  Args.missingValue name (rest w) = true ->
  takeOption name env w
  = (Throw (newError ("Missing value for " ++ name)), w).
Proof.
  unfold takeOption, Args.missingValue, bind, getRest, throw.
  destruct (indexOf name (rest w)); [|discriminate]. now intros ->.
Qed.

End CmdFacts.
Import CmdFacts.

Section AppTargetFacts.
Context {host : JSHost}.
Import JsString.

Lemma loadConfig_args (env : Env) (w : World) :
  snd (loadConfig env w) = w.
Proof.
  unfold loadConfig. destruct (configFile w) as [parsed|]; [|reflexivity].
  now destruct (_ || _)%bool.
Qed.

Lemma loadConfig_normal (env : Env) (w : World) :
  exists config, loadConfig env w = (Normal config, w).
Proof.
  unfold loadConfig. destruct (configFile w) as [parsed|]; [|now eexists].
  destruct (_ || _)%bool; now eexists.
Qed.

Lemma isAppId_truthy (ds : string) :
  Spec.isAppId ds -> truthyString (Some ds) = true.
Proof.
  intros [_ Hl]. destruct ds; [simpl in Hl; lia | reflexivity].
Qed.

Lemma consumeAppId_positional (required : bool) (env : Env) (w : World)
    (first : string) (others : list string) (a : AppInput) :
  indexOf "--app" (rest w) = None ->
  rest w = first :: others ->
  parseAppInput (JStr first) = Normal (Some a) ->
  consumeAppId required env w = (Normal (Some (appId a)), setRest others w).
Proof.
  intros Hno Hrest Hparse. unfold consumeAppId.
  unfold bind at 1. rewrite (takeOption_absent _ _ _ Hno).
  cbn [truthyString]. unfold bind, getRest, lift, putRest, ret.
  rewrite Hrest, Hparse. cbn -[truthyString].
  rewrite (isAppId_truthy _ (parseAppInput_sound _ _ Hparse)).
  reflexivity.
Qed.

Lemma consumeAppId_left (required : bool) (env : Env) (w : World) :
  indexOf "--app" (rest w) = None ->
  (rest w = []
   \/ exists first others,
        rest w = first :: others
        /\ parseAppInput (JStr first) = Normal None) ->
  consumeAppId required env w
  = (if required then Throw Spec.provideAppError else Normal None, w).
Proof.
  intros Hno Hrest. unfold consumeAppId.
  unfold bind at 1. rewrite (takeOption_absent _ _ _ Hno).
  cbn [truthyString]. unfold bind, getRest, lift, ret, throw.
  destruct Hrest as [-> | (first & others & -> & ->)];
    now destruct required.
Qed.

Lemma consumeAppId_args (required : bool) (env : Env) (w : World) :
  Spec.onlyArgsChanged w (snd (consumeAppId required env w)).
Proof.
  unfold consumeAppId. unfold bind at 1.
  pose proof (takeOption_args "--app" env w) as H0.
  destruct (takeOption "--app" env w) as [[v| |] w1]; simpl in H0;
    [|exact H0|exact H0].
  unfold bind, getRest, lift, putRest, ret, throw.
  assert (H1 : forall others, Spec.onlyArgsChanged w (setRest others w1)).
  { intros others. apply (onlyArgsChanged_trans _ _ _ H0). now eexists. }
  destruct (truthyString v).
  - destruct (parseAppInput (ofOption v)) as [[p|]| |]; simpl;
      try exact H0.
    now destruct (_ && _)%bool.
  - destruct (rest w1) as [|first others] eqn:Hr; simpl.
    + now destruct required.
    + destruct (parseAppInput (JStr first)) as [[p|]| |]; simpl;
        try exact H0.
      * destruct (_ && _)%bool; apply H1.
      * now destruct required.
Qed.

(** [runKeywordMetrics] is its prelude followed by the reading of the
    keywords. *)
Lemma runKeywordMetrics_split (env : Env) (w : World) :
  runKeywordMetrics env w
  = match Spec.metricsPrelude env w with
    | (Normal x, w') => Spec.metricsKeywords x env w'
    | (Throw e, w') => (Throw e, w')
    | (Unfinished, w') => (Unfinished, w')
    end.
Proof.
  unfold runKeywordMetrics, Spec.metricsPrelude, Spec.metricsKeywords,
    Spec.metricsSubmit, bind, ret.
  repeat run_step; reflexivity.
Qed.

(** Without options in the array, the prelude is [consumeAppId]. *)
Lemma metricsPrelude_plain (env : Env) (w : World) (config : JSValue) :
  loadConfig env w = (Normal config, w) ->
  indexOf "--json" (rest w) = None ->
  indexOf "--region" (rest w) = None ->
  indexOf "--platform" (rest w) = None ->
  Spec.metricsPrelude env w
  = match consumeAppId false env w with
    | (Normal appId, w') => (Normal (config, None, None, appId), w')
    | (Throw e, w') => (Throw e, w')
    | (Unfinished, w') => (Unfinished, w')
    end.
Proof.
  intros Hc Hj Hr Hp. unfold Spec.metricsPrelude.
  unfold bind at 1. rewrite Hc.
  unfold bind at 1. rewrite (takeFlag_absent _ _ _ Hj).
  unfold bind at 1. rewrite (takeOption_absent _ _ _ Hr).
  unfold bind at 1. rewrite (takeOption_absent _ _ _ Hp).
  reflexivity.
Qed.

(** Without an --app option, [consumeTrackedKeywordsAppTarget] takes the
    first argument out whenever its trimmed text is not empty and does not
    begin with two dashes. *)
Lemma consumeTrackedKeywordsAppTarget_taken (env : Env) (w : World)
    (first : string) (others : list string) :
  indexOf "--app" (rest w) = None ->
  rest w = first :: others ->
  trim first <> "" ->
  startsWith "--" (trim first) = false ->
  consumeTrackedKeywordsAppTarget env w
  = (match parseAppInput (JStr (trim first)) with
     | Normal (Some p) =>
         Normal (mkTrackedTarget (appId p) (Some (appId p)) None)
     | Normal None =>
         match normalizePlannedTrackedAppId (JStr (trim first)) with
         | Some plannedId =>
             Normal (mkTrackedTarget plannedId None (Some plannedId))
         | None =>
             Throw (newError
               "Invalid --app value. Use an App Store URL/id or a planned app id.")
         end
     | Throw e => Throw e
     | Unfinished => Unfinished
     end, setRest others w).
Proof.
  intros Hno Hrest Hne Hdash. unfold consumeTrackedKeywordsAppTarget.
  unfold bind at 1. rewrite (takeOption_absent _ _ _ Hno).
  cbn [truthyString]. unfold bind, getRest, lift, putRest, ret, throw.
  rewrite Hrest, stringOrEmpty_JStr, Hdash.
  apply StringFacts.isEmpty_false in Hne. rewrite Hne.
  cbn [negb andb truthyString ofOption]. rewrite Hne. cbn [negb].
  destruct (parseAppInput (JStr (trim first))) as [[a|]| |]; try reflexivity.
  now destruct (normalizePlannedTrackedAppId (JStr (trim first))).
Qed.

Lemma consumeTrackedKeywordsAppTarget_left (env : Env) (w : World) :
  indexOf "--app" (rest w) = None ->
  (rest w = []
   \/ exists first others,
        rest w = first :: others
        /\ (trim first = "" \/ startsWith "--" (trim first) = true)) ->
  consumeTrackedKeywordsAppTarget env w
  = (Throw (newError
              "Provide an app via --app <APP_ID_OR_URL_OR_PLANNED_ID>"), w).
Proof.
  intros Hno Hrest. unfold consumeTrackedKeywordsAppTarget.
  unfold bind at 1. rewrite (takeOption_absent _ _ _ Hno).
  cbn [truthyString]. unfold bind, getRest, lift, putRest, ret, throw.
  destruct Hrest as [-> | (first & others & -> & H)]; [reflexivity|].
  rewrite stringOrEmpty_JStr.
  destruct H as [H | H]; rewrite H; [reflexivity|].
  now rewrite andb_false_r.
Qed.

Lemma rejectUnknownArguments_left (env : Env) (w : World) :
  rest w <> [] ->
  rejectUnknownArguments env w
  = (Throw (newError ("Unknown arguments: " ++ join " " (rest w))), w).
Proof.
  intros H. unfold rejectUnknownArguments, bind, getRest, throw.
  destruct (rest w); [now destruct H | reflexivity].
Qed.

(** events list stops at the arguments that are left once --json and --app
    are out of the array. *)
Lemma runEventsList_left (env : Env) (w : World) :
  Args.missingValue "--app" (Args.withoutFlag "--json" (rest w)) = false ->
  Args.withoutOption "--app" (Args.withoutFlag "--json" (rest w)) <> [] ->
  runEventsList env w
  = (Throw (newError
              ("Unknown arguments: "
               ++ join " "
                    (Args.withoutOption "--app"
                       (Args.withoutFlag "--json" (rest w))))),
     setRest (Args.withoutOption "--app" (Args.withoutFlag "--json" (rest w)))
       w).
Proof.
  intros Hm Hleft. unfold runEventsList.
  destruct (loadConfig_normal env w) as [config Hc].
  unfold bind at 1. rewrite Hc.
  unfold bind at 1. rewrite takeFlag_exact.
  unfold bind at 1. rewrite takeOption_exact; [|exact Hm].
  unfold bind at 1. cbn [rest setRest].
  rewrite rejectUnknownArguments_left; [reflexivity | exact Hleft].
Qed.

(** events add stops at the arguments that are left once --json, --text,
    --date and --app are out of the array. *)
Lemma runEventsAdd_left (env : Env) (w : World) :
  let noJson := Args.withoutFlag "--json" (rest w) in
  let noText := Args.withoutOption "--text" noJson in
  let noDate := Args.withoutOption "--date" noText in
  let left := Args.withoutOption "--app" noDate in
  Args.missingValue "--text" noJson = false ->
  Args.missingValue "--date" noText = false ->
  Args.missingValue "--app" noDate = false ->
  left <> [] ->
  runEventsAdd env w
  = (Throw (newError ("Unknown arguments: " ++ join " " left)),
     setRest left w).
Proof.
  intros noJson noText noDate left Ht Hd Ha Hleft. unfold runEventsAdd.
  destruct (loadConfig_normal env w) as [config Hc].
  unfold bind at 1. rewrite Hc.
  unfold bind at 1. rewrite takeFlag_exact.
  unfold bind at 1. rewrite takeOption_exact; [|exact Ht].
  unfold bind at 1. cbn [rest setRest].
  rewrite takeOption_exact; [|exact Hd].
  unfold bind at 1. cbn [rest setRest].
  rewrite takeOption_exact; [|exact Ha].
  unfold bind at 1. cbn [rest setRest].
  rewrite rejectUnknownArguments_left; [reflexivity | exact Hleft].
Qed.

(** C5. When the argument array holds no --app option, [consumeAppId]
    (the app target of keywords, track-app, untrack-app, charts, ratings
    and the other commands of one app) looks at the first argument only:
    if [parseAppInput] accepts it, its id is the app target and the array
    loses exactly that first argument; otherwise (or when the array is
    empty) the array is left as it is and there is no target (an error
    when the command requires one).  In the keywords command the keywords
    are normalized from the array this leaves, so a consumed first
    argument is no keyword and a first argument that is no app locator is
    one.  The tracked-keywords commands take the first argument out
    whenever its trimmed text is not empty and does not begin with two
    dashes, whether or not [parseAppInput] accepts it: it is the numeric
    app id when it does, a planned app id when
    [normalizePlannedTrackedAppId] accepts it, and an error otherwise;
    with no such first argument they throw and leave the array as it is.
    events list and events add take their app from --app only: every
    argument that the options leave is rejected as unknown. *)
Theorem C5_first_positional_only :
  (forall required env w first others a,
      indexOf "--app" (rest w) = None ->
      rest w = first :: others ->
      parseAppInput (JStr first) = Normal (Some a) ->
      consumeAppId required env w
      = (Normal (Some (appId a)), setRest others w))
  /\ (forall required env w,
         indexOf "--app" (rest w) = None ->
         (rest w = []
          \/ exists first others,
               rest w = first :: others
               /\ parseAppInput (JStr first) = Normal None) ->
         consumeAppId required env w
         = (if required then Throw Spec.provideAppError else Normal None, w))
  /\ (forall env w first others,
         indexOf "--app" (rest w) = None ->
         rest w = first :: others ->
         trim first <> "" ->
         startsWith "--" (trim first) = false ->
         consumeTrackedKeywordsAppTarget env w
         = (match parseAppInput (JStr (trim first)) with
            | Normal (Some p) =>
                Normal (mkTrackedTarget (appId p) (Some (appId p)) None)
            | Normal None =>
                match normalizePlannedTrackedAppId (JStr (trim first)) with
                | Some plannedId =>
                    Normal (mkTrackedTarget plannedId None (Some plannedId))
                | None =>
                    Throw (newError
                      "Invalid --app value. Use an App Store URL/id or a planned app id.")
                end
            | Throw e => Throw e
            | Unfinished => Unfinished
            end, setRest others w))
  /\ (forall env w,
         indexOf "--app" (rest w) = None ->
         (rest w = []
          \/ exists first others,
               rest w = first :: others
               /\ (trim first = "" \/ startsWith "--" (trim first) = true)) ->
         consumeTrackedKeywordsAppTarget env w
         = (Throw (newError
                     "Provide an app via --app <APP_ID_OR_URL_OR_PLANNED_ID>"),
            w))
  /\ (forall env w config first others a,
         loadConfig env w = (Normal config, w) ->
         indexOf "--json" (rest w) = None ->
         indexOf "--region" (rest w) = None ->
         indexOf "--platform" (rest w) = None ->
         indexOf "--app" (rest w) = None ->
         rest w = first :: others ->
         parseAppInput (JStr first) = Normal (Some a) ->
         runKeywordMetrics env w
         = Spec.metricsKeywords (config, None, None, Some (appId a)) env
             (setRest others w))
  /\ (forall env w config first others,
         loadConfig env w = (Normal config, w) ->
         indexOf "--json" (rest w) = None ->
         indexOf "--region" (rest w) = None ->
         indexOf "--platform" (rest w) = None ->
         indexOf "--app" (rest w) = None ->
         rest w = first :: others ->
         parseAppInput (JStr first) = Normal None ->
         runKeywordMetrics env w
         = Spec.metricsKeywords (config, None, None, None) env w)
  /\ (forall env w,
         Args.missingValue "--app" (Args.withoutFlag "--json" (rest w))
         = false ->
         Args.withoutOption "--app" (Args.withoutFlag "--json" (rest w))
         <> [] ->
         runEventsList env w
         = (Throw (newError
                     ("Unknown arguments: "
                      ++ join " "
                           (Args.withoutOption "--app"
                              (Args.withoutFlag "--json" (rest w))))),
            setRest
              (Args.withoutOption "--app"
                 (Args.withoutFlag "--json" (rest w))) w))
  /\ (forall env w,
         let noJson := Args.withoutFlag "--json" (rest w) in
         let noText := Args.withoutOption "--text" noJson in
         let noDate := Args.withoutOption "--date" noText in
         let left := Args.withoutOption "--app" noDate in
         Args.missingValue "--text" noJson = false ->
         Args.missingValue "--date" noText = false ->
         Args.missingValue "--app" noDate = false ->
         left <> [] ->
         runEventsAdd env w
         = (Throw (newError ("Unknown arguments: " ++ join " " left)),
            setRest left w)).
Proof.
  repeat apply conj.
  - exact consumeAppId_positional.
  - exact consumeAppId_left.
  - exact consumeTrackedKeywordsAppTarget_taken.
  - exact consumeTrackedKeywordsAppTarget_left.
  - intros env w config first others a Hc Hj Hr Hp Ha Hrest Hparse.
    rewrite runKeywordMetrics_split.
    rewrite (metricsPrelude_plain env w config Hc Hj Hr Hp).
    rewrite (consumeAppId_positional false env w first others a Ha Hrest
               Hparse).
    reflexivity.
  - intros env w config first others Hc Hj Hr Hp Ha Hrest Hparse.
    rewrite runKeywordMetrics_split.
    rewrite (metricsPrelude_plain env w config Hc Hj Hr Hp).
    rewrite (consumeAppId_left false env w Ha).
    + reflexivity.
    + right. now exists first, others.
  - exact runEventsList_left.
  - exact runEventsAdd_left.
Qed.

End AppTargetFacts.

(** C5 on [asosuite keywords 6448311069 "step counter"], on [asosuite
    keywords fitness "step counter"], on the arguments [my-plan fitness] of
    a tracked-keywords command and on [asosuite events add --text Launch
    6448311069]. *)
Lemma C5_first_positional_only_witness :
  trace (snd (runKeywordMetrics (Examples.replyWith [Examples.okReply])
                (Examples.worldOf ["6448311069"; "step counter"]
                   (Some Examples.credential))))
  = [EvFetch 1700000000000
       (requestOf
          (mkApiArgs "/api/cli/keywords/metrics" "POST"
             (Examples.metricsBody "US" ["step counter"]
                (JStr "6448311069"))
             (Some "token")))]
  /\ trace (snd (runKeywordMetrics (Examples.replyWith [Examples.okReply])
                   (Examples.worldOf ["fitness"; "step counter"]
                      (Some Examples.credential))))
     = [EvFetch 1700000000000
          (requestOf
             (mkApiArgs "/api/cli/keywords/metrics" "POST"
                (Examples.metricsBody "US" ["fitness"; "step counter"] JNull)
                (Some "token")))]
  /\ consumeTrackedKeywordsAppTarget (Examples.replyWith [])
       (Examples.worldOf [" my-plan"; "fitness"] None)
     = (Normal (mkTrackedTarget "my-plan" None (Some "my-plan")),
        Examples.worldOf ["fitness"] None)
  /\ runEventsAdd (Examples.replyWith [])
       (Examples.worldOf ["--text"; "Launch"; "6448311069"] None)
     = (Throw (newError "Unknown arguments: 6448311069"),
        Examples.worldOf ["6448311069"] None).
Proof.
  destruct (C5_first_positional_only (host := modelHost))
    as (_ & _ & Htarget & _ & Htaken & Hleft & _ & Hadd).
  split; [|split; [|split]].
  3:{ rewrite (Htarget (Examples.replyWith [])
                 (Examples.worldOf [" my-plan"; "fitness"] None)
                 " my-plan" ["fitness"] eq_refl eq_refl);
        [reflexivity | discriminate | reflexivity]. }
  3:{ rewrite (Hadd (Examples.replyWith [])
                 (Examples.worldOf ["--text"; "Launch"; "6448311069"] None)
                 eq_refl eq_refl eq_refl);
        [reflexivity | discriminate]. }
  - rewrite (Htaken (Examples.replyWith [Examples.okReply])
               (Examples.worldOf ["6448311069"; "step counter"]
                  (Some Examples.credential))
               Examples.credential "6448311069" ["step counter"]
               (mkAppInput "6448311069")
               eq_refl eq_refl eq_refl eq_refl eq_refl eq_refl eq_refl).
    reflexivity.
  - rewrite (Hleft (Examples.replyWith [Examples.okReply])
               (Examples.worldOf ["fitness"; "step counter"]
                  (Some Examples.credential))
               Examples.credential "fitness" ["step counter"]
               eq_refl eq_refl eq_refl eq_refl eq_refl eq_refl eq_refl).
    reflexivity.
Defined.

(** C5 as stated fails on [asosuite tracked-keywords add myplan fitness]:
    the first argument is no app locator, yet it is taken out of the array
    as the (planned) app and only [fitness] is a keyword; and on [asosuite
    events list 6448311069]: the first argument is an app locator, yet it
    is not taken as the app but rejected. *)
Lemma C5_counterexample :
  parseAppInput (JStr "myplan") = Normal None
  /\ (let w := Examples.worldOf ["myplan"; "fitness"]
                 (Some Examples.credential) in
      snd (runTrackedKeywordsAdd (Examples.replyWith [Examples.okReply]) w)
      = fetched (Examples.replyWith [Examples.okReply])
          (requestOf
             (mkApiArgs "/api/cli/apps/planned/keywords" "POST"
                (JObj [("plannedTrackedAppId", JStr "myplan");
                       ("platform", JStr "iphone");
                       ("region", JStr "US");
                       ("keywords", JArr [JStr "fitness"])])
                (Some "token")))
          (setRest ["fitness"] w))
  /\ parseAppInput (JStr "6448311069")
     = Normal (Some (mkAppInput "6448311069"))
  /\ (let w := Examples.worldOf ["6448311069"] (Some Examples.credential) in
      runEventsList (Examples.replyWith [Examples.okReply]) w
      = (Throw (newError "Unknown arguments: 6448311069"), w)).
Proof. repeat split. Qed.

(* ================================================================== *)
(** * The number of keywords (C6) and the region of the keywords command
      (C3) *)
(* ================================================================== *)

Section KeywordCountFacts.
Context {host : JSHost}.
Import JsString.

Lemma consumeTrackedKeywordsAppTarget_args (env : Env) (w : World) :
  Spec.onlyArgsChanged w (snd (consumeTrackedKeywordsAppTarget env w)).
Proof.
  unfold consumeTrackedKeywordsAppTarget. unfold bind at 1.
  pose proof (takeOption_args "--app" env w) as H0.
  destruct (takeOption "--app" env w) as [[v| |] w1]; simpl in H0;
    [|exact H0|exact H0].
  unfold bind, getRest, lift, putRest, ret, throw.
  assert (H1 : forall others, Spec.onlyArgsChanged w (setRest others w1)).
  { intros others. apply (onlyArgsChanged_trans _ _ _ H0). now eexists. }
  destruct (truthyString v).
  - destruct (negb _); [exact H0|].
    destruct (parseAppInput _) as [[p|]| |]; simpl; try exact H0.
    now destruct (normalizePlannedTrackedAppId _).
  - destruct (rest w1) as [|first others]; simpl; [exact H0|].
    destruct (_ && _)%bool; simpl.
    + destruct (negb _); [apply H1|].
      destruct (parseAppInput _) as [[p|]| |]; simpl; try apply H1.
      destruct (normalizePlannedTrackedAppId _); apply H1.
    + exact H0.
Qed.

Lemma metricsPrelude_args (env : Env) (w : World) :
  Spec.onlyArgsChanged w (snd (Spec.metricsPrelude env w)).
Proof.
  unfold Spec.metricsPrelude, bind, ret.
  rewrite <- (loadConfig_args env w) at 1.
  destruct (loadConfig env w) as [[config| |] w0]; simpl; auto with cmd.
  pose proof (takeFlag_args "--json" env w0) as H1.
  destruct (takeFlag "--json" env w0) as [[f| |] w1]; simpl in *; auto.
  pose proof (takeOption_args "--region" env w1) as H2.
  destruct (takeOption "--region" env w1) as [[r| |] w2]; simpl in *;
    eauto using onlyArgsChanged_trans.
  pose proof (takeOption_args "--platform" env w2) as H3.
  destruct (takeOption "--platform" env w2) as [[p| |] w3]; simpl in *;
    eauto using onlyArgsChanged_trans.
  pose proof (consumeAppId_args false env w3) as H4.
  destruct (consumeAppId false env w3) as [[a| |] w4]; simpl in *;
    eauto using onlyArgsChanged_trans.
Qed.

Lemma trackedPrelude_args (env : Env) (w : World) :
  Spec.onlyArgsChanged w (snd (Spec.trackedPrelude env w)).
Proof.
  unfold Spec.trackedPrelude, bind, ret.
  rewrite <- (loadConfig_args env w) at 1.
  destruct (loadConfig env w) as [[config| |] w0]; simpl; auto with cmd.
  pose proof (takeFlag_args "--json" env w0) as H1.
  destruct (takeFlag "--json" env w0) as [[f| |] w1]; simpl in *; auto.
  pose proof (takeOption_args "--platform" env w1) as H2.
  destruct (takeOption "--platform" env w1) as [[r| |] w2]; simpl in *;
    eauto using onlyArgsChanged_trans.
  pose proof (takeOption_args "--region" env w2) as H3.
  destruct (takeOption "--region" env w2) as [[p| |] w3]; simpl in *;
    eauto using onlyArgsChanged_trans.
  pose proof (consumeTrackedKeywordsAppTarget_args env w3) as H4.
  destruct (consumeTrackedKeywordsAppTarget env w3) as [[a| |] w4];
    simpl in *; eauto using onlyArgsChanged_trans.
Qed.

Lemma runTrackedKeywordsAdd_split (env : Env) (w : World) :
  runTrackedKeywordsAdd env w
  = match Spec.trackedPrelude env w with
    | (Normal x, w') => Spec.trackedKeywords "POST" x env w'
    | (Throw e, w') => (Throw e, w')
    | (Unfinished, w') => (Unfinished, w')
    end.
Proof.
  unfold runTrackedKeywordsAdd, Spec.trackedPrelude, Spec.trackedKeywords,
    Spec.trackedSubmit, bind, ret.
  repeat run_step; reflexivity.
Qed.

Lemma runTrackedKeywordsRemove_split (env : Env) (w : World) :
  runTrackedKeywordsRemove env w
  = match Spec.trackedPrelude env w with
    | (Normal x, w') => Spec.trackedKeywords "DELETE" x env w'
    | (Throw e, w') => (Throw e, w')
    | (Unfinished, w') => (Unfinished, w')
    end.
Proof.
  unfold runTrackedKeywordsRemove, Spec.trackedPrelude, Spec.trackedKeywords,
    Spec.trackedSubmit, bind, ret.
  repeat run_step; reflexivity.
Qed.

(** What the two checks of the number of keywords make of a list of [n]
    normalized keywords under the bound [limit]. *)
Lemma count_cases (limit : nat) (x : Cmd JSValue) (env : Env) (w : World)
    (n : nat) :
  (n = 0%nat ->
   (if (n =? 0)%nat
    then throw (newError "Provide at least one keyword")
    else if (limit <? n)%nat then throw (newError (atMostMessage limit))
         else x) env w
   = (Throw (newError "Provide at least one keyword"), w))
  /\ ((limit < n)%nat ->
      (if (n =? 0)%nat
       then throw (newError "Provide at least one keyword")
       else if (limit <? n)%nat then throw (newError (atMostMessage limit))
            else x) env w
      = (Throw (newError (atMostMessage limit)), w))
  /\ ((1 <= n <= limit)%nat ->
      (if (n =? 0)%nat
       then throw (newError "Provide at least one keyword")
       else if (limit <? n)%nat then throw (newError (atMostMessage limit))
            else x) env w
      = x env w).
Proof.
  repeat split; intros H.
  - subst n. reflexivity.
  - destruct (Nat.eqb_spec n 0); [lia|].
    destruct (Nat.ltb_spec limit n); [reflexivity | lia].
  - destruct (Nat.eqb_spec n 0); [lia|].
    destruct (Nat.ltb_spec limit n); [lia | reflexivity].
Qed.

(** C6. In the keywords command, once the options and the app target are
    out of the argument array (which issues no request), the normalized
    list of what is left is checked: an empty list and a list of more than
    50 entries are rejected in the state the prelude left, so before any
    request, and a list of 1 to 50 entries (50 included) goes on to the
    authentication check and the request.  The same holds for
    tracked-keywords add and remove with the bound 200. *)
Theorem C6_keyword_count :
  (forall env w x w',
      Spec.metricsPrelude env w = (Normal x, w') ->
      let keywords := normalizeKeywordArgs (List.map JStr (rest w')) in
      let n := List.length keywords in
      (trace w' = trace w /\ served w' = served w)
      /\ (n = 0%nat ->
          runKeywordMetrics env w
          = (Throw (newError "Provide at least one keyword"), w'))
      /\ ((50 < n)%nat ->
          runKeywordMetrics env w
          = (Throw (newError "At most 50 keywords are allowed per request"),
             w'))
      /\ ((1 <= n <= 50)%nat ->
          runKeywordMetrics env w = Spec.metricsSubmit x keywords env w'))
  /\ (forall env w x w',
         Spec.trackedPrelude env w = (Normal x, w') ->
         let keywords := normalizeKeywordArgs (List.map JStr (rest w')) in
         let n := List.length keywords in
         (trace w' = trace w /\ served w' = served w)
         /\ (n = 0%nat ->
             runTrackedKeywordsAdd env w
             = (Throw (newError "Provide at least one keyword"), w')
             /\ runTrackedKeywordsRemove env w
                = (Throw (newError "Provide at least one keyword"), w'))
         /\ ((200 < n)%nat ->
             runTrackedKeywordsAdd env w
             = (Throw
                  (newError "At most 200 keywords are allowed per request"),
                w')
             /\ runTrackedKeywordsRemove env w
                = (Throw
                     (newError
                        "At most 200 keywords are allowed per request"),
                   w'))
         /\ ((1 <= n <= 200)%nat ->
             runTrackedKeywordsAdd env w
             = Spec.trackedSubmit "POST" x keywords env w'
             /\ runTrackedKeywordsRemove env w
                = Spec.trackedSubmit "DELETE" x keywords env w')).
Proof.
  split.
  - intros env w x w' Hpre keywords n.
    pose proof (metricsPrelude_args env w) as Hargs. rewrite Hpre in Hargs.
    apply onlyArgsChanged_trace in Hargs as (Ht & _ & Hs & _).
    split; [now split|].
    rewrite runKeywordMetrics_split, Hpre.
    unfold Spec.metricsKeywords, bind, getRest. fold keywords. fold n.
    exact (count_cases MAX_KEYWORDS (Spec.metricsSubmit x keywords) env w' n).
  - intros env w x w' Hpre keywords n.
    pose proof (trackedPrelude_args env w) as Hargs. rewrite Hpre in Hargs.
    apply onlyArgsChanged_trace in Hargs as (Ht & _ & Hs & _).
    split; [now split|].
    rewrite runTrackedKeywordsAdd_split, runTrackedKeywordsRemove_split, Hpre.
    unfold Spec.trackedKeywords, bind, getRest. fold keywords. fold n.
    destruct (count_cases MAX_TRACKED_KEYWORDS_ADD
                (Spec.trackedSubmit "POST" x keywords) env w' n)
      as (A1 & A2 & A3).
    destruct (count_cases MAX_TRACKED_KEYWORDS_ADD
                (Spec.trackedSubmit "DELETE" x keywords) env w' n)
      as (B1 & B2 & B3).
    repeat split; auto.
Qed.

End KeywordCountFacts.

(** C6 on 50 and on 51 keywords for the keywords command, and on 200 and
    201 keywords for tracked-keywords add. *)
Lemma C6_keyword_count_witness :
  (let w := Examples.worldOf (repeat "kw" 50) (Some Examples.credential) in
   trace (snd (runKeywordMetrics (Examples.replyWith [Examples.okReply]) w))
   = [EvFetch 1700000000000
        (requestOf
           (mkApiArgs "/api/cli/keywords/metrics" "POST"
              (Examples.metricsBody "US" (repeat "kw" 50) JNull)
              (Some "token")))])
  /\ (let w := Examples.worldOf (repeat "kw" 51) (Some Examples.credential) in
      runKeywordMetrics (Examples.replyWith [Examples.okReply]) w
      = (Throw (newError "At most 50 keywords are allowed per request"), w))
  /\ (let w := Examples.worldOf ("my-next-app" :: repeat "kw" 201)
                 (Some Examples.credential) in
      runTrackedKeywordsAdd (Examples.replyWith [Examples.okReply]) w
      = (Throw (newError "At most 200 keywords are allowed per request"),
         setRest (repeat "kw" 201) w)).
Proof.
  destruct (C6_keyword_count (host := modelHost)) as [Hm Ht].
  split; [|split]; cbv zeta.
  - destruct (Hm (Examples.replyWith [Examples.okReply])
                (Examples.worldOf (repeat "kw" 50) (Some Examples.credential))
                (Examples.credential, None, None, None)
                (Examples.worldOf (repeat "kw" 50) (Some Examples.credential))
                eq_refl) as (_ & _ & _ & Hok).
    rewrite Hok; [reflexivity | vm_compute; lia].
  - destruct (Hm (Examples.replyWith [Examples.okReply])
                (Examples.worldOf (repeat "kw" 51) (Some Examples.credential))
                (Examples.credential, None, None, None)
                (Examples.worldOf (repeat "kw" 51) (Some Examples.credential))
                eq_refl) as (_ & _ & Hmany & _).
    apply Hmany. vm_compute. lia.
  - destruct (Ht (Examples.replyWith [Examples.okReply])
                (Examples.worldOf ("my-next-app" :: repeat "kw" 201)
                   (Some Examples.credential))
                (Examples.credential, None, None,
                 mkTrackedTarget "my-next-app" None (Some "my-next-app"))
                (setRest (repeat "kw" 201)
                   (Examples.worldOf ("my-next-app" :: repeat "kw" 201)
                      (Some Examples.credential)))
                eq_refl) as (_ & _ & Hmany & _).
    apply Hmany. vm_compute. lia.
Defined.

(** C3: the keywords command sends the region USA to the server, while
    [normalizeRegionCode] rejects it and tracked-keywords add, which
    validates the option, refuses the same value before any request; the
    value se is sent as SE. *)
Lemma C3_keywords_region_unvalidated :
  normalizeRegionCode (JStr "USA") = None
  /\ (let w := Examples.worldOf ["--region"; "USA"; "fitness"]
                 (Some Examples.credential) in
      trace (snd (runKeywordMetrics (Examples.replyWith [Examples.okReply])
                    w))
      = [EvFetch 1700000000000
           (requestOf
              (mkApiArgs "/api/cli/keywords/metrics" "POST"
                 (Examples.metricsBody "USA" ["fitness"] JNull)
                 (Some "token")))])
  /\ (let w := Examples.worldOf
                 ["--region"; "USA"; "--app"; "6448311069"; "fitness"]
                 (Some Examples.credential) in
      runTrackedKeywordsAdd (Examples.replyWith [Examples.okReply]) w
      = (Throw (newError "Invalid --region value. Use a 2-letter region code."),
         setRest ["fitness"] w))
  /\ (let w := Examples.worldOf ["--region"; "se"; "fitness"]
                 (Some Examples.credential) in
      trace (snd (runKeywordMetrics (Examples.replyWith [Examples.okReply])
                    w))
      = [EvFetch 1700000000000
           (requestOf
              (mkApiArgs "/api/cli/keywords/metrics" "POST"
                 (Examples.metricsBody "SE" ["fitness"] JNull)
                 (Some "token")))]).
Proof. repeat split. Qed.

(* ================================================================== *)
(** * Device login (C8, C1) *)
(* ================================================================== *)

Section LoginFacts.
Context {host : JSHost}.
Import JsString.

Lemma apiRequest_world (args : ApiArgs) (env : Env) (w : World) :
  snd (apiRequest args env w) = fetched env (requestOf args) w.
Proof.
  unfold apiRequest, bind, fetch, throw, ret, lift.
  destruct (respond env (served w) (requestOf args)) as [response|e];
    [|reflexivity].
  destruct (negb (ok response)); [reflexivity|].
  destruct (status response =? 204); [reflexivity|].
  now destruct (includes _ _).
Qed.

Lemma apiRequest_finished (args : ApiArgs) (env : Env) (w : World) :
  fst (apiRequest args env w) <> Unfinished.
Proof.
  unfold apiRequest, bind, fetch, throw, ret, lift.
  destruct (respond env (served w) (requestOf args)) as [response|e];
    [|discriminate].
  destruct (negb (ok response)); [discriminate|].
  destruct (status response =? 204); [discriminate|].
  unfold responseJson, responseText.
  destruct (includes _ _); destruct (body response); try discriminate.
  now destruct (JSON_parse _).
Qed.

(** ** The start response *)

Lemma ltb_positive (q : Q) : (0 < q)%Q -> Js.ltb (Num 0) (Num q) = true.
Proof.
  intros Hq. simpl. destruct (Qle_bool q 0) eqn:E; [|reflexivity].
  apply Qle_bool_iff in E. lra.
Qed.

Lemma ltb_nonpositive (q : Q) : (q <= 0)%Q -> Js.ltb (Num 0) (Num q) = false.
Proof.
  intros H. simpl. apply Qle_bool_iff in H. now rewrite H.
Qed.

Lemma NumberOf_returns (v : JSValue) :
  Js.convertible v = true -> Js.NumberOf v = Normal (Js.ToNumber v).
Proof. unfold Js.NumberOf. now intros ->. Qed.

Lemma NumberOf_throws (v : JSValue) :
  Js.convertible v = false -> Js.NumberOf v = Throw Js.cannotConvert.
Proof. unfold Js.NumberOf. now intros ->. Qed.

Lemma StringOf_cases (v : JSValue) :
  Js.StringOf v = Normal (Js.ToString v)
  \/ Js.StringOf v = Throw Js.cannotConvert.
Proof. unfold Js.StringOf. destruct (Js.convertible v); auto. Qed.

Lemma NumberOf_cases (v : JSValue) :
  Js.NumberOf v = Normal (Js.ToNumber v)
  \/ Js.NumberOf v = Throw Js.cannotConvert.
Proof. unfold Js.NumberOf. destruct (Js.convertible v); auto. Qed.

Lemma positiveOr_cases (v : JSValue) (fallback : JSNumber) :
  positiveOr v fallback
  = Normal (if Js.ltb (Num 0) (Js.ToNumber v) then Js.ToNumber v
            else fallback)
  \/ positiveOr v fallback = Throw Js.cannotConvert.
Proof.
  unfold positiveOr.
  destruct (NumberOf_cases v) as [-> | ->]; [now left | now right].
Qed.

(** The number [positiveOr] takes, for each kind of value. *)
Lemma positiveOr_values (fallback : JSNumber) :
  positiveOr JUndefined fallback = Normal fallback
  /\ positiveOr JNull fallback = Normal fallback
  /\ positiveOr (JBool false) fallback = Normal fallback
  /\ positiveOr (JBool true) fallback = Normal (Num 1)
  /\ positiveOr (JNum NaN) fallback = Normal fallback
  /\ (forall q, (0 < q)%Q ->
      positiveOr (JNum (Num q)) fallback = Normal (Num q))
  /\ (forall q, (q <= 0)%Q ->
      positiveOr (JNum (Num q)) fallback = Normal fallback)
  /\ (forall s q, StringToNumber s = Num q -> (0 < q)%Q ->
      positiveOr (JStr s) fallback = Normal (Num q))
  /\ (forall s q, StringToNumber s = Num q -> (q <= 0)%Q ->
      positiveOr (JStr s) fallback = Normal fallback)
  /\ (forall s, StringToNumber s = NaN ->
      positiveOr (JStr s) fallback = Normal fallback)
  /\ (forall v q, Js.convertible v = true -> Js.ToNumber v = Num q ->
      (0 < q)%Q -> positiveOr v fallback = Normal (Num q))
  /\ (forall v, Js.convertible v = true ->
      Js.ltb (Num 0) (Js.ToNumber v) = false ->
      positiveOr v fallback = Normal fallback)
  /\ (forall v, Js.convertible v = false ->
      positiveOr v fallback = Throw Js.cannotConvert).
Proof.
  unfold positiveOr. repeat split; try reflexivity.
  - intros q Hq. cbn [Js.NumberOf Js.convertible Js.ToNumber andThen].
    now rewrite (ltb_positive _ Hq).
  - intros q Hq. cbn [Js.NumberOf Js.convertible Js.ToNumber andThen].
    now rewrite (ltb_nonpositive _ Hq).
  - intros s q E Hq. cbn [Js.NumberOf Js.convertible Js.ToNumber andThen].
    now rewrite E, (ltb_positive _ Hq).
  - intros s q E Hq. cbn [Js.NumberOf Js.convertible Js.ToNumber andThen].
    now rewrite E, (ltb_nonpositive _ Hq).
  - intros s E. cbn [Js.NumberOf Js.convertible Js.ToNumber andThen].
    now rewrite E.
  - intros v q Hc E Hq. rewrite (NumberOf_returns _ Hc). cbn [andThen].
    now rewrite E, (ltb_positive _ Hq).
  - intros v Hc E. rewrite (NumberOf_returns _ Hc). cbn [andThen].
    now rewrite E.
  - intros v Hc. now rewrite (NumberOf_throws _ Hc).
Qed.

(** What a session that was read holds. *)
Lemma readSession_fields (start : JSValue) (session : DeviceAuthSession) :
  readSession start = Normal session ->
  exists rawUser rawDevice rawPoll rawExpires,
    Js.getProp start "userCode" = Normal rawUser
    /\ Js.getProp start "deviceCode" = Normal rawDevice
    /\ Js.getProp start "pollIntervalSeconds" = Normal rawPoll
    /\ Js.getProp start "expiresInSeconds" = Normal rawExpires
    /\ userCode session = trim (Js.stringOrEmpty rawUser)
    /\ deviceCode session = trim (Js.stringOrEmpty rawDevice)
    /\ positiveOr rawPoll (Num DEFAULT_POLL_INTERVAL_SECONDS)
       = Normal (pollIntervalSeconds session)
    /\ positiveOr rawExpires (Num 600) = Normal (expiresInSeconds session)
    /\ userCode session <> "" /\ deviceCode session <> "".
Proof.
  unfold readSession.
  destruct (Js.getProp start "userCode") as [rawUser| |]; try discriminate.
  cbn [andThen].
  destruct (StringOf_cases (Js.or rawUser (JStr ""))) as [-> | ->];
    [|discriminate].
  cbn [andThen].
  destruct (Js.getProp start "deviceCode") as [rawDevice| |];
    try discriminate.
  cbn [andThen].
  destruct (StringOf_cases (Js.or rawDevice (JStr ""))) as [-> | ->];
    [|discriminate].
  cbn [andThen].
  destruct (Js.getProp start "pollIntervalSeconds") as [rawPoll| |];
    try discriminate.
  cbn [andThen].
  destruct (positiveOr rawPoll _) as [poll| |] eqn:Ep; try discriminate.
  cbn [andThen].
  destruct (Js.getProp start "expiresInSeconds") as [rawExpires| |];
    try discriminate.
  cbn [andThen].
  destruct (positiveOr rawExpires _) as [expires| |] eqn:Ee;
    try discriminate.
  cbn [andThen]. fold (Js.stringOrEmpty rawUser).
  fold (Js.stringOrEmpty rawDevice).
  destruct (isEmpty (trim (Js.stringOrEmpty rawDevice))) eqn:Ed;
    [discriminate|].
  destruct (isEmpty (WEB_BASE_URL ++ _)) eqn:Ev; [discriminate|].
  destruct (isEmpty (trim (Js.stringOrEmpty rawUser))) eqn:Eu;
    [discriminate|].
  simpl. intros H. injection H as <-.
  exists rawUser, rawDevice, rawPoll, rawExpires. simpl.
  repeat split; try reflexivity; try assumption;
    now apply StringFacts.isEmpty_false.
Qed.

(** A start response whose user code or device code is blank is refused,
    with the invalid-payload error when the two numbers convert and with
    the error of the conversion otherwise. *)
Lemma readSession_rejects (start rawUser rawDevice : JSValue)
    (userText deviceText : string) :
  Js.getProp start "userCode" = Normal rawUser ->
  Js.getProp start "deviceCode" = Normal rawDevice ->
  Js.StringOf (Js.or rawUser (JStr "")) = Normal userText ->
  Js.StringOf (Js.or rawDevice (JStr "")) = Normal deviceText ->
  trim userText = "" \/ trim deviceText = "" ->
  exists rawPoll rawExpires,
    Js.getProp start "pollIntervalSeconds" = Normal rawPoll
    /\ Js.getProp start "expiresInSeconds" = Normal rawExpires
    /\ readSession start
       = if (Js.convertible rawPoll && Js.convertible rawExpires)%bool
         then Throw Spec.invalidPayloadError
         else Throw Js.cannotConvert.
Proof.
  intros Hu Hd Eu Ed Hempty. unfold readSession.
  rewrite Hu. cbn [andThen]. rewrite Eu. cbn [andThen].
  rewrite Hd. cbn [andThen]. rewrite Ed. cbn [andThen].
  assert (Hp : exists v, Js.getProp start "pollIntervalSeconds" = Normal v).
  { destruct start; try discriminate Hu; simpl; now eexists. }
  assert (He : exists v, Js.getProp start "expiresInSeconds" = Normal v).
  { destruct start; try discriminate Hu; simpl; now eexists. }
  destruct Hp as [rp Hp], He as [re He]. exists rp, re.
  split; [exact Hp|]. split; [exact He|]. rewrite Hp, He. cbn [andThen].
  unfold positiveOr, Js.NumberOf.
  destruct (Js.convertible rp); cbn [andThen andb]; [|reflexivity].
  destruct (Js.convertible re); cbn [andThen]; [|reflexivity].
  destruct Hempty as [-> | ->]; simpl.
  - now rewrite orb_true_r.
  - reflexivity.
Qed.

(** C8. The session read from the start response takes
    [pollIntervalSeconds] from the response when its numeric reading
    [Number(v)] is positive, and 3 otherwise; the reading is the value for
    a number, 1 for [true], the number a text spells (so the text 5 is
    taken as 5) and the number the text of an array spells; it is not
    positive for a missing value, [null], [false], [NaN] and the texts
    that spell no number; and the conversion throws on an object with a
    property [toString] of its own.  [expiresInSeconds] likewise with
    600.  When [userCode] or [deviceCode] is empty after trimming, the
    login throws in the state the start request left: the start request is
    the only effect and no token request is made; the error is the
    invalid-payload error when the two numbers convert. *)
Theorem C8_login_start :
  (forall start session,
      readSession start = Normal session ->
      exists rawPoll rawExpires,
        Js.getProp start "pollIntervalSeconds" = Normal rawPoll
        /\ Js.getProp start "expiresInSeconds" = Normal rawExpires
        /\ positiveOr rawPoll (Num 3) = Normal (pollIntervalSeconds session)
        /\ positiveOr rawExpires (Num 600)
           = Normal (expiresInSeconds session))
  /\ (forall fallback,
         positiveOr JUndefined fallback = Normal fallback
         /\ positiveOr JNull fallback = Normal fallback
         /\ positiveOr (JBool false) fallback = Normal fallback
         /\ positiveOr (JBool true) fallback = Normal (Num 1)
         /\ positiveOr (JNum NaN) fallback = Normal fallback
         /\ (forall q, (0 < q)%Q ->
             positiveOr (JNum (Num q)) fallback = Normal (Num q))
         /\ (forall q, (q <= 0)%Q ->
             positiveOr (JNum (Num q)) fallback = Normal fallback)
         /\ (forall s q, StringToNumber s = Num q -> (0 < q)%Q ->
             positiveOr (JStr s) fallback = Normal (Num q))
         /\ (forall s q, StringToNumber s = Num q -> (q <= 0)%Q ->
             positiveOr (JStr s) fallback = Normal fallback)
         /\ (forall s, StringToNumber s = NaN ->
             positiveOr (JStr s) fallback = Normal fallback)
         /\ (forall v q, Js.convertible v = true -> Js.ToNumber v = Num q ->
             (0 < q)%Q -> positiveOr v fallback = Normal (Num q))
         /\ (forall v, Js.convertible v = true ->
             Js.ltb (Num 0) (Js.ToNumber v) = false ->
             positiveOr v fallback = Normal fallback)
         /\ (forall v, Js.convertible v = false ->
             positiveOr v fallback = Throw Js.cannotConvert))
  /\ (forall fuel env w noOpen w1 start rawUser rawDevice userText
             deviceText,
         takeFlag "--no-open" env w = (Normal noOpen, w1) ->
         rest w1 = [] ->
         fst (apiRequest startRequest env w1) = Normal start ->
         Js.getProp start "userCode" = Normal rawUser ->
         Js.getProp start "deviceCode" = Normal rawDevice ->
         Js.StringOf (Js.or rawUser (JStr "")) = Normal userText ->
         Js.StringOf (Js.or rawDevice (JStr "")) = Normal deviceText ->
         trim userText = "" \/ trim deviceText = "" ->
         exists rawPoll rawExpires,
           Js.getProp start "pollIntervalSeconds" = Normal rawPoll
           /\ Js.getProp start "expiresInSeconds" = Normal rawExpires
           /\ runAuthLogin fuel env w
              = (if (Js.convertible rawPoll && Js.convertible rawExpires)%bool
                 then Throw Spec.invalidPayloadError
                 else Throw Js.cannotConvert,
                 fetched env (requestOf startRequest) w1)
           /\ trace (fetched env (requestOf startRequest) w1)
              = (trace w
                 ++ [EvFetch (clock w) (requestOf startRequest)])%list).
Proof.
  split; [|split].
  - intros start session H.
    destruct (readSession_fields _ _ H)
      as (ru & rd & rp & re & _ & _ & Hp & He & _ & _ & Epoll & Eexp & _).
    exists rp, re. now repeat split.
  - exact positiveOr_values.
  - intros fuel env w noOpen w1 start ru rd ut dt Hflag Hrest Hstart Hu Hd
      Eu Ed Hempty.
    destruct (readSession_rejects _ _ _ _ _ Hu Hd Eu Ed Hempty)
      as (rp & re & Hp & He & Hread).
    exists rp, re. split; [exact Hp|]. split; [exact He|]. split.
    + unfold runAuthLogin. unfold bind at 1. rewrite Hflag.
      unfold bind at 1. unfold getRest. rewrite Hrest.
      cbn [List.length Nat.ltb Nat.leb].
      unfold bind at 1.
      pose proof (apiRequest_world startRequest env w1) as Hw.
      destruct (apiRequest startRequest env w1) as [r w2].
      simpl in Hstart, Hw. subst r w2. unfold bind at 1, lift.
      rewrite Hread. now destruct (_ && _)%bool.
    + pose proof (takeFlag_args "--no-open" env w) as Ha.
      rewrite Hflag in Ha. apply onlyArgsChanged_trace in Ha as (Ht & Hc & _).
      simpl in Ht, Hc. simpl. now rewrite Ht, Hc.
Qed.

End LoginFacts.

Section PollingFacts.
Context {host : JSHost}.
Import JsString.

Variable env : Env.
Variable deviceCode : string.
Variable pollIntervalSeconds : JSNumber.
Variable deadline : JSNumber.


Lemma pollLoop_unfold (n : nat) (w : World) :
  pollLoop (S n) deviceCode pollIntervalSeconds deadline env w
  = if Spec.beforeDeadline deadline (clock w) then
      match pollOnce deviceCode env w with
      | (Normal _, w1) => (Normal tt, w1)
      | (Throw error, w1) =>
          onPollError pollIntervalSeconds (pollLoop n deviceCode pollIntervalSeconds deadline) error env w1
      | (Unfinished, w1) => (Unfinished, w1)
      end
    else (Throw timedOutError, w).
Proof.
  cbn [pollLoop]. unfold bind, dateNow, attempt, throw, ret.
  unfold Spec.beforeDeadline.
  destruct (Js.ltb _ deadline); [|reflexivity].
  now destruct (pollOnce deviceCode env w) as [[u|e|] w1].
Qed.

Lemma pollOnce_failure (w : World) (response : Response) :
  respond env (served w) (requestOf (tokenRequest deviceCode)) = Responded response ->
  ok response = false ->
  pollOnce deviceCode env w
  = (Throw (mkError PlainError (message (parseErrorResponse response))
              (Some (status response))
              (payload (parseErrorResponse response))),
     fetched env (requestOf (tokenRequest deviceCode)) w).
Proof.
  intros Hr Hok. unfold pollOnce. unfold bind at 1.
  now rewrite (apiRequest_failure _ _ _ _ Hr Hok).
Qed.

Lemma pollOnce_finished (w : World) :
  fst (pollOnce deviceCode env w) <> Unfinished.
Proof.
  unfold pollOnce. unfold bind at 1.
  pose proof (apiRequest_finished (tokenRequest deviceCode) env w) as Hf.
  destruct (apiRequest (tokenRequest deviceCode) env w) as [[v|e|] w1];
    simpl in *; try discriminate; [|congruence].
  unfold bind, lift, throw, saveConfig.
  destruct (Js.getProp v "accessToken") as [ra|e1|] eqn:Ea; cbn [fst];
    [|discriminate|destruct v; discriminate Ea].
  destruct (StringOf_cases (Js.or ra (JStr ""))) as [-> | ->];
    [|discriminate].
  destruct (Js.getProp v "expiresAt") as [re|e2|] eqn:Ee; cbn [fst];
    [|discriminate|destruct v; discriminate Ee].
  destruct (StringOf_cases (Js.or re (JStr ""))) as [-> | ->];
    [|discriminate].
  destruct (_ || _)%bool; [discriminate|].
  destruct (writeResult env _ _); discriminate.
Qed.

(** A poll records its request, issued at the time the poll starts, and
    possibly the saved credential; the clock moves by the time of the
    request. *)
Lemma pollOnce_world (w : World) :
  exists evs,
    trace (snd (pollOnce deviceCode env w))
    = (trace w ++ EvFetch (clock w) (requestOf (tokenRequest deviceCode)) :: evs)%list
    /\ (forall t r, ~ In (EvFetch t r) evs)
    /\ clock (snd (pollOnce deviceCode env w))
       = clock w + fetchTime env (served w).
Proof.
  destruct (pollOnce deviceCode env w) as [r w'] eqn:E. cbn [snd].
  revert E. unfold pollOnce. unfold bind at 1.
  pose proof (apiRequest_world (tokenRequest deviceCode) env w) as Hw.
  assert (Hplain : exists evs,
            trace (fetched env (requestOf (tokenRequest deviceCode)) w)
            = (trace w ++ EvFetch (clock w) (requestOf (tokenRequest deviceCode)) :: evs)%list
            /\ (forall t r, ~ In (EvFetch t r) evs)
            /\ clock (fetched env (requestOf (tokenRequest deviceCode)) w)
               = clock w + fetchTime env (served w)).
  { exists []. simpl. repeat split. intros t r0 []. }
  destruct (apiRequest (tokenRequest deviceCode) env w) as [[v|e|] w1];
    simpl in Hw; subst w1.
  2, 3: intros E; injection E as <- <-; exact Hplain.
  unfold bind, lift, throw, saveConfig.
  destruct (Js.getProp v "accessToken") as [ra| |].
  2, 3: intros E; injection E as <- <-; exact Hplain.
  destruct (Js.StringOf (Js.or ra (JStr ""))).
  2, 3: intros E; injection E as <- <-; exact Hplain.
  destruct (Js.getProp v "expiresAt") as [re| |].
  2, 3: intros E; injection E as <- <-; exact Hplain.
  destruct (Js.StringOf (Js.or re (JStr ""))).
  2, 3: intros E; injection E as <- <-; exact Hplain.
  destruct (_ || _)%bool; [intros E; injection E as <- <-; exact Hplain|].
  destruct (writeResult env _ _); intros E; injection E as <- <-;
    [|exact Hplain].
  eexists [EvSaveConfig _]. simpl. rewrite <- app_assoc. simpl.
  repeat split. intros t r0 [H | []]. discriminate.
Qed.

Lemma pollLoop_on_status (n : nat) (w : World) (response : Response) :
  Spec.beforeDeadline deadline (clock w) = true ->
  respond env (served w) (requestOf (tokenRequest deviceCode)) = Responded response ->
  ok response = false ->
  pollLoop (S n) deviceCode pollIntervalSeconds deadline env w
  = onPollError pollIntervalSeconds (pollLoop n deviceCode pollIntervalSeconds deadline)
      (mkError PlainError (message (parseErrorResponse response))
         (Some (status response)) (payload (parseErrorResponse response)))
      env (fetched env (requestOf (tokenRequest deviceCode)) w).
Proof.
  intros Hb Hr Hok.
  now rewrite pollLoop_unfold, Hb, (pollOnce_failure _ _ Hr Hok).
Qed.

Lemma pollLoop_success (n : nat) (w w1 : World)
    (tokenResponse rawToken rawExpires : JSValue)
    (tokenText expiresText : string) :
  Spec.beforeDeadline deadline (clock w) = true ->
  apiRequest (tokenRequest deviceCode) env w = (Normal tokenResponse, w1) ->
  Js.getProp tokenResponse "accessToken" = Normal rawToken ->
  Js.getProp tokenResponse "expiresAt" = Normal rawExpires ->
  Js.StringOf (Js.or rawToken (JStr "")) = Normal tokenText ->
  Js.StringOf (Js.or rawExpires (JStr "")) = Normal expiresText ->
  pollLoop (S n) deviceCode pollIntervalSeconds deadline env w
  = if (isEmpty (trim tokenText) || isEmpty (trim expiresText))%bool
    then (Throw (newError "Server returned an invalid token response"), w1)
    else
      match writeResult env (configFile w1)
              (JObj [("accessToken", JStr (trim tokenText));
                     ("expiresAt", JStr (trim expiresText))])
      with
      | Written =>
          (Normal tt,
           saved (JObj [("accessToken", JStr (trim tokenText));
                        ("expiresAt", JStr (trim expiresText))]) w1)
      | WriteFailed message remains =>
          (Throw (newError message), damaged remains w1)
      end.
Proof.
  intros Hb Hreq Ha He Et Ee. rewrite pollLoop_unfold, Hb.
  unfold pollOnce. unfold bind at 1. rewrite Hreq.
  unfold bind, lift, throw, saveConfig. rewrite Ha, Et, He, Ee.
  destruct (_ || _)%bool; [reflexivity|].
  destruct (writeResult env _ _) as [|message remains]; [reflexivity|].
  unfold onPollError, Js.statusOf. reflexivity.
Qed.

(** A success whose token or expiry does not convert to a text: the
    conversion throws, and the [catch] block throws the error again. *)
Lemma pollLoop_no_text (n : nat) (w w1 : World)
    (tokenResponse rawToken rawExpires : JSValue) :
  Spec.beforeDeadline deadline (clock w) = true ->
  apiRequest (tokenRequest deviceCode) env w = (Normal tokenResponse, w1) ->
  Js.getProp tokenResponse "accessToken" = Normal rawToken ->
  Js.getProp tokenResponse "expiresAt" = Normal rawExpires ->
  Js.convertible rawToken = false \/ Js.convertible rawExpires = false ->
  pollLoop (S n) deviceCode pollIntervalSeconds deadline env w
  = (Throw Js.cannotConvert, w1).
Proof.
  intros Hb Hreq Ha He Hc. rewrite pollLoop_unfold, Hb.
  unfold pollOnce. unfold bind at 1. rewrite Hreq.
  unfold bind, lift, throw. rewrite Ha. unfold Js.StringOf.
  rewrite convertible_or.
  destruct (Js.convertible rawToken) eqn:Ct; [|reflexivity].
  rewrite He, convertible_or.
  destruct Hc as [Hc | Hc]; [discriminate|]. now rewrite Hc.
Qed.

(** A success without a body object: reading the token throws, and the
    [catch] block throws the error again. *)
Lemma pollLoop_no_body (n : nat) (w w1 : World) (tokenResponse : JSValue)
    (error : JSError) :
  Spec.beforeDeadline deadline (clock w) = true ->
  apiRequest (tokenRequest deviceCode) env w = (Normal tokenResponse, w1) ->
  Js.getProp tokenResponse "accessToken" = Throw error ->
  pollLoop (S n) deviceCode pollIntervalSeconds deadline env w
  = (Throw error, w1).
Proof.
  intros Hb Hreq Ha. rewrite pollLoop_unfold, Hb.
  unfold pollOnce. unfold bind at 1. rewrite Hreq.
  unfold bind, lift. rewrite Ha.
  destruct tokenResponse; try discriminate Ha; simpl in Ha;
    injection Ha as <-; reflexivity.
Qed.

(** Every request of the loop is issued before the deadline. *)
Lemma pollLoop_requests (fuel : nat) (w : World) :
  exists evs,
    trace (snd (pollLoop fuel deviceCode pollIntervalSeconds deadline env w)) = (trace w ++ evs)%list
    /\ Spec.allBefore deadline evs.
Proof.
  revert w. induction fuel as [|n IH]; intros w.
  - exists []. simpl. rewrite app_nil_r. split; [reflexivity|].
    intros t r [].
  - rewrite pollLoop_unfold.
    destruct (Spec.beforeDeadline deadline (clock w)) eqn:Hb.
    2:{ exists []. simpl. rewrite app_nil_r. split; [reflexivity|].
        intros t r []. }
    destruct (pollOnce_world w) as (evs1 & Ht & Hnone & _).
    assert (Hown : Spec.allBefore deadline
                     (EvFetch (clock w) (requestOf (tokenRequest deviceCode)) :: evs1)).
    { intros t r [H | H].
      - injection H as <- _. exact Hb.
      - now apply Hnone in H. }
    destruct (pollOnce deviceCode env w) as [[u|e|] w1]; simpl in Ht.
    + exists (EvFetch (clock w) (requestOf (tokenRequest deviceCode)) :: evs1). now split.
    + unfold onPollError.
      destruct (Js.statusOf e =? 428).
      * unfold bind, sleep.
        destruct (IH (slept env (Js.mul pollIntervalSeconds (Num 1000)) w1))
          as (evs2 & Ht2 & Hall2).
        exists ((EvFetch (clock w) (requestOf (tokenRequest deviceCode)) :: evs1)
                ++ EvSleep (Js.mul pollIntervalSeconds (Num 1000)) :: evs2)%list.
        split.
        --  rewrite Ht2. simpl. rewrite Ht.
           now rewrite <- !app_assoc.
        -- intros t r H. apply in_app_or in H as [H | [H | H]].
           ++ now apply Hown in H.
           ++ discriminate.
           ++ now apply Hall2 in H.
      * exists (EvFetch (clock w) (requestOf (tokenRequest deviceCode)) :: evs1).
        destruct (Js.statusOf e =? 410); [now split|].
        destruct (_ || _)%bool; now split.
    + exists (EvFetch (clock w) (requestOf (tokenRequest deviceCode)) :: evs1). now split.
Qed.

Lemma beforeDeadline_ceiling (d : Q) (t : Z) :
  Spec.beforeDeadline (Num d) t = true -> t < Qceiling d.
Proof.
  unfold Spec.beforeDeadline. simpl. intros H.
  apply negb_true_iff in H.
  assert (Hlt : (inject_Z t < d)%Q).
  { apply Qnot_le_lt. intros Hle. apply Qle_bool_iff in Hle. congruence. }
  rewrite Zlt_Qlt. eapply Qlt_le_trans; [exact Hlt | apply Qle_ceiling].
Qed.

(** With requests that take no negative time and a timer that takes at
    least a millisecond, the loop ends within as many turns as there are
    milliseconds to the deadline, plus one. *)
Lemma pollLoop_finishes (d : Q) :
  deadline = Num d ->
  (forall k, 0 <= fetchTime env k) ->
  1 <= timerTime env (Js.mul pollIntervalSeconds (Num 1000)) ->
  forall fuel w,
    (Z.to_nat (Qceiling d - clock w) < fuel)%nat ->
    fst (pollLoop fuel deviceCode pollIntervalSeconds deadline env w) <> Unfinished.
Proof.
  intros Hd Hfetch Htimer.
  induction fuel as [|n IH]; intros w Hfuel; [lia|].
  rewrite pollLoop_unfold.
  destruct (Spec.beforeDeadline deadline (clock w)) eqn:Hb; [|discriminate].
  rewrite Hd in Hb. apply beforeDeadline_ceiling in Hb.
  pose proof (pollOnce_finished w) as Hfin.
  destruct (pollOnce_world w) as (_ & _ & _ & Hclock).
  destruct (pollOnce deviceCode env w) as [[u|e|] w1]; simpl in *;
    [discriminate| |congruence].
  unfold onPollError.
  destruct (Js.statusOf e =? 428).
  - unfold bind, sleep. apply IH. cbn [slept clock].
    specialize (Hfetch (served w)). lia.
  - destruct (Js.statusOf e =? 410); [discriminate|].
    destruct (_ || _)%bool; discriminate.
Qed.

End PollingFacts.

Section LoginPolling.
Context {host : JSHost}.
Import JsString.

(** After a valid start response the login is the polling loop, with the
    deadline [expiresInSeconds * 1000] milliseconds after the time the
    loop is entered at. *)
Lemma runAuthLogin_polls (fuel : nat) (env : Env) (w w1 : World)
    (noOpen : bool) (start : JSValue) (session : DeviceAuthSession) :
  takeFlag "--no-open" env w = (Normal noOpen, w1) ->
  rest w1 = [] ->
  fst (apiRequest startRequest env w1) = Normal start ->
  readSession start = Normal session ->
  let w2 := fetched env (requestOf startRequest) w1 in
  let w3 := if noOpen then w2
            else emit (EvOpenBrowser (verificationUrl session)) w2 in
  runAuthLogin fuel env w
  = pollLoop fuel (deviceCode session) (pollIntervalSeconds session)
      (Js.add (Num (inject_Z (clock w3)))
         (Js.mul (expiresInSeconds session) (Num 1000)))
      env w3.
Proof.
  intros Hflag Hrest Hstart Hread. cbv zeta.
  unfold runAuthLogin. unfold bind at 1. rewrite Hflag.
  unfold bind at 1. unfold getRest. rewrite Hrest.
  cbn [List.length Nat.ltb Nat.leb].
  unfold bind at 1.
  pose proof (apiRequest_world startRequest env w1) as Hw.
  destruct (apiRequest startRequest env w1) as [r w2]. simpl in Hstart, Hw.
  subst r w2. unfold bind at 1, lift. rewrite Hread.
  unfold bind at 1. destruct noOpen; reflexivity.
Qed.

(** C1. After a valid start response the login is the polling loop with
    the deadline [expiresInSeconds * 1000] milliseconds after the loop is
    entered.  One turn of the loop, for each outcome of the poll: past the
    deadline the loop throws the timed-out error without a request; before
    it, a reply 428 makes the loop sleep [pollIntervalSeconds * 1000]
    milliseconds and go on to its next turn; a reply 410 throws the expired
    error; 409 and 400 throw the no-longer-valid error; any other
    non-success reply throws the error of the gateway for that reply, with
    no further request; a success whose trimmed [accessToken] and
    [expiresAt] are not empty writes the object of exactly these two
    members to the credential file and returns when the write succeeds,
    and throws the error of the file system, with no further request, when
    it fails; a success with one of them empty, without a body to read
    them from, or with one that does not convert to a text, throws.  Every
    request of the loop is issued at a time before the deadline, and when
    time moves forward the loop comes to an end. *)
Theorem C1_login_polling :
  (forall fuel env w w1 noOpen start session,
      takeFlag "--no-open" env w = (Normal noOpen, w1) ->
      rest w1 = [] ->
      fst (apiRequest startRequest env w1) = Normal start ->
      readSession start = Normal session ->
      let w2 := fetched env (requestOf startRequest) w1 in
      let w3 := if noOpen then w2
                else emit (EvOpenBrowser (verificationUrl session)) w2 in
      runAuthLogin fuel env w
      = pollLoop fuel (deviceCode session) (pollIntervalSeconds session)
          (Js.add (Num (inject_Z (clock w3)))
             (Js.mul (expiresInSeconds session) (Num 1000)))
          env w3)
  /\ (forall env deviceCode pollIntervalSeconds deadline n w,
         Spec.beforeDeadline deadline (clock w) = false ->
         pollLoop (S n) deviceCode pollIntervalSeconds deadline env w
         = (Throw timedOutError, w))
  /\ (forall env deviceCode pollIntervalSeconds deadline n w response,
         let request := requestOf (tokenRequest deviceCode) in
         let loop := fun fuel =>
           pollLoop fuel deviceCode pollIntervalSeconds deadline in
         Spec.beforeDeadline deadline (clock w) = true ->
         respond env (served w) request = Responded response ->
         ok response = false ->
         (status response = 428 ->
          loop (S n) env w
          = loop n env
              (slept env (Js.mul pollIntervalSeconds (Num 1000))
                 (fetched env request w)))
         /\ (status response = 410 ->
             loop (S n) env w
             = (Throw expiredError, fetched env request w))
         /\ (status response = 409 \/ status response = 400 ->
             loop (S n) env w
             = (Throw noLongerValidError, fetched env request w))
         /\ (status response <> 428 -> status response <> 410 ->
             status response <> 409 -> status response <> 400 ->
             loop (S n) env w
             = (Throw (mkError PlainError
                         (message (parseErrorResponse response))
                         (Some (status response))
                         (payload (parseErrorResponse response))),
                fetched env request w)))
  /\ (forall env deviceCode pollIntervalSeconds deadline n w w1
             tokenResponse rawToken rawExpires tokenText expiresText,
         Spec.beforeDeadline deadline (clock w) = true ->
         apiRequest (tokenRequest deviceCode) env w
         = (Normal tokenResponse, w1) ->
         Js.getProp tokenResponse "accessToken" = Normal rawToken ->
         Js.getProp tokenResponse "expiresAt" = Normal rawExpires ->
         Js.StringOf (Js.or rawToken (JStr "")) = Normal tokenText ->
         Js.StringOf (Js.or rawExpires (JStr "")) = Normal expiresText ->
         let accessToken := trim tokenText in
         let expiresAt := trim expiresText in
         let credential :=
           JObj [("accessToken", JStr accessToken);
                 ("expiresAt", JStr expiresAt)] in
         (accessToken <> "" -> expiresAt <> "" ->
          writeResult env (configFile w1) credential = Written ->
          pollLoop (S n) deviceCode pollIntervalSeconds deadline env w
          = (Normal tt,
             mkWorld (rest w1) (clock w1) (Some credential) (served w1)
               (trace w1 ++ [EvSaveConfig credential])))
         /\ (accessToken <> "" -> expiresAt <> "" ->
             forall reason remains,
               writeResult env (configFile w1) credential
               = WriteFailed reason remains ->
               pollLoop (S n) deviceCode pollIntervalSeconds deadline env w
               = (Throw (newError reason),
                  mkWorld (rest w1) (clock w1) remains (served w1)
                    (trace w1)))
         /\ (accessToken = "" \/ expiresAt = "" ->
             pollLoop (S n) deviceCode pollIntervalSeconds deadline env w
             = (Throw (newError "Server returned an invalid token response"),
                w1)))
  /\ (forall env deviceCode pollIntervalSeconds deadline n w w1
             tokenResponse rawToken rawExpires,
         Spec.beforeDeadline deadline (clock w) = true ->
         apiRequest (tokenRequest deviceCode) env w
         = (Normal tokenResponse, w1) ->
         Js.getProp tokenResponse "accessToken" = Normal rawToken ->
         Js.getProp tokenResponse "expiresAt" = Normal rawExpires ->
         Js.convertible rawToken = false
         \/ Js.convertible rawExpires = false ->
         pollLoop (S n) deviceCode pollIntervalSeconds deadline env w
         = (Throw Js.cannotConvert, w1))
  /\ (forall env deviceCode pollIntervalSeconds deadline n w w1
             tokenResponse error,
         Spec.beforeDeadline deadline (clock w) = true ->
         apiRequest (tokenRequest deviceCode) env w
         = (Normal tokenResponse, w1) ->
         Js.getProp tokenResponse "accessToken" = Throw error ->
         pollLoop (S n) deviceCode pollIntervalSeconds deadline env w
         = (Throw error, w1))
  /\ (forall env deviceCode pollIntervalSeconds deadline fuel w,
         exists evs,
           trace (snd (pollLoop fuel deviceCode pollIntervalSeconds deadline
                         env w))
           = (trace w ++ evs)%list
           /\ Spec.allBefore deadline evs)
  /\ (forall env deviceCode pollIntervalSeconds d,
         (forall k, 0 <= fetchTime env k) ->
         1 <= timerTime env (Js.mul pollIntervalSeconds (Num 1000)) ->
         forall fuel w,
           (Z.to_nat (Qceiling d - clock w) < fuel)%nat ->
           fst (pollLoop fuel deviceCode pollIntervalSeconds (Num d) env w)
           <> Unfinished).
Proof.
  split; [|split; [|split; [|split; [|split; [|split; [|split]]]]]].
  - exact runAuthLogin_polls.
  - intros env dc poll dl n w Hb.
    now rewrite (pollLoop_unfold env dc poll dl), Hb.
  - intros env dc poll dl n w response request loop Hb Hr Hok.
    unfold loop. rewrite (pollLoop_on_status env dc poll dl n w response Hb Hr Hok).
    unfold onPollError, Js.statusOf. cbn [errStatus].
    repeat split.
    + intros ->. reflexivity.
    + intros ->. reflexivity.
    + intros [-> | ->]; reflexivity.
    + intros H1 H2 H3 H4.
      apply Z.eqb_neq in H1, H2, H3, H4. now rewrite H1, H2, H3, H4.
  - intros env dc poll dl n w w1 tokenResponse rawToken rawExpires
      tokenText expiresText Hb Hreq Ha He Et Ee.
    cbv zeta.
    rewrite (pollLoop_success env dc poll dl n w w1 _ _ _ _ _ Hb Hreq Ha He
               Et Ee).
    split; [|split].
    + intros H1 H2 Hw. apply StringFacts.isEmpty_false in H1, H2.
      now rewrite H1, H2, Hw.
    + intros H1 H2 reason remains Hw.
      apply StringFacts.isEmpty_false in H1, H2.
      now rewrite H1, H2, Hw.
    + intros [-> | ->]; [reflexivity|]. now rewrite orb_true_r.
  - intros env dc poll dl n w w1 tokenResponse rawToken rawExpires
      Hb Hreq Ha He Hc.
    exact (pollLoop_no_text env dc poll dl n w w1 _ _ _ Hb Hreq Ha He Hc).
  - intros env dc poll dl n w w1 tokenResponse error Hb Hreq Ha.
    exact (pollLoop_no_body env dc poll dl n w w1 _ _ Hb Hreq Ha).
  - intros env dc poll dl. exact (pollLoop_requests env dc poll dl).
  - intros env dc poll d Hf Ht.
    exact (pollLoop_finishes env dc poll (Num d) d eq_refl Hf Ht).
Qed.

End LoginPolling.
(** C8 on a start response with [pollIntervalSeconds] 1 and
    [expiresInSeconds] 0, and on one whose user code is blank. *)
Lemma C8_login_start_witness :
  (exists session,
      option_map readSession (JSON_parse Examples.startText)
      = Some (Normal session)
      /\ pollIntervalSeconds session = Num 1
      /\ expiresInSeconds session = Num 600)
  /\ runAuthLogin 10
       (Examples.replyWith
          [Examples.jsonReply 200 "OK" Examples.blankUserText])
       (Examples.worldOf ["--no-open"] None)
     = (Throw Spec.invalidPayloadError,
        mkWorld [] (1700000000000 + 40) None 1
          [EvFetch 1700000000000 (requestOf startRequest)]).
Proof.
  destruct (C8_login_start (host := modelHost)) as (Hread & Hvalues & Hreject).
  split.
  - eexists. split; [reflexivity|].
    match goal with
    | |- pollIntervalSeconds ?s = _ /\ _ =>
        destruct (Hread (JObj [("userCode", JStr "ABCD-1234");
                               ("deviceCode", JStr "dev-1");
                               ("pollIntervalSeconds", JNum (Num 1));
                               ("expiresInSeconds", JNum (Num 0))])
                    s eq_refl)
          as (rp & re & Hp & He & Epoll & Eexp)
    end.
    injection Hp as <-. injection He as <-.
    destruct (Hvalues (Num 3)) as (_ & _ & _ & _ & _ & Hpos & _).
    destruct (Hvalues (Num 600)) as (_ & _ & _ & _ & _ & _ & Hnon & _).
    rewrite (Hpos 1%Q eq_refl) in Epoll.
    rewrite (Hnon 0%Q) in Eexp; [|discriminate].
    split; congruence.
  - destruct (Hreject 10%nat
                (Examples.replyWith
                   [Examples.jsonReply 200 "OK" Examples.blankUserText])
                (Examples.worldOf ["--no-open"] None)
                true (Examples.worldOf [] None)
                (JObj [("userCode", JStr "   "); ("deviceCode", JStr "dev-1")])
                (JStr "   ") (JStr "dev-1") "   " "dev-1"
                eq_refl eq_refl eq_refl eq_refl eq_refl eq_refl eq_refl
                (or_introl eq_refl))
      as (rp & re & Hp & He & Hrun & _).
    injection Hp as <-. injection He as <-. exact Hrun.
Defined.

(** C8 as stated fails on a start response whose [pollIntervalSeconds] is
    the text 5 and whose [expiresInSeconds] is [true]: neither is a
    positive number, yet the login polls every 5 seconds for 1 second
    instead of every 3 seconds for 600. *)
Lemma C8_counterexample :
  JSON_parse Examples.looseStartText
  = Some (JObj [("userCode", JStr "ABCD-1234");
                ("deviceCode", JStr "dev-1");
                ("pollIntervalSeconds", JStr "5");
                ("expiresInSeconds", JBool true)])
  /\ option_map readSession (JSON_parse Examples.looseStartText)
     = Some (Normal
               (mkSession "ABCD-1234"
                  "https://www.asosuite.com/cli/auth?code=ABCD-1234"
                  "dev-1" (Num 5) (Num 1)))
  /\ Num 5 <> Num 3 /\ Num 1 <> Num 600
  /\ trace (snd (runAuthLogin 3
                   (Examples.replyWith
                      [Examples.jsonReply 200 "OK" Examples.looseStartText;
                       Examples.pendingReply; Examples.tokenReply])
                   (Examples.worldOf ["--no-open"] None)))
     = [EvFetch 1700000000000 (requestOf startRequest);
        EvFetch 1700000000040 (requestOf (tokenRequest "dev-1"));
        EvSleep (Num (5 * 1000))].
Proof. repeat split; discriminate. Qed.

(** C1 on a login whose token endpoint answers 428 twice and then
    approves, on a token endpoint that answers 428 for ever, and on an
    approval that cannot be written to the credential file. *)
Lemma C1_login_polling_witness :
  runAuthLogin 3
    (Examples.replyWith
       [Examples.jsonReply 200 "OK" Examples.startText;
        Examples.pendingReply; Examples.pendingReply; Examples.tokenReply])
    (Examples.worldOf ["--no-open"] None)
  = (Normal tt,
     mkWorld [] 1700000002160
       (Some (JObj [("accessToken", JStr "tok-1");
                    ("expiresAt", JStr "2030-01-01T00:00:00.000Z")])) 4
       [EvFetch 1700000000000 (requestOf startRequest);
        EvFetch 1700000000040 (requestOf (tokenRequest "dev-1"));
        EvSleep (Num (1 * 1000));
        EvFetch 1700000001080 (requestOf (tokenRequest "dev-1"));
        EvSleep (Num (1 * 1000));
        EvFetch 1700000002120 (requestOf (tokenRequest "dev-1"));
        EvSaveConfig
          (JObj [("accessToken", JStr "tok-1");
                 ("expiresAt", JStr "2030-01-01T00:00:00.000Z")])])
  /\ fst (pollLoop (Z.to_nat 30001) "dev-1" (Num 1) (Num 1700000030000)
            (mkEnv (fun _ _ => Responded Examples.pendingReply)
               (fun _ => 40) (fun _ => 1000) (fun _ _ => Written)
               (fun _ => mkLocalDate 2024 4 17))
            (Examples.worldOf [] None))
     <> Unfinished
  /\ pollLoop 1 "dev-1" (Num 1) (Num 1700000030000)
       (Examples.readOnly [Examples.tokenReply])
       (Examples.worldOf [] (Some Examples.credential))
     = (Throw (newError
                 "EACCES: permission denied, mkdir '/home/user/.asosuite'"),
        mkWorld [] 1700000000040 (Some Examples.credential) 1
          [EvFetch 1700000000000 (requestOf (tokenRequest "dev-1"))]).
Proof.
  destruct (C1_login_polling (host := modelHost))
    as (Hlogin & _ & Hfail & Hok & _ & _ & _ & Hend).
  split; [|split].
  - rewrite (Hlogin 3%nat
               (Examples.replyWith
                  [Examples.jsonReply 200 "OK" Examples.startText;
                   Examples.pendingReply; Examples.pendingReply;
                   Examples.tokenReply])
               (Examples.worldOf ["--no-open"] None)
               (Examples.worldOf [] None) true
               (JObj [("userCode", JStr "ABCD-1234");
                      ("deviceCode", JStr "dev-1");
                      ("pollIntervalSeconds", JNum (Num 1));
                      ("expiresInSeconds", JNum (Num 0))])
               (mkSession "ABCD-1234"
                  "https://www.asosuite.com/cli/auth?code=ABCD-1234"
                  "dev-1" (Num 1) (Num 600))
               eq_refl eq_refl eq_refl eq_refl).
    cbv zeta. cbn [deviceCode pollIntervalSeconds expiresInSeconds].
    match goal with
    | |- pollLoop (S ?n) ?dc ?p ?dl ?e ?w = _ =>
        destruct (Hfail e dc p dl n w Examples.pendingReply
                    eq_refl eq_refl eq_refl) as (H428 & _)
    end.
    cbv zeta in H428. rewrite (H428 eq_refl). clear H428.
    match goal with
    | |- pollLoop (S ?n) ?dc ?p ?dl ?e ?w = _ =>
        destruct (Hfail e dc p dl n w Examples.pendingReply
                    eq_refl eq_refl eq_refl) as (H428 & _)
    end.
    cbv zeta in H428. rewrite (H428 eq_refl). clear H428.
    match goal with
    | |- pollLoop (S ?n) ?dc ?p ?dl ?e ?w = _ =>
        destruct (Hok e dc p dl n w
                    (snd (apiRequest (tokenRequest dc) e w))
                    (JObj [("accessToken", JStr " tok-1 ");
                           ("expiresAt", JStr "2030-01-01T00:00:00.000Z")])
                    (JStr " tok-1 ") (JStr "2030-01-01T00:00:00.000Z")
                    " tok-1 " "2030-01-01T00:00:00.000Z"
                    eq_refl eq_refl eq_refl eq_refl eq_refl eq_refl)
          as (Hsave & _)
    end.
    rewrite Hsave; [reflexivity | discriminate | discriminate | reflexivity].
  - apply (Hend (mkEnv (fun _ _ => Responded Examples.pendingReply)
                   (fun _ => 40) (fun _ => 1000) (fun _ _ => Written)
                   (fun _ => mkLocalDate 2024 4 17))
             "dev-1" (Num 1) 1700000030000%Q).
    + intros k. simpl. lia.
    + simpl. lia.
    + replace (Qceiling 1700000030000 - clock (Examples.worldOf [] None))
        with 30000 by reflexivity.
      lia.
  - destruct (Hok (Examples.readOnly [Examples.tokenReply])
                "dev-1" (Num 1) (Num 1700000030000) 0%nat
                (Examples.worldOf [] (Some Examples.credential))
                (snd (apiRequest (tokenRequest "dev-1")
                        (Examples.readOnly [Examples.tokenReply])
                        (Examples.worldOf [] (Some Examples.credential))))
                (JObj [("accessToken", JStr " tok-1 ");
                       ("expiresAt", JStr "2030-01-01T00:00:00.000Z")])
                (JStr " tok-1 ") (JStr "2030-01-01T00:00:00.000Z")
                " tok-1 " "2030-01-01T00:00:00.000Z"
                eq_refl eq_refl eq_refl eq_refl eq_refl eq_refl)
      as (_ & Hfailed & _).
    rewrite (Hfailed ltac:(discriminate) ltac:(discriminate)
               "EACCES: permission denied, mkdir '/home/user/.asosuite'"
               (Some Examples.credential) eq_refl).
    reflexivity.
Defined.

(** C1 as stated fails on a machine where the credential file cannot be
    written: the token endpoint approves with a token and an expiry that
    are not empty, yet the login does not end in success and nothing is
    stored; the error of the file system is thrown. *)
Lemma C1_counterexample :
  let env := Examples.readOnly
               [Examples.jsonReply 200 "OK" Examples.startText;
                Examples.tokenReply] in
  let w := Examples.worldOf ["--no-open"] None in
  respond env 1 (requestOf (tokenRequest "dev-1"))
  = Responded Examples.tokenReply
  /\ ok Examples.tokenReply = true
  /\ option_map (fun reply => Js.getProp reply "accessToken")
       (JSON_parse
          ("{" ++ Examples.member "accessToken" " tok-1 " ++ ","
           ++ Examples.member "expiresAt" "2030-01-01T00:00:00.000Z" ++ "}"))
     = Some (Normal (JStr " tok-1 "))
  /\ fst (runAuthLogin 3 env w)
     = Throw (newError
                "EACCES: permission denied, mkdir '/home/user/.asosuite'")
  /\ configFile (snd (runAuthLogin 3 env w)) = None
  /\ trace (snd (runAuthLogin 3 env w))
     = [EvFetch 1700000000000 (requestOf startRequest);
        EvFetch 1700000000040 (requestOf (tokenRequest "dev-1"))].
Proof. cbv zeta. repeat split. Qed.

(* ================================================================== *)
(** * The argument array: options and flags *)
(* ================================================================== *)

Module ArgsFacts.

Lemma indexOf_absent (name : string) (xs : list string) :
  ~ In name xs <-> indexOf name xs = None.
Proof.
  induction xs as [|x xs IH]; simpl; [easy|].
  destruct (String.eqb_spec x name) as [-> | Hne].
  - split; [intros H; exfalso; apply H; now left | discriminate].
  - destruct (indexOf name xs).
    + split; [|discriminate]. intros H. exfalso.
      destruct IH as [IH _]. assert (Hn : ~ In name xs) by tauto.
      now apply IH in Hn.
    + split; [reflexivity|]. intros _ [H | H]; [congruence|].
      now apply IH in H.
Qed.

Lemma indexOf_first (name : string) (pre post : list string) :
  ~ In name pre ->
  indexOf name (pre ++ name :: post) = Some (List.length pre).
Proof.
  induction pre as [|x pre IH]; simpl; intros H.
  - now rewrite String.eqb_refl.
  - destruct (String.eqb_spec x name) as [-> | Hne]; [tauto|].
    rewrite IH; [reflexivity | tauto].
Qed.

Lemma splice_at (pre mid post : list string) :
  splice (List.length pre) (List.length mid) (pre ++ mid ++ post)
  = (pre ++ post)%list.
Proof.
  unfold splice. rewrite firstn_app, Nat.sub_diag, firstn_all. simpl.
  rewrite app_nil_r. f_equal.
  rewrite skipn_app, skipn_all2 by (rewrite ?length_app; lia).
  replace (List.length pre + List.length mid - List.length pre)%nat
    with (List.length mid) by lia.
  simpl. rewrite skipn_app, Nat.sub_diag, skipn_all. reflexivity.
Qed.

End ArgsFacts.

(** X1. [takeOption] looks for the first occurrence of the option name: it
    returns the argument that follows it and takes exactly these two out of
    the array, whatever that argument is; when the name is the last
    argument it throws and leaves the array as it was; when the name is
    absent it returns null and leaves the array as it was. *)
Theorem X1_takeOption (name : string) (env : Env) (w : World) :
  (forall pre value post,
      rest w = (pre ++ name :: value :: post)%list -> ~ In name pre ->
      takeOption name env w
      = (Normal (Some value), setRest (pre ++ post) w))
  /\ (forall pre,
         rest w = (pre ++ [name])%list -> ~ In name pre ->
         takeOption name env w
         = (Throw (newError ("Missing value for " ++ name)), w))
  /\ (~ In name (rest w) -> takeOption name env w = (Normal None, w)).
Proof.
  split; [|split].
  - intros pre value post Hrest Hpre.
    unfold takeOption, bind, getRest, putRest, ret. rewrite Hrest.
    rewrite (ArgsFacts.indexOf_first _ _ _ Hpre).
    destruct (Nat.eqb_spec (List.length pre)
                (List.length (pre ++ name :: value :: post) - 1)) as [E|_].
    { rewrite length_app in E. simpl in E. lia. }
    rewrite app_nth2 by lia.
    replace (List.length pre + 1 - List.length pre)%nat with 1%nat by lia.
    simpl nth.
    pose proof (ArgsFacts.splice_at pre [name; value] post) as E.
    cbn [List.length app] in E. now rewrite E.
  - intros pre Hrest Hpre.
    unfold takeOption, bind, getRest, throw. rewrite Hrest.
    rewrite (ArgsFacts.indexOf_first _ _ _ Hpre).
    destruct (Nat.eqb_spec (List.length pre)
                (List.length (pre ++ [name]) - 1)) as [_|E];
      [reflexivity|].
    rewrite length_app in E. simpl in E. lia.
  - intros H. apply ArgsFacts.indexOf_absent in H.
    now apply takeOption_absent.
Qed.

(** X1 on [--json --region se fitness --region] and on a trailing name. *)
Lemma X1_takeOption_witness :
  takeOption "--region" (Examples.replyWith [])
    (Examples.worldOf ["--json"; "--region"; "se"; "fitness"; "--region"]
       None)
  = (Normal (Some "se"),
     Examples.worldOf ["--json"; "fitness"; "--region"] None)
  /\ takeOption "--region" (Examples.replyWith [])
       (Examples.worldOf ["fitness"; "--region"] None)
     = (Throw (newError "Missing value for --region"),
        Examples.worldOf ["fitness"; "--region"] None).
Proof.
  split.
  - apply (proj1 (X1_takeOption "--region" (Examples.replyWith [])
                    (Examples.worldOf
                       ["--json"; "--region"; "se"; "fitness"; "--region"]
                       None))
             ["--json"] "se" ["fitness"; "--region"] eq_refl).
    intros [H | []]. discriminate.
  - apply (proj1 (proj2 (X1_takeOption "--region" (Examples.replyWith [])
                           (Examples.worldOf ["fitness"; "--region"] None)))
             ["fitness"] eq_refl).
    intros [H | []]. discriminate.
Defined.

(** X2. [takeFlag] takes the first occurrence of the flag out of the array
    and returns true, leaving every other argument (a second occurrence
    too) in place; when the flag is absent it returns false and leaves the
    array as it was. *)
Theorem X2_takeFlag (name : string) (env : Env) (w : World) :
  (forall pre post,
      rest w = (pre ++ name :: post)%list -> ~ In name pre ->
      takeFlag name env w = (Normal true, setRest (pre ++ post) w))
  /\ (~ In name (rest w) -> takeFlag name env w = (Normal false, w)).
Proof.
  split.
  - intros pre post Hrest Hpre.
    unfold takeFlag, bind, getRest, putRest, ret. rewrite Hrest.
    rewrite (ArgsFacts.indexOf_first _ _ _ Hpre).
    pose proof (ArgsFacts.splice_at pre [name] post) as E.
    cbn [List.length app] in E. now rewrite E.
  - intros H. apply ArgsFacts.indexOf_absent in H.
    now apply takeFlag_absent.
Qed.

(** X2 on [login --no-open --no-open]: the second flag stays. *)
Lemma X2_takeFlag_witness :
  takeFlag "--no-open" (Examples.replyWith [])
    (Examples.worldOf ["--no-open"; "--no-open"] None)
  = (Normal true, Examples.worldOf ["--no-open"] None).
Proof.
  apply (proj1 (X2_takeFlag "--no-open" (Examples.replyWith [])
                  (Examples.worldOf ["--no-open"; "--no-open"] None))
           [] ["--no-open"] eq_refl).
  intros [].
Defined.

(* ================================================================== *)
(** * Shapes of the normalized values *)
(* ================================================================== *)

Module ShapeFacts.
Import JsString Regex Shape.

Lemma firstNot_dropWhile (p : ascii -> bool) (s : string) :
  Spec.firstNot p (dropWhile p s) = true.
Proof. apply RegexFacts.takeWhile_sound. Qed.

Lemma dropWhileEnd_head (p : ascii -> bool) (s : string) (d : ascii)
    (t : string) :
  dropWhileEnd p s = String d t -> exists r, s = String d r.
Proof.
  destruct s as [|c r]; simpl; [discriminate|].
  destruct (p c && isEmpty (dropWhileEnd p r))%bool; [discriminate|].
  intros H. injection H as -> _. now exists r.
Qed.

Lemma firstNot_dropWhileEnd (p : ascii -> bool) (s : string) :
  Spec.firstNot p s = true -> Spec.firstNot p (dropWhileEnd p s) = true.
Proof.
  destruct s as [|c r]; simpl; [easy|]. intros H.
  apply negb_true_iff in H. rewrite H. simpl. now rewrite H.
Qed.

Lemma lastNot_dropWhileEnd (p : ascii -> bool) (s : string) :
  Spec.lastNot p (dropWhileEnd p s) = true.
Proof.
  induction s as [|c r IH]; [reflexivity|]. cbn [dropWhileEnd].
  destruct (p c) eqn:Hc; simpl.
  - destruct (dropWhileEnd p r) eqn:E; simpl; [reflexivity|exact IH].
  - destruct (dropWhileEnd p r) eqn:E; simpl; [now rewrite Hc | exact IH].
Qed.

Lemma trim_bounds (s : string) :
  Spec.firstNot isWhiteSpace (trim s) = true
  /\ Spec.lastNot isWhiteSpace (trim s) = true.
Proof.
  unfold trim. split.
  - apply firstNot_dropWhileEnd, firstNot_dropWhile.
  - apply lastNot_dropWhileEnd.
Qed.

Lemma trim_idempotent (s : string) : trim (trim s) = trim s.
Proof. apply trim_id; apply trim_bounds. Qed.

Lemma forallb_dropWhile (q p : ascii -> bool) (s : string) :
  forallb q s = true -> forallb q (dropWhile p s) = true.
Proof.
  induction s as [|c r IH]; [easy|]. cbn [forallb dropWhile]. intros H.
  destruct (p c); [|exact H].
  apply andb_true_iff in H as [_ H]. now apply IH.
Qed.

Lemma forallb_dropWhileEnd (q p : ascii -> bool) (s : string) :
  forallb q s = true -> forallb q (dropWhileEnd p s) = true.
Proof.
  induction s as [|c r IH]; [easy|]. cbn [forallb dropWhileEnd]. intros H.
  apply andb_true_iff in H as [Hc Hr].
  destruct (p c && isEmpty (dropWhileEnd p r))%bool; [reflexivity|].
  cbn [forallb]. rewrite Hc. now apply IH.
Qed.

Lemma noDoubleSpace_tail (c : ascii) (s : string) :
  noDoubleSpace (String c s) = true -> noDoubleSpace s = true.
Proof.
  destruct s as [|d t]; [easy|]. cbn [noDoubleSpace]. intros H.
  now apply andb_true_iff in H as [_ H].
Qed.

Lemma noDoubleSpace_dropWhile (p : ascii -> bool) (s : string) :
  noDoubleSpace s = true -> noDoubleSpace (dropWhile p s) = true.
Proof.
  induction s as [|c r IH]; [easy|]. intros H. cbn [dropWhile].
  destruct (p c); [|exact H]. apply IH. now apply noDoubleSpace_tail in H.
Qed.

Lemma noDoubleSpace_cons (c d : ascii) (t : string) :
  noDoubleSpace (String c (String d t))
  = (negb (Ascii.eqb c " " && Ascii.eqb d " ")
     && noDoubleSpace (String d t))%bool.
Proof. reflexivity. Qed.

Lemma noDoubleSpace_dropWhileEnd (p : ascii -> bool) (s : string) :
  noDoubleSpace s = true -> noDoubleSpace (dropWhileEnd p s) = true.
Proof.
  induction s as [|c r IH]; [easy|]. intros H. cbn [dropWhileEnd].
  destruct (p c && isEmpty (dropWhileEnd p r))%bool; [reflexivity|].
  specialize (IH (noDoubleSpace_tail _ _ H)).
  destruct (dropWhileEnd p r) as [|d t] eqn:E; [reflexivity|].
  destruct (dropWhileEnd_head _ _ _ _ E) as [r' Hr]. subst r.
  rewrite noDoubleSpace_cons in H |- *.
  apply andb_true_iff in H as [H1 _]. now rewrite H1, IH.
Qed.

Lemma space_is_whiteSpace (c : ascii) :
  Ascii.eqb c " " = true -> isWhiteSpace c = true.
Proof. intros H. apply Ascii.eqb_eq in H. now subst. Qed.

Lemma collapseFrom_shape (inRun : bool) (s : string) :
  onlySpaces (collapseFrom inRun s) = true
  /\ noDoubleSpace (collapseFrom inRun s) = true
  /\ (inRun = true ->
      Spec.firstNot (fun c => Ascii.eqb c " ") (collapseFrom inRun s) = true).
Proof.
  revert inRun. induction s as [|c r IH]; intros inRun; [easy|].
  cbn [collapseFrom].
  destruct (isWhiteSpace c) eqn:Hc.
  - destruct inRun.
    + apply IH.
    + destruct (IH true) as (H1 & H2 & H3). specialize (H3 eq_refl).
      repeat split; try discriminate.
      * simpl. exact H1.
      * destruct (collapseFrom true r) as [|d t] eqn:E; [reflexivity|].
        simpl in H3. apply negb_true_iff in H3.
        rewrite noDoubleSpace_cons, H3, H2. reflexivity.
  - destruct (IH false) as (H1 & H2 & _).
    assert (Hsp : Ascii.eqb c " " = false).
    { destruct (Ascii.eqb c " ") eqn:E; [|reflexivity].
      apply space_is_whiteSpace in E. congruence. }
    repeat split.
    + unfold onlySpaces in *. cbn [forallb]. now rewrite Hc, H1.
    + destruct (collapseFrom false r) as [|d t] eqn:E; [reflexivity|].
      rewrite noDoubleSpace_cons, Hsp, H2. reflexivity.
    + intros _. simpl. now rewrite Hsp.
Qed.

(** A trimmed, collapsed text that is not empty is tidy. *)
Lemma trim_collapse_tidy (s : string) :
  trim (collapseWhiteSpace s) <> "" -> tidy (trim (collapseWhiteSpace s)).
Proof.
  intros Hne. destruct (trim_bounds (collapseWhiteSpace s)) as [Hf Hl].
  destruct (collapseFrom_shape false s) as (H1 & H2 & _).
  repeat split; try assumption.
  - unfold trim, onlySpaces.
    now apply forallb_dropWhileEnd, forallb_dropWhile.
  - unfold trim.
    now apply noDoubleSpace_dropWhileEnd, noDoubleSpace_dropWhile.
Qed.

Lemma upper_not_space (c : ascii) :
  isUpper c = true -> isWhiteSpace c = false /\ upperChar c = c.
Proof.
  destruct c as [[] [] [] [] [] [] [] []]; intros H;
    try discriminate H; split; reflexivity.
Qed.

Lemma upperChar_isUpper (c : ascii) :
  isUpper (upperChar c) = isLetter c.
Proof. destruct c as [[] [] [] [] [] [] [] []]; reflexivity. Qed.

Lemma clean_bounds (s : string) :
  forallb (fun c => negb (isWhiteSpace c)) s = true ->
  Spec.firstNot isWhiteSpace s = true /\ Spec.lastNot isWhiteSpace s = true
  /\ removeWhiteSpace s = s.
Proof.
  induction s as [|c r IH]; [easy|]. cbn [forallb]. intros H.
  apply andb_true_iff in H as [Hc Hr]. destruct (IH Hr) as (_ & Hl & Hrm).
  cbn [Spec.firstNot removeWhiteSpace]. repeat split.
  - exact Hc.
  - destruct r; [exact Hc | exact Hl].
  - apply negb_true_iff in Hc. now rewrite Hc, Hrm.
Qed.

End ShapeFacts.

Section NormalizedShapes.
Context {host : JSHost}.
Import JsString Regex Shape.

Lemma normalizeKeywordArgs_tidy (rest : list JSValue) (keyword : string) :
  In keyword (normalizeKeywordArgs rest) -> tidy keyword.
Proof.
  intros H. pose proof (normalizeKeywordArgs_nonempty _ _ H) as Hne.
  unfold normalizeKeywordArgs in H. apply filter_In in H as [H _].
  apply in_map_iff in H as (x & <- & _).
  now apply ShapeFacts.trim_collapse_tidy.
Qed.

(** X3. Every keyword that [normalizeKeywordArgs] returns is tidy: it is
    not empty, has no white space at either end, holds no white space
    other than the space character and no two spaces in a row. *)
Theorem X3_keywords_tidy (rest : list JSValue) (keyword : string) :
  In keyword (normalizeKeywordArgs rest) -> tidy keyword.
Proof. apply normalizeKeywordArgs_tidy. Qed.

(** X4. [normalizeRegionCode] accepts a text of ASCII characters exactly
    when its trimmed form is two letters, in any casing, and then returns
    these two letters in upper case.  (Beyond ASCII the engine has letters
    whose upper case is an ASCII letter or two, which this leaves out.) *)
Theorem X4_normalizeRegionCode_exact (s r : string) :
  forallb isAscii s = true ->
  normalizeRegionCode (JStr s) = Some r
  <-> exists a b,
        trim s = String a (String b "")
        /\ isLetter a = true /\ isLetter b = true
        /\ r = String (upperChar a) (String (upperChar b) "").
Proof.
  intros _. unfold normalizeRegionCode. rewrite stringOrEmpty_JStr.
  destruct (trim s) as [|a [|b [|c t]]]; simpl.
  - split; [discriminate | intros (a & b & H & _); discriminate].
  - split; [discriminate | intros (a' & b & H & _); discriminate].
  - rewrite !ShapeFacts.upperChar_isUpper.
    destruct (isLetter a) eqn:Ha, (isLetter b) eqn:Hb; simpl.
    + split.
      * intros H. injection H as <-. now exists a, b.
      * intros (a' & b' & H & _ & _ & ->). now injection H as <- <-.
    + split; [discriminate|].
      intros (a' & b' & H & _ & Hb' & _). injection H as <- <-. congruence.
    + split; [discriminate|].
      intros (a' & b' & H & Ha' & _ & _). injection H as <- <-. congruence.
    + split; [discriminate|].
      intros (a' & b' & H & Ha' & _ & _). injection H as <- <-. congruence.
  - split; [discriminate | intros (a' & b' & H & _); discriminate].
Qed.

(** X5. The normalizers are idempotent: a platform, a region code, a
    planned app id or an app id that a normalizer returned is accepted
    again and returned unchanged. *)
Theorem X5_normalizers_idempotent :
  (forall v p, normalizePlatform v = Some p ->
               normalizePlatform (JStr p) = Some p)
  /\ (forall v r, normalizeRegionCode v = Some r ->
                  normalizeRegionCode (JStr r) = Some r)
  /\ (forall v p, normalizePlannedTrackedAppId v = Some p ->
                  normalizePlannedTrackedAppId (JStr p) = Some p)
  /\ (forall v a, parseAppInput v = Normal (Some a) ->
                  parseAppInput (JStr (appId a)) = Normal (Some a)).
Proof.
  repeat apply conj.
  - intros v p. unfold normalizePlatform at 1.
    destruct (has SUPPORTED_PLATFORMS _) eqn:E; [|discriminate].
    intros H. injection H as <-. apply has_In in E. simpl in E.
    repeat (destruct E as [<- | E]; [reflexivity|]). destruct E.
  - intros v r. unfold normalizeRegionCode at 1.
    destruct (isRegionShape _) eqn:E; [|discriminate].
    intros H. injection H as <-.
    destruct (toUpperCase _) as [|a [|b [|c t]]]; try discriminate E.
    simpl in E. apply andb_true_iff in E as [Ha Hb].
    destruct (ShapeFacts.upper_not_space _ Ha) as [Wa Ua].
    destruct (ShapeFacts.upper_not_space _ Hb) as [Wb Ub].
    unfold normalizeRegionCode. rewrite stringOrEmpty_JStr.
    replace (trim (String a (String b ""))) with (String a (String b "")).
    + unfold toUpperCase. cbn [JsString.map isRegionShape].
      now rewrite Ua, Ub, Ha, Hb.
    + unfold trim. simpl. rewrite Wa. simpl. now rewrite Wb, Wa.
  - intros v p. unfold normalizePlannedTrackedAppId at 1.
    destruct (isEmpty _) eqn:E; [discriminate|].
    destruct (_ <? _)%nat eqn:L; [discriminate|].
    intros H. injection H as <-.
    pose proof (removeWhiteSpace_clean (trim (Js.stringOrEmpty v))) as Hclean.
    destruct (ShapeFacts.clean_bounds _ Hclean) as (Hf & Hl & Hrm).
    unfold normalizePlannedTrackedAppId.
    now rewrite stringOrEmpty_JStr, (trim_id _ Hf Hl), Hrm, E, L.
  - intros v a H. apply parseAppInput_sound in H as [Hd Hl].
    destruct a as [ds]. simpl in *. apply parseAppInput_raw; try assumption.
    apply trim_id; [now apply firstNot_digits | now apply lastNot_digits].
Qed.

End NormalizedShapes.

(** X3 on the keyword of the argument [  "run   tracker" ]. *)
Lemma X3_keywords_tidy_witness : Shape.tidy "run tracker".
Proof.
  apply (X3_keywords_tidy (host := modelHost)
           [JStr (String Examples.dquote "  run   tracker ")]).
  left. reflexivity.
Defined.

(** X4 on [ se ]. *)
Lemma X4_normalizeRegionCode_exact_witness :
  normalizeRegionCode (host := modelHost) (JStr " se ") = Some "SE".
Proof.
  apply (proj2 (X4_normalizeRegionCode_exact (host := modelHost) " se " "SE"
                  eq_refl)).
  exists "s"%char, "e"%char. repeat split.
Defined.

(** X5 on the platform [ IPad ], the region [se], a planned id with spaces
    and an id-prefixed app id. *)
Lemma X5_normalizers_idempotent_witness :
  normalizePlatform (host := modelHost) (JStr "ipad") = Some "ipad"
  /\ normalizeRegionCode (host := modelHost) (JStr "SE") = Some "SE"
  /\ normalizePlannedTrackedAppId (host := modelHost) (JStr "myplan")
     = Some "myplan"
  /\ parseAppInput (host := modelHost) (JStr "123456")
     = Normal (Some (mkAppInput "123456")).
Proof.
  destruct (X5_normalizers_idempotent (host := modelHost))
    as (Hplat & Hreg & Hplan & Happ).
  split; [exact (Hplat (JStr " IPad ") "ipad" eq_refl)|].
  split; [exact (Hreg (JStr "se") "SE" eq_refl)|].
  split; [exact (Hplan (JStr " my plan ") "myplan" eq_refl)|].
  exact (Happ (JStr "id123456") (mkAppInput "123456") eq_refl).
Defined.

(* ================================================================== *)
(** * Runs of the command handlers *)
(* ================================================================== *)

Module RunFacts.
Import Runs CmdFacts.

Lemma runs_step {A B : Type} (c : Cmd A) (k : A -> Cmd B) (env : Env)
    (w0 w : World) (S : A -> World -> Prop)
    (Q : Completion B -> World -> Prop) :
  Spec.onlyArgsChanged w0 w ->
  runs c env w (quietly w S) ->
  (forall e w', Spec.onlyArgsChanged w0 w' -> Q (Throw e) w') ->
  (forall a w', Spec.onlyArgsChanged w0 w' -> S a w' -> runs (k a) env w' Q) ->
  runs (bind c k) env w Q.
Proof.
  unfold runs, quietly, bind. intros H0 [Hq Hs] HT HN.
  destruct (c env w) as [[a|e|] w1]; cbn [fst snd] in *.
  - apply HN; [|exact Hs]. exact (onlyArgsChanged_trans _ _ _ H0 Hq).
  - apply HT. exact (onlyArgsChanged_trans _ _ _ H0 Hq).
  - destruct Hs.
Qed.

Lemma runs_lift {A B : Type} (c : Completion A) (k : A -> Cmd B)
    (env : Env) (w : World) (Q : Completion B -> World -> Prop) :
  c <> Unfinished ->
  (forall e, c = Throw e -> Q (Throw e) w) ->
  (forall a, c = Normal a -> runs (k a) env w Q) ->
  runs (bind (lift c) k) env w Q.
Proof.
  unfold runs, bind, lift. intros Hc HT HN.
  destruct c as [a|e|]; [now apply HN | now apply HT | now destruct Hc].
Qed.

Lemma runs_ret {A : Type} (a : A) (env : Env) (w : World)
    (Q : Completion A -> World -> Prop) :
  Q (Normal a) w -> runs (ret a) env w Q.
Proof. exact (fun H => H). Qed.

Lemma runs_throw {A : Type} (e : JSError) (env : Env) (w : World)
    (Q : Completion A -> World -> Prop) :
  Q (Throw e) w -> runs (throw e) env w Q.
Proof. exact (fun H => H). Qed.

Lemma runs_weaken {A : Type} (c : Cmd A) (env : Env) (w : World)
    (Q Q' : Completion A -> World -> Prop) :
  runs c env w Q -> (forall r w', Q r w' -> Q' r w') -> runs c env w Q'.
Proof. unfold runs. auto. Qed.

Lemma quietly_throw {A : Type} (w w' : World) (S : A -> World -> Prop)
    (e : JSError) :
  Spec.onlyArgsChanged w w' -> quietly w S (Throw e) w'.
Proof. now split. Qed.

Lemma refused_throw {A : Type} (w w' : World) (e : JSError) :
  Spec.onlyArgsChanged w w' -> refused (A := A) w (Throw e) w'.
Proof. split; [now exists e | assumption]. Qed.

Lemma takeFlag_runs (name : string) (env : Env) (w : World) :
  runs (takeFlag name) env w (quietly w (fun _ _ => True)).
Proof.
  split; [apply takeFlag_args|].
  unfold takeFlag, bind, getRest, putRest, ret.
  now destruct (indexOf name (rest w)).
Qed.

Lemma takeOption_runs (name : string) (env : Env) (w : World) :
  runs (takeOption name) env w (quietly w (fun _ _ => True)).
Proof.
  split; [apply takeOption_args|].
  unfold takeOption, bind, getRest, putRest, ret, throw.
  destruct (indexOf name (rest w)); [|exact I].
  now destruct (_ =? _)%nat.
Qed.

(** The two with what they return and what they leave. *)
Lemma takeFlag_taken (name : string) (env : Env) (w : World) :
  runs (takeFlag name) env w
    (quietly w (fun v w' => v = Args.flag name (rest w)
                            /\ rest w' = Args.withoutFlag name (rest w))).
Proof.
  split; [apply takeFlag_args|]. now rewrite takeFlag_exact.
Qed.

Lemma takeOption_taken (name : string) (env : Env) (w : World) :
  runs (takeOption name) env w
    (quietly w (fun v w' => v = Args.optionOf name (rest w)
                            /\ rest w' = Args.withoutOption name (rest w))).
Proof.
  split; [apply takeOption_args|].
  destruct (Args.missingValue name (rest w)) eqn:E.
  - now rewrite (takeOption_missing _ _ _ E).
  - now rewrite (takeOption_exact _ _ _ E).
Qed.

Lemma getRest_runs (env : Env) (w : World) :
  runs getRest env w (quietly w (fun r w' => w' = w /\ r = rest w)).
Proof. split; [apply onlyArgsChanged_refl | now split]. Qed.

Lemma putRest_runs (r : list string) (env : Env) (w : World) :
  runs (putRest r) env w (quietly w (fun _ w' => rest w' = r)).
Proof. split; [now exists r | reflexivity]. Qed.

Lemma getAccessToken_empty : getAccessToken (JObj []) = None.
Proof. reflexivity. Qed.

Lemma getAccessToken_object (config : JSValue) :
  (negb (Js.truthy config) || negb (isObjectType config))%bool = true ->
  getAccessToken config = None.
Proof. unfold getAccessToken. now intros ->. Qed.

Lemma loadConfig_runs (env : Env) (w : World) :
  runs loadConfig env w
    (quietly w (fun config w' =>
                  w' = w /\ getAccessToken config = storedToken w)).
Proof.
  unfold runs, quietly, storedToken, loadConfig.
  destruct (configFile w) as [parsed|].
  - destruct (_ || _)%bool eqn:E; cbn [fst snd];
      (split; [apply onlyArgsChanged_refl | split; [reflexivity|]]).
    + now rewrite (getAccessToken_object parsed E).
    + reflexivity.
  - cbn. split; [apply onlyArgsChanged_refl | now split].
Qed.

Lemma getAccessToken_some (config : JSValue) (token : string) :
  getAccessToken config = Some token ->
  token <> "" /\ JsString.trim token = token.
Proof.
  unfold getAccessToken. destruct (_ || _)%bool; [discriminate|].
  destruct config as [| | | | | |fields]; try discriminate.
  destruct (Js.lookup "accessToken" fields) as [| | | |s| |];
    try discriminate.
  destruct (JsString.isEmpty (JsString.trim s)) eqn:E; [discriminate|].
  intros H. injection H as <-. split.
  - intros H. now rewrite H in E.
  - apply ShapeFacts.trim_idempotent.
Qed.

Lemma requireAuthenticatedAccessToken_cases (config : JSValue) :
  match requireAuthenticatedAccessToken config with
  | Normal token => getAccessToken config = Some token
  | Throw _ => True
  | Unfinished => False
  end.
Proof.
  unfold requireAuthenticatedAccessToken.
  destruct (getAccessToken config) as [token|]; [|exact I].
  now destruct (JsString.isEmpty token).
Qed.

Lemma requireAuthenticatedAccessToken_none (config : JSValue) :
  getAccessToken config = None ->
  exists e, requireAuthenticatedAccessToken config = Throw e.
Proof.
  unfold requireAuthenticatedAccessToken. intros ->. now eexists.
Qed.

End RunFacts.

Section HandlerRuns.
Context {host : JSHost}.
Import JsString Regex Runs CmdFacts RunFacts.

Lemma parseAppInput_finished (v : JSValue) : parseAppInput v <> Unfinished.
Proof. destruct (parseAppInput_total v) as [r ->]. discriminate. Qed.

Lemma consumeAppId_runs (required : bool) (env : Env) (w : World) :
  runs (consumeAppId required) env w
    (quietly w (fun a _ =>
                  (forall s, a = Some s -> Spec.isAppId s)
                  /\ (required = true -> exists s, a = Some s))).
Proof.
  unfold consumeAppId.
  apply runs_step
    with (w0 := w) (S := fun _ _ => True);
    [apply onlyArgsChanged_refl | apply takeOption_runs
    | intros; now apply quietly_throw |].
  intros v w1 H1 _.
  apply runs_step
    with (w0 := w) (S := fun a _ => forall s, a = Some s -> Spec.isAppId s);
    [exact H1 | | intros; now apply quietly_throw |].
  - destruct (truthyString v).
    + apply runs_lift; [apply parseAppInput_finished | |].
      * intros e _. apply quietly_throw, onlyArgsChanged_refl.
      * intros [p|] Hp.
        -- apply runs_ret. split; [apply onlyArgsChanged_refl|].
           intros s [= <-]. exact (parseAppInput_sound _ _ Hp).
        -- apply runs_throw, quietly_throw, onlyArgsChanged_refl.
    + apply runs_step
        with (w0 := w1) (S := fun r w' => w' = w1 /\ r = rest w1);
        [apply onlyArgsChanged_refl | apply getRest_runs
        | intros; now apply quietly_throw |].
      intros r w2 _ [-> ->].
      destruct (rest w1) as [|first others].
      { apply runs_ret. split; [apply onlyArgsChanged_refl | discriminate]. }
      apply runs_lift; [apply parseAppInput_finished | |].
      * intros e _. apply quietly_throw, onlyArgsChanged_refl.
      * intros [p|] Hp.
        -- apply runs_step
             with (w0 := w1) (S := fun _ _ => True);
             [apply onlyArgsChanged_refl | | intros; now apply quietly_throw |].
           ++ split; [now eexists | exact I].
           ++ intros _ w2 H2 _. apply runs_ret. split; [exact H2|].
              intros s [= <-]. exact (parseAppInput_sound _ _ Hp).
        -- apply runs_ret.
           split; [apply onlyArgsChanged_refl | discriminate].
  - intros a w2 H2 Ha.
    destruct a as [s|].
    + rewrite (isAppId_truthy s (Ha s eq_refl)). cbn [negb andb].
      apply runs_ret. split; [exact H2|]. split; [exact Ha | now exists s].
    + cbn [truthyString negb andb]. destruct required.
      * apply runs_throw, quietly_throw, H2.
      * apply runs_ret. split; [exact H2|]. split; [exact Ha | discriminate].
Qed.

Lemma normalizePlannedTrackedAppId_sound (v : JSValue) (p : string) :
  normalizePlannedTrackedAppId v = Some p -> isPlannedId p.
Proof.
  unfold normalizePlannedTrackedAppId.
  destruct (isEmpty _) eqn:E; [discriminate|].
  destruct (_ <? _)%nat eqn:L; [discriminate|].
  intros H. injection H as <-. apply Nat.ltb_ge in L. split.
  - split; [|exact L].
    destruct (removeWhiteSpace _); [discriminate | simpl; lia].
  - apply removeWhiteSpace_clean.
Qed.

Lemma consumeTrackedKeywordsAppTarget_runs (env : Env) (w : World) :
  runs consumeTrackedKeywordsAppTarget env w
    (quietly w (fun target _ => isTarget target)).
Proof.
  unfold consumeTrackedKeywordsAppTarget.
  apply runs_step
    with (w0 := w) (S := fun _ _ => True);
    [apply onlyArgsChanged_refl | apply takeOption_runs
    | intros; now apply quietly_throw |].
  intros v w1 H1 _.
  apply runs_step
    with (w0 := w) (S := fun _ _ => True);
    [exact H1 | | intros; now apply quietly_throw |].
  - destruct (truthyString v).
    + apply runs_ret. split; [apply onlyArgsChanged_refl | exact I].
    + split; [|].
      * unfold bind, getRest, putRest, ret.
        destruct (rest w1) as [|first others];
          [apply onlyArgsChanged_refl|].
        destruct (_ && _)%bool; [now eexists | apply onlyArgsChanged_refl].
      * unfold bind, getRest, putRest, ret.
        destruct (rest w1) as [|first others]; [exact I|].
        now destruct (_ && _)%bool.
  - intros identifier w2 H2 _.
    destruct (negb (truthyString identifier)).
    { apply runs_throw, quietly_throw, H2. }
    apply runs_lift; [apply parseAppInput_finished | |].
    + intros e _. apply quietly_throw, H2.
    + intros [p|] Hp.
      * apply runs_ret. split; [exact H2|]. left. exists (appId p).
        split; [exact (parseAppInput_sound _ _ Hp) | reflexivity].
      * destruct (normalizePlannedTrackedAppId _) as [plannedId|] eqn:Hn.
        -- apply runs_ret. split; [exact H2|]. right. exists plannedId.
           split; [exact (normalizePlannedTrackedAppId_sound _ _ Hn)
                  | reflexivity].
        -- apply runs_throw, quietly_throw, H2.
Qed.

Lemma rejectUnknownArguments_runs (env : Env) (w : World) :
  runs rejectUnknownArguments env w
    (quietly w (fun _ w' => w' = w /\ rest w = [])).
Proof.
  unfold runs, quietly, rejectUnknownArguments, bind, getRest, throw, ret.
  destruct (rest w) as [|a r]; cbn.
  - split; [apply onlyArgsChanged_refl | now split].
  - split; [apply onlyArgsChanged_refl | exact I].
Qed.

Lemma resolvePlatformArg_cases (value : option string) :
  match resolvePlatformArg value with
  | Normal platform => In platform SUPPORTED_PLATFORMS
  | Throw _ => True
  | Unfinished => False
  end.
Proof.
  unfold resolvePlatformArg. destruct value as [v|].
  - unfold normalizePlatform.
    destruct (has SUPPORTED_PLATFORMS _) eqn:E; [|exact I].
    destruct (truthyString _); [|exact I]. now apply has_In.
  - cbn. now left.
Qed.

Lemma normalizeRegionCode_shape (v : JSValue) (r : string) :
  normalizeRegionCode v = Some r -> isRegionShape r = true.
Proof.
  unfold normalizeRegionCode.
  destruct (isRegionShape _) eqn:E; [|discriminate].
  now intros [= <-].
Qed.

Lemma resolveRegionArg_cases (value : option string) :
  match resolveRegionArg value with
  | Normal region => isRegionShape region = true
  | Throw _ => True
  | Unfinished => False
  end.
Proof.
  unfold resolveRegionArg. destruct value as [v|]; [|reflexivity].
  destruct (normalizeRegionCode (JStr v)) as [r|] eqn:E; [|exact I].
  destruct (truthyString _); [|exact I].
  exact (normalizeRegionCode_shape _ _ E).
Qed.

Lemma cases_finished {A : Type} (c : Completion A) (P : A -> Prop) :
  match c with
  | Normal a => P a
  | Throw _ => True
  | Unfinished => False
  end -> c <> Unfinished.
Proof. now destruct c. Qed.

Lemma apiRequest_runs (args : ApiArgs) (env : Env) (w0 w : World) :
  Spec.onlyArgsChanged w0 w ->
  runs (apiRequest args) env w (requested env w0 args).
Proof.
  intros H. split; [apply apiRequest_finished|].
  exists w. split; [exact H | apply apiRequest_world].
Qed.

End HandlerRuns.

(** Steps of the proofs about handlers. *)
Module HandlerTactics.
Import Runs CmdFacts RunFacts.

(** One statement of a handler that changes the argument array at most;
    [H] relates the first world of the handler to the current one. *)
Ltac quiet_step H spec :=
  eapply runs_step;
  [exact H | apply spec | intros; left; now apply refused_throw | cbn beta].

(** One pure statement of a handler that may throw. *)
Ltac pure_step H cases :=
  apply runs_lift;
  [exact (cases_finished _ _ cases)
  | intros; left; now apply refused_throw
  | ].

(** Without a stored token a handler stops before any request. *)
Ltac no_token lemma :=
  let H := fresh "H" in
  eapply runs_weaken; [apply lemma|];
  intros ? ? [H|H]; [exact H|];
  exfalso;
  repeat match goal with
         | K : exists _, _ |- _ => destruct K as [? K]
         | K : _ /\ _ |- _ => destruct K as [? K]
         end;
  congruence.

End HandlerTactics.

Section HandlerRequests.
Context {host : JSHost}.
Import JsString Regex Runs CmdFacts RunFacts Shape HandlerTactics.

Lemma apiRequest_last (args : ApiArgs) (env : Env) (w : World) :
  runs (apiRequest args) env w
    (fun r w' => r <> Unfinished /\ w' = fetched env (requestOf args) w).
Proof. split; [apply apiRequest_finished | apply apiRequest_world]. Qed.

Lemma onlyArgsChanged_empty (w w' : World) :
  Spec.onlyArgsChanged w w' -> rest w' = [] -> w' = setRest [] w.
Proof. intros [r ->] H. cbn in H. now subst. Qed.

(** The statements that track-app and untrack-app share. *)
Ltac track_steps w :=
  pose proof (onlyArgsChanged_refl w) as H0;
  quiet_step H0 loadConfig_runs; intros config w1 H1 [-> Hc];
  quiet_step H1 takeFlag_runs; intros outputJson w2 H2 _;
  quiet_step H2 takeOption_runs; intros platformValue w3 H3 _;
  quiet_step H3 takeOption_runs; intros regionValue w4 H4 _;
  quiet_step H4 consumeAppId_runs; intros appId w5 H5 [Ha Hr];
  destruct (Hr eq_refl) as [id ->];
  quiet_step H5 rejectUnknownArguments_runs; intros _ w6 H6 [-> Hrest];
  pose proof (requireAuthenticatedAccessToken_cases config) as Ht;
  pure_step H5 Ht; intros token Et; rewrite Et in Ht;
  pose proof (resolvePlatformArg_cases platformValue) as Hp;
  pure_step H5 Hp; intros platform Ep; rewrite Ep in Hp;
  pose proof (resolveRegionArg_cases regionValue) as Hg;
  pure_step H5 Hg; intros region Eg; rewrite Eg in Hg;
  eapply runs_weaken; [apply apiRequest_last|];
  intros r w' [Hfin ->]; right;
  exists id, platform, region, token;
  rewrite <- (onlyArgsChanged_empty _ _ H5 Hrest);
  split; [exact (Ha id eq_refl) | repeat split; auto; congruence].

Lemma runTrackApp_runs (env : Env) (w : World) :
  runs runTrackApp env w
    (fun r w' =>
       refused w r w'
       \/ exists id platform region token,
            Spec.isAppId id /\ In platform SUPPORTED_PLATFORMS
            /\ isRegionShape region = true
            /\ storedToken w = Some token
            /\ r <> Unfinished
            /\ w' = fetched env
                      (requestOf
                         (mkApiArgs "/api/cli/apps/track" "POST"
                            (JObj [("appId", JStr id);
                                   ("platform", JStr platform);
                                   ("region", JStr region)])
                            (Some token)))
                      (setRest [] w)).
Proof. unfold runTrackApp. track_steps w. Qed.

Lemma runUntrackApp_runs (env : Env) (w : World) :
  runs runUntrackApp env w
    (fun r w' =>
       refused w r w'
       \/ exists id platform region token,
            Spec.isAppId id /\ In platform SUPPORTED_PLATFORMS
            /\ isRegionShape region = true
            /\ storedToken w = Some token
            /\ r <> Unfinished
            /\ w' = fetched env
                      (requestOf
                         (mkApiArgs "/api/cli/apps/track" "DELETE"
                            (JObj [("appId", JStr id);
                                   ("platform", JStr platform);
                                   ("region", JStr region)])
                            (Some token)))
                      (setRest [] w)).
Proof. unfold runUntrackApp. track_steps w. Qed.

Lemma keyword_count (limit : nat) (keywords : list string) :
  (List.length keywords =? 0)%nat = false ->
  (limit <? List.length keywords)%nat = false ->
  (1 <= List.length keywords <= limit)%nat.
Proof.
  intros H1 H2. apply Nat.eqb_neq in H1. apply Nat.ltb_ge in H2. lia.
Qed.

(** The statements that tracked-keywords add and remove share. *)
Ltac tracked_steps w :=
  pose proof (onlyArgsChanged_refl w) as H0;
  quiet_step H0 loadConfig_runs; intros config w1 H1 [-> Hc];
  quiet_step H1 takeFlag_runs; intros outputJson w2 H2 _;
  quiet_step H2 takeOption_runs; intros platformValue w3 H3 _;
  quiet_step H3 takeOption_runs; intros regionValue w4 H4 _;
  quiet_step H4 consumeTrackedKeywordsAppTarget_runs;
  intros target w5 H5 Htarget;
  quiet_step H5 getRest_runs; intros args w6 H6 [-> ->];
  destruct (_ =? 0)%nat eqn:Hzero;
    [apply runs_throw; left; now apply refused_throw|];
  destruct (_ <? _)%nat eqn:Hmax;
    [apply runs_throw; left; now apply refused_throw|];
  pose proof (requireAuthenticatedAccessToken_cases config) as Ht;
  pure_step H5 Ht; intros token Et; rewrite Et in Ht;
  pose proof (resolvePlatformArg_cases platformValue) as Hp;
  pure_step H5 Hp; intros platform Ep; rewrite Ep in Hp;
  pose proof (resolveRegionArg_cases regionValue) as Hg;
  pure_step H5 Hg; intros region Eg; rewrite Eg in Hg;
  eapply runs_weaken; [apply apiRequest_last|];
  intros r w' [Hfin ->]; right;
  exists target, platform, region,
    (normalizeKeywordArgs (List.map JStr (rest w5))), token;
  split; [exact Htarget|];
  split; [exact Hp|];
  split; [exact Hg|];
  split; [exact (keyword_count _ _ Hzero Hmax)|];
  split; [intros k; apply normalizeKeywordArgs_tidy|];
  split; [congruence|];
  split; [exact Hfin | now exists w5].

Lemma runTrackedKeywordsAdd_runs (env : Env) (w : World) :
  runs runTrackedKeywordsAdd env w
    (fun r w' =>
       refused w r w'
       \/ exists target platform region keywords token,
            isTarget target /\ In platform SUPPORTED_PLATFORMS
            /\ isRegionShape region = true
            /\ (1 <= List.length keywords <= MAX_TRACKED_KEYWORDS_ADD)%nat
            /\ (forall k, In k keywords -> tidy k)
            /\ storedToken w = Some token
            /\ requested env w
                 (mkApiArgs (trackedKeywordsPath target) "POST"
                    (trackedKeywordsBody target platform region keywords)
                    (Some token))
                 r w').
Proof. unfold runTrackedKeywordsAdd. tracked_steps w. Qed.

Lemma runTrackedKeywordsRemove_runs (env : Env) (w : World) :
  runs runTrackedKeywordsRemove env w
    (fun r w' =>
       refused w r w'
       \/ exists target platform region keywords token,
            isTarget target /\ In platform SUPPORTED_PLATFORMS
            /\ isRegionShape region = true
            /\ (1 <= List.length keywords <= MAX_TRACKED_KEYWORDS_ADD)%nat
            /\ (forall k, In k keywords -> tidy k)
            /\ storedToken w = Some token
            /\ requested env w
                 (mkApiArgs (trackedKeywordsPath target) "DELETE"
                    (trackedKeywordsBody target platform region keywords)
                    (Some token))
                 r w').
Proof. unfold runTrackedKeywordsRemove. tracked_steps w. Qed.

Lemma runKeywordMetrics_runs (env : Env) (w : World) :
  runs runKeywordMetrics env w
    (fun r w' =>
       refused w r w'
       \/ exists region keywords appId platform token,
            (1 <= List.length keywords <= MAX_KEYWORDS)%nat
            /\ (forall k, In k keywords -> tidy k)
            /\ (forall id, appId = Some id -> Spec.isAppId id)
            /\ In platform SUPPORTED_PLATFORMS
            /\ storedToken w = Some token
            /\ requested env w
                 (mkApiArgs "/api/cli/keywords/metrics" "POST"
                    (JObj [("region", JStr region);
                           ("keywords", JArr (List.map JStr keywords));
                           ("appId", ofOption appId);
                           ("platform", JStr platform)])
                    (Some token))
                 r w').
Proof.
  unfold runKeywordMetrics.
  pose proof (onlyArgsChanged_refl w) as H0.
  quiet_step H0 loadConfig_runs. intros config w1 H1 [-> Hc].
  quiet_step H1 takeFlag_runs. intros outputJson w2 H2 _.
  quiet_step H2 takeOption_runs. intros regionValue w3 H3 _.
  quiet_step H3 takeOption_runs. intros platformValue w4 H4 _.
  quiet_step H4 consumeAppId_runs. intros appId w5 H5 [Ha _].
  quiet_step H5 getRest_runs. intros args w6 H6 [-> ->].
  destruct (_ =? 0)%nat eqn:Hzero;
    [apply runs_throw; left; now apply refused_throw|].
  destruct (_ <? _)%nat eqn:Hmax;
    [apply runs_throw; left; now apply refused_throw|].
  pose proof (requireAuthenticatedAccessToken_cases config) as Ht.
  pure_step H5 Ht. intros token Et. rewrite Et in Ht.
  pose proof (resolvePlatformArg_cases platformValue) as Hp.
  unfold resolvePlatformArg in Hp. cbv zeta.
  destruct (truthyString _) eqn:Hplat;
    [|apply runs_throw; left; now apply refused_throw].
  cbn [negb].
  eapply runs_weaken; [apply apiRequest_last|].
  intros r w' [Hfin ->]. right.
  destruct (match platformValue with
            | Some v => normalizePlatform (JStr v)
            | None => Some DEFAULT_PLATFORM
            end) as [platform|] eqn:Ep; [|discriminate Hplat].
  eexists _, _, appId, platform, token.
  split; [exact (keyword_count _ _ Hzero Hmax)|].
  split; [intros k; apply normalizeKeywordArgs_tidy|].
  split; [exact Ha|].
  split; [exact Hp|].
  split; [congruence|].
  split; [exact Hfin | now exists w5].
Qed.

Lemma runSearchApps_runs (env : Env) (w : World) :
  runs runSearchApps env w
    (fun r w' =>
       refused w r w'
       \/ exists query platform region token,
            tidy query /\ In platform SUPPORTED_PLATFORMS
            /\ isRegionShape region = true
            /\ storedToken w = Some token
            /\ requested env w
                 (mkApiArgs "/api/cli/apps/search" "POST"
                    (JObj [("query", JStr query);
                           ("platform", JStr platform);
                           ("region", JStr region)])
                    (Some token))
                 r w').
Proof.
  unfold runSearchApps.
  pose proof (onlyArgsChanged_refl w) as H0.
  quiet_step H0 loadConfig_runs. intros config w1 H1 [-> Hc].
  quiet_step H1 takeFlag_runs. intros outputJson w2 H2 _.
  quiet_step H2 takeOption_runs. intros platformValue w3 H3 _.
  quiet_step H3 takeOption_runs. intros regionValue w4 H4 _.
  quiet_step H4 getRest_runs. intros args w5 H5 [-> ->].
  destruct (0 <? _)%nat;
    [apply runs_throw; left; now apply refused_throw|].
  cbv zeta.
  destruct (isEmpty _) eqn:Hq;
    [apply runs_throw; left; now apply refused_throw|].
  pose proof (requireAuthenticatedAccessToken_cases config) as Ht.
  pure_step H4 Ht. intros token Et. rewrite Et in Ht.
  pose proof (resolvePlatformArg_cases platformValue) as Hp.
  pure_step H4 Hp. intros platform Ep. rewrite Ep in Hp.
  pose proof (resolveRegionArg_cases regionValue) as Hg.
  pure_step H4 Hg. intros region Eg. rewrite Eg in Hg.
  eapply runs_weaken; [apply apiRequest_last|].
  intros r w' [Hfin ->]. right.
  eexists _, platform, region, token.
  split.
  { apply ShapeFacts.trim_collapse_tidy. intros E. now rewrite E in Hq. }
  split; [exact Hp|].
  split; [exact Hg|].
  split; [congruence|].
  split; [exact Hfin | now exists w4].
Qed.

Lemma resolveOptionalRegionArg_cases (value : option string) :
  match resolveOptionalRegionArg value with
  | Normal region =>
      (value = None -> region = None)
      /\ (value <> None -> exists r, region = Some r /\ isRegionShape r = true)
  | Throw _ => True
  | Unfinished => False
  end.
Proof.
  unfold resolveOptionalRegionArg. destruct value as [v|].
  - destruct (normalizeRegionCode (JStr v)) as [r|] eqn:E; [|exact I].
    destruct (negb _); [exact I|]. split; [discriminate|].
    intros _. exists r. split; [reflexivity|].
    exact (normalizeRegionCode_shape _ _ E).
  - split; [reflexivity | now intros H].
Qed.

Lemma resolveOptionalRegionArg_exact (value : option string)
    (region : option string) :
  resolveOptionalRegionArg value = Normal region ->
  match value with
  | Some given =>
      exists code, normalizeRegionCode (JStr given) = Some code
                   /\ region = Some code
  | None => region = None
  end.
Proof.
  unfold resolveOptionalRegionArg. destruct value as [v|].
  - destruct (normalizeRegionCode (JStr v)) as [r|] eqn:E; [|discriminate].
    destruct (negb _); [discriminate|]. intros [= <-]. now exists r.
  - now intros [= <-].
Qed.

Lemma resolveTrackedKeywordsPageArg_cases (value : option string) :
  match resolveTrackedKeywordsPageArg value with
  | Normal page => 1 <= page <= TRACKED_KEYWORDS_MAX_PAGE
  | Throw _ => True
  | Unfinished => False
  end.
Proof.
  unfold resolveTrackedKeywordsPageArg, TRACKED_KEYWORDS_MAX_PAGE.
  destruct value as [v|]; [|lia].
  destruct (parseInt10 _) as [parsed|]; [|exact I].
  destruct (parsed <? 1) eqn:E1; [exact I|].
  destruct (1000 <? parsed) eqn:E2; [exact I|]. cbn [orb]. lia.
Qed.

Lemma resolveTrackedKeywordsSortArg_cases (value : option string) :
  match resolveTrackedKeywordsSortArg value with
  | Normal sort => In sort TRACKED_KEYWORDS_SORT_FIELDS
  | Throw _ => True
  | Unfinished => False
  end.
Proof.
  unfold resolveTrackedKeywordsSortArg.
  destruct value as [v|]; [|now left]. cbv zeta.
  destruct (has TRACKED_KEYWORDS_SORT_FIELDS _) eqn:E; [|exact I].
  now apply has_In.
Qed.

Lemma resolveTrackedKeywordsOrderArg_cases (value : option string) :
  match resolveTrackedKeywordsOrderArg value with
  | Normal order => In order TRACKED_KEYWORDS_ORDER_VALUES
  | Throw _ => True
  | Unfinished => False
  end.
Proof.
  unfold resolveTrackedKeywordsOrderArg.
  destruct value as [v|]; [|now left]. cbv zeta.
  destruct (has TRACKED_KEYWORDS_ORDER_VALUES _) eqn:E; [|exact I].
  now apply has_In.
Qed.

Lemma runTrackedKeywordsList_runs (env : Env) (w : World) :
  runs runTrackedKeywordsList env w
    (fun r w' =>
       refused w r w'
       \/ exists target platform region page sort order token,
            isTarget target /\ In platform SUPPORTED_PLATFORMS
            /\ Outcome.listRegion (rest w) region
            /\ (forall code, region = Some code -> isRegionShape code = true)
            /\ 1 <= page <= TRACKED_KEYWORDS_MAX_PAGE
            /\ In sort TRACKED_KEYWORDS_SORT_FIELDS
            /\ In order TRACKED_KEYWORDS_ORDER_VALUES
            /\ storedToken w = Some token
            /\ r <> Unfinished
            /\ w' = fetched env
                      (requestOf
                         (mkApiArgs
                            (trackedKeywordsListPath target platform region
                               page sort order)
                            "GET" JUndefined (Some token)))
                      (setRest [] w)).
Proof.
  unfold runTrackedKeywordsList.
  pose proof (onlyArgsChanged_refl w) as H0.
  quiet_step H0 loadConfig_runs. intros config w1 H1 [-> Hc].
  quiet_step H1 takeFlag_taken. intros outputJson w2 H2 [_ R2].
  quiet_step H2 takeOption_taken. intros platformValue w3 H3 [_ R3].
  quiet_step H3 takeOption_taken. intros regionValue w4 H4 [Vr _].
  rewrite R3, R2 in Vr.
  quiet_step H4 takeOption_runs. intros pageValue w5 H5 _.
  quiet_step H5 takeOption_runs. intros sortValue w6 H6 _.
  quiet_step H6 takeOption_runs. intros orderValue w7 H7 _.
  quiet_step H7 consumeTrackedKeywordsAppTarget_runs.
  intros target w8 H8 Htarget.
  quiet_step H8 rejectUnknownArguments_runs. intros _ w9 H9 [-> Hrest].
  pose proof (requireAuthenticatedAccessToken_cases config) as Ht.
  pure_step H8 Ht. intros token Et. rewrite Et in Ht.
  pose proof (resolvePlatformArg_cases platformValue) as Hp.
  pure_step H8 Hp. intros platform Ep. rewrite Ep in Hp.
  pose proof (resolveOptionalRegionArg_cases regionValue) as Hg.
  pure_step H8 Hg. intros region Eg. rewrite Eg in Hg.
  pose proof (resolveOptionalRegionArg_exact _ _ Eg) as Hgiven.
  pose proof (resolveTrackedKeywordsPageArg_cases pageValue) as Hpage.
  pure_step H8 Hpage. intros page Epage. rewrite Epage in Hpage.
  pose proof (resolveTrackedKeywordsSortArg_cases sortValue) as Hsort.
  pure_step H8 Hsort. intros sort Esort. rewrite Esort in Hsort.
  pose proof (resolveTrackedKeywordsOrderArg_cases orderValue) as Horder.
  pure_step H8 Horder. intros order Eorder. rewrite Eorder in Horder.
  eapply runs_weaken; [apply apiRequest_last|].
  intros r w' [Hfin ->]. right.
  exists target, platform, region, page, sort, order, token.
  rewrite <- (onlyArgsChanged_empty _ _ H8 Hrest).
  split; [exact Htarget|].
  split; [exact Hp|].
  split; [unfold Outcome.listRegion; now rewrite <- Vr|].
  split.
  { intros code ->. destruct Hg as [Hnone Hsome].
    destruct regionValue as [v|]; [|now specialize (Hnone eq_refl)].
    destruct Hsome as (r' & [= <-] & Hr'); [discriminate | exact Hr']. }
  split; [exact Hpage|].
  split; [exact Hsort|].
  split; [exact Horder|].
  split; [congruence|].
  split; [exact Hfin | reflexivity].
Qed.

Lemma handlers_refuse (env : Env) (w : World) (handler : Cmd JSValue) :
  storedToken w = None ->
  In handler
    [runKeywordMetrics; runSearchApps; runTrackApp; runUntrackApp;
     runTrackedKeywordsList; runTrackedKeywordsAdd;
     runTrackedKeywordsRemove] ->
  runs handler env w (refused w).
Proof.
  intros Hnone Hin. cbn [In] in Hin.
  destruct Hin as [<- | Hin]; [no_token runKeywordMetrics_runs|].
  destruct Hin as [<- | Hin]; [no_token runSearchApps_runs|].
  destruct Hin as [<- | Hin]; [no_token runTrackApp_runs|].
  destruct Hin as [<- | Hin]; [no_token runUntrackApp_runs|].
  destruct Hin as [<- | Hin]; [no_token runTrackedKeywordsList_runs|].
  destruct Hin as [<- | Hin]; [no_token runTrackedKeywordsAdd_runs|].
  destruct Hin as [<- | Hin]; [no_token runTrackedKeywordsRemove_runs|].
  destruct Hin.
Qed.

Lemma storedToken_args (w w' : World) :
  Spec.onlyArgsChanged w w' -> storedToken w' = storedToken w.
Proof. now intros [r ->]. Qed.

Lemma refused_after (w w1 : World) :
  Spec.onlyArgsChanged w w1 ->
  forall (r : Completion JSValue) (w' : World),
    refused w1 r w' -> refused w r w'.
Proof.
  intros H r w' [He H']. split; [exact He|].
  exact (onlyArgsChanged_trans _ _ _ H H').
Qed.

Lemma shiftSubcommand_runs (env : Env) (w : World) :
  runs shiftSubcommand env w (quietly w (fun _ _ => True)).
Proof.
  unfold runs, quietly, shiftSubcommand, bind, getRest, putRest, ret.
  destruct (rest w) as [|first others]; cbn.
  - split; [apply onlyArgsChanged_refl | exact I].
  - split; [now eexists | exact I].
Qed.

Lemma unshift_runs (value : string) (env : Env) (w : World) :
  runs (unshift value) env w (quietly w (fun _ _ => True)).
Proof. split; [now eexists | exact I]. Qed.

Lemma runTrackedKeywords_refuses (env : Env) (w : World) :
  storedToken w = None -> runs runTrackedKeywords env w (refused w).
Proof.
  intros Hnone. unfold runTrackedKeywords.
  assert (Hsub : forall handler w1,
             Spec.onlyArgsChanged w w1 ->
             In handler
               [runKeywordMetrics; runSearchApps; runTrackApp;
                runUntrackApp; runTrackedKeywordsList;
                runTrackedKeywordsAdd; runTrackedKeywordsRemove] ->
             runs handler env w1 (refused w)).
  { intros handler w1 H1 Hin. eapply runs_weaken.
    - apply handlers_refuse; [|exact Hin].
      now rewrite (storedToken_args _ _ H1).
    - exact (refused_after _ _ H1). }
  pose proof (onlyArgsChanged_refl w) as H0.
  eapply runs_step;
    [exact H0 | apply shiftSubcommand_runs
    | intros; now apply refused_throw | cbn beta].
  intros subcommand w1 H1 _.
  destruct (isEmpty subcommand || startsWith "--" subcommand)%bool.
  { eapply runs_step;
      [exact H1 | | intros; now apply refused_throw | cbn beta].
    - destruct (negb _); [apply unshift_runs|].
      split; [apply onlyArgsChanged_refl | exact I].
    - intros _ w2 H2 _. apply Hsub; [exact H2 | cbn; tauto]. }
  destruct (String.eqb subcommand "list"); [apply Hsub; [exact H1 | cbn; tauto]|].
  destruct (String.eqb subcommand "add"); [apply Hsub; [exact H1 | cbn; tauto]|].
  destruct (String.eqb subcommand "remove");
    [apply Hsub; [exact H1 | cbn; tauto]|].
  apply runs_lift; [apply parseAppInput_finished | |].
  - intros e _. now apply refused_throw.
  - intros parsed _. destruct (_ || _)%bool.
    + eapply runs_step;
        [exact H1 | apply unshift_runs
        | intros; now apply refused_throw | cbn beta].
      intros _ w2 H2 _. apply Hsub; [exact H2 | cbn; tauto].
    + apply runs_throw. now apply refused_throw.
Qed.

Lemma encode_safe (s : string) :
  forallb SearchParams.isFormSafe s = true -> SearchParams.encode s = s.
Proof.
  induction s as [|c r IH]; [reflexivity|]. cbn [forallb]. intros H.
  apply andb_true_iff in H as [Hc Hr]. cbn [SearchParams.encode].
  now rewrite Hc, (IH Hr).
Qed.

Lemma page_safe (page : Z) :
  1 <= page <= TRACKED_KEYWORDS_MAX_PAGE ->
  forallb SearchParams.isFormSafe (ofZ page) = true.
Proof.
  unfold TRACKED_KEYWORDS_MAX_PAGE. intros H.
  assert (Hall : List.forallb
                   (fun k => forallb SearchParams.isFormSafe
                               (ofZ (Z.of_nat k)))
                   (seq 1 1000) = true) by (vm_compute; reflexivity).
  rewrite forallb_forall in Hall.
  specialize (Hall (Z.to_nat page)). rewrite Z2Nat.id in Hall by lia.
  apply Hall, in_seq. lia.
Qed.

Lemma upper_safe (c : ascii) :
  isUpper c = true -> SearchParams.isFormSafe c = true.
Proof. unfold SearchParams.isFormSafe. now intros ->. Qed.

Lemma region_safe (code : string) :
  isRegionShape code = true ->
  forallb SearchParams.isFormSafe code = true /\ isEmpty code = false.
Proof.
  destruct code as [|a [|b [|c t]]]; try discriminate. simpl. intros H.
  apply andb_true_iff in H as [Ha Hb].
  now rewrite (upper_safe _ Ha), (upper_safe _ Hb).
Qed.

Lemma trackedKeywordsListPath_written (target : TrackedTarget)
    (platform : string) (region : option string) (page : Z)
    (sort order : string) :
  (forall code, region = Some code -> isRegionShape code = true) ->
  1 <= page <= TRACKED_KEYWORDS_MAX_PAGE ->
  In sort TRACKED_KEYWORDS_SORT_FIELDS ->
  In order TRACKED_KEYWORDS_ORDER_VALUES ->
  trackedKeywordsListPath target platform region page sort order
  = Outcome.listPath (appIdentifier target) platform region page sort order.
Proof.
  intros Hregion Hpage Hsort Horder.
  assert (Es : SearchParams.encode sort = sort).
  { cbn in Hsort. repeat (destruct Hsort as [<- | Hsort]; [reflexivity|]).
    destruct Hsort. }
  assert (Eo : SearchParams.encode order = order).
  { cbn in Horder. repeat (destruct Horder as [<- | Horder]; [reflexivity|]).
    destruct Horder. }
  pose proof (encode_safe _ (page_safe _ Hpage)) as Ep.
  unfold trackedKeywordsListPath, Outcome.listPath, SearchParams.toString.
  cbv zeta. f_equal. f_equal. f_equal. f_equal.
  destruct region as [code|].
  - destruct (region_safe code (Hregion code eq_refl)) as [Hsafe Hne].
    cbn [truthyString]. rewrite Hne. cbn [negb app List.map join].
    rewrite (encode_safe _ Hsafe), Ep, Es, Eo.
    change (SearchParams.encode "region") with "region".
    change (SearchParams.encode "page") with "page".
    change (SearchParams.encode "sort") with "sort".
    change (SearchParams.encode "order") with "order".
    cbn [append isEmpty].
    rewrite ?StringFacts.append_assoc. reflexivity.
  - cbn [truthyString app List.map join]. rewrite Ep, Es, Eo.
    change (SearchParams.encode "page") with "page".
    change (SearchParams.encode "sort") with "sort".
    change (SearchParams.encode "order") with "order".
    cbn [append isEmpty].
    rewrite ?StringFacts.append_assoc. reflexivity.
Qed.

(** X6. track-app and untrack-app make at most one request.  They either
    throw before anything but the argument array has changed, or they send
    one POST (track) or DELETE (untrack) to /api/cli/apps/track with the
    stored token, after every argument has been consumed; the body holds an
    app id of at least six digits, a supported platform and a region code
    of two upper-case letters. *)
Theorem X6_track_app_request (env : Env) (w : World) :
  runs runTrackApp env w (Outcome.trackApp "POST" env w)
  /\ runs runUntrackApp env w (Outcome.trackApp "DELETE" env w).
Proof. split; [apply runTrackApp_runs | apply runUntrackApp_runs]. Qed.

Lemma tracked_outcome (verb : string) (env : Env) (w : World)
    (r : Completion JSValue) (w' : World) :
  (refused w r w'
   \/ exists target platform region keywords token,
        isTarget target /\ In platform SUPPORTED_PLATFORMS
        /\ isRegionShape region = true
        /\ (1 <= List.length keywords <= MAX_TRACKED_KEYWORDS_ADD)%nat
        /\ (forall k, In k keywords -> tidy k)
        /\ storedToken w = Some token
        /\ requested env w
             (mkApiArgs (trackedKeywordsPath target) verb
                (trackedKeywordsBody target platform region keywords)
                (Some token))
             r w') ->
  Outcome.trackedKeywords verb env w r w'.
Proof.
  intros [H|H]; [now left|]. right.
  destruct H as (target & platform & region & keywords & token
                 & Htarget & Hp & Hg & Hk & Ht & Htok & Hreq).
  exists platform, region, keywords, token.
  destruct Htarget as [(id & Hid & ->) | (planned & Hpl & ->)].
  - eexists. repeat (split; [eassumption|]).
    split; [|exact Hreq]. left. exists id. split; [exact Hid|].
    unfold trackedKeywordsPath, trackedKeywordsBody. cbn [targetAppId].
    now rewrite (isAppId_truthy id Hid).
  - eexists. repeat (split; [eassumption|]).
    split; [|exact Hreq]. right. exists planned. now split.
Qed.

(** X7. tracked-keywords add and remove make at most one request.  When
    they send one, it carries between 1 and 200 tidy keywords, a supported
    platform, a two-letter region code and exactly one identifier: a
    numeric app id on /api/cli/apps/keywords or a planned app id on
    /api/cli/apps/planned/keywords. *)
Theorem X7_tracked_keywords_request (env : Env) (w : World) :
  runs runTrackedKeywordsAdd env w (Outcome.trackedKeywords "POST" env w)
  /\ runs runTrackedKeywordsRemove env w
       (Outcome.trackedKeywords "DELETE" env w).
Proof.
  split.
  - eapply runs_weaken; [apply runTrackedKeywordsAdd_runs|].
    intros r w'. apply tracked_outcome.
  - eapply runs_weaken; [apply runTrackedKeywordsRemove_runs|].
    intros r w'. apply tracked_outcome.
Qed.

(** X8. keywords makes at most one request, a POST to
    /api/cli/keywords/metrics that carries between 1 and 50 tidy keywords,
    a supported platform and an app id that is null or a run of at least
    six digits. *)
Theorem X8_keyword_metrics_request (env : Env) (w : World) :
  runs runKeywordMetrics env w (Outcome.keywordMetrics env w).
Proof. apply runKeywordMetrics_runs. Qed.

(** X9. search-apps makes at most one request, a POST to
    /api/cli/apps/search whose query is tidy (not empty, single spaces
    between the words, no white space around) and whose platform and
    region are validated. *)
Theorem X9_search_apps_request (env : Env) (w : World) :
  runs runSearchApps env w (Outcome.searchApps env w).
Proof. apply runSearchApps_runs. Qed.

(** X10. tracked-keywords list makes at most one request, a GET without a
    body whose query holds a page between 1 and 1000, a known sort field
    and an order of asc or desc.  The query holds a region exactly when
    the arguments hold the --region option, and the region is then the
    code [normalizeRegionCode] returns for the value of the option, two
    upper-case letters. *)
Theorem X10_tracked_keywords_list_request (env : Env) (w : World) :
  runs runTrackedKeywordsList env w (Outcome.trackedKeywordsList env w).
Proof.
  eapply runs_weaken; [apply runTrackedKeywordsList_runs|].
  intros r w' [H|H]; [now left|]. right.
  destruct H as (target & platform & region & page & sort & order & token
                 & Htarget & Hp & Hgiven & Hg & Hpage & Hs & Ho & Htok & Hfin
                 & ->).
  exists target, platform, region, page, sort, order, token.
  repeat (split; [assumption|]).
  unfold requestOf. cbn [pathName method apiBody accessToken notNullish].
  rewrite (trackedKeywordsListPath_written _ _ _ _ _ _ Hg Hpage Hs Ho).
  unfold storedToken in Htok.
  destruct (configFile w) as [config|]; [|discriminate].
  destruct (getAccessToken_some _ _ Htok) as [Hne _].
  cbn [truthyString]. apply StringFacts.isEmpty_false in Hne.
  now rewrite Hne.
Qed.

End HandlerRequests.

(** X6 on [track-app --region se id6448311069]: the request is sent. *)
Lemma X6_track_app_request_witness :
  Runs.runs (runTrackApp (host := modelHost)) MoreExamples.accepting
    (MoreExamples.signedIn ["--region"; "se"; "id6448311069"])
    (Outcome.trackApp "POST" MoreExamples.accepting
       (MoreExamples.signedIn ["--region"; "se"; "id6448311069"]))
  /\ snd (runTrackApp (host := modelHost) MoreExamples.accepting
            (MoreExamples.signedIn ["--region"; "se"; "id6448311069"]))
     = fetched MoreExamples.accepting
         (requestOf
            (mkApiArgs "/api/cli/apps/track" "POST"
               (JObj [("appId", JStr "6448311069");
                      ("platform", JStr "iphone");
                      ("region", JStr "SE")])
               (Some "token")))
         (MoreExamples.signedIn []).
Proof.
  split; [|vm_compute; reflexivity].
  exact (proj1 (X6_track_app_request (host := modelHost) _ _)).
Defined.

(** X7 on [tracked-keywords remove my-plan "step  counter"]: the planned id
    goes to the planned endpoint. *)
Lemma X7_tracked_keywords_request_witness :
  Runs.runs (runTrackedKeywordsRemove (host := modelHost))
    MoreExamples.accepting
    (MoreExamples.signedIn ["my-plan"; "step  counter"])
    (Outcome.trackedKeywords "DELETE" MoreExamples.accepting
       (MoreExamples.signedIn ["my-plan"; "step  counter"]))
  /\ snd (runTrackedKeywordsRemove (host := modelHost)
            MoreExamples.accepting
            (MoreExamples.signedIn ["my-plan"; "step  counter"]))
     = fetched MoreExamples.accepting
         (requestOf
            (mkApiArgs "/api/cli/apps/planned/keywords" "DELETE"
               (JObj [("plannedTrackedAppId", JStr "my-plan");
                      ("platform", JStr "iphone");
                      ("region", JStr "US");
                      ("keywords", JArr [JStr "step counter"])])
               (Some "token")))
         (MoreExamples.signedIn ["step  counter"]).
Proof.
  split; [|vm_compute; reflexivity].
  exact (proj2 (X7_tracked_keywords_request (host := modelHost) _ _)).
Defined.

(** X8 on [keywords --platform IPAD 123456 fitness]. *)
Lemma X8_keyword_metrics_request_witness :
  Runs.runs (runKeywordMetrics (host := modelHost)) MoreExamples.accepting
    (MoreExamples.signedIn ["--platform"; "IPAD"; "123456"; "fitness"])
    (Outcome.keywordMetrics MoreExamples.accepting
       (MoreExamples.signedIn ["--platform"; "IPAD"; "123456"; "fitness"]))
  /\ snd (runKeywordMetrics (host := modelHost) MoreExamples.accepting
            (MoreExamples.signedIn
               ["--platform"; "IPAD"; "123456"; "fitness"]))
     = fetched MoreExamples.accepting
         (requestOf
            (mkApiArgs "/api/cli/keywords/metrics" "POST"
               (JObj [("region", JStr "US");
                      ("keywords", JArr [JStr "fitness"]);
                      ("appId", JStr "123456");
                      ("platform", JStr "ipad")])
               (Some "token")))
         (MoreExamples.signedIn ["fitness"]).
Proof.
  split; [|vm_compute; reflexivity].
  exact (X8_keyword_metrics_request (host := modelHost) _ _).
Defined.

(** X9 on [search-apps "  step   counter " pro]. *)
Lemma X9_search_apps_request_witness :
  Runs.runs (runSearchApps (host := modelHost)) MoreExamples.accepting
    (MoreExamples.signedIn ["  step   counter "; "pro"])
    (Outcome.searchApps MoreExamples.accepting
       (MoreExamples.signedIn ["  step   counter "; "pro"]))
  /\ snd (runSearchApps (host := modelHost) MoreExamples.accepting
            (MoreExamples.signedIn ["  step   counter "; "pro"]))
     = fetched MoreExamples.accepting
         (requestOf
            (mkApiArgs "/api/cli/apps/search" "POST"
               (JObj [("query", JStr "step counter pro");
                      ("platform", JStr "iphone");
                      ("region", JStr "US")])
               (Some "token")))
         (MoreExamples.signedIn ["  step   counter "; "pro"]).
Proof.
  split; [|vm_compute; reflexivity].
  exact (X9_search_apps_request (host := modelHost) _ _).
Defined.

(** X10 on [tracked-keywords list 123456 --sort LastUpdate --page 2
    --region se]. *)
Lemma X10_tracked_keywords_list_request_witness :
  Runs.runs (runTrackedKeywordsList (host := modelHost))
    MoreExamples.accepting
    (MoreExamples.signedIn
       ["123456"; "--sort"; "LastUpdate"; "--page"; "2"; "--region"; "se"])
    (Outcome.trackedKeywordsList MoreExamples.accepting
       (MoreExamples.signedIn
          ["123456"; "--sort"; "LastUpdate"; "--page"; "2"; "--region";
           "se"]))
  /\ snd (runTrackedKeywordsList (host := modelHost) MoreExamples.accepting
            (MoreExamples.signedIn
               ["123456"; "--sort"; "LastUpdate"; "--page"; "2";
                "--region"; "se"]))
     = fetched MoreExamples.accepting
         (mkRequest
            ("https://server.asosuite.com/api/cli/apps/123456/iphone/"
             ++ "tracked-keywords?region=SE&page=2&sort=lastUpdate&order=asc")
            "GET"
            [("Accept", "application/json");
             ("Authorization", "Bearer token")]
            None)
         (MoreExamples.signedIn []).
Proof.
  split; [|vm_compute; reflexivity].
  exact (X10_tracked_keywords_list_request (host := modelHost) _ _).
Defined.


(* ================================================================== *)
(** * The stored credential: login and logout *)
(* ================================================================== *)

Section CredentialFacts.
Context {host : JSHost}.
Import JsString Runs CmdFacts RunFacts.

Lemma bind_normal {A B : Type} (c : Cmd A) (k : A -> Cmd B) (env : Env)
    (w w' : World) (b : B) :
  bind c k env w = (Normal b, w') ->
  exists a w1, c env w = (Normal a, w1) /\ k a env w1 = (Normal b, w').
Proof.
  unfold bind. destruct (c env w) as [[a|e|] w1]; try discriminate.
  intros H. now exists a, w1.
Qed.

Lemma bind_throw {A B : Type} (c : Cmd A) (k : A -> Cmd B) (env : Env)
    (w w' : World) (e : JSError) :
  bind c k env w = (Throw e, w') ->
  c env w = (Throw e, w')
  \/ exists a w1, c env w = (Normal a, w1) /\ k a env w1 = (Throw e, w').
Proof.
  unfold bind. destruct (c env w) as [[a|e1|] w1]; try discriminate.
  - intros H. right. now exists a, w1.
  - intros H. injection H as -> ->. now left.
Qed.

Lemma storedToken_saved (token expiresAt : string) (w : World) :
  trim token = token -> token <> "" ->
  storedToken
    (saved (JObj [("accessToken", JStr token); ("expiresAt", JStr expiresAt)])
       w)
  = Some token.
Proof.
  intros Ht Hne. unfold storedToken, saved, getAccessToken.
  cbn. rewrite Ht. apply StringFacts.isEmpty_false in Hne. now rewrite Hne.
Qed.

Lemma failedWrite_status (env : Env) (current remains : option JSValue)
    (e : JSError) :
  failedWrite env current e remains -> Js.statusOf e = 0.
Proof. now intros (token & expiresAt & reason & _ & _ & _ & ->). Qed.

(** A poll that returns has saved a token; a poll that throws has left the
    credential file as it was, unless what it throws is the error of the
    write. *)
Lemma pollOnce_cases (deviceCode : string) (env : Env) (w : World) :
  match pollOnce deviceCode env w with
  | (Normal _, w') =>
      exists token, token <> "" /\ storedToken w' = Some token
  | (Throw e, w') =>
      configFile w' = configFile w
      \/ failedWrite env (configFile w) e (configFile w')
  | (Unfinished, _) => False
  end.
Proof.
  pose proof (pollOnce_finished env deviceCode w) as Hfin.
  destruct (pollOnce deviceCode env w) as [r w'] eqn:E.
  cbn [fst] in Hfin. revert E. unfold pollOnce. unfold bind at 1.
  pose proof (apiRequest_world (tokenRequest deviceCode) env w) as Hw.
  destruct (apiRequest (tokenRequest deviceCode) env w) as [[v|e|] w1];
    cbn [snd] in Hw; subst w1;
    [|intros [= <- <-]; now left|intros [= <- <-]; now apply Hfin].
  unfold bind, lift, throw, saveConfig.
  destruct (Js.getProp v "accessToken") as [ra|e1|];
    [|intros [= <- <-]; now left|intros [= <- <-]; now apply Hfin].
  destruct (StringOf_cases (Js.or ra (JStr ""))) as [-> | ->];
    [|intros [= <- <-]; now left].
  destruct (Js.getProp v "expiresAt") as [re|e2|];
    [|intros [= <- <-]; now left|intros [= <- <-]; now apply Hfin].
  destruct (StringOf_cases (Js.or re (JStr ""))) as [-> | ->];
    [|intros [= <- <-]; now left].
  fold (Js.stringOrEmpty ra). fold (Js.stringOrEmpty re).
  destruct (isEmpty (trim (Js.stringOrEmpty ra))) eqn:Ea;
    [intros [= <- <-]; now left|].
  destruct (isEmpty (trim (Js.stringOrEmpty re))) eqn:Ee;
    [intros [= <- <-]; now left|].
  cbn [orb]. apply StringFacts.isEmpty_false in Ea, Ee.
  cbn [configFile fetched].
  destruct (writeResult env _ _) as [|reason remains] eqn:Ew;
    intros [= <- <-].
  - exists (trim (Js.stringOrEmpty ra)). split; [exact Ea|].
    apply storedToken_saved; [apply ShapeFacts.trim_idempotent | exact Ea].
  - right. exists (trim (Js.stringOrEmpty ra)), (trim (Js.stringOrEmpty re)),
      reason.
    repeat split; try assumption.
Qed.

Lemma pollLoop_cases (fuel : nat) (deviceCode : string)
    (pollIntervalSeconds deadline : JSNumber) (env : Env) (w : World) :
  match pollLoop fuel deviceCode pollIntervalSeconds deadline env w with
  | (Normal _, w') =>
      exists token, token <> "" /\ storedToken w' = Some token
  | (Throw e, w') =>
      configFile w' = configFile w
      \/ failedWrite env (configFile w) e (configFile w')
  | (Unfinished, _) => True
  end.
Proof.
  revert w. induction fuel as [|n IH]; intros w; [exact I|].
  rewrite pollLoop_unfold.
  destruct (Spec.beforeDeadline deadline (clock w)); [|now left].
  pose proof (pollOnce_cases deviceCode env w) as Hp.
  destruct (pollOnce deviceCode env w) as [[u|e|] w1];
    [exact Hp | | destruct Hp].
  assert (Hsame : Js.statusOf e <> 0 -> configFile w1 = configFile w).
  { intros Hs. destruct Hp as [Hp | Hp]; [exact Hp|].
    now apply failedWrite_status in Hp. }
  unfold onPollError.
  destruct (Js.statusOf e =? 428) eqn:E428.
  - apply Z.eqb_eq in E428.
    assert (Hc : configFile w1 = configFile w) by (apply Hsame; lia).
    unfold bind, sleep.
    specialize (IH (slept env (Js.mul pollIntervalSeconds (Num 1000)) w1)).
    destruct (pollLoop n _ _ _ env _) as [[u|e'|] w2]; try exact IH.
    cbn [configFile slept] in IH. now rewrite Hc in IH.
  - destruct (Js.statusOf e =? 410) eqn:E410.
    { apply Z.eqb_eq in E410. left. apply Hsame. lia. }
    destruct (_ || _)%bool eqn:E40x; [|exact Hp].
    left. apply Hsame. apply orb_true_iff in E40x as [E | E];
      apply Z.eqb_eq in E; lia.
Qed.

(** What a login ends in. *)
Lemma runAuthLogin_cases (fuel : nat) (env : Env) (w : World) :
  match runAuthLogin fuel env w with
  | (Normal _, w') =>
      exists token, token <> "" /\ storedToken w' = Some token
  | (Throw e, w') =>
      configFile w' = configFile w
      \/ failedWrite env (configFile w) e (configFile w')
  | (Unfinished, _) => True
  end.
Proof.
  unfold runAuthLogin. unfold bind at 1.
  pose proof (takeFlag_args "--no-open" env w) as H1.
  destruct (takeFlag "--no-open" env w) as [[noOpen|e|] w1];
    cbn [snd] in H1; destruct H1 as [r1 ->]; [|now left|exact I].
  unfold bind at 1. unfold getRest. cbn [rest setRest].
  destruct (0 <? List.length r1)%nat; [now left|].
  unfold bind at 1.
  pose proof (apiRequest_world startRequest env (setRest r1 w)) as Hw.
  destruct (apiRequest startRequest env (setRest r1 w)) as [[start|e|] w2];
    cbn [snd] in Hw; subst w2; [|now left|exact I].
  unfold bind at 1. unfold lift.
  destruct (readSession start) as [session|e|]; [|now left|exact I].
  unfold bind at 1.
  assert (Hopen : exists w3,
             (if negb noOpen then openInBrowser (verificationUrl session)
              else ret tt) env (fetched env (requestOf startRequest)
                                  (setRest r1 w))
             = (Normal tt, w3)
             /\ configFile w3 = configFile w).
  { destruct noOpen; eexists; split; reflexivity. }
  destruct Hopen as (w3 & -> & Hc).
  unfold bind at 1. unfold dateNow.
  pose proof (pollLoop_cases fuel (deviceCode session)
                (pollIntervalSeconds session)
                (Js.add (Num (inject_Z (clock w3)))
                   (Js.mul (expiresInSeconds session) (Num 1000)))
                env w3) as Hl.
  destruct (pollLoop fuel _ _ _ env w3) as [[u|e|] w4];
    [exact Hl | now rewrite Hc in Hl | exact I].
Qed.

(** X12. A login that returns has stored a non-empty access token.  A
    login that throws has left the credential file as it was, unless what
    it throws is the error of a write of a token and its expiry that
    failed; the file then holds what the failed write left.  A logout
    writes the empty object: when the write succeeds it returns and leaves
    no token behind, when the write fails it throws the error of the write;
    it makes no request in either case. *)
Theorem X12_login_logout (env : Env) (w : World) :
  (forall fuel w',
      runAuthLogin fuel env w = (Normal tt, w') ->
      exists token, token <> "" /\ storedToken w' = Some token)
  /\ (forall fuel e w',
         runAuthLogin fuel env w = (Throw e, w') ->
         configFile w' = configFile w
         \/ failedWrite env (configFile w) e (configFile w'))
  /\ (writeResult env (configFile w) (JObj []) = Written ->
      runAuthLogout env w
      = (Normal tt,
         mkWorld (rest w) (clock w) (Some (JObj [])) (served w)
           (trace w ++ [EvSaveConfig (JObj [])]))
      /\ storedToken (snd (runAuthLogout env w)) = None)
  /\ (forall reason remains,
         writeResult env (configFile w) (JObj []) = WriteFailed reason remains ->
         runAuthLogout env w
         = (Throw (newError reason),
            mkWorld (rest w) (clock w) remains (served w) (trace w)))
  /\ fst (runAuthLogout env w) <> Unfinished
  /\ served (snd (runAuthLogout env w)) = served w
  /\ exists evs,
       trace (snd (runAuthLogout env w)) = (trace w ++ evs)%list
       /\ forall time request, ~ In (EvFetch time request) evs.
Proof.
  split.
  { intros fuel w' H. pose proof (runAuthLogin_cases fuel env w) as Hl.
    now rewrite H in Hl. }
  split.
  { intros fuel e w' H. pose proof (runAuthLogin_cases fuel env w) as Hl.
    now rewrite H in Hl. }
  unfold runAuthLogout, saveConfig.
  destruct (writeResult env (configFile w) (JObj [])) as [|reason remains].
  - split; [intros _; now split|]. split; [discriminate|].
    split; [discriminate|]. split; [reflexivity|].
    exists [EvSaveConfig (JObj [])]. split; [reflexivity|].
    intros time request [H | []]. discriminate H.
  - split; [discriminate|]. split; [now intros ? ? [= <- <-]|].
    split; [discriminate|]. split; [reflexivity|].
    exists []. split; [cbn; now rewrite app_nil_r|].
    intros time request [].
Qed.

End CredentialFacts.

(** X12 on a login whose token endpoint answers 428 twice and then
    approves, on one that is approved on a machine where the credential
    file cannot be written, and on a logout. *)
Lemma X12_login_logout_witness :
  (exists token,
      token <> ""
      /\ storedToken
           (snd (runAuthLogin (host := modelHost) 3
                   (Examples.replyWith
                      [Examples.jsonReply 200 "OK" Examples.startText;
                       Examples.pendingReply; Examples.pendingReply;
                       Examples.tokenReply])
                   (Examples.worldOf ["--no-open"] None)))
         = Some token)
  /\ (let env := Examples.readOnly
                   [Examples.jsonReply 200 "OK" Examples.startText;
                    Examples.tokenReply] in
      let w := Examples.worldOf ["--no-open"] (Some Examples.credential) in
      configFile (snd (runAuthLogin (host := modelHost) 3 env w))
      = configFile w
      \/ failedWrite env (configFile w)
           (newError
              "EACCES: permission denied, mkdir '/home/user/.asosuite'")
           (configFile (snd (runAuthLogin (host := modelHost) 3 env w))))
  /\ runAuthLogout MoreExamples.accepting (MoreExamples.signedIn [])
     = (Normal tt,
        mkWorld [] 1700000000000 (Some (JObj [])) 0 [EvSaveConfig (JObj [])]).
Proof.
  split; [|split].
  - apply (proj1 (X12_login_logout (host := modelHost)
                    (Examples.replyWith
                       [Examples.jsonReply 200 "OK" Examples.startText;
                        Examples.pendingReply; Examples.pendingReply;
                        Examples.tokenReply])
                    (Examples.worldOf ["--no-open"] None)) 3%nat).
    vm_compute. reflexivity.
  - cbv zeta.
    apply (proj1 (proj2 (X12_login_logout (host := modelHost)
                           (Examples.readOnly
                              [Examples.jsonReply 200 "OK" Examples.startText;
                               Examples.tokenReply])
                           (Examples.worldOf ["--no-open"]
                              (Some Examples.credential)))) 3%nat).
    vm_compute. reflexivity.
  - apply (proj1 (proj2 (proj2 (X12_login_logout (host := modelHost)
                            MoreExamples.accepting
                            (MoreExamples.signedIn []))))).
    reflexivity.
Defined.

(* ================================================================== *)
(** * The tracked-keywords dispatcher *)
(* ================================================================== *)

Section DispatchFacts.
Context {host : JSHost}.
Import JsString.

Lemma lowerChar_space (c : ascii) :
  isWhiteSpace (lowerChar c) = isWhiteSpace c.
Proof. destruct c as [[] [] [] [] [] [] [] []]; reflexivity. Qed.

Lemma firstNot_lower (s : string) :
  Spec.firstNot isWhiteSpace (toLowerCase s) = Spec.firstNot isWhiteSpace s.
Proof. destruct s; [reflexivity|]. simpl. now rewrite lowerChar_space. Qed.

Lemma lastNot_lower (s : string) :
  Spec.lastNot isWhiteSpace (toLowerCase s) = Spec.lastNot isWhiteSpace s.
Proof.
  induction s as [|c r IH]; [reflexivity|].
  destruct r as [|d t]; [simpl; now rewrite lowerChar_space | exact IH].
Qed.

(** The subcommand word is already trimmed. *)
Lemma subcommand_trimmed (first : string) :
  trim (toLowerCase (trim first)) = toLowerCase (trim first).
Proof.
  destruct (ShapeFacts.trim_bounds first) as [Hf Hl].
  apply trim_id; [now rewrite firstNot_lower | now rewrite lastNot_lower].
Qed.

Lemma removeWhiteSpace_length (s : string) :
  (String.length (removeWhiteSpace s) <= String.length s)%nat.
Proof.
  induction s as [|c r IH]; [reflexivity|]. cbn [removeWhiteSpace].
  destruct (isWhiteSpace c); simpl; lia.
Qed.

Lemma removeWhiteSpace_head (s : string) :
  s <> "" -> Spec.firstNot isWhiteSpace s = true ->
  isEmpty (removeWhiteSpace s) = false.
Proof.
  destruct s as [|c r]; [easy|]. cbn [Spec.firstNot removeWhiteSpace].
  intros _ H. apply negb_true_iff in H. now rewrite H.
Qed.

(** A word of at most 64 characters is a planned app id. *)
Lemma subcommand_planned (first : string) :
  toLowerCase (trim first) <> "" ->
  (String.length (toLowerCase (trim first))
   <= MAX_PLANNED_TRACKED_APP_ID_LENGTH)%nat ->
  truthyString
    (normalizePlannedTrackedAppId (JStr (toLowerCase (trim first)))) = true.
Proof.
  intros Hne Hlen. unfold normalizePlannedTrackedAppId.
  rewrite stringOrEmpty_JStr, subcommand_trimmed.
  assert (Hf : Spec.firstNot isWhiteSpace (toLowerCase (trim first)) = true).
  { rewrite firstNot_lower. apply ShapeFacts.trim_bounds. }
  pose proof (removeWhiteSpace_head _ Hne Hf) as He. rewrite He.
  pose proof (removeWhiteSpace_length (toLowerCase (trim first))) as Hl.
  destruct (Nat.ltb_spec MAX_PLANNED_TRACKED_APP_ID_LENGTH
              (String.length (removeWhiteSpace (toLowerCase (trim first)))))
    as [L|_]; [lia|].
  cbn [truthyString]. now rewrite He.
Qed.

(** X13. The dispatcher of tracked-keywords reads its first argument
    trimmed and in lower case.  Without arguments, or with [list], it runs
    the list handler on the other arguments; [add] and [remove] run their
    handlers; an option (a word that starts with two dashes) runs the list
    handler with the option put back trimmed and in lower case; a first
    argument that trims to nothing is dropped; and any other word of at
    most 64 characters is put back, trimmed and in lower case, as the app
    of the list handler. *)
Theorem X13_tracked_keywords_dispatch (env : Env) (w : World) :
  (rest w = [] -> runTrackedKeywords env w = runTrackedKeywordsList env w)
  /\ (forall first args,
         rest w = first :: args ->
         let subcommand := toLowerCase (trim first) in
         (subcommand = "list" ->
          runTrackedKeywords env w
          = runTrackedKeywordsList env (setRest args w))
         /\ (subcommand = "add" ->
             runTrackedKeywords env w
             = runTrackedKeywordsAdd env (setRest args w))
         /\ (subcommand = "remove" ->
             runTrackedKeywords env w
             = runTrackedKeywordsRemove env (setRest args w))
         /\ (subcommand = "" ->
             runTrackedKeywords env w
             = runTrackedKeywordsList env (setRest args w))
         /\ (startsWith "--" subcommand = true ->
             runTrackedKeywords env w
             = runTrackedKeywordsList env (setRest (subcommand :: args) w))
         /\ (subcommand <> "" ->
             ~ In subcommand ["list"; "add"; "remove"] ->
             (String.length subcommand
              <= MAX_PLANNED_TRACKED_APP_ID_LENGTH)%nat ->
             runTrackedKeywords env w
             = runTrackedKeywordsList env (setRest (subcommand :: args) w))).
Proof.
  split.
  - intros Hr. unfold runTrackedKeywords, shiftSubcommand.
    unfold bind at 1 2. unfold getRest. rewrite Hr.
    unfold ret. cbn [Js.stringOrEmpty]. reflexivity.
  - intros first args Hr subcommand.
    assert (Hshift : shiftSubcommand env w
                     = (Normal subcommand, setRest args w)).
    { unfold shiftSubcommand, bind, getRest, putRest, ret. rewrite Hr.
      now rewrite stringOrEmpty_JStr. }
    assert (Hrun : runTrackedKeywords env w
                   = (fun subcommand : string =>
                        if (isEmpty subcommand
                            || startsWith "--" subcommand)%bool
                        then
                          (if negb (isEmpty subcommand)
                           then unshift subcommand else ret tt) ;;;
                          runTrackedKeywordsList
                        else if String.eqb subcommand "list"
                        then runTrackedKeywordsList
                        else if String.eqb subcommand "add"
                        then runTrackedKeywordsAdd
                        else if String.eqb subcommand "remove"
                        then runTrackedKeywordsRemove
                        else
                          parsed <- lift (parseAppInput (JStr subcommand)) ;;
                          if (match parsed with
                              | Some _ => true
                              | None => false
                              end
                              || truthyString
                                   (normalizePlannedTrackedAppId
                                      (JStr subcommand)))%bool
                          then unshift subcommand ;;; runTrackedKeywordsList
                          else
                            throw
                              (newError
                                 ("Unknown tracked-keywords subcommand: "
                                  ++ subcommand
                                  ++ ". Use list, add, or remove.")))
                       subcommand env (setRest args w)).
    { unfold runTrackedKeywords. unfold bind at 1. now rewrite Hshift. }
    rewrite Hrun. clear Hrun Hshift. cbv beta.
    repeat apply conj.
    + intros ->. reflexivity.
    + intros ->. reflexivity.
    + intros ->. reflexivity.
    + intros ->. reflexivity.
    + intros Hopt. rewrite Hopt, orb_true_r.
      destruct (isEmpty subcommand) eqn:He.
      { apply StringFacts.isEmpty_true in He. rewrite He in Hopt.
        discriminate Hopt. }
      reflexivity.
    + intros Hne Hnot Hlen.
      destruct (startsWith "--" subcommand) eqn:Hopt.
      { rewrite orb_true_r.
        apply StringFacts.isEmpty_false in Hne. rewrite Hne. reflexivity. }
      pose proof Hne as Hne'. apply StringFacts.isEmpty_false in Hne'.
      rewrite Hne'. cbn [orb].
      destruct (String.eqb_spec subcommand "list") as [E|_];
        [exfalso; apply Hnot; rewrite E; cbn; tauto|].
      destruct (String.eqb_spec subcommand "add") as [E|_];
        [exfalso; apply Hnot; rewrite E; cbn; tauto|].
      destruct (String.eqb_spec subcommand "remove") as [E|_];
        [exfalso; apply Hnot; rewrite E; cbn; tauto|].
      destruct (parseAppInput_total (JStr subcommand)) as [parsed Hp].
      unfold bind at 1. unfold lift. rewrite Hp.
      unfold subcommand. rewrite (subcommand_planned first Hne Hlen).
      rewrite orb_true_r. reflexivity.
Qed.

End DispatchFacts.

(** X13 on [tracked-keywords MyPlan --page 2]: the list handler gets the
    word in lower case. *)
Lemma X13_tracked_keywords_dispatch_witness :
  runTrackedKeywords (host := modelHost) MoreExamples.accepting
    (MoreExamples.signedIn [" MyPlan"; "--page"; "2"])
  = runTrackedKeywordsList (host := modelHost) MoreExamples.accepting
      (MoreExamples.signedIn ["myplan"; "--page"; "2"]).
Proof.
  refine (proj2 (proj2 (proj2 (proj2 (proj2
            (proj2 (X13_tracked_keywords_dispatch (host := modelHost)
                      MoreExamples.accepting
                      (MoreExamples.signedIn [" MyPlan"; "--page"; "2"]))
               " MyPlan" ["--page"; "2"] eq_refl))))) _ _ _).
  - discriminate.
  - intros [H | [H | [H | []]]]; discriminate H.
  - vm_compute. lia.
Defined.

(* ================================================================== *)
(** * Option values: regions, page, sort and order *)
(* ================================================================== *)

Module ArrayFacts.
Import Arrays.

Lemma has_iff (xs : list string) (s : string) : has xs s = true <-> In s xs.
Proof.
  unfold has. rewrite existsb_exists. split.
  - intros (x & Hin & Heq). apply String.eqb_eq in Heq. now subst.
  - intros Hin. exists s. split; [exact Hin | apply String.eqb_refl].
Qed.

Lemma uniqueFrom_In (seen xs : list string) (x : string) :
  In x (uniqueFrom seen xs) <-> In x xs /\ ~ In x seen.
Proof.
  revert seen. induction xs as [|y r IH]; intros seen; cbn [uniqueFrom].
  - cbn. tauto.
  - destruct (has seen y) eqn:E.
    + apply has_iff in E. rewrite IH. cbn. split.
      * intros [H1 H2]. tauto.
      * intros [[-> | H1] H2]; [contradiction | tauto].
    + assert (Hy : ~ In y seen).
      { intros H. apply has_iff in H. congruence. }
      cbn [In]. rewrite IH. cbn [In]. split.
      * intros [<- | [H1 H2]]; [tauto|]. split; [tauto|]. tauto.
      * intros [[<- | H1] H2]; [tauto|].
        destruct (string_dec y x) as [->|Hne]; [tauto|]. right.
        split; [exact H1|]. intros [H|H]; [contradiction | contradiction].
Qed.

Lemma uniqueFrom_NoDup (seen xs : list string) : NoDup (uniqueFrom seen xs).
Proof.
  revert seen. induction xs as [|y r IH]; intros seen; cbn [uniqueFrom].
  - constructor.
  - destruct (has seen y); [apply IH|]. constructor; [|apply IH].
    rewrite uniqueFrom_In. cbn. tauto.
Qed.

Lemma notNull_In (xs : list (option string)) (x : string) :
  In x (notNull xs) <-> In (Some x) xs.
Proof.
  induction xs as [|[y|] r IH]; cbn [notNull In].
  - tauto.
  - rewrite IH. split; [intros [-> | H]; tauto|].
    intros [H | H]; [injection H as ->; tauto | tauto].
  - rewrite IH. split; [tauto|]. intros [H | H]; [discriminate | exact H].
Qed.

End ArrayFacts.

Section OptionValues.
Context {host : JSHost}.
Import JsString Regex.

Lemma parseRegionsOption_In (value : JSValue) (code : string) :
  In code (parseRegionsOption value)
  <-> exists entry,
        In entry (Arrays.split "," (trim (Js.stringOrEmpty value)))
        /\ normalizeRegionCode (JStr entry) = Some code.
Proof.
  unfold parseRegionsOption.
  destruct (isEmpty (trim (Js.stringOrEmpty value))) eqn:E.
  - apply StringFacts.isEmpty_true in E. rewrite E. cbn [Arrays.split In].
    split; [intros []|]. intros (entry & [<- | []] & H).
    discriminate H.
  - unfold Arrays.unique. rewrite ArrayFacts.uniqueFrom_In.
    rewrite ArrayFacts.notNull_In, in_map_iff. cbn [In]. split.
    + intros [(entry & H1 & H2) _]. now exists entry.
    + intros (entry & H1 & H2). split; [now exists entry | tauto].
Qed.

Lemma parseRegionsOption_NoDup (value : JSValue) :
  NoDup (parseRegionsOption value).
Proof.
  unfold parseRegionsOption. destruct (isEmpty _); [constructor|].
  apply ArrayFacts.uniqueFrom_NoDup.
Qed.

Lemma parseRegionsOption_valid (value : JSValue) (code : string) :
  In code (parseRegionsOption value) -> isRegionShape code = true.
Proof.
  intros H. apply parseRegionsOption_In in H as (entry & _ & H).
  exact (normalizeRegionCode_shape _ _ H).
Qed.

(** X14. [parseRegionsOption] returns the valid region codes of the
    comma-separated entries of its trimmed input: a code is in the result
    exactly when some entry normalizes to it, every code of the result is
    two upper-case letters, and no code occurs twice. *)
Theorem X14_parseRegionsOption (value : JSValue) :
  NoDup (parseRegionsOption value)
  /\ (forall code, In code (parseRegionsOption value) ->
                   isRegionShape code = true)
  /\ (forall code,
         In code (parseRegionsOption value)
         <-> exists entry,
               In entry (Arrays.split "," (trim (Js.stringOrEmpty value)))
               /\ normalizeRegionCode (JStr entry) = Some code).
Proof.
  split; [apply parseRegionsOption_NoDup|].
  split; [apply parseRegionsOption_valid | apply parseRegionsOption_In].
Qed.

Lemma parseInt10_page (page : Z) :
  1 <= page <= TRACKED_KEYWORDS_MAX_PAGE ->
  parseInt10 (ofZ page) = Some page.
Proof.
  unfold TRACKED_KEYWORDS_MAX_PAGE. intros H.
  assert (Hall : List.forallb
                   (fun k =>
                      match parseInt10 (ofZ (Z.of_nat k)) with
                      | Some n => n =? Z.of_nat k
                      | None => false
                      end)
                   (seq 1 1000) = true) by (vm_compute; reflexivity).
  rewrite forallb_forall in Hall.
  specialize (Hall (Z.to_nat page)). rewrite Z2Nat.id in Hall by lia.
  assert (Hs : In (Z.to_nat page) (seq 1 1000)) by (apply in_seq; lia).
  specialize (Hall Hs).
  destruct (parseInt10 (ofZ page)) as [n|]; [|discriminate].
  apply Z.eqb_eq in Hall. now subst.
Qed.

(** X15. [resolveTrackedKeywordsPageArg] returns 1 without a value; a
    value resolves to a page between 1 and 1000 or throws the error that
    names these bounds; and every page between 1 and 1000, written in
    decimal, resolves to itself. *)
Theorem X15_page_bounds :
  resolveTrackedKeywordsPageArg None = Normal 1
  /\ (forall v,
         (exists page,
             resolveTrackedKeywordsPageArg (Some v) = Normal page
             /\ 1 <= page <= TRACKED_KEYWORDS_MAX_PAGE)
         \/ resolveTrackedKeywordsPageArg (Some v) = Throw invalidPageError)
  /\ (forall page,
         1 <= page <= TRACKED_KEYWORDS_MAX_PAGE ->
         resolveTrackedKeywordsPageArg (Some (ofZ page)) = Normal page).
Proof.
  split; [reflexivity|]. split.
  - intros v. unfold resolveTrackedKeywordsPageArg.
    destruct (parseInt10 _) as [parsed|]; [|now right].
    destruct (parsed <? 1) eqn:E1; [now right|].
    destruct (TRACKED_KEYWORDS_MAX_PAGE <? parsed) eqn:E2; [now right|].
    left. exists parsed. split; [reflexivity|]. lia.
  - intros page H. unfold resolveTrackedKeywordsPageArg.
    cbn [Js.ToString]. rewrite (parseInt10_page page H).
    destruct (page <? 1) eqn:E1; [lia|].
    destruct (TRACKED_KEYWORDS_MAX_PAGE <? page) eqn:E2; [lia|].
    reflexivity.
Qed.

Lemma lowerChar_idempotent (c : ascii) : lowerChar (lowerChar c) = lowerChar c.
Proof. destruct c as [[] [] [] [] [] [] [] []]; reflexivity. Qed.

Lemma toLowerCase_idempotent (s : string) :
  toLowerCase (toLowerCase s) = toLowerCase s.
Proof.
  induction s as [|c r IH]; [reflexivity|]. unfold toLowerCase in *.
  cbn [JsString.map]. now rewrite lowerChar_idempotent, IH.
Qed.

(** X16. The sort field and the order are matched without regard to case
    and to the white space around: a value resolves to the sort field [f]
    exactly when [f] is one of the six fields and the trimmed value equals
    [f] up to case, and to the order [o] exactly when [o] is asc or desc
    and the trimmed value in lower case is [o]. *)
Theorem X16_sort_and_order (v : string) :
  (forall field,
      resolveTrackedKeywordsSortArg (Some v) = Normal field
      <-> In field TRACKED_KEYWORDS_SORT_FIELDS
          /\ toLowerCase (trim v) = toLowerCase field)
  /\ (forall order,
         resolveTrackedKeywordsOrderArg (Some v) = Normal order
         <-> In order TRACKED_KEYWORDS_ORDER_VALUES
             /\ toLowerCase (trim v) = order).
Proof.
  split.
  - intros field. unfold resolveTrackedKeywordsSortArg.
    cbn [Js.ToString]. cbv zeta.
    set (normalized := toLowerCase (trim v)).
    split.
    + destruct (String.eqb_spec normalized "lastupdate") as [E|E].
      * cbn. intros [= <-]. rewrite E.
        split; [do 5 right; left; reflexivity | reflexivity].
      * destruct (has TRACKED_KEYWORDS_SORT_FIELDS normalized) eqn:Hh;
          [|discriminate].
        cbn [negb]. intros [= <-]. apply has_In in Hh. split; [exact Hh|].
        unfold normalized. now rewrite toLowerCase_idempotent.
    + intros [Hin Heq]. rewrite Heq. cbn in Hin.
      repeat (destruct Hin as [<- | Hin]; [reflexivity|]). destruct Hin.
  - intros order. unfold resolveTrackedKeywordsOrderArg.
    cbn [Js.ToString]. cbv zeta.
    set (normalized := toLowerCase (trim v)).
    split.
    + destruct (has TRACKED_KEYWORDS_ORDER_VALUES normalized) eqn:Hh;
        [|discriminate].
      cbn [negb]. intros [= <-]. apply has_In in Hh. now split.
    + intros [Hin <-]. apply ArrayFacts.has_iff in Hin. now rewrite Hin.
Qed.

End OptionValues.

(** X14 on [us, se,US,xx1]. *)
Lemma X14_parseRegionsOption_witness :
  NoDup (parseRegionsOption (host := modelHost) (JStr "us, se,US,xx1"))
  /\ parseRegionsOption (host := modelHost) (JStr "us, se,US,xx1")
     = ["US"; "SE"].
Proof.
  split; [|reflexivity].
  exact (proj1 (X14_parseRegionsOption (host := modelHost)
                  (JStr "us, se,US,xx1"))).
Defined.

(** X15 on page 25. *)
Lemma X15_page_bounds_witness :
  resolveTrackedKeywordsPageArg (host := modelHost) (Some "25") = Normal 25.
Proof.
  apply (proj2 (proj2 (X15_page_bounds (host := modelHost))) 25).
  unfold TRACKED_KEYWORDS_MAX_PAGE. lia.
Defined.

(** X16 on [ LastUpdate ] and [DESC]. *)
Lemma X16_sort_and_order_witness :
  resolveTrackedKeywordsSortArg (host := modelHost) (Some " LastUpdate ")
  = Normal "lastUpdate"
  /\ resolveTrackedKeywordsOrderArg (host := modelHost) (Some "DESC")
     = Normal "desc".
Proof.
  split.
  - apply (proj1 (X16_sort_and_order (host := modelHost) " LastUpdate ")).
    split; [do 5 right; left; reflexivity | reflexivity].
  - apply (proj2 (X16_sort_and_order (host := modelHost) "DESC")).
    split; [right; left; reflexivity | reflexivity].
Defined.

(* ================================================================== *)
(** * Replies of the server: results and reported failures *)
(* ================================================================== *)

Section ReplyFacts.
Context {host : JSHost}.
Import JsString.

(** X17. What [apiRequest] returns for a reply with a success status: null
    for 204 whatever the body holds; for a JSON content type the parsed
    body, or a thrown error without a status when the body does not parse;
    for any other content type the body as a string, not parsed.  A network
    failure is thrown as it is.  In every case exactly one request has
    been made. *)
Theorem X17_success_reply (args : ApiArgs) (env : Env) (w : World) :
  snd (apiRequest args env w) = fetched env (requestOf args) w
  /\ (forall e,
         respond env (served w) (requestOf args) = NetworkFailure e ->
         fst (apiRequest args env w) = Throw e)
  /\ (forall response,
         respond env (served w) (requestOf args) = Responded response ->
         ok response = true ->
         (status response = 204 -> fst (apiRequest args env w) = Normal JNull)
         /\ (status response <> 204 ->
             forall text, body response = Some text ->
               (forall kind,
                   contentType response = Some kind ->
                   includes "application/json" kind = true ->
                   match JSON_parse text with
                   | Some parsed =>
                       fst (apiRequest args env w) = Normal parsed
                   | None =>
                       exists e,
                         fst (apiRequest args env w) = Throw e
                         /\ errStatus e = None
                   end)
               /\ ((contentType response = None
                    \/ exists kind,
                         contentType response = Some kind
                         /\ includes "application/json" kind = false) ->
                   fst (apiRequest args env w) = Normal (JStr text)))).
Proof.
  split; [apply apiRequest_world|]. split.
  - intros e Hr. unfold apiRequest, bind, fetch. now rewrite Hr.
  - intros response Hr Hok.
    assert (Hrun : apiRequest args env w
                   = (if status response =? 204 then ret JNull
                      else
                        if includes "application/json"
                             match contentType response with
                             | Some c => if isEmpty c then "" else c
                             | None => ""
                             end
                        then lift (responseJson response)
                        else lift (responseText response))
                       env (fetched env (requestOf args) w)).
    { unfold apiRequest, bind, fetch. now rewrite Hr, Hok. }
    rewrite Hrun. clear Hrun. split.
    + intros ->. reflexivity.
    + intros Hs text Hb. apply Z.eqb_neq in Hs. rewrite Hs. split.
      * intros kind Hk Hin. rewrite Hk.
        assert (Hkind : (if isEmpty kind then "" else kind) = kind).
        { destruct kind; reflexivity. }
        rewrite Hkind, Hin. unfold lift, responseJson. rewrite Hb.
        destruct (JSON_parse text); [reflexivity|].
        eexists. split; reflexivity.
      * intros [Hk | (kind & Hk & Hin)]; rewrite Hk.
        -- cbn. unfold responseText. now rewrite Hb.
        -- assert (Hkind : (if isEmpty kind then "" else kind) = kind).
           { destruct kind; reflexivity. }
           rewrite Hkind, Hin. unfold lift, responseText. now rewrite Hb.
Qed.

Lemma statusOf_status (m : string) (z : Z) (p : JSValue) :
  Js.statusOf (mkError PlainError m (Some z) p) = z.
Proof. reflexivity. Qed.

(** X18. What the user reads when the server refuses a request: after a
    reply 401 the hint to log in again and after a reply 404 the two lines
    about the endpoint, whatever the body holds; after a reply 429 or 402
    whose JSON body has a string [error], that error, followed by the
    line [Retry after: Ns] with the seconds rounded up when the body has a
    positive number [retryAfterSeconds] (429), or by the line
    [Subscribe: url] when it has a string [subscribeUrl] that is not blank
    (402). *)
Theorem X18_failure_report (args : ApiArgs) (env : Env) (w : World)
    (response : Response) :
  respond env (served w) (requestOf args) = Responded response ->
  ok response = false ->
  exists e,
    apiRequest args env w = (Throw e, fetched env (requestOf args) w)
    /\ (status response = 401 ->
        reportFailure e
        = ["Authentication failed. Run `asosuite login` again."])
    /\ (status response = 404 ->
        reportFailure e
        = ["CLI endpoint not found on server.";
           "Expected server URL: " ++ API_BASE_URL])
    /\ (forall text fields reason,
           body response = Some text -> text <> "" ->
           JSON_parse text = Some (JObj fields) ->
           Js.lookup "error" fields = JStr reason ->
           (status response = 429 ->
            (forall q,
                Js.lookup "retryAfterSeconds" fields = JNum (Num q) ->
                (0 < q)%Q ->
                reportFailure e
                = [reason;
                   "Retry after: " ++ Number_toString (inject_Z (Qceiling q))
                   ++ "s"])
            /\ (Js.lookup "retryAfterSeconds" fields = JUndefined ->
                reportFailure e = [reason]))
           /\ (status response = 402 ->
               (forall target,
                   Js.lookup "subscribeUrl" fields = JStr target ->
                   trim target <> "" ->
                   reportFailure e = [reason; "Subscribe: " ++ target])
               /\ (Js.lookup "subscribeUrl" fields = JUndefined ->
                   reportFailure e = [reason]))).
Proof.
  intros Hr Hok. eexists. split; [exact (apiRequest_failure _ _ _ _ Hr Hok)|].
  unfold reportFailure. rewrite statusOf_status. cbn [errMessage errPayload].
  split; [now intros ->|]. split; [now intros ->|].
  intros text fields reason Hb Hne Hp He.
  rewrite (parseErrorResponse_json_error _ _ _ _ Hb Hne Hp He).
  cbn [message payload Js.truthy isObjectType andb].
  split.
  - intros ->. cbn [Z.eqb Pos.eqb]. split.
    + intros q Hq Hpos. rewrite Hq. cbn [Js.ToNumber].
      assert (Hlt : Js.ltb (Num 0) (Num q) = true).
      { unfold Js.ltb. destruct (Qle_bool q 0) eqn:E; [|reflexivity].
        apply Qle_bool_iff in E. exfalso. exact (Qlt_not_le _ _ Hpos E). }
      now rewrite Hlt.
    + intros Hq. rewrite Hq. reflexivity.
  - intros ->. cbn [Z.eqb Pos.eqb]. split.
    + intros target Hu Ht. rewrite Hu.
      apply StringFacts.isEmpty_false in Ht. now rewrite Ht.
    + intros Hu. rewrite Hu. reflexivity.
Qed.

End ReplyFacts.

(** X17 on a success whose body is JSON text under a plain-text content
    type: the text is returned as it is. *)
Lemma X17_success_reply_witness :
  fst (apiRequest (host := modelHost) Examples.metricsArgs
         (Examples.replyWith [ReplyExamples.plainReply])
         (Examples.worldOf [] None))
  = Normal (JStr "{}").
Proof.
  refine (proj2 (proj2 (proj2 (proj2 (X17_success_reply (host := modelHost)
                                   Examples.metricsArgs
                                   (Examples.replyWith
                                      [ReplyExamples.plainReply])
                                   (Examples.worldOf [] None)))
                          ReplyExamples.plainReply eq_refl eq_refl)
                   _ "{}" eq_refl) _).
  - discriminate.
  - right. exists "text/plain". split; reflexivity.
Defined.

(** X18 on a reply 429 that asks to retry after 2.5 seconds. *)
Lemma X18_failure_report_witness :
  exists e,
    apiRequest (host := modelHost) Examples.metricsArgs
      (Examples.replyWith [ReplyExamples.slowDownReply])
      (Examples.worldOf [] None)
    = (Throw e,
       fetched (Examples.replyWith [ReplyExamples.slowDownReply])
         (requestOf Examples.metricsArgs) (Examples.worldOf [] None))
    /\ reportFailure (host := modelHost) e
       = ["slow down"; "Retry after: 3s"].
Proof.
  destruct (X18_failure_report (host := modelHost) Examples.metricsArgs
              (Examples.replyWith [ReplyExamples.slowDownReply])
              (Examples.worldOf [] None) ReplyExamples.slowDownReply
              eq_refl eq_refl)
    as (e & Hrun & _ & _ & Hbody).
  exists e. split; [exact Hrun|].
  destruct (Hbody ReplyExamples.slowDownText
              [("error", JStr "slow down");
               ("retryAfterSeconds", JNum (Num (5 # 2)))]
              "slow down" eq_refl) as [H429 _];
    [discriminate | reflexivity | reflexivity |].
  destruct (H429 eq_refl) as [Hretry _].
  apply (Hretry (5 # 2) eq_refl). reflexivity.
Defined.

(* ================================================================== *)
(** * The table printer *)
(* ================================================================== *)

Module TableFacts.
Import Table.

Lemma repeat_length (c : ascii) (n : nat) : String.length (repeat c n) = n.
Proof. induction n as [|k IH]; [reflexivity|]. simpl. now rewrite IH. Qed.

Lemma padEnd_length (s : string) (n : nat) :
  (String.length s <= n)%nat -> String.length (padEnd s (Some n)) = n.
Proof.
  intros H. unfold padEnd.
  rewrite StringFacts.length_append, repeat_length. lia.
Qed.

Lemma padStart_length (s : string) (n : nat) :
  (String.length s <= n)%nat -> String.length (padStart s (Some n)) = n.
Proof.
  intros H. unfold padStart.
  rewrite StringFacts.length_append, repeat_length. lia.
Qed.

Lemma widen_fits (ns : list nat) (row : list string) :
  List.length row = List.length ns ->
  exists ns',
    widen (List.map Some ns) row = List.map Some ns'
    /\ Forall2 le ns ns' /\ fits ns' row.
Proof.
  revert row. induction ns as [|n ns IH]; intros [|cell cells] Hlen;
    try discriminate Hlen.
  - exists []. repeat split; constructor.
  - injection Hlen as Hlen. destruct (IH cells Hlen) as (ns' & E & Hle & Hfit).
    exists (Nat.max n (String.length cell) :: ns'). cbn [widen List.map].
    rewrite E. repeat split.
    + constructor; [lia | exact Hle].
    + constructor; [lia | exact Hfit].
Qed.

Lemma fits_le (ns ns' : list nat) (row : list string) :
  fits ns row -> Forall2 le ns ns' -> fits ns' row.
Proof.
  intros Hfit. revert ns'. induction Hfit as [|n cell ns row H Hfit IH];
    intros ns' Hle; inversion Hle; subst; constructor.
  - lia.
  - now apply IH.
Qed.

Lemma le_all_trans (a b c : list nat) :
  Forall2 le a b -> Forall2 le b c -> Forall2 le a c.
Proof.
  intros H. revert c. induction H as [|x y a b Hxy H IH]; intros c Hc;
    inversion Hc; subst; constructor.
  - lia.
  - now apply IH.
Qed.

Lemma le_all_refl (a : list nat) : Forall2 le a a.
Proof. induction a; constructor; [lia | assumption]. Qed.

Lemma le_all_length (a b : list nat) :
  Forall2 le a b -> List.length b = List.length a.
Proof. induction 1; simpl; congruence. Qed.

Lemma fold_widen (rows : list (list string)) (ns0 : list nat) :
  (forall row, In row rows -> List.length row = List.length ns0) ->
  exists ns,
    fold_left widen rows (List.map Some ns0) = List.map Some ns
    /\ Forall2 le ns0 ns
    /\ (forall row, In row rows -> fits ns row).
Proof.
  revert ns0. induction rows as [|row rows IH]; intros ns0 Hlen.
  - exists ns0. repeat split; [apply le_all_refl | intros row []].
  - destruct (widen_fits ns0 row (Hlen row (or_introl eq_refl)))
      as (ns1 & E1 & Hle1 & Hfit1).
    destruct (IH ns1) as (ns & E & Hle & Hfit).
    { intros r Hr. rewrite (le_all_length _ _ Hle1).
      apply Hlen. now right. }
    exists ns. cbn [fold_left]. rewrite E1. repeat split.
    + exact E.
    + exact (le_all_trans _ _ _ Hle1 Hle).
    + intros r [<- | Hr]; [exact (fits_le _ _ _ Hfit1 Hle) | now apply Hfit].
Qed.

(** A width after a row is the width before it or the length of the cell
    of the row in that column. *)
Lemma widen_attained (ns : list nat) (row : list string) (ns' : list nat) :
  List.length row = List.length ns ->
  widen (List.map Some ns) row = List.map Some ns' ->
  forall index width,
    nth_error ns' index = Some width ->
    nth_error ns index = Some width
    \/ exists cell, nth_error row index = Some cell
                    /\ String.length cell = width.
Proof.
  revert row ns'. induction ns as [|n ns IH]; intros [|cell cells] ns' Hlen;
    try discriminate Hlen.
  - cbn. destruct ns'; [|discriminate]. intros _ [|index] width H;
      discriminate H.
  - injection Hlen as Hlen. cbn [widen List.map].
    destruct ns' as [|n' ns']; [discriminate|]. cbn [List.map].
    intros E. injection E as En E.
    intros [|index] width; cbn [nth_error].
    + intros [= <-]. subst n'.
      destruct (Nat.max_spec n (String.length cell)) as [[_ ->] | [_ ->]];
        [right; now exists cell | now left].
    + apply (IH cells ns' Hlen E).
Qed.

Lemma map_Some_inj (a b : list nat) :
  List.map Some a = List.map Some b -> a = b.
Proof.
  revert b. induction a as [|x a IH]; intros [|y b] H; try discriminate H.
  - reflexivity.
  - cbn in H. injection H as -> H. now rewrite (IH b H).
Qed.

Lemma fold_attained (rows : list (list string)) (ns0 ns : list nat) :
  (forall row, In row rows -> List.length row = List.length ns0) ->
  fold_left widen rows (List.map Some ns0) = List.map Some ns ->
  forall index width,
    nth_error ns index = Some width ->
    nth_error ns0 index = Some width
    \/ exists row cell, In row rows /\ nth_error row index = Some cell
                        /\ String.length cell = width.
Proof.
  revert ns0. induction rows as [|row rows IH]; intros ns0 Hlen E index width.
  - cbn in E. apply map_Some_inj in E. subst. now left.
  - destruct (widen_fits ns0 row (Hlen row (or_introl eq_refl)))
      as (ns1 & E1 & Hle1 & _).
    cbn [fold_left] in E. rewrite E1 in E. intros Hw.
    destruct (IH ns1) with (index := index) (width := width)
      as [H | (r & cell & Hr & Hc & Hl)]; try assumption.
    { intros r Hr. rewrite (le_all_length _ _ Hle1).
      apply Hlen. now right. }
    + destruct (widen_attained ns0 row ns1 (Hlen row (or_introl eq_refl)) E1
                  index width H) as [H0 | (cell & Hc & Hl)];
        [now left | right].
      exists row, cell. split; [now left | now split].
    + right. exists r, cell. split; [now right | now split].
Qed.

Lemma columnWidths_attained (headers : list string)
    (rows : list (list string)) (ns : list nat) :
  (forall row, In row rows -> List.length row = List.length headers) ->
  columnWidths headers rows = List.map Some ns ->
  attained ns headers rows.
Proof.
  intros Hlen E index width Hw. unfold columnWidths in E.
  rewrite <- map_map in E.
  destruct (fold_attained rows (List.map String.length headers) ns)
    with (index := index) (width := width)
    as [H | (row & cell & Hr & Hc & Hl)]; try assumption.
  - intros row Hr. rewrite length_map. now apply Hlen.
  - rewrite nth_error_map in H.
    destruct (nth_error headers index) as [cell|] eqn:Hc; [|discriminate].
    injection H as <-. exists headers, cell.
    split; [now left | now split].
  - exists row, cell. split; [now right | now split].
Qed.

Lemma join_length (xs : list string) :
  String.length (JsString.join "  " xs)
  = (total (List.map String.length xs) + 2 * (List.length xs - 1))%nat.
Proof.
  induction xs as [|x [|y r] IH]; [reflexivity | simpl; lia |].
  change (JsString.join "  " (x :: y :: r))
    with (x ++ "  " ++ JsString.join "  " (y :: r)).
  rewrite !StringFacts.length_append, IH. simpl. lia.
Qed.

Lemma formatCells_lengths (pre ns : list nat) (row : list string) :
  fits ns row ->
  List.map String.length
    (formatCells (List.map Some (pre ++ ns)) (List.length pre) row)
  = ns.
Proof.
  intros Hfit. revert pre.
  induction Hfit as [|n cell ns row H Hfit IH]; intros pre; [reflexivity|].
  cbn [formatCells List.map].
  assert (Hnth : nth (List.length pre) (List.map Some (pre ++ n :: ns)) None
                 = Some n).
  { rewrite map_app, app_nth2; rewrite length_map; [|lia].
    now rewrite Nat.sub_diag. }
  rewrite Hnth. f_equal.
  - destruct (_ =? 0)%nat; [now apply padEnd_length
                           | now apply padStart_length].
  - specialize (IH (pre ++ [n])%list).
    rewrite <- app_assoc, length_app in IH. cbn [List.length app] in IH.
    now rewrite Nat.add_1_r in IH.
Qed.

Lemma formatCells_count (widths : list (option nat)) (index : nat)
    (row : list string) :
  List.length (formatCells widths index row) = List.length row.
Proof.
  revert index. induction row as [|c r IH]; intros index; [reflexivity|].
  cbn [formatCells List.length]. now rewrite IH.
Qed.

Lemma fits_length (ns : list nat) (row : list string) :
  fits ns row -> List.length row = List.length ns.
Proof. induction 1; simpl; congruence. Qed.

Lemma formatRow_length (ns : list nat) (row : list string) :
  fits ns row ->
  String.length (formatRow (List.map Some ns) row)
  = (total ns + 2 * (List.length ns - 1))%nat.
Proof.
  intros Hfit. unfold formatRow. rewrite join_length, formatCells_count.
  pose proof (formatCells_lengths [] ns row Hfit) as L.
  cbn [app List.length] in L. rewrite L.
  now rewrite (fits_length _ _ Hfit).
Qed.

Lemma separator_length (ns : list nat) :
  String.length (separator (List.map Some ns))
  = (total ns + 2 * (List.length ns - 1))%nat.
Proof.
  unfold separator. rewrite join_length, !length_map, !map_map.
  f_equal. f_equal. clear. induction ns as [|n ns IH]; [reflexivity|].
  cbn [List.map]. now rewrite repeat_length, IH.
Qed.

Lemma headers_fit (headers : list string) :
  fits (List.map String.length headers) headers.
Proof. induction headers; constructor; [lia | assumption]. Qed.

End TableFacts.

Section TableAlignment.
Import Table TableFacts.

(** X19. A table whose rows have as many cells as there are headers is
    printed in aligned columns: every column is exactly as wide as the
    longest of its header and its cells (no cell or header of the column
    is longer than the width, and one of them has that length), and the
    header line, the line of dashes and the line of every row all have the
    same length, the sum of the widths plus two spaces between
    neighbouring columns. *)
Theorem X19_table_aligned (headers : list string)
    (rows : list (list string)) :
  (forall row, In row rows -> List.length row = List.length headers) ->
  exists widths,
    columnWidths headers rows = List.map Some widths
    /\ fits widths headers
    /\ (forall row, In row rows -> fits widths row)
    /\ attained widths headers rows
    /\ forall line, In line (printTable headers rows) ->
         String.length line
         = (total widths + 2 * (List.length headers - 1))%nat.
Proof.
  intros Hlen.
  destruct (fold_widen rows (List.map String.length headers))
    as (ns & E & Hle & Hfit).
  { intros row Hr. rewrite length_map. now apply Hlen. }
  assert (Hhead : fits ns headers).
  { exact (fits_le _ _ _ (headers_fit headers) Hle). }
  assert (Hn : List.length ns = List.length headers).
  { now rewrite <- (fits_length _ _ Hhead). }
  assert (Ew : columnWidths headers rows = List.map Some ns).
  { unfold columnWidths. now rewrite <- E, map_map. }
  exists ns. split; [exact Ew|]. split; [exact Hhead|].
  split; [exact Hfit|].
  split; [exact (columnWidths_attained _ _ _ Hlen Ew)|].
  intros line. unfold printTable. cbv zeta. rewrite Ew. rewrite <- Hn.
  intros [<- | [<- | Hin]].
  - now apply formatRow_length.
  - apply separator_length.
  - apply in_map_iff in Hin as (row & <- & Hr).
    apply formatRow_length. now apply Hfit.
Qed.

End TableAlignment.

(** X19 on a table of two columns and two rows. *)
Lemma X19_table_aligned_witness :
  Table.printTable ["Keyword"; "Pop"] [["run"; "55"]; ["step counter"; "7"]]
  = ["Keyword       Pop";
     "------------  ---";
     "run            55";
     "step counter    7"]
  /\ exists widths,
       Table.columnWidths ["Keyword"; "Pop"]
         [["run"; "55"]; ["step counter"; "7"]]
       = List.map Some widths
       /\ Table.attained widths ["Keyword"; "Pop"]
            [["run"; "55"]; ["step counter"; "7"]]
       /\ forall line,
            In line ["Keyword       Pop";
                     "------------  ---";
                     "run            55";
                     "step counter    7"] ->
            String.length line = (Table.total widths + 2 * (2 - 1))%nat.
Proof.
  split; [reflexivity|].
  destruct (X19_table_aligned ["Keyword"; "Pop"]
              [["run"; "55"]; ["step counter"; "7"]])
    as (widths & E & _ & _ & Ha & H).
  - intros row [<- | [<- | []]]; reflexivity.
  - exists widths. split; [exact E|]. split; [exact Ha | exact H].
Defined.

(* ================================================================== *)
(** * Charts, ratings, planned apps and events *)
(* ================================================================== *)

Section FurtherRequests.
Context {host : JSHost}.
Import JsString Regex Runs CmdFacts RunFacts Shape HandlerTactics.

Lemma parsePeriodValue_sound (v : JSValue) (n : Z) :
  parsePeriodValue v = Some n -> In n [7; 30; 90].
Proof.
  unfold parsePeriodValue.
  destruct (parseInt10 _) as [parsed|]; [|discriminate].
  destruct (existsb _ _) eqn:E; [|discriminate].
  intros H. injection H as <-. cbn in E.
  repeat (apply orb_true_iff in E as [E | E]);
    try discriminate; apply Z.eqb_eq in E; cbn; auto.
Qed.

Lemma resolvePeriod_cases (periodValue : option string) :
  match resolvePeriod periodValue with
  | Normal period => In period [7; 30; 90]
  | Throw _ => True
  | Unfinished => False
  end.
Proof.
  unfold resolvePeriod. destruct periodValue as [v|].
  - destruct (parsePeriodValue (JStr v)) as [p|] eqn:E; [|exact I].
    destruct (p =? 0); [exact I|]. exact (parsePeriodValue_sound _ _ E).
  - cbn. auto.
Qed.

Lemma resolveRegions_cases (regionsValue regionValue : option string) :
  match resolveRegions regionsValue regionValue with
  | Normal regions =>
      NoDup regions
      /\ forall code, In code regions -> isRegionShape code = true
  | Throw _ => True
  | Unfinished => False
  end.
Proof.
  unfold resolveRegions. destruct regionsValue as [v|].
  - cbv zeta. destruct (_ =? 0)%nat; [exact I|]. split.
    + apply parseRegionsOption_NoDup.
    + apply parseRegionsOption_valid.
  - destruct regionValue as [v|].
    + cbv zeta. destruct (normalizeRegionCode (JStr v)) as [r|] eqn:E;
        [|exact I].
      destruct (negb _); [exact I|]. split.
      * constructor; [intros [] | constructor].
      * intros code [<- | []]. exact (normalizeRegionCode_shape _ _ E).
    + split; [constructor | intros code []].
Qed.

Lemma chartsBody_written (period : Z) (regions : list string) :
  chartsBody period regions
  = JObj (("period", JNum (Num (inject_Z period)))
          :: match regions with
             | [] => []
             | _ => [("regions", JArr (List.map JStr regions))]
             end).
Proof. now destruct regions. Qed.

Lemma runRankings_runs (env : Env) (w : World) :
  runs runRankings env w (FurtherOutcome.periodRequest "charts" env w).
Proof.
  unfold runRankings.
  pose proof (onlyArgsChanged_refl w) as H0.
  quiet_step H0 loadConfig_runs. intros config w1 H1 [-> Hc].
  quiet_step H1 takeFlag_runs. intros outputJson w2 H2 _.
  quiet_step H2 takeOption_runs. intros platformValue w3 H3 _.
  quiet_step H3 takeOption_runs. intros periodValue w4 H4 _.
  quiet_step H4 takeOption_runs. intros regionsValue w5 H5 _.
  quiet_step H5 takeOption_runs. intros regionValue w6 H6 _.
  quiet_step H6 consumeAppId_runs. intros appId w7 H7 [Ha Hr].
  destruct (Hr eq_refl) as [id ->].
  quiet_step H7 rejectUnknownArguments_runs. intros _ w8 H8 [-> Hrest].
  destruct (_ && _)%bool;
    [apply runs_throw; left; now apply refused_throw|].
  pose proof (requireAuthenticatedAccessToken_cases config) as Ht.
  pure_step H7 Ht. intros token Et. rewrite Et in Ht.
  pose proof (resolvePlatformArg_cases platformValue) as Hp.
  pure_step H7 Hp. intros platform Ep. rewrite Ep in Hp.
  pose proof (resolvePeriod_cases periodValue) as Hperiod.
  pure_step H7 Hperiod. intros period Eperiod. rewrite Eperiod in Hperiod.
  pose proof (resolveRegions_cases regionsValue regionValue) as Hregions.
  pure_step H7 Hregions. intros regions Eregions.
  rewrite Eregions in Hregions. destruct Hregions as [Hnodup Hvalid].
  eapply runs_weaken; [apply apiRequest_last|].
  intros r w' [Hfin ->]. right.
  exists id, platform, period, regions, token.
  rewrite <- (onlyArgsChanged_empty _ _ H7 Hrest), chartsBody_written.
  split; [exact (Ha id eq_refl)|].
  split; [exact Hp|].
  split; [exact Hperiod|].
  split; [exact Hnodup|].
  split; [exact Hvalid|].
  split; [discriminate|].
  split; [congruence|].
  split; [exact Hfin | reflexivity].
Qed.

Lemma runRatings_runs (env : Env) (w : World) :
  runs runRatings env w (FurtherOutcome.periodRequest "ratings" env w).
Proof.
  unfold runRatings.
  pose proof (onlyArgsChanged_refl w) as H0.
  quiet_step H0 loadConfig_runs. intros config w1 H1 [-> Hc].
  quiet_step H1 takeFlag_runs. intros outputJson w2 H2 _.
  quiet_step H2 takeOption_runs. intros platformValue w3 H3 _.
  quiet_step H3 takeOption_runs. intros periodValue w4 H4 _.
  quiet_step H4 consumeAppId_runs. intros appId w5 H5 [Ha Hr].
  destruct (Hr eq_refl) as [id ->].
  quiet_step H5 rejectUnknownArguments_runs. intros _ w6 H6 [-> Hrest].
  pose proof (requireAuthenticatedAccessToken_cases config) as Ht.
  pure_step H5 Ht. intros token Et. rewrite Et in Ht.
  pose proof (resolvePlatformArg_cases platformValue) as Hp.
  pure_step H5 Hp. intros platform Ep. rewrite Ep in Hp.
  pose proof (resolvePeriod_cases periodValue) as Hperiod.
  pure_step H5 Hperiod. intros period Eperiod. rewrite Eperiod in Hperiod.
  eapply runs_weaken; [apply apiRequest_last|].
  intros r w' [Hfin ->]. right.
  exists id, platform, period, [], token.
  rewrite <- (onlyArgsChanged_empty _ _ H5 Hrest).
  split; [exact (Ha id eq_refl)|].
  split; [exact Hp|].
  split; [exact Hperiod|].
  split; [constructor|].
  split; [intros code []|].
  split; [reflexivity|].
  split; [congruence|].
  split; [exact Hfin | reflexivity].
Qed.

(** X20. charts and ratings make at most one request, a POST for an app id
    of at least six digits and a supported platform whose period is 7, 30
    or 90; the regions of a charts request are valid region codes without
    repetition, left out of the body when there are none, and a ratings
    request has no regions. *)
Theorem X20_charts_and_ratings_request (env : Env) (w : World) :
  runs runRankings env w (FurtherOutcome.periodRequest "charts" env w)
  /\ runs runRatings env w (FurtherOutcome.periodRequest "ratings" env w).
Proof. split; [apply runRankings_runs | apply runRatings_runs]. Qed.

Lemma plannedName (nameValue : option string) :
  trim (trim (Js.stringOrEmpty (ofOption nameValue)))
  = trim (Js.stringOrEmpty (ofOption nameValue)).
Proof. apply ShapeFacts.trim_idempotent. Qed.

Lemma runPlanApp_runs (env : Env) (w : World) :
  runs runPlanApp env w (FurtherOutcome.planApp env w).
Proof.
  unfold runPlanApp.
  pose proof (onlyArgsChanged_refl w) as H0.
  quiet_step H0 loadConfig_runs. intros config w1 H1 [-> Hc].
  quiet_step H1 takeFlag_taken. intros outputJson w2 H2 [_ R2].
  quiet_step H2 takeOption_taken. intros nameValue w3 H3 [Vn R3].
  quiet_step H3 takeOption_taken. intros idValue w4 H4 [Vi _].
  rewrite R2 in Vn. rewrite R3, R2 in Vi.
  quiet_step H4 takeOption_runs. intros platformValue w5 H5 _.
  quiet_step H5 takeOption_runs. intros regionValue w6 H6 _.
  quiet_step H6 rejectUnknownArguments_runs. intros _ w7 H7 [-> Hrest].
  cbv zeta.
  destruct (isEmpty (trim (Js.stringOrEmpty (ofOption nameValue)))) eqn:Hname;
    [apply runs_throw; left; now apply refused_throw|].
  destruct (_ && _)%bool eqn:Hid;
    [apply runs_throw; left; now apply refused_throw|].
  pose proof (requireAuthenticatedAccessToken_cases config) as Ht.
  pure_step H6 Ht. intros token Et. rewrite Et in Ht.
  pose proof (resolvePlatformArg_cases platformValue) as Hp.
  pure_step H6 Hp. intros platform Ep. rewrite Ep in Hp.
  pose proof (resolveRegionArg_cases regionValue) as Hg.
  pure_step H6 Hg. intros region Eg. rewrite Eg in Hg.
  eapply runs_weaken; [apply apiRequest_last|].
  intros r w' [Hfin ->]. right.
  exists (trim (Js.stringOrEmpty (ofOption nameValue))), platform, region,
    (normalizePlannedTrackedAppId (ofOption idValue)), token.
  rewrite <- (onlyArgsChanged_empty _ _ H6 Hrest).
  split; [now apply StringFacts.isEmpty_false|].
  split; [apply plannedName|].
  split.
  { unfold FurtherOutcome.planName. rewrite <- Vn.
    destruct nameValue as [given|]; [|discriminate Hname].
    exists given. split; [reflexivity|].
    cbn [ofOption]. now rewrite stringOrEmpty_JStr. }
  split.
  { unfold FurtherOutcome.planId. rewrite <- Vi.
    destruct idValue as [given|]; [|reflexivity].
    cbn [isSome andb ofOption] in Hid. cbn [ofOption].
    destruct (normalizePlannedTrackedAppId (JStr given)) as [p|];
      [now exists p | discriminate Hid]. }
  split; [exact Hp|].
  split; [exact Hg|].
  split; [intros p; apply normalizePlannedTrackedAppId_sound|].
  split; [congruence|].
  split; [exact Hfin|].
  destruct (normalizePlannedTrackedAppId (ofOption idValue)) as [p|] eqn:En;
    [|reflexivity].
  destruct (normalizePlannedTrackedAppId_sound _ _ En) as [[Hl _] _].
  assert (Hne : truthyString (Some p) = true).
  { destruct p; [simpl in Hl; lia | reflexivity]. }
  now rewrite Hne.
Qed.

Lemma runUnplanApp_runs (env : Env) (w : World) :
  runs runUnplanApp env w (FurtherOutcome.unplanApp env w).
Proof.
  unfold runUnplanApp.
  pose proof (onlyArgsChanged_refl w) as H0.
  quiet_step H0 loadConfig_runs. intros config w1 H1 [-> Hc].
  quiet_step H1 takeFlag_taken. intros outputJson w2 H2 [_ R2].
  quiet_step H2 takeOption_taken. intros idValue w3 H3 [Vi _].
  rewrite R2 in Vi.
  quiet_step H3 takeOption_runs. intros platformValue w4 H4 _.
  quiet_step H4 takeOption_runs. intros regionValue w5 H5 _.
  quiet_step H5 rejectUnknownArguments_runs. intros _ w6 H6 [-> Hrest].
  cbv zeta.
  destruct (normalizePlannedTrackedAppId (ofOption idValue)) as [p|] eqn:En;
    [|apply runs_throw; left; now apply refused_throw].
  destruct (negb (truthyString (Some p)));
    [apply runs_throw; left; now apply refused_throw|].
  pose proof (requireAuthenticatedAccessToken_cases config) as Ht.
  pure_step H5 Ht. intros token Et. rewrite Et in Ht.
  pose proof (resolvePlatformArg_cases platformValue) as Hp.
  pure_step H5 Hp. intros platform Ep. rewrite Ep in Hp.
  pose proof (resolveRegionArg_cases regionValue) as Hg.
  pure_step H5 Hg. intros region Eg. rewrite Eg in Hg.
  eapply runs_weaken; [apply apiRequest_last|].
  intros r w' [Hfin ->]. right.
  exists p, platform, region, token.
  rewrite <- (onlyArgsChanged_empty _ _ H5 Hrest).
  split; [exact (normalizePlannedTrackedAppId_sound _ _ En)|].
  split.
  { unfold FurtherOutcome.unplanId. rewrite <- Vi.
    destruct idValue as [given|]; [now exists given|].
    discriminate En. }
  split; [exact Hp|].
  split; [exact Hg|].
  split; [congruence|].
  split; [exact Hfin | reflexivity].
Qed.

(** X21. plan-app and unplan-app make at most one request to
    /api/cli/apps/planned, after every argument has been consumed.  A
    plan request (POST) carries the trimmed value of --name, which is not
    empty, a supported platform and a two-letter region code; it carries a
    planned app id exactly when the arguments hold the --id option, and
    the id is then the one [normalizePlannedTrackedAppId] returns for the
    value of the option, 1 to 64 characters without white space.  An
    unplan request (DELETE) always carries the id that
    [normalizePlannedTrackedAppId] returns for the value of --id. *)
Theorem X21_planned_app_request (env : Env) (w : World) :
  runs runPlanApp env w (FurtherOutcome.planApp env w)
  /\ runs runUnplanApp env w (FurtherOutcome.unplanApp env w).
Proof. split; [apply runPlanApp_runs | apply runUnplanApp_runs]. Qed.

Lemma toDouble_exact (parsed : Z) (id : Q) :
  Js.toDouble parsed = Some id ->
  Z.abs parsed <= 2 ^ 53 -> id = inject_Z parsed.
Proof.
  unfold Js.toDouble. destruct (Z.leb_spec (Z.abs parsed) (2 ^ 53)); [|lia].
  now intros [= <-].
Qed.

Lemma positive_integer (parsed : Z) :
  Qle_bool (inject_Z parsed) 0 = false -> 1 <= parsed.
Proof.
  intros H. destruct (Z_lt_le_dec 0 parsed) as [Hp | Hn]; [lia|].
  assert (Hle : (inject_Z parsed <= 0)%Q).
  { change 0%Q with (inject_Z 0). now rewrite <- Zle_Qle. }
  apply Qle_bool_iff in Hle. congruence.
Qed.

Lemma runEventsDelete_runs (env : Env) (w : World) :
  runs runEventsDelete env w (FurtherOutcome.eventsDelete env w).
Proof.
  unfold runEventsDelete.
  pose proof (onlyArgsChanged_refl w) as H0.
  quiet_step H0 loadConfig_runs. intros config w1 H1 [-> Hc].
  quiet_step H1 takeFlag_taken. intros outputJson w2 H2 [_ R2].
  quiet_step H2 getRest_runs. intros args w3 H3 [-> ->].
  destruct (negb _) eqn:Hone;
    [apply runs_throw; left; now apply refused_throw|].
  destruct (rest w2) as [|only [|second others]] eqn:Hargs;
    try discriminate Hone.
  cbn [nth Js.ToString].
  destruct (parseInt10 (trim only)) as [parsed|] eqn:Hparsed;
    [|apply runs_throw; left; now apply refused_throw].
  destruct (Js.toDouble parsed) as [id|] eqn:Hdouble;
    [|apply runs_throw; left; now apply refused_throw].
  destruct (Qle_bool id 0) eqn:Hid;
    [apply runs_throw; left; now apply refused_throw|].
  pose proof (requireAuthenticatedAccessToken_cases config) as Ht.
  pure_step H2 Ht. intros token Et. rewrite Et in Ht.
  eapply runs_weaken; [apply apiRequest_last|].
  intros r w' [Hfin ->]. right.
  exists only, parsed, id, token.
  split; [congruence|].
  split; [exact Hparsed|].
  split; [exact Hdouble|].
  split.
  { apply Qnot_le_lt. intros Hle. apply Qle_bool_iff in Hle. congruence. }
  split.
  { intros Hsmall. pose proof (toDouble_exact _ _ Hdouble Hsmall) as ->.
    split; [reflexivity | now apply positive_integer]. }
  split; [congruence|].
  split; [exact Hfin|].
  destruct H2 as [r2 ->]. cbn [rest setRest] in Hargs. now subst r2.
Qed.

(** X22. events delete makes at most one request: a DELETE to
    /api/cli/events/<id> without a body.  The command has one argument
    besides --json, the integer that [Number.parseInt] reads from it is
    the id, as the double nearest to it: a positive number, and for an
    integer up to 2^53 the integer itself, at least 1. *)
Theorem X22_events_delete_request (env : Env) (w : World) :
  runs runEventsDelete env w (FurtherOutcome.eventsDelete env w).
Proof. apply runEventsDelete_runs. Qed.

End FurtherRequests.

(** X20 on [charts 123456 --period 7 --regions us,se,US]. *)
Lemma X20_charts_and_ratings_request_witness :
  Runs.runs (runRankings (host := modelHost)) MoreExamples.accepting
    (MoreExamples.signedIn ["123456"; "--period"; "7"; "--regions"; "us,se,US"])
    (FurtherOutcome.periodRequest "charts" MoreExamples.accepting
       (MoreExamples.signedIn
          ["123456"; "--period"; "7"; "--regions"; "us,se,US"]))
  /\ snd (runRankings (host := modelHost) MoreExamples.accepting
            (MoreExamples.signedIn
               ["123456"; "--period"; "7"; "--regions"; "us,se,US"]))
     = fetched MoreExamples.accepting
         (requestOf
            (mkApiArgs "/api/cli/apps/123456/iphone/charts" "POST"
               (JObj [("period", JNum (Num 7));
                      ("regions", JArr [JStr "US"; JStr "SE"])])
               (Some "token")))
         (MoreExamples.signedIn []).
Proof.
  split; [|vm_compute; reflexivity].
  exact (proj1 (X20_charts_and_ratings_request (host := modelHost) _ _)).
Defined.

(** X21 on [plan-app --name " My App " --id "my plan"]. *)
Lemma X21_planned_app_request_witness :
  Runs.runs (runPlanApp (host := modelHost)) MoreExamples.accepting
    (MoreExamples.signedIn ["--name"; " My App "; "--id"; "my plan"])
    (FurtherOutcome.planApp MoreExamples.accepting
       (MoreExamples.signedIn ["--name"; " My App "; "--id"; "my plan"]))
  /\ snd (runPlanApp (host := modelHost) MoreExamples.accepting
            (MoreExamples.signedIn
               ["--name"; " My App "; "--id"; "my plan"]))
     = fetched MoreExamples.accepting
         (requestOf
            (mkApiArgs "/api/cli/apps/planned" "POST"
               (JObj [("name", JStr "My App");
                      ("platform", JStr "iphone");
                      ("region", JStr "US");
                      ("plannedTrackedAppId", JStr "myplan")])
               (Some "token")))
         (MoreExamples.signedIn []).
Proof.
  split; [|vm_compute; reflexivity].
  exact (proj1 (X21_planned_app_request (host := modelHost) _ _)).
Defined.

(** X22 on [events delete 12] and on [events delete 9007199254740993
    --json], whose id is sent as the double next to it. *)
Lemma X22_events_delete_request_witness :
  Runs.runs (runEventsDelete (host := modelHost)) MoreExamples.accepting
    (MoreExamples.signedIn ["12"])
    (FurtherOutcome.eventsDelete MoreExamples.accepting
       (MoreExamples.signedIn ["12"]))
  /\ snd (runEventsDelete (host := modelHost) MoreExamples.accepting
            (MoreExamples.signedIn ["12"]))
     = fetched MoreExamples.accepting
         (requestOf
            (mkApiArgs "/api/cli/events/12" "DELETE" JUndefined
               (Some "token")))
         (MoreExamples.signedIn ["12"])
  /\ snd (runEventsDelete (host := modelHost) MoreExamples.accepting
            (MoreExamples.signedIn ["9007199254740993"; "--json"]))
     = fetched MoreExamples.accepting
         (requestOf
            (mkApiArgs "/api/cli/events/9007199254740992" "DELETE" JUndefined
               (Some "token")))
         (MoreExamples.signedIn ["9007199254740993"]).
Proof.
  split; [|split; vm_compute; reflexivity].
  exact (X22_events_delete_request (host := modelHost) _ _).
Defined.

(* ================================================================== *)
(** * Commands without a token; the browser of the login *)
(* ================================================================== *)

Section NoToken.
Context {host : JSHost}.
Import JsString Runs CmdFacts RunFacts HandlerTactics.

Lemma further_handlers_refuse (env : Env) (w : World)
    (handler : Cmd JSValue) :
  storedToken w = None ->
  In handler
    [runRankings; runRatings; runPlanApp; runUnplanApp; runEventsDelete] ->
  runs handler env w (refused w).
Proof.
  intros Hnone Hin. cbn [In] in Hin.
  destruct Hin as [<- | Hin]; [no_token runRankings_runs|].
  destruct Hin as [<- | Hin]; [no_token runRatings_runs|].
  destruct Hin as [<- | Hin]; [no_token runPlanApp_runs|].
  destruct Hin as [<- | Hin]; [no_token runUnplanApp_runs|].
  destruct Hin as [<- | Hin]; [no_token runEventsDelete_runs|].
  destruct Hin.
Qed.

(** X11. Without a stored access token no authenticated command contacts
    the server: every handler throws, and nothing but the argument array
    has changed when it does. *)
Theorem X11_no_token_no_request (env : Env) (w : World)
    (handler : Cmd JSValue) :
  storedToken w = None ->
  In handler authenticatedHandlers ->
  exists e,
    fst (handler env w) = Throw e
    /\ Spec.onlyArgsChanged w (snd (handler env w)).
Proof.
  intros Hnone Hin.
  assert (H : runs handler env w (refused w)).
  { cbn [authenticatedHandlers In] in Hin.
    destruct Hin as [<- | Hin];
      [apply handlers_refuse; [exact Hnone | cbn; tauto]|].
    destruct Hin as [<- | Hin];
      [apply handlers_refuse; [exact Hnone | cbn; tauto]|].
    destruct Hin as [<- | Hin];
      [apply handlers_refuse; [exact Hnone | cbn; tauto]|].
    destruct Hin as [<- | Hin];
      [apply handlers_refuse; [exact Hnone | cbn; tauto]|].
    destruct Hin as [<- | Hin];
      [now apply runTrackedKeywords_refuses|].
    destruct Hin as [<- | Hin];
      [apply handlers_refuse; [exact Hnone | cbn; tauto]|].
    destruct Hin as [<- | Hin];
      [apply handlers_refuse; [exact Hnone | cbn; tauto]|].
    destruct Hin as [<- | Hin];
      [apply handlers_refuse; [exact Hnone | cbn; tauto]|].
    apply further_handlers_refuse; [exact Hnone | exact Hin]. }
  destruct H as [[e He] Hw]. now exists e.
Qed.

End NoToken.

(** X11 on [tracked-keywords add 123456 fitness] without a credential
    file. *)
Lemma X11_no_token_no_request_witness :
  exists e,
    fst (runTrackedKeywords (host := modelHost) MoreExamples.accepting
           (MoreExamples.signedOut ["add"; "123456"; "fitness"]))
    = Throw e
    /\ Spec.onlyArgsChanged
         (MoreExamples.signedOut ["add"; "123456"; "fitness"])
         (snd (runTrackedKeywords (host := modelHost)
                 MoreExamples.accepting
                 (MoreExamples.signedOut ["add"; "123456"; "fitness"]))).
Proof.
  apply (X11_no_token_no_request (host := modelHost)); [reflexivity|].
  do 4 right. left. reflexivity.
Defined.

Section LoginBrowser.
Context {host : JSHost}.
Import JsString CmdFacts.







End LoginBrowser.

